(* ===== verification/_CoqProject ===== *)
-Q . S2P
Prelude.v
Effects.v
Float.v
Types.v
Text.v
Config.v
FileIo.v
Settings.v
SettingsForm.v
SettingsHttp.v
SettingsService.v
MediaLauncher.v
Layout.v
Wire.v
DisplayFilter.v
Platform.v
FpsSampler.v
DceCounter.v
DceAdapter.v
Guards.v
Lifecycle.v
HookProtocol.v
Debugger.v
KernelCalls.v
ProcRw.v
ProcRecords.v
Preflight.v
ConsolePlatform.v
Remote.v
ElfBridge.v
ElfLoad.v
ElfReloc.v
Injection.v
Injector.v
RendererEntry.v
DiagnosticBuilds.v
StageRecord.v
GuardWrite.v
HookController.v
HookSafety.v
Trampoline.v
Mono.v
PuiSafety.v
PuiLooks.v
PuiDisplay.v
RendererHook.v
HookRequests.v
HookInstall.v
HookHandshake.v
Console.v
HookServed.v
HookSession.v
HookInstalled.v
HookAnswered.v
RenderLoop.v
Worker.v
OverlaySystem.v
SamplerLog.v
ControllerStart.v
