(* ===== verification/Prelude.v ===== *)
(** * Common FPS for PS5: a verification development

    Common FPS measures the frame rate of the running game on a PlayStation 5 and shows it
    in the system interface.  A controller process samples a counter, filters the rate and
    sends one datagram per state to a renderer that was injected into SceShellUI; the
    renderer draws with the managed PUI widgets of ShellUI, either from a hook of
    [Application.Update] or from its own thread.  The renderer never writes code: it asks
    the controller through a request file, and the controller stops ShellUI, checks the
    bytes, changes them, checks again, and answers with an acknowledgement file.

    ** Parts

    Paths are relative to the repository.  Each file names the definitions after the C++
    functions they translate.

    Foundations
    - [Prelude] (this file): machine integers as [Z] reduced modulo [2 ^ w], little-endian
      bytes, text, lists, tactics.
    - [Effects]: programs as trees of calls whose answers are left to the environment;
      [exec] gives every finite execution, a monitor is an automaton over the trace of
      calls and answers, [wp] the verification condition, [wp_sound] its soundness.
    - [Float], [Text]: binary32/binary64 through the Standard Library's [spec_float];
      [strtof], [%g], and the text functions the configuration uses, executable.

    Data shared by both processes
    - [Types]: [include/common_fps/constants.hpp], [types.hpp].
    - [Config]: [src/core/overlay_config.cpp], [config.cpp].
    - [Layout]: [src/core/layout.cpp].
    - [Wire]: [src/core/wire.cpp], the 44-byte datagram.

    Files and settings, in the controller
    - [FileIo]: the file calls, the atomic replacement of a file and the bounded session
      log ([include/common_fps/session_log.hpp]), with a monitor of the files.
    - [Settings]: [src/core/settings.cpp] - the form, the HTTP request, the store;
      [SettingsForm]: the form against its grammar; [SettingsHttp]: requests and
      transactions; [SettingsService]: [src/ps5/settings_service.cpp], the connections.
    - [MediaLauncher]: [src/ps5/media_launcher.cpp].

    The console, in the controller
    - [KernelCalls], [ProcRw]: the kernel calls and memory as they show it;
      [src/ps5/stable_sampler/proc_rw_v960.cpp], the page walk and the chunked read.
    - [ProcRecords]: the walks over the kernel's process records
      ([process_sysctl.cpp], [commonfps_ps5_main.cpp], [shellui_injector.cpp],
      [preflight_process_view.hpp]).
    - [ConsolePlatform]: [src/ps5/ps5_platform.cpp] and [videoout_module.cpp], the instance
      of [Platform] they make.
    - [Worker]: [src/ps5/commonfps_ps5_main.cpp] and [state_sender.cpp], the round of the
      main loop over a class of controller environments; [SamplerLog]: what the rounds
      append to the log and when they try discovery; [ControllerStart]: the start of the
      process up to the loop, and the text of its log lines.
    - [Preflight]: [src/ps5/fw1160_preflight_main.cpp], the diagnostic program.

    Starting the renderer, in the controller
    - [Remote]: the ptrace calls, [src/ps5/remote_call.cpp], and the monitor of the target.
    - [ElfBridge]: [src/ps5/stable_elfldr_bridge.c]; [ElfLoad], [ElfReloc]: its
      verification.
    - [Injection]: [src/ps5/stable_shellui_injector.cpp], one attempt; [Injector]:
      [src/ps5/shellui_injector.cpp], the rounds, as built for release; [DiagnosticBuilds]:
      its builds that exercise one step only; [RendererEntry]:
      [commonfps_shellui_entry.cpp], the other side of the marker; [StageRecord]: the note
      of how far the renderer got, on both sides.

    Measuring, in the controller
    - [Platform]: [include/common_fps/platform.hpp], a type class over an abstract world.
    - [FpsSampler]: [src/core/fps_sampler.cpp]; discovery of the VideoOut counter,
      attachment, measurement.
    - [DceCounter], [DceAdapter]: [src/core/dce_counter_sampler.cpp],
      [src/ps5/dce_fps_sampler.cpp].
    - [DisplayFilter]: [include/common_fps/fps_display_filter.hpp].
    - [Lifecycle]: [src/core/lifecycle.cpp], [app.cpp].
    - [Guards]: the autoload guard, the scene guard and the loader contract
      ([src/core/autoload_guard.cpp], [scene_guard.cpp],
      [integration/loader/v1_loader_contract.cpp]).

    Changing code, in the controller
    - [HookProtocol]: [include/common_fps/shellui_hook_protocol.hpp]; the packed request
      and acknowledgement, the checksum, the firmware gates, the three validators.
    - [Debugger]: the system calls; [include/common_fps/shellui_code_read.hpp],
      [src/ps5/shellui_mdbg_io.cpp].
    - [GuardWrite]: [src/ps5/shellui_guard_write.cpp].
    - [HookController], [HookSafety]: [src/ps5/shellui_hook_controller.cpp], one poll, and
      its verification against a monitor; [Console], [HookServed]: the documented
      behaviour of the system calls, and what a poll achieves on it.

    The renderer, [src/ps5/shellui_payload/commonfps_shellui.cpp]
    - [Trampoline]: the decoder of relocatable instructions and the trampoline.
    - [Mono]: the Mono calls, GC handles, PUI widgets, [apply_packet_on_render];
      [PuiSafety]: its handle discipline; [PuiLooks], [PuiDisplay]: what the widgets show.
    - [RendererHook]: requests, waits and installations, [initialize_runtime];
      [HookRequests], [HookInstall]: their verification; [HookHandshake]: the
      acknowledgement between the two processes.
    - [RenderLoop]: the receiver thread and the render pass as an interleaving step
      relation over the shared atomics.

    Both processes together
    - [OverlaySystem]: rounds of the controller, the datagrams in the renderer's socket,
      which may be lost or cut, the two threads of the renderer and its widgets, as one
      step relation.
    - [HookSession]: the installing renderer and the polling controller, their calls
      interleaved on one console and one set of files; the protocol as a ghost state
      machine; [HookInstalled]: the renderer's initialisation against it;
      [HookAnswered]: what the controller cannot fail to do.

    ** What the theorems show

    - Code changes ([HookSafety.poll_safe], [GuardWrite.guard_write_and_rollback],
      [HookProtocol.request_kinds], [Debugger.mdbg_transfer_window]): for every request
      file and every answer of the system a poll writes only inside the window of a valid
      request, after reading the expected bytes from the stopped process; it resumes
      ShellUI, gives the authority back and acknowledges truthfully.  Where the calls
      answer as documented ([HookServed.request_served]), a valid request on a supported
      firmware is served: the method holds the desired bytes, nothing else has changed,
      and the renderer accepts the answer; and whatever the interleaving of both processes,
      an installation that reports success is real ([HookInstalled.installation_is_real])
      and a controller that keeps polling serves every request that the renderer writes
      ([HookAnswered.request_answered]).
    - Both ends of the protocol agree ([HookInstall.renderer_publishes_safely],
      [HookHandshake.acknowledgement_agreement], [HookProtocol.request_roundtrip],
      [HookProtocol.request_corruption_detected], [Trampoline.native_relocation]): every
      published request is valid and is published only when the hook can call the
      displaced code, every acknowledgement is understood as it was meant, a damaged byte
      is detected.
    - Starting the renderer ([Worker.injection_gate], [Injector.renderer_started_once],
      [Injection.injection_restores], [ElfLoad.renderer_load_all_or_nothing],
      [ElfLoad.shared_renderer_checked], [ElfReloc.relocations_applied],
      [ElfReloc.renderer_load_in_bounds], [Injection.bootstrap_handshake],
      [RendererEntry.renderer_reports_online], [RendererEntry.marker_handshake],
      [StageRecord.stage_quoted], [DiagnosticBuilds.diagnostic_once]): only after the same ShellUI and game were seen long enough, at most once per ShellUI, never
      again after a renderer that did not report; one attempt is all or nothing and gives
      everything back; the image is checked and relocated by the ELF rules; the marker
      means that the renderer is ready, and a quoted stage is one it reached; a diagnostic
      build touches a process once.
    - The renderer ([PuiSafety.apply_packet_gc_safe], [PuiDisplay.packet_displayed],
      [RenderLoop.render_order], [RenderLoop.render_progress],
      [RenderLoop.stale_is_not_rendered]): handles are neither leaked nor freed twice,
      packets are rendered whole and in order, and after every success the widgets show
      the packet, although only what changed is set.
    - Settings ([SettingsForm.form_accepts], [SettingsHttp.settings_transaction],
      [SettingsHttp.request_head_roundtrip], [SettingsService.service_answers_request],
      [SettingsService.service_keeps_settings], [FileIo.session_log_bounded]): the form is
      its grammar, a request is one transaction, over any number of connections memory and
      file agree and the file is never torn.
    - The console ([ProcRw.proc_read_refines], [ProcRw.proc_read_terminates],
      [ProcRecords.process_lookup_exact], [ConsolePlatform.module_auth_window],
      [ConsolePlatform.ps5_read_memory_sound], [MediaLauncher.media_launcher_safe]): reads
      refine the page tables, lookups stay in their buffers, raised authority is given back.
    - The main loop ([Worker.frames_follow_renderer], [Worker.shown_rate_measured],
      [SamplerLog.standby_probes_spaced], [SamplerLog.first_rates_logged_once]): frames go
      to a started renderer only, rates are measured ones, discovery is not repeated
      within a minute, the log names each source once.
    - The start ([ControllerStart.controller_start], [ControllerStart.records_whole]):
      nothing runs with the installer's authority, a controller that could not give it
      back only sleeps, no log line is cut.
    - The whole overlay ([OverlaySystem.screen_shows_measured],
      [OverlaySystem.frame_reaches_screen], [OverlaySystem.rendered_in_order]): under every
      interleaving and loss, what is on the screen is "Loading" or a rate measured for the
      observed game; the screen never goes back in time; the next frame can always reach
      it.
    - The preflight program ([Preflight.preflight_evidence], [Preflight.report_exact]): its
      log announces and reports every operation, and its counts are exact.
    - Measuring ([FpsSampler], [DceCounter], [DceAdapter], [DisplayFilter]): published
      rates are rounded frame counts over valid windows, discovery accepts only counters
      that advance like a display, the filter shows only measured rates and raises them
      slowly.
    - Data ([Config], [Layout], [Wire]): round trips, usable configurations only, an
      overlay that stays on the canvas.
    - Control ([Guards], [Lifecycle]): the installation state machines against their
      contracts, the overlay loop.

    ** Conventions and bounds

    Integers are [Z] with the wrap-around written out where C++ has it ([u8] ... [u64],
    [i32]).  Memory, files, sockets, Mono and the system calls are the environment: the
    theorems quantify over all their answers.  Where a theorem needs documented behaviour
    of the environment, its monitor has a state ([Broken], [Off], [Dark]) that it enters on an
    answer the documentation excludes, or the executions considered are those that the
    monitor accepts ([Console.documented], which has an accepted answer to every call).
    Fuel: [transfer_loop] gets the size of the
    transfer and every round moves a byte; [skip_prefixes] the bytes available;
    [patch_loop] 14 rounds of at least one byte; [wait_loop] is the code's own 1000
    attempts; endless loops ([App::run], the receiver) are unfolded for any number of
    rounds or given as a step relation.  The write, send, receive
    and lock loops retry while the system interrupts them: their fuel is a parameter, they
    give [None] when it is used up, and [FileIo.atomic_write_terminates] bounds it by the
    data and the interruptions; [parse_headers] gets the length of the request, the record
    walks the length of their buffer, [find_proc] 1024 processes, [proc_read] one round per
    byte, [marker_loop] the code's 3500 waits, [runtime_attempts] its 60 attempts,
    [Preflight.parse_loop] the length of the list, [Preflight.observe] the code's 120 ticks.
    The main loop's and the preflight program's log lines are modelled, those of the other
    parts are not; where a loader could read
    outside of its image the result is [None], and [ElfReloc.renderer_load_in_bounds] says
    when it does not.

    ** Not modelled

    How PUI draws a widget is outside the repository: [PuiDisplay] stops at the properties
    that were set.  Tests, build scripts, documents, and the code of shsrv's ptrace and
    loader and of the diagnostic probes, which is not in the repository, are outside the
    development. *)
From Stdlib Require Export ZArith Lia Ascii.
From stdpp Require Export base tactics option list numbers gmap strings.
#[global] Open Scope Z_scope.

(** ** Machine integers

    A [w]-bit unsigned value is a [Z] reduced modulo [2 ^ w]; a signed value is
    the two's complement representative of the same residue. *)

Definition wrap (w z : Z) : Z := z `mod` 2 ^ w.
Definition swrap (w z : Z) : Z := wrap w (z + 2 ^ (w - 1)) - 2 ^ (w - 1).

Abbreviation u8 := (wrap 8).
Abbreviation u16 := (wrap 16).
Abbreviation u32 := (wrap 32).
Abbreviation u64 := (wrap 64).
Abbreviation i32 := (swrap 32).

Definition in_u (w z : Z) : Prop := 0 <= z < 2 ^ w.
Definition in_i (w z : Z) : Prop := - 2 ^ (w - 1) <= z < 2 ^ (w - 1).
Definition in_ub (w z : Z) : bool := (0 <=? z) && (z <? 2 ^ w).

(** Maximal values used by the C++ [numeric_limits] calls. *)
Definition UINT_MAX : Z := 2 ^ 32 - 1.

Create HintDb machine discriminated.
Create Rewrite HintDb bytes.

Lemma wrap_range w z : 0 <= w -> in_u w (wrap w z).
Proof. intros Hw. apply Z.mod_pos_bound, Z.pow_pos_nonneg; lia. Qed.

Lemma wrap_small w z : in_u w z -> wrap w z = z.
Proof. intros H. apply Z.mod_small, H. Qed.

Lemma wrap_wrap w z : wrap w (wrap w z) = wrap w z.
Proof. apply Zmod_mod. Qed.

Lemma pow2_half w : 1 <= w -> 2 ^ w = 2 * 2 ^ (w - 1).
Proof. intros Hw. rewrite <- Z.pow_succ_r by lia. f_equal. lia. Qed.

Lemma swrap_range w z : 1 <= w -> in_i w (swrap w z).
Proof.
  intros Hw. unfold swrap, in_i.
  destruct (wrap_range w (z + 2 ^ (w - 1))) as [H1 H2]; [lia|].
  rewrite (pow2_half w) in H2 by lia. lia.
Qed.

Lemma swrap_small w z : 1 <= w -> in_i w z -> swrap w z = z.
Proof.
  intros Hw [H1 H2]. unfold swrap. rewrite wrap_small; [lia|].
  unfold in_u. rewrite (pow2_half w) by lia. lia.
Qed.

Lemma in_ub_spec w z : in_ub w z = true <-> in_u w z.
Proof. unfold in_ub, in_u. rewrite andb_true_iff, Z.leb_le, Z.ltb_lt. done. Qed.

#[export] Hint Resolve wrap_range swrap_range : machine.

#[export] Instance in_u_dec w z : Decision (in_u w z).
Proof. unfold in_u. apply _. Defined.

Lemma lxor_in_u w a b : 0 < w -> in_u w a -> in_u w b -> in_u w (Z.lxor a b).
Proof.
  unfold in_u. intros Hw [H1 H2] [H3 H4]. split; [by apply Z.lxor_nonneg|].
  destruct (decide (Z.lxor a b = 0)) as [->|Hn]; [apply Z.pow_pos_nonneg; lia|].
  assert (0 <= Z.lxor a b) by (by apply Z.lxor_nonneg). apply Z.log2_lt_pow2; [lia|].
  eapply Z.le_lt_trans; [by apply Z.log2_lxor|].
  apply Z.max_lub_lt.
  - destruct (decide (a = 0)) as [->|]; [done|]. apply Z.log2_lt_pow2; lia.
  - destruct (decide (b = 0)) as [->|]; [done|]. apply Z.log2_lt_pow2; lia.
Qed.

(** ** Little-endian bytes

    A byte is a [Z] in [0, 256); [memcpy] between an integer object and a byte
    buffer is [le_encode]/[le_decode]. *)

Fixpoint le_encode (n : nat) (z : Z) : list Z :=
  match n with
  | O => []
  | S n' => z `mod` 256 :: le_encode n' (z `div` 256)
  end.

Fixpoint le_decode (l : list Z) : Z :=
  match l with
  | [] => 0
  | b :: l' => b + 256 * le_decode l'
  end.

Definition is_byte (b : Z) : Prop := in_u 8 b.
Abbreviation bytes_ok := (Forall is_byte).

(** The [n] bytes that start at offset [off]. *)
Definition slice (off n : nat) (l : list Z) : list Z := take n (drop off l).
Definition field (off n : nat) (l : list Z) : Z := le_decode (slice off n l).

Lemma pow256_succ n : 256 ^ Z.of_nat (S n) = 256 * 256 ^ Z.of_nat n.
Proof. rewrite Nat2Z.inj_succ, Z.pow_succ_r; lia. Qed.

Lemma length_le_encode n z : length (le_encode n z) = n.
Proof. revert z; induction n; intros z; simpl; [done|]. by rewrite IHn. Qed.

Lemma le_encode_bytes n z : bytes_ok (le_encode n z).
Proof.
  revert z; induction n; intros z; simpl; constructor; [|done].
  apply (Z.mod_pos_bound z 256); lia.
Qed.

Lemma le_decode_encode n z : 0 <= z < 256 ^ Z.of_nat n -> le_decode (le_encode n z) = z.
Proof.
  revert z; induction n as [|n IH]; intros z Hz; cbn [le_encode le_decode].
  - change (256 ^ Z.of_nat 0) with 1 in Hz. lia.
  - rewrite pow256_succ in Hz. rewrite IH.
    + pose proof (Z.div_mod z 256). lia.
    + split; [apply Z.div_pos; lia|]. apply Z.div_lt_upper_bound; lia.
Qed.

Lemma le_decode_range l : bytes_ok l -> 0 <= le_decode l < 256 ^ Z.of_nat (length l).
Proof.
  induction 1 as [|b l [Hb1 Hb2] Hl IH]; cbn [le_decode length]; [done|].
  rewrite pow256_succ. change (2 ^ 8) with 256 in Hb2. nia.
Qed.

Lemma le_encode_decode l : bytes_ok l -> le_encode (length l) (le_decode l) = l.
Proof.
  induction 1 as [|b l [Hb1 Hb2] Hl IH]; cbn [le_encode le_decode length]; [done|].
  change (2 ^ 8) with 256 in Hb2. f_equal.
  - rewrite (Z.mul_comm 256), Z_mod_plus_full. apply Z.mod_small; lia.
  - rewrite (Z.mul_comm 256), Z_div_plus_full, Z.div_small by lia. apply IH.
Qed.

Lemma le_decode_inj l1 l2 :
  bytes_ok l1 -> bytes_ok l2 -> length l1 = length l2 ->
  le_decode l1 = le_decode l2 -> l1 = l2.
Proof.
  intros H1 H2 Hlen Heq. rewrite <- (le_encode_decode l1), <- (le_encode_decode l2) by done.
  by rewrite Hlen, Heq.
Qed.

Lemma slice_app_here l1 l2 l3 n m :
  length l1 = n -> length l2 = m -> slice n m (l1 ++ l2 ++ l3) = l2.
Proof.
  intros <- <-. unfold slice. rewrite drop_app_length, take_app_length. done.
Qed.

Lemma slice_bytes off n l : bytes_ok l -> bytes_ok (slice off n l).
Proof. intros H. apply Forall_take, Forall_drop, H. Qed.

Lemma length_slice off n l :
  (off + n <= length l)%nat -> length (slice off n l) = n.
Proof. intros H. unfold slice. rewrite length_take, length_drop. lia. Qed.

(** Reading back one field of an encoded record. *)
Lemma field_at pre l post n m :
  length pre = n -> length l = m -> field n m (pre ++ l ++ post) = le_decode l.
Proof. intros. unfold field. by rewrite slice_app_here. Qed.

Lemma field_skip l post off m :
  (length l <= off)%nat -> field off m (l ++ post) = field (off - length l) m post.
Proof.
  intros H. unfold field, slice. rewrite drop_app_ge by done. done.
Qed.

Lemma slice_skip l post off m :
  (length l <= off)%nat -> slice off m (l ++ post) = slice (off - length l) m post.
Proof. intros H. unfold slice. by rewrite drop_app_ge. Qed.

Lemma field_head l post m : length l = m -> field 0 m (l ++ post) = le_decode l.
Proof. intros H. apply (field_at [] l post 0 m); done. Qed.

Lemma slice_head l post m : length l = m -> slice 0 m (l ++ post) = l.
Proof. intros H. apply (slice_app_here [] l post 0 m); done. Qed.

Lemma field_head_enc n z post :
  0 <= z < 256 ^ Z.of_nat n -> field 0 n (le_encode n z ++ post) = z.
Proof. intros H. rewrite field_head by apply length_le_encode. by apply le_decode_encode. Qed.

Lemma field_last_enc n z : 0 <= z < 256 ^ Z.of_nat n -> field 0 n (le_encode n z) = z.
Proof. intros H. rewrite <- (app_nil_r (le_encode n z)). by apply field_head_enc. Qed.

Lemma swrap_wrap_id z : in_i 32 z -> swrap 32 (wrap 32 z) = z.
Proof.
  intros H. unfold swrap. rewrite <- (swrap_small 32 z) at 2 by (done || lia). unfold swrap.
  f_equal. unfold wrap. by rewrite Zplus_mod_idemp_l.
Qed.

Lemma field_range off n l : bytes_ok l -> 0 <= field off n l < 256 ^ Z.of_nat n.
Proof.
  intros H. pose proof (le_decode_range (slice off n l) (slice_bytes off n l H)) as Hr.
  split; [apply Hr|]. eapply Z.lt_le_trans; [apply Hr|]. apply Z.pow_le_mono_r; [lia|].
  unfold slice. rewrite length_take. lia.
Qed.

Lemma le_encode_field off n l :
  bytes_ok l -> (off + n <= length l)%nat -> le_encode n (field off n l) = slice off n l.
Proof.
  intros Hb Hl. rewrite <- (length_slice off n l Hl) at 1. by apply le_encode_decode, slice_bytes.
Qed.

Lemma slice_join off n m l : slice off n l ++ slice (off + n) m l = slice off (n + m) l.
Proof.
  unfold slice. rewrite <- drop_drop. generalize (drop off l). intros k.
  rewrite <- (take_drop n k) at 3. rewrite take_app, length_take.
  destruct (decide (n <= length k)%nat) as [H|H].
  - rewrite take_take. replace ((n + m) `min` n)%nat with n by lia. do 2 f_equal. lia.
  - rewrite take_take. replace ((n + m) `min` n)%nat with n by lia.
    rewrite (drop_ge k n) by lia. by rewrite !take_nil.
Qed.

Lemma slice_all l n : length l = n -> slice 0 n l = l.
Proof. intros <-. unfold slice. rewrite drop_0. by apply take_ge. Qed.

#[export] Hint Resolve le_encode_bytes slice_bytes : machine.
#[export] Hint Rewrite length_le_encode : bytes.

(** ** Bytes and text

    [std::string] is a list of characters. *)

Abbreviation text := (list ascii).
Definition str (s : string) : text := String.list_ascii_of_string s.
Definition code (c : ascii) : Z := Z.of_N (N_of_ascii c).
Definition chr (z : Z) : ascii := ascii_of_N (Z.to_N z).

Lemma code_range c : 0 <= code c < 256.
Proof. unfold code. pose proof (N_ascii_bounded c). lia. Qed.

Lemma chr_code c : chr (code c) = c.
Proof. unfold chr, code. rewrite N2Z.id. apply ascii_N_embedding. Qed.

Lemma code_chr z : 0 <= z < 256 -> code (chr z) = z.
Proof. intros Hz. unfold code, chr. rewrite N_ascii_embedding; lia. Qed.

Lemma code_inj c d : code c = code d -> c = d.
Proof. intros H. by rewrite <- (chr_code c), <- (chr_code d), H. Qed.

(** ** Lists *)

Lemma elem_of_snoc_l {A} (x y : A) l : x ∈ l -> x ∈ l ++ [y].
Proof. intros H. apply elem_of_app. by left. Qed.

Lemma elem_of_snoc_r {A} (y : A) l : y ∈ l ++ [y].
Proof. apply elem_of_app. right. by apply list_elem_of_singleton. Qed.

Lemma fold_left_inv {A B} (P : A -> Prop) (f : A -> B -> A) l a :
  (forall a x, x ∈ l -> P a -> P (f a x)) -> P a -> P (fold_left f l a).
Proof.
  revert a; induction l as [|x l IH]; intros a Hf Ha; simpl; [done|].
  apply IH; [|by apply Hf; [left|]]. intros a' y Hy. apply Hf. by right.
Qed.

#[export] Hint Resolve elem_of_snoc_l elem_of_snoc_r : machine.

(** ** Tactics *)

(** Turn boolean comparisons in hypotheses and goal into propositions. *)
Ltac breflect :=
  rewrite ?andb_true_iff, ?orb_true_iff, ?andb_false_iff, ?orb_false_iff, ?negb_true_iff,
    ?negb_false_iff, ?Z.ltb_lt, ?Z.leb_le, ?Z.eqb_eq, ?Z.ltb_ge, ?Z.leb_gt, ?Z.eqb_neq in *.

(** Case split on every [if]/[match] of the goal, keeping equations. *)
Ltac split_ifs :=
  repeat match goal with
  | |- context [if ?b then _ else _] => destruct b eqn:?
  | |- context [match ?b with Some _ => _ | None => _ end] => destruct b eqn:?
  end.

(** The same in a hypothesis. *)
Ltac split_ifs_in H :=
  repeat match type of H with
  | context [if ?b then _ else _] => destruct b eqn:?
  | context [match ?b with Some _ => _ | None => _ end] => destruct b eqn:?
  end.

(** Skip the fields of an encoded record that precede the one read. *)
Ltac next_field :=
  repeat rewrite field_skip by (rewrite ?length_le_encode; simpl; lia);
  rewrite ?length_le_encode; cbn [length Nat.sub].

(** Evaluate a closed decidable goal. *)
Ltac by_compute := vm_compute; first [reflexivity | tauto | intuition congruence].

(** ** Finite enumeration of integer ranges *)

(** [forallbZ lo n f]: [f] holds on [lo, lo + n). *)
Fixpoint forallbZ (lo : Z) (n : nat) (f : Z -> bool) : bool :=
  match n with
  | O => true
  | S n' => if f lo then forallbZ (lo + 1) n' f else false
  end.

Lemma forallbZ_spec lo n f :
  forallbZ lo n f = true -> forall z, lo <= z < lo + Z.of_nat n -> f z = true.
Proof.
  revert lo; induction n as [|n IH]; intros lo H z Hz; [lia|].
  cbn [forallbZ] in H. destruct (f lo) eqn:Hf; [|done].
  destruct (decide (z = lo)) as [->|Hne]; [done|]. apply (IH (lo + 1)); [done|lia].
Qed.
