(* ===== verification/Effects.v ===== *)
(** Programs with effects: trees of system calls whose answers are left to the
    environment.  [exec] gives every finite execution with its trace of calls and
    answers; a monitor is an automaton that reads the trace, and [wp] is the
    verification condition of a program against a monitor; [rely] is the condition of a
    program whose environment answers as an automaton says. *)
From S2P Require Import Prelude.

Section Effects.
Context {E : Type} {R : E -> Type}.

Inductive prog (A : Type) : Type :=
| Ret (a : A)
| Call (c : E) (k : R c -> prog A).
Arguments Ret {A} a.
Arguments Call {A} c k.

(** One performed call with its answer. *)
Inductive event : Type := Ev (c : E) (r : R c).

Fixpoint bindp {A B} (p : prog A) (f : A -> prog B) : prog B :=
  match p with
  | Ret a => f a
  | Call c k => Call c (fun r => bindp (k r) f)
  end.

Definition call (c : E) : prog (R c) := Call c Ret.

(** Every finite execution, for any answers of the environment: [exec p t a]
    says that [p] can perform the calls of [t], get the answers of [t], and
    return [a]. *)
Fixpoint exec {A} (p : prog A) (t : list event) (a : A) : Prop :=
  match p with
  | Ret x => t = [] /\ a = x
  | Call c k => exists r t', t = Ev c r :: t' /\ exec (k r) t' a
  end.

(** Execution against a concrete environment. *)
Fixpoint run {A S} (h : S -> forall c, R c * S) (p : prog A) (s : S) : A * S * list event :=
  match p with
  | Ret a => (a, s, [])
  | Call c k =>
      let '(r, s') := h s c in
      let '(a, s'', t) := run h (k r) s' in (a, s'', Ev c r :: t)
  end.

Lemma run_exec {A S} (h : S -> forall c, R c * S) (p : prog A) s :
  exec p (run h p s).2 (run h p s).1.1.
Proof.
  revert s; induction p as [a|c k IH]; intros s; simpl; [done|].
  destruct (h s c) as [r s']. specialize (IH r s').
  destruct (run h (k r) s') as [[a s''] t]. by exists r, t.
Qed.

Lemma exec_bind {A B} (p : prog A) (f : A -> prog B) t b :
  exec (bindp p f) t b <-> exists t1 t2 a, t = t1 ++ t2 /\ exec p t1 a /\ exec (f a) t2 b.
Proof.
  revert t; induction p as [a|c k IH]; intros t; simpl.
  - split.
    + intros H. by exists [], t, a.
    + intros (t1 & t2 & a' & -> & [-> ->] & H). done.
  - split.
    + intros (r & t' & -> & H). apply IH in H as (t1 & t2 & a & -> & H1 & H2).
      exists (Ev c r :: t1), t2, a. repeat split; [|done]. by exists r, t1.
    + intros (t1 & t2 & a & -> & (r & t' & -> & H1) & H2).
      exists r, (t' ++ t2). split; [done|]. apply IH. by exists t', t2, a.
Qed.

(** *** What a program can return *)

(** Every result of [p], whatever the environment answers, satisfies [P]. *)
Definition returns {A} (p : prog A) (P : A -> Prop) : Prop := forall t a, exec p t a -> P a.

Lemma returns_ret {A} (a : A) (P : A -> Prop) : P a -> returns (Ret a) P.
Proof. by intros H t b [_ ->]. Qed.

Lemma returns_call {A} c (k : R c -> prog A) (P : A -> Prop) :
  (forall r, returns (k r) P) -> returns (Call c k) P.
Proof. intros H t a (r & t' & -> & He). by apply (H r t'). Qed.

Lemma returns_bind {A B} (p : prog A) (f : A -> prog B) (P : A -> Prop) (Q : B -> Prop) :
  returns p P -> (forall a, P a -> returns (f a) Q) -> returns (bindp p f) Q.
Proof.
  intros Hp Hf t b (t1 & t2 & a & -> & H1 & H2)%exec_bind. by apply (Hf a (Hp _ _ H1) t2).
Qed.

Lemma returns_any {A} (p : prog A) : returns p (fun _ => True).
Proof. by intros t a _. Qed.

(** Every call of the program satisfies [P]. *)
Fixpoint calls (P : E -> Prop) {A} (p : prog A) : Prop :=
  match p with
  | Ret _ => True
  | Call c k => P c /\ forall r, calls P (k r)
  end.

Lemma calls_bind {A B} (P : E -> Prop) (p : prog A) (f : A -> prog B) :
  calls P p -> (forall a, calls P (f a)) -> calls P (bindp p f).
Proof.
  intros Hp Hf. induction p as [a|c k IH]; simpl; [apply Hf|].
  destruct Hp as [H1 H2]. split; [done|]. intros r. by apply IH.
Qed.

(** *** Monitors *)
Section Monitor.
Context {M : Type} (step : M -> event -> option M).

Fixpoint monitor (m : M) (t : list event) : option M :=
  match t with
  | [] => Some m
  | e :: t' => match step m e with Some m' => monitor m' t' | None => None end
  end.

(** Verification condition: whatever the environment answers, the monitor never
    rejects and [Q] holds of the result and the final monitor state. *)
Fixpoint wp {A} (p : prog A) (m : M) (Q : A -> M -> Prop) : Prop :=
  match p with
  | Ret a => Q a m
  | Call c k =>
      forall r, match step m (Ev c r) with Some m' => wp (k r) m' Q | None => False end
  end.

Lemma monitor_app m t1 t2 :
  monitor m (t1 ++ t2) = match monitor m t1 with Some m' => monitor m' t2 | None => None end.
Proof. revert m; induction t1; intros m; simpl; [done|]. destruct (step m a); auto. Qed.

Lemma wp_mono {A} (p : prog A) m (Q Q' : A -> M -> Prop) :
  (forall a m', Q a m' -> Q' a m') -> wp p m Q -> wp p m Q'.
Proof.
  intros HQ. revert m; induction p as [a|c k IH]; intros m; simpl; [apply HQ|].
  intros H r. specialize (H r). destruct (step m (Ev c r)); [|done]. by apply IH.
Qed.

Lemma wp_bind {A B} (p : prog A) (f : A -> prog B) m Q :
  wp (bindp p f) m Q <-> wp p m (fun a m' => wp (f a) m' Q).
Proof.
  revert m; induction p as [a|c k IH]; intros m; simpl; [done|].
  split; intros H r; specialize (H r); destruct (step m (Ev c r)); try done; by apply IH.
Qed.

(** A monitor state that never rejects and is never left: nothing is claimed from there. *)
Lemma wp_absorbing {A} (off : M) (p : prog A) (Q : A -> M -> Prop) :
  (forall e, step off e = Some off) -> (forall a, Q a off) -> wp p off Q.
Proof. intros Hs H. induction p as [a|c k IH]; simpl; [done|]. intros r. by rewrite Hs. Qed.

(** A program whose calls leave the monitor state [m] as it is. *)
Lemma wp_neutral {A} (P : E -> Prop) (p : prog A) m (Q : A -> Prop) :
  (forall c r, P c -> step m (Ev c r) = Some m) -> calls P p -> returns p Q ->
  wp p m (fun a m' => m' = m /\ Q a).
Proof.
  intros HP. induction p as [a|c k IH]; intros Hc Hr; simpl.
  - split; [done|]. by apply (Hr [] a).
  - intros r. destruct Hc as [Hc Hk]. rewrite HP by done. apply IH; [apply Hk|].
    intros t a He. apply (Hr (Ev c r :: t)). by exists r, t.
Qed.

Theorem wp_sound {A} (p : prog A) m Q :
  wp p m Q -> forall t a, exec p t a -> exists m', monitor m t = Some m' /\ Q a m'.
Proof.
  intros H t a. revert t m H. induction p as [x|c k IH]; intros t m H He; simpl in *.
  - destruct He as [-> ->]. by exists m.
  - destruct He as (r & t' & -> & He). specialize (H r). simpl.
    destruct (step m (Ev c r)); [|done]. by apply (IH r).
Qed.

(** The dual condition, of a program that relies on its environment: as long as the
    automaton accepts every answer, [Q] holds of the result and the final state. *)
Fixpoint rely {A} (p : prog A) (m : M) (Q : A -> M -> Prop) : Prop :=
  match p with
  | Ret a => Q a m
  | Call c k => forall r m', step m (Ev c r) = Some m' -> rely (k r) m' Q
  end.

Lemma rely_mono {A} (p : prog A) m (Q Q' : A -> M -> Prop) :
  (forall a m', Q a m' -> Q' a m') -> rely p m Q -> rely p m Q'.
Proof.
  intros HQ. revert m; induction p as [a|c k IH]; intros m; simpl; [apply HQ|].
  intros H r m' Hs. by apply IH, H.
Qed.

Lemma rely_bind {A B} (p : prog A) (f : A -> prog B) m Q :
  rely (bindp p f) m Q <-> rely p m (fun a m' => rely (f a) m' Q).
Proof.
  revert m; induction p as [a|c k IH]; intros m; simpl; [done|].
  split; intros H r m' Hs; by apply IH, H.
Qed.

Lemma rely_sound {A} (p : prog A) m Q :
  rely p m Q -> forall t a m', exec p t a -> monitor m t = Some m' -> Q a m'.
Proof.
  intros H t a m'. revert t m H. induction p as [x|c k IH]; intros t m H He Hm; simpl in *.
  - destruct He as [-> ->]. by simplify_eq/=.
  - destruct He as (r & t' & -> & He). simpl in Hm.
    destruct (step m (Ev c r)) as [m1|] eqn:Hs; [|done]. by apply (IH r t' m1); [apply H|..].
Qed.

(** When every call has an answer that the automaton accepts, every program has an
    execution that it accepts. *)
Lemma rely_progress {A} (p : prog A) m :
  (forall m c, exists r m', step m (Ev c r) = Some m') ->
  exists t a m', exec p t a /\ monitor m t = Some m'.
Proof.
  intros Hstep. revert m; induction p as [a|c k IH]; intros m.
  - by exists [], a, m.
  - destruct (Hstep m c) as (r & m1 & H1). destruct (IH r m1) as (t & a & m' & He & Hm).
    exists (Ev c r :: t), a, m'. simpl. rewrite H1. split; [by exists r, t|done].
Qed.
End Monitor.
End Effects.

Arguments prog {E} R A.
Arguments event {E} R.
Arguments Ret {E R A} a.
Arguments Call {E R A} c k.
Arguments Ev {E R} c r.

Declare Scope prog_scope.
Delimit Scope prog_scope with prog.
Notation "'let*' x ':=' p 'in' q" := (bindp p (fun x => q))
  (at level 10, x pattern, p at level 100, q at level 200) : prog_scope.
Notation "p ';;;' q" := (bindp p (fun _ => q)) (at level 100, right associativity) : prog_scope.
