(* ===== verification/Float.v ===== *)
(** binary32 and binary64 arithmetic: the C++ [float] and [double] operations the
    program uses, over the executable IEEE-754 specification [SpecFloat]
    (round to nearest, ties to even; NaN payloads are not represented). *)
From S2P Require Import Prelude.
From Stdlib Require Export SpecFloat.

Abbreviation f32 := spec_float.
Abbreviation f64 := spec_float.

Definition f32_valid : f32 -> bool := valid_binary 24 128.
Definition f32_of_Z (z : Z) : f32 := binary_normalize 24 128 z 0 false.
Definition f32_add := SFadd 24 128.
Definition f32_sub := SFsub 24 128.
Definition f32_mul := SFmul 24 128.
Definition f32_div := SFdiv 24 128.

Definition f64_of_Z (z : Z) : f64 := binary_normalize 53 1024 z 0 false.
Definition f64_add := SFadd 53 1024.
Definition f64_mul := SFmul 53 1024.
Definition f64_div := SFdiv 53 1024.

(** A decimal literal [n / 10^k], correctly rounded. *)
Definition f32_dec (n k : Z) : f32 := SFdiv 24 128 (f32_of_Z n) (f32_of_Z (10 ^ k)).

(** [float] to [double] is exact; the mantissa is re-normalised. *)
Definition f64_of_f32 (x : f32) : f64 :=
  match x with
  | S754_finite s m e => binary_round 53 1024 s m e
  | _ => x
  end.

Definition is_finite (x : spec_float) : bool :=
  match x with S754_zero _ | S754_finite _ _ _ => true | _ => false end.

Definition f_lt := SFltb.
Definition f_le := SFleb.
Definition f_eq := SFeqb.

(** [std::min], [std::max], [std::clamp] with the comparisons they perform. *)
Definition f_min (a b : spec_float) : spec_float := if f_lt b a then b else a.
Definition f_max (a b : spec_float) : spec_float := if f_lt a b then b else a.
Definition f_clamp (v lo hi : spec_float) : spec_float :=
  if f_lt v lo then lo else if f_lt hi v then hi else v.

(** [static_cast<int>] of a finite value in range: truncation toward zero.
    [None] is the undefined conversion (NaN, infinity). *)
Definition f_trunc (x : spec_float) : option Z :=
  match x with
  | S754_zero _ => Some 0
  | S754_finite s m e =>
      let q := match e with
               | Zneg p => Zpos m `div` 2 ^ Zpos p
               | _ => Zpos m * 2 ^ e
               end in
      Some (if s then - q else q)
  | _ => None
  end.

(** [std::lround]: nearest integer, halves away from zero. *)
Definition f_lround (x : spec_float) : option Z :=
  match x with
  | S754_zero _ => Some 0
  | S754_finite s m e =>
      let q := match e with
               | Zneg p => (2 * Zpos m + 2 ^ Zpos p) `div` (2 * 2 ^ Zpos p)
               | _ => Zpos m * 2 ^ e
               end in
      Some (if s then - q else q)
  | _ => None
  end.

#[export] Instance spec_float_eq_dec : EqDecision spec_float.
Proof. solve_decision. Defined.

(** *** Order facts *)

Lemma f_lt_irrefl x : f_lt x x = false.
Proof.
  unfold f_lt, SFltb. destruct x as [[]|[]| |[] m e]; try done; simpl;
    rewrite Z.compare_refl; change (Pos.compare_cont Eq m m) with (m ?= m)%positive;
    by rewrite Pos.compare_refl.
Qed.

Lemma is_finite_le_total x y :
  is_finite x = true -> is_finite y = true -> f_lt x y = false -> f_le y x = true.
Proof.
  unfold f_lt, f_le, SFltb, SFleb.
  destruct x as [s1|s1| |s1 m1 e1], y as [s2|s2| |s2 m2 e2]; try done; simpl;
    try (destruct s1; done); try (destruct s2; done).
  intros _ _. destruct s1, s2; try done; rewrite (Z.compare_antisym e1 e2);
    destruct (e1 ?= e2) eqn:He; simpl; try done;
    change (Pos.compare_cont Eq m1 m2) with (m1 ?= m2)%positive;
    change (Pos.compare_cont Eq m2 m1) with (m2 ?= m1)%positive;
    rewrite (Pos.compare_antisym m1 m2); destruct (m1 ?= m2)%positive; done.
Qed.

Lemma f_lt_nan_l x : f_lt S754_nan x = false.
Proof. done. Qed.

Lemma f_le_not_lt x y : f_le x y = true -> f_lt y x = false.
Proof.
  unfold f_le, f_lt, SFleb, SFltb.
  destruct x as [s1|s1| |s1 m1 e1], y as [s2|s2| |s2 m2 e2]; simpl; try done;
    try (destruct s1; done); try (destruct s2; done); try (destruct s1, s2; done).
  destruct s1, s2; try done; rewrite (Z.compare_antisym e1 e2);
    destruct (e1 ?= e2) eqn:He; simpl; try done;
    change (Pos.compare_cont Eq m1 m2) with (m1 ?= m2)%positive;
    change (Pos.compare_cont Eq m2 m1) with (m2 ?= m1)%positive;
    rewrite (Pos.compare_antisym m1 m2); destruct (m1 ?= m2)%positive; done.
Qed.

(** A clamped finite value lies between the bounds. *)
Lemma f_clamp_range v lo hi :
  is_finite v = true -> is_finite lo = true -> is_finite hi = true -> f_le lo hi = true ->
  is_finite (f_clamp v lo hi) = true /\
  f_le lo (f_clamp v lo hi) = true /\ f_le (f_clamp v lo hi) hi = true.
Proof.
  intros Hv Hlo Hhi Hle. unfold f_clamp.
  destruct (f_lt v lo) eqn:H1; [|destruct (f_lt hi v) eqn:H2].
  - repeat split; try done. apply is_finite_le_total; auto using f_lt_irrefl.
  - repeat split; try done. apply is_finite_le_total; auto using f_lt_irrefl.
  - repeat split; [done| |]; apply is_finite_le_total; done.
Qed.

Lemma f_clamp_idem v lo hi :
  f_lt hi lo = false -> f_clamp (f_clamp v lo hi) lo hi = f_clamp v lo hi.
Proof.
  intros H. unfold f_clamp.
  destruct (f_lt v lo) eqn:H1; [by rewrite f_lt_irrefl, H|].
  destruct (f_lt hi v) eqn:H2; [by rewrite H, f_lt_irrefl|]. by rewrite H1, H2.
Qed.

Lemma f_max_nonneg lo x : is_finite lo = true -> is_finite x = true -> f_le lo (f_max lo x) = true.
Proof.
  intros Hlo Hx. unfold f_max. destruct (f_lt lo x) eqn:H.
  - unfold f_lt, f_le, SFltb, SFleb in *. by destruct (SFcompare lo x) as [[]|].
  - apply is_finite_le_total; auto using f_lt_irrefl.
Qed.

(** *** The binary32 object representation *)

Definition sign_bit (s : bool) : Z := if s then 2 ^ 31 else 0.

Definition f32_to_bits (x : f32) : Z :=
  match x with
  | S754_zero s => sign_bit s
  | S754_infinity s => sign_bit s + 255 * 2 ^ 23
  | S754_nan => 0x7fc00000
  | S754_finite s m e =>
      if Zpos (digits2_pos m) =? 24 then sign_bit s + (e + 150) * 2 ^ 23 + (Zpos m - 2 ^ 23)
      else sign_bit s + Zpos m
  end.

Definition f32_of_bits (b : Z) : f32 :=
  let s := 2 ^ 31 <=? b in
  let r := if s then b - 2 ^ 31 else b in
  let ex := r `div` 2 ^ 23 in
  let fr := r `mod` 2 ^ 23 in
  if ex =? 255 then (if fr =? 0 then S754_infinity s else S754_nan)
  else if ex =? 0 then
    match fr with Zpos m => S754_finite s m (-149) | _ => S754_zero s end
  else match fr + 2 ^ 23 with Zpos m => S754_finite s m (ex - 150) | _ => S754_nan end.

Lemma digits2_bounds m :
  2 ^ (Zpos (digits2_pos m) - 1) <= Zpos m < 2 ^ Zpos (digits2_pos m).
Proof.
  assert (Hs : forall p, 2 ^ Zpos (Pos.succ p) = 2 * 2 ^ Zpos p).
  { intros p. rewrite Pos2Z.inj_succ, Z.pow_succ_r; lia. }
  assert (Hh : forall p, 2 ^ (Zpos (Pos.succ p) - 1) = 2 * 2 ^ (Zpos p - 1)).
  { intros p. rewrite <- Z.pow_succ_r by lia. f_equal. lia. }
  induction m as [m IH|m IH|]; cbn [digits2_pos]; [rewrite Hs, Hh; lia..|done].
Qed.

(** A valid finite value is normal (24-bit mantissa) or subnormal. *)
Lemma f32_valid_finite s m e :
  f32_valid (S754_finite s m e) = true ->
  (Zpos (digits2_pos m) = 24 /\ 2 ^ 23 <= Zpos m < 2 ^ 24 /\ -149 <= e <= 104) \/
  (Zpos (digits2_pos m) <> 24 /\ Zpos m < 2 ^ 23 /\ e = -149).
Proof.
  unfold f32_valid, valid_binary, bounded, canonical_mantissa, fexp, emin. intros H.
  apply andb_true_iff in H as [H1 H2]. apply Z.eqb_eq in H1. apply Z.leb_le in H2.
  pose proof (digits2_bounds m) as Hb. destruct (decide (Zpos (digits2_pos m) = 24)) as [E|E].
  - left. rewrite E in Hb. split; [done|]. split; [exact Hb|lia].
  - right. split; [done|]. split; [|lia].
    apply Z.lt_le_trans with (2 ^ Zpos (digits2_pos m)); [lia|]. apply Z.pow_le_mono_r; lia.
Qed.

Lemma f32_to_bits_range x : f32_valid x = true -> in_u 32 (f32_to_bits x).
Proof.
  unfold in_u. destruct x as [s|s| |s m e]; [destruct s; done|destruct s; done|done|].
  intros H. apply f32_valid_finite in H. cbn [f32_to_bits].
  destruct H as [(-> & ? & ?)|(E & ? & ->)].
  - change (24 =? 24) with true. cbn iota. destruct s; cbn [sign_bit]; lia.
  - apply Z.eqb_neq in E as ->. destruct s; cbn [sign_bit]; lia.
Qed.

Lemma f32_of_to_bits x : f32_valid x = true -> f32_of_bits (f32_to_bits x) = x.
Proof.
  destruct x as [s|s| |s m e]; [by destruct s|by destruct s|done|].
  intros H. apply f32_valid_finite in H. cbn [f32_to_bits].
  destruct H as [(-> & Hm & He)|(E & Hm & ->)].
  - change (24 =? 24) with true. cbn iota. unfold f32_of_bits.
    assert (Hs : (2 ^ 31 <=? sign_bit s + (e + 150) * 2 ^ 23 + (Zpos m - 2 ^ 23)) = s).
    { destruct s; cbn [sign_bit]; [apply Z.leb_le|apply Z.leb_gt]; lia. }
    rewrite Hs. set (r := if s then _ else _).
    assert (Hr : r = Zpos m - 2 ^ 23 + (e + 150) * 2 ^ 23) by (destruct s; cbn [sign_bit] in r; lia).
    clearbody r. subst r. rewrite Z_div_plus_full, Z_mod_plus_full, Z.div_small, Z.mod_small by lia.
    replace (0 + (e + 150) =? 255) with false by (symmetry; apply Z.eqb_neq; lia).
    replace (0 + (e + 150) =? 0) with false by (symmetry; apply Z.eqb_neq; lia).
    replace (Zpos m - 2 ^ 23 + 2 ^ 23) with (Zpos m) by lia. f_equal. lia.
  - apply Z.eqb_neq in E as ->. unfold f32_of_bits.
    assert (Hs : (2 ^ 31 <=? sign_bit s + Zpos m) = s).
    { destruct s; cbn [sign_bit]; [apply Z.leb_le|apply Z.leb_gt]; lia. }
    rewrite Hs. set (r := if s then _ else _).
    assert (Hr : r = Zpos m) by (destruct s; cbn [sign_bit] in r; lia).
    clearbody r. subst r. by rewrite Z.div_small, Z.mod_small by lia.
Qed.
