(* ===== verification/Types.v ===== *)
(** Shared data of [include/common_fps/constants.hpp] and [types.hpp]. *)
From S2P Require Import Prelude Float.

(** ** constants.hpp *)

Definition kVideoOutProbeTableOffset : Z := 0x34980.
Definition kVideoOutProbeEntryCount : nat := 7.
Definition kVideoOutProbeEntrySize : nat := 0x18.
Definition kVideoOutCounterOffset : Z := 0x768.

Definition kLogicalWidth : f32 := f32_of_Z 1920.
Definition kLogicalHeight : f32 := f32_of_Z 1080.

Definition kDefaultFontSize : Z := 22.
Definition kDefaultMarginX : f32 := f32_of_Z 10.
Definition kDefaultMarginY : f32 := f32_of_Z 4.
Definition kMinFontSize : Z := 14.
Definition kMaxFontSize : Z := 64.

Definition kMaxDisplayFps : Z := 120.
Definition kMaxTenthsFps : Z := 1300.
Definition kMinFpsWindowUs : Z := 200000.
Definition kMaxFpsWindowUs : Z := 3000000.
Definition kWarmupDeltasToDiscard : Z := 1.

(** ** types.hpp *)

(** [enum class Corner]: the underlying type is [int], so an object of the type
    can also hold a value that no enumerator names ([CornerValue]). *)
Inductive Corner : Type :=
| TopLeft
| TopRight
| BottomLeft
| BottomRight
| CornerValue (n : Z).

#[export] Instance Corner_eq_dec : EqDecision Corner.
Proof. solve_decision. Defined.

Record Vec2 := { vx : f32; vy : f32 }.

Record OverlayConfig := {
  corner : Corner;
  font_size : Z;
  margin_x : f32;
  margin_y : f32;
  show_label : bool;
  label_color : Z;
  value_color : Z
}.

(** The default member initialisers. *)
Definition OverlayConfig_init : OverlayConfig := {|
  corner := BottomLeft;
  font_size := kDefaultFontSize;
  margin_x := kDefaultMarginX;
  margin_y := kDefaultMarginY;
  show_label := true;
  label_color := 0xB366FF;
  value_color := 0xFFFFFF
|}.

Definition set_corner v c := {| corner := v; font_size := font_size c; margin_x := margin_x c;
  margin_y := margin_y c; show_label := show_label c; label_color := label_color c;
  value_color := value_color c |}.
Definition set_font_size v c := {| corner := corner c; font_size := v; margin_x := margin_x c;
  margin_y := margin_y c; show_label := show_label c; label_color := label_color c;
  value_color := value_color c |}.
Definition set_margin_x v c := {| corner := corner c; font_size := font_size c; margin_x := v;
  margin_y := margin_y c; show_label := show_label c; label_color := label_color c;
  value_color := value_color c |}.
Definition set_margin_y v c := {| corner := corner c; font_size := font_size c;
  margin_x := margin_x c; margin_y := v; show_label := show_label c;
  label_color := label_color c; value_color := value_color c |}.
Definition set_show_label v c := {| corner := corner c; font_size := font_size c;
  margin_x := margin_x c; margin_y := margin_y c; show_label := v;
  label_color := label_color c; value_color := value_color c |}.
Definition set_label_color v c := {| corner := corner c; font_size := font_size c;
  margin_x := margin_x c; margin_y := margin_y c; show_label := show_label c;
  label_color := v; value_color := value_color c |}.
Definition set_value_color v c := {| corner := corner c; font_size := font_size c;
  margin_x := margin_x c; margin_y := margin_y c; show_label := show_label c;
  label_color := label_color c; value_color := v |}.

Record OverlayFrame := {
  visible : bool;
  loading : bool;
  fps : Z;
  config : OverlayConfig;
  anchor : Vec2
}.

Definition OverlayFrame_init : OverlayFrame := {|
  visible := false;
  loading := true;
  fps := 0;
  config := OverlayConfig_init;
  anchor := {| vx := S754_zero false; vy := S754_zero false |}
|}.
