(* ===== verification/Text.v ===== *)
(** The C and C++ library text routines the program uses ("C" locale): character
    classes, searching, [strtof], [strtoul] base 16, [%g] printing of a [float],
    decimal and hexadecimal integers. *)
From S2P Require Import Prelude Float.

Definition isspace (c : ascii) : bool :=
  let z := code c in ((9 <=? z) && (z <=? 13)) || (z =? 32).
Definition isdigit (c : ascii) : bool := (48 <=? code c) && (code c <=? 57).

Definition ceq (c d : ascii) : bool := Ascii.eqb c d.
Definition teq (s t : text) : bool := bool_decide (s = t).

(** Value of a hexadecimal digit, [-1] when the character is none. *)
Definition hexval (c : ascii) : Z :=
  let z := code c in
  if (48 <=? z) && (z <=? 57) then z - 48
  else if (97 <=? z) && (z <=? 102) then z - 97 + 10
  else if (65 <=? z) && (z <=? 70) then z - 65 + 10
  else -1.
Definition isxdigit (c : ascii) : bool := 0 <=? hexval c.

Definition tolower (c : ascii) : ascii :=
  if (65 <=? code c) && (code c <=? 90) then chr (code c + 32) else c.

Fixpoint take_while (f : ascii -> bool) (s : text) : text :=
  match s with
  | c :: s' => if f c then c :: take_while f s' else []
  | [] => []
  end.
Fixpoint drop_while (f : ascii -> bool) (s : text) : text :=
  match s with
  | c :: s' => if f c then drop_while f s' else s
  | [] => []
  end.

(** [s.find(c)]: the part before the first [c] and the part after it. *)
Fixpoint break_at (c : ascii) (s : text) : option (text * text) :=
  match s with
  | [] => None
  | d :: s' =>
      if ceq d c then Some ([], s')
      else match break_at c s' with Some (l, r) => Some (d :: l, r) | None => None end
  end.

(** [c_str()] as a C routine reads it: up to the first NUL. *)
Definition c_str (s : text) : text := take_while (fun c => negb (code c =? 0)) s.

Definition nl : ascii := chr 10.

(** Successive [std::getline] results: a last line without newline counts, an
    empty rest after the last newline does not. *)
Fixpoint getlines_aux (s : text) (cur : text) : list text :=
  match s with
  | [] => match cur with [] => [] | _ => [rev cur] end
  | c :: s' => if ceq c nl then rev cur :: getlines_aux s' [] else getlines_aux s' (c :: cur)
  end.
Definition getlines (s : text) : list text := getlines_aux s [].

(** ** Integers *)

Fixpoint digits_val (base : Z) (s : text) (acc : Z) : Z :=
  match s with
  | [] => acc
  | c :: s' => digits_val base s' (acc * base + hexval c)
  end.

(** [strtoul(s, nullptr, 16)] on a text of hexadecimal digits. *)
Definition hex_to_Z (s : text) : Z := digits_val 16 s 0.

Definition digit_char (d : Z) : ascii :=
  if d <? 10 then chr (48 + d) else chr (55 + d).

(** [n] digits of [z] in the given base, most significant first. *)
Fixpoint digits_of (base : Z) (n : nat) (z : Z) : text :=
  match n with
  | O => []
  | S n' => digits_of base n' (z `div` base) ++ [digit_char (z `mod` base)]
  end.

Fixpoint ndigits (fuel : nat) (base z : Z) : nat :=
  match fuel with
  | O => 1
  | S f => if z <? base then 1 else S (ndigits f base (z `div` base))
  end.

(** [std::to_string] / [operator<<] of an integer (up to 20 digits: 64 bits). *)
Definition dec (z : Z) : text :=
  if z <? 0 then str "-" ++ digits_of 10 (ndigits 20 10 (- z)) (- z)
  else digits_of 10 (ndigits 20 10 z) z.

(** [std::hex << std::uppercase << std::setfill('0') << std::setw(6)]. *)
Definition hex6 (z : Z) : text :=
  let n := ndigits 20 16 z in
  repeat (chr 48) (6 - n) ++ digits_of 16 n z.

(** ** strtof *)

Definition apply_sign (neg : bool) (x : f32) : f32 := if neg then SFopp x else x.

(** [n * 10^e], correctly rounded to binary32. *)
Definition f32_of_decimal (n e : Z) : f32 :=
  match n with
  | Zpos p =>
      if 0 <=? e then binary_round 24 128 false (p * Z.to_pos (10 ^ e)) 0
      else SFdiv 24 128 (S754_finite false p 0) (S754_finite false (Z.to_pos (10 ^ (- e))) 0)
  | _ => S754_zero false
  end.

(** [n * 2^e], correctly rounded to binary32. *)
Definition f32_of_binary (n e : Z) : f32 :=
  match n with
  | Zpos p => binary_round 24 128 false p e
  | _ => S754_zero false
  end.

(** An optional exponent part introduced by a character of [marks]. *)
Definition parse_exponent (marks : list Z) (s : text) : Z * text :=
  match s with
  | c :: s1 =>
      if bool_decide (code c ∈ marks) then
        let '(neg, s2) := match s1 with
                          | d :: s2 => if code d =? 45 then (true, s2)
                                       else if code d =? 43 then (false, s2) else (false, s1)
                          | [] => (false, s1)
                          end in
        match take_while isdigit s2 with
        | [] => (0, s)
        | ds => let v := digits_val 10 ds 0 in (if neg then - v else v, drop_while isdigit s2)
        end
      else (0, s)
  | [] => (0, s)
  end.

(** Digits, an optional point and fraction digits: value, number of fraction
    digits, rest; [None] when there is no digit at all. *)
Definition parse_mantissa (isd : ascii -> bool) (base : Z) (s : text) : option (Z * Z * text) :=
  let ip := take_while isd s in
  let r1 := drop_while isd s in
  let '(fp, r2) := match r1 with
                   | c :: r => if code c =? 46 then (take_while isd r, drop_while isd r)
                               else ([], r1)
                   | [] => ([], r1)
                   end in
  match ip ++ fp with
  | [] => None
  | ds => Some (digits_val base ds 0, Z.of_nat (length fp), r2)
  end.

(** Case-insensitive prefix. *)
Fixpoint strip_prefix (p s : text) : option text :=
  match p, s with
  | [], _ => Some s
  | c :: p', d :: s' => if ceq c (tolower d) then strip_prefix p' s' else None
  | _ :: _, [] => None
  end.

Definition isnchar (c : ascii) : bool :=
  let z := code c in
  isdigit c || ((65 <=? z) && (z <=? 90)) || ((97 <=? z) && (z <=? 122)) || (z =? 95).

(** Infinity and NaN spellings. *)
Definition parse_special (s : text) : option (f32 * text) :=
  match strip_prefix (str "infinity") s with
  | Some r => Some (S754_infinity false, r)
  | None =>
  match strip_prefix (str "inf") s with
  | Some r => Some (S754_infinity false, r)
  | None =>
  match strip_prefix (str "nan") s with
  | Some r =>
      match r with
      | c :: r1 =>
          if code c =? 40 then
            match drop_while isnchar r1 with
            | d :: r2 => if code d =? 41 then Some (S754_nan, r2) else Some (S754_nan, r)
            | [] => Some (S754_nan, r)
            end
          else Some (S754_nan, r)
      | [] => Some (S754_nan, r)
      end
  | None => None
  end end end.

Definition parse_decimal (s : text) : option (f32 * text) :=
  match parse_mantissa isdigit 10 s with
  | Some (n, k, r) => let '(e, r') := parse_exponent [101; 69] r in
                      Some (f32_of_decimal n (e - k), r')
  | None => None
  end.

Definition parse_hexfloat (s : text) : option (f32 * text) :=
  match strip_prefix (str "0x") s with
  | Some s1 =>
      match parse_mantissa isxdigit 16 s1 with
      | Some (n, k, r) => let '(e, r') := parse_exponent [112; 80] r in
                          Some (f32_of_binary n (e - 4 * k), r')
      | None => None
      end
  | None => None
  end.

(** [strtof(s, &end)]: the value and the text at [end]; [None] when no conversion
    is performed ([end == s]). *)
Definition strtof (s : text) : option (f32 * text) :=
  let s0 := drop_while isspace s in
  let '(neg, s1) := match s0 with
                    | c :: r => if code c =? 45 then (true, r)
                                else if code c =? 43 then (false, r) else (false, s0)
                    | [] => (false, s0)
                    end in
  let body := match parse_hexfloat s1 with
              | Some x => Some x
              | None => match parse_decimal s1 with Some x => Some x | None => parse_special s1 end
              end in
  match body with
  | Some (x, r) => Some (apply_sign neg x, r)
  | None => None
  end.

(** ** Printing a float with [operator<<] (precision 6, [%g]) *)

(** The positive value [m * 2^e] as a fraction. *)
Definition frac_of (m : positive) (e : Z) : Z * Z :=
  if 0 <=? e then (Zpos m * 2 ^ e, 1) else (Zpos m, 2 ^ (- e)).

(** [num/den * 10^k] rounded to the nearest integer, ties to even. *)
Definition scaled_round (num den k : Z) : Z :=
  let n := if 0 <=? k then num * 10 ^ k else num in
  let d := if 0 <=? k then den else den * 10 ^ (- k) in
  let q := n `div` d in
  let r := n `mod` d in
  if 2 * r <? d then q else if d <? 2 * r then q + 1
  else if Z.even q then q else q + 1.

(** Decimal exponent: the first [x] from [-46] with [num/den < 10^(x+1)]. *)
Fixpoint dec_exponent (fuel : nat) (x num den : Z) : Z :=
  match fuel with
  | O => x
  | S f =>
      let lt := if 0 <=? x + 1 then num <? den * 10 ^ (x + 1) else num * 10 ^ (- (x + 1)) <? den in
      if lt then x else dec_exponent f (x + 1) num den
  end.

Definition strip_zeros (s : text) : text := rev (drop_while (fun c => code c =? 48) (rev s)).

(** A fraction part without trailing zeros, and without point when empty. *)
Definition with_fraction (ip fp : text) : text :=
  match strip_zeros fp with [] => ip | fp' => ip ++ str "." ++ fp' end.

Definition print_exponent (x : Z) : text :=
  (if x <? 0 then str "-" else str "+") ++
  (if Z.abs x <? 10 then str "0" else []) ++ dec (Z.abs x).

Definition print_f32 (x : f32) : text :=
  match x with
  | S754_nan => str "nan"
  | S754_infinity s => if s then str "-inf" else str "inf"
  | S754_zero s => if s then str "-0" else str "0"
  | S754_finite s m e =>
      let '(num, den) := frac_of m e in
      let x0 := dec_exponent 90 (-46) num den in
      let d0 := scaled_round num den (5 - x0) in
      let '(d, x) := if d0 =? 1000000 then (100000, x0 + 1) else (d0, x0) in
      let ds := digits_of 10 6 d in
      let body :=
        if (x <? 6) && (-4 <=? x) then
          if 0 <=? x then with_fraction (take (Z.to_nat x + 1) ds) (drop (Z.to_nat x + 1) ds)
          else with_fraction (str "0") (repeat (chr 48) (Z.to_nat (- x - 1)) ++ ds)
        else with_fraction (take 1 ds) (drop 1 ds) ++ str "e" ++ print_exponent x in
      if s then str "-" ++ body else body
  end.

(** ** Facts *)

Lemma digits_val_app base s t acc :
  digits_val base (s ++ t) acc = digits_val base t (digits_val base s acc).
Proof. revert acc; induction s; intros acc; simpl; auto. Qed.

Lemma hexval_digit d : 0 <= d < 16 -> hexval (digit_char d) = d.
Proof.
  intros Hd. apply Z.eqb_eq. revert d Hd.
  apply (forallbZ_spec 0 16 (fun d => hexval (digit_char d) =? d)). reflexivity.
Qed.

Lemma length_digits_of base n z : length (digits_of base n z) = n.
Proof. revert z; induction n; intros z; simpl; [done|]. rewrite length_app, IHn. simpl. lia. Qed.

Lemma digits_of_val base n z acc :
  1 < base <= 16 -> 0 <= z < base ^ Z.of_nat n ->
  digits_val base (digits_of base n z) acc = acc * base ^ Z.of_nat n + z.
Proof.
  intros Hb. revert z; induction n as [|n IH]; intros z Hz; cbn [digits_of].
  - change (base ^ Z.of_nat 0) with 1 in *. simpl. lia.
  - rewrite Nat2Z.inj_succ, Z.pow_succ_r in * by lia.
    rewrite digits_val_app, IH.
    + cbn [digits_val]. rewrite hexval_digit by (pose proof (Z.mod_pos_bound z base); lia).
      pose proof (Z.div_mod z base). nia.
    + split; [apply Z.div_pos; lia|apply Z.div_lt_upper_bound; lia].
Qed.

Lemma digits_of_Forall base n z :
  1 < base <= 16 -> Forall (fun c => isxdigit c = true) (digits_of base n z).
Proof.
  intros Hb. revert z; induction n as [|n IH]; intros z; simpl; [constructor|].
  apply Forall_app. split; [apply IH|]. constructor; [|done].
  unfold isxdigit. rewrite hexval_digit by (pose proof (Z.mod_pos_bound z base); lia).
  apply Z.leb_le. pose proof (Z.mod_pos_bound z base). lia.
Qed.

Lemma break_at_app c l r :
  Forall (fun d => ceq d c = false) l -> break_at c (l ++ c :: r) = Some (l, r).
Proof.
  induction 1 as [|d l Hd Hl IH]; simpl.
  - unfold ceq. by rewrite Ascii.eqb_refl.
  - by rewrite Hd, IH.
Qed.

Lemma getlines_aux_app l cur r :
  Forall (fun d => ceq d nl = false) l ->
  getlines_aux (l ++ nl :: r) cur = (rev cur ++ l) :: getlines_aux r [].
Proof.
  intros H. revert cur; induction H as [|d l Hd Hl IH]; intros cur; simpl.
  - by rewrite app_nil_r.
  - rewrite Hd, IH. simpl. by rewrite <- app_assoc.
Qed.

Lemma getlines_line l r :
  Forall (fun d => ceq d nl = false) l -> getlines (l ++ nl :: r) = l :: getlines r.
Proof. intros H. unfold getlines. by rewrite getlines_aux_app. Qed.

Lemma digits_of_zero base k : 0 < base -> digits_of base k 0 = repeat (chr 48) k.
Proof.
  intros Hb. induction k as [|k IH]; [done|]. cbn [digits_of].
  rewrite Z.div_0_l, Z.mod_0_l, IH by lia. change (digit_char 0) with (chr 48).
  by rewrite <- repeat_cons.
Qed.

Lemma digits_of_pad base k n z :
  1 < base -> 0 <= z < base ^ Z.of_nat n ->
  digits_of base (k + n) z = repeat (chr 48) k ++ digits_of base n z.
Proof.
  intros Hb. revert z; induction n as [|n IH]; intros z Hz.
  - change (base ^ Z.of_nat 0) with 1 in Hz. replace z with 0 by lia.
    rewrite Nat.add_0_r, digits_of_zero by lia. simpl. by rewrite app_nil_r.
  - rewrite Nat2Z.inj_succ, Z.pow_succ_r in Hz by lia.
    rewrite Nat.add_succ_r. cbn [digits_of]. rewrite IH; [by rewrite app_assoc|].
    split; [apply Z.div_pos; lia|apply Z.div_lt_upper_bound; lia].
Qed.

Lemma ndigits_le fuel base z m :
  1 < base -> (1 <= m)%nat -> 0 <= z < base ^ Z.of_nat m -> (ndigits fuel base z <= m)%nat.
Proof.
  intros Hb. revert z m; induction fuel as [|f IH]; intros z m Hm Hz; simpl; [lia|].
  destruct (z <? base) eqn:E; breflect; [lia|].
  destruct m as [|[|m]]; [lia|change (Z.of_nat 1) with 1 in Hz; rewrite Z.pow_1_r in Hz; lia|].
  apply le_n_S, IH; [lia|].
  rewrite (Nat2Z.inj_succ (S m)), Z.pow_succ_r in Hz by lia.
  split; [apply Z.div_pos; lia|apply Z.div_lt_upper_bound; lia].
Qed.

Lemma ndigits_ub fuel base z :
  1 < base -> 0 <= z < base ^ Z.of_nat (S fuel) -> z < base ^ Z.of_nat (ndigits fuel base z).
Proof.
  intros Hb. revert z; induction fuel as [|f IH]; intros z Hz; cbn [ndigits]; [lia|].
  destruct (z <? base) eqn:E; breflect; [change (Z.of_nat 1) with 1; rewrite Z.pow_1_r; lia|].
  rewrite (Nat2Z.inj_succ (S f)), Z.pow_succ_r in Hz by lia.
  rewrite (Nat2Z.inj_succ (ndigits _ _ _)), Z.pow_succ_r by lia.
  assert (z `div` base < base ^ Z.of_nat (ndigits f base (z `div` base))).
  { apply IH. split; [apply Z.div_pos; lia|apply Z.div_lt_upper_bound; lia]. }
  pose proof (Z.div_mod z base). pose proof (Z.mod_pos_bound z base). nia.
Qed.

Lemma hex6_digits z : in_u 24 z -> hex6 z = digits_of 16 6 z.
Proof.
  intros [H1 H2]. unfold hex6.
  assert (Hn : (ndigits 20 16 z <= 6)%nat) by (apply ndigits_le; [lia|lia|exact (conj H1 H2)]).
  rewrite <- (digits_of_pad 16); [f_equal; lia|lia|].
  split; [done|]. apply ndigits_ub; [lia|]. split; [done|].
  change (16 ^ Z.of_nat 21) with 19342813113834066795298816. lia.
Qed.

(** Decide a property of every character by computation. *)
Lemma ascii_cases (f : ascii -> bool) :
  forallbZ 0 256 (fun z => f (chr z)) = true -> forall c, f c = true.
Proof.
  intros H c. rewrite <- (chr_code c).
  apply (forallbZ_spec 0 256 (fun z => f (chr z)) H). apply code_range.
Qed.

Definition plain (c : ascii) : bool := negb (isspace c) && negb (ceq c (chr 61)) && negb (ceq c nl).

Lemma xdigit_plain c : isxdigit c = true -> plain c = true.
Proof.
  intros H. pose proof (ascii_cases (fun c => implb (isxdigit c) (plain c)) eq_refl c) as Hc.
  simpl in Hc. by rewrite H in Hc.
Qed.

Lemma plain_spec c :
  plain c = true -> isspace c = false /\ ceq c (chr 61) = false /\ ceq c nl = false.
Proof. unfold plain. breflect. tauto. Qed.

Lemma digits_plain n z : Forall (fun c => plain c = true) (digits_of 16 n z).
Proof.
  eapply Forall_impl; [apply (digits_of_Forall 16); lia|]. intros c. apply xdigit_plain.
Qed.
