(* ===== verification/Config.v ===== *)
(** The overlay settings: [src/core/overlay_config.cpp] and [src/core/config.cpp].
    [sanitize_config] establishes the invariant [wf_config] that the renderer relies
    on; [parse_config_text] reads the INI file that [serialize_config] writes. *)
From S2P Require Import Prelude Float Types Text.

(** ** overlay_config.cpp *)

Definition named_corner (c : Corner) : bool :=
  match c with CornerValue _ => false | _ => true end.

Definition zclamp (v lo hi : Z) : Z := if v <? lo then lo else if hi <? v then hi else v.

Definition sanitize_margin (m dflt : f32) : f32 :=
  if is_finite m then f_clamp m (S754_zero false) (f32_of_Z 240) else dflt.

Definition sanitize_config (cfg : OverlayConfig) : OverlayConfig := {|
  corner := if named_corner (corner cfg) then corner cfg else BottomLeft;
  font_size := zclamp (font_size cfg) kMinFontSize kMaxFontSize;
  margin_x := sanitize_margin (margin_x cfg) kDefaultMarginX;
  margin_y := sanitize_margin (margin_y cfg) kDefaultMarginY;
  show_label := show_label cfg;
  label_color := Z.land (label_color cfg) 0xFFFFFF;
  value_color := Z.land (value_color cfg) 0xFFFFFF
|}.

Definition same_config (a b : OverlayConfig) : bool :=
  bool_decide (corner a = corner b) && (font_size a =? font_size b) &&
  f_eq (margin_x a) (margin_x b) && f_eq (margin_y a) (margin_y b) &&
  Bool.eqb (show_label a) (show_label b) && (label_color a =? label_color b) &&
  (value_color a =? value_color b).

(** ** config.cpp *)

Definition trim (s : text) : text := rev (drop_while isspace (rev (drop_while isspace s))).

Definition parse_corner (value : text) : Corner :=
  if teq value (str "top_left") then TopLeft
  else if teq value (str "top_right") then TopRight
  else if teq value (str "bottom_right") then BottomRight
  else BottomLeft.

Definition corner_name (c : Corner) : text :=
  match c with
  | TopLeft => str "top_left"
  | TopRight => str "top_right"
  | BottomRight => str "bottom_right"
  | BottomLeft | CornerValue _ => str "bottom_left"
  end.

Definition default_config : OverlayConfig := OverlayConfig_init.

(** [None]: the function returned [false] and left its output alone. *)
Definition number (s : text) : option f32 :=
  match strtof (c_str s) with
  | Some (v, []) => if is_finite v then Some v else None
  | _ => None
  end.

Definition parse_color (s : text) : option Z :=
  let t := match s with c :: r => if code c =? 35 then r else s | [] => s end in
  if (length t =? 6)%nat && forallb isxdigit t then Some (hex_to_Z t) else None.

(** [key=value] of one line; [None] for blank lines, comments, section headers and
    lines without [=]. *)
Definition split_line (raw : text) : option (text * text) :=
  let line := trim raw in
  match line with
  | [] => None
  | c :: _ =>
      if (code c =? 35) || (code c =? 59) || (code c =? 91) then None
      else match break_at (chr 61) line with
           | Some (k, v) => Some (trim k, trim v)
           | None => None
           end
  end.

Definition font_of_float (v : f32) : Z :=
  default 0 (f_trunc (f_clamp v (f32_of_Z kMinFontSize) (f32_of_Z kMaxFontSize))).

Definition assign (key value : text) (cfg : OverlayConfig) : OverlayConfig :=
  if teq key (str "corner") then set_corner (parse_corner value) cfg
  else if teq key (str "font_size") then
    match number value with Some v => set_font_size (font_of_float v) cfg | None => cfg end
  else if teq key (str "margin_x") then
    match number value with Some v => set_margin_x v cfg | None => cfg end
  else if teq key (str "margin_y") then
    match number value with Some v => set_margin_y v cfg | None => cfg end
  else if teq key (str "show_label") then
    let cfg1 := if teq value (str "0") || teq value (str "false")
                then set_show_label false cfg else cfg in
    if teq value (str "1") || teq value (str "true") then set_show_label true cfg1 else cfg1
  else if teq key (str "label_color") then
    match parse_color value with Some v => set_label_color v cfg | None => cfg end
  else if teq key (str "value_color") then
    match parse_color value with Some v => set_value_color v cfg | None => cfg end
  else cfg.

Definition parse_line (cfg : OverlayConfig) (raw : text) : OverlayConfig :=
  match split_line raw with
  | Some (key, value) => assign key value cfg
  | None => cfg
  end.

Definition parse_config_text (s : text) : OverlayConfig :=
  sanitize_config (fold_left parse_line (getlines s) default_config).

Definition serialize_config (cfg : OverlayConfig) : text :=
  str "[overlay]" ++ nl ::
  str "corner=" ++ corner_name (corner cfg) ++ nl ::
  str "font_size=" ++ dec (font_size cfg) ++ nl ::
  str "margin_x=" ++ print_f32 (margin_x cfg) ++ nl ::
  str "margin_y=" ++ print_f32 (margin_y cfg) ++ nl ::
  str "show_label=" ++ dec (if show_label cfg then 1 else 0) ++ nl ::
  str "label_color=#" ++ hex6 (Z.land (label_color cfg) 0xFFFFFF) ++ nl ::
  str "value_color=#" ++ hex6 (Z.land (value_color cfg) 0xFFFFFF) ++ [nl].

(** ** The invariant of a usable configuration *)

Definition margin_ok (m : f32) : Prop :=
  is_finite m = true /\ f_le (S754_zero false) m = true /\ f_le m (f32_of_Z 240) = true.

Record wf_config (cfg : OverlayConfig) : Prop := {
  wf_corner : named_corner (corner cfg) = true;
  wf_font : kMinFontSize <= font_size cfg <= kMaxFontSize;
  wf_margin_x : margin_ok (margin_x cfg);
  wf_margin_y : margin_ok (margin_y cfg);
  wf_label : in_u 24 (label_color cfg);
  wf_value : in_u 24 (value_color cfg)
}.

(** What the settings form can store: integer margins. *)
Definition form_margin (m : f32) (k : Z) : Prop := m = f32_of_Z k /\ 0 <= k <= 240.

Record form_config (cfg : OverlayConfig) : Prop := {
  fc_corner : named_corner (corner cfg) = true;
  fc_font : kMinFontSize <= font_size cfg <= kMaxFontSize;
  fc_margin_x : exists k, form_margin (margin_x cfg) k;
  fc_margin_y : exists k, form_margin (margin_y cfg) k;
  fc_label : in_u 24 (label_color cfg);
  fc_value : in_u 24 (value_color cfg)
}.

(** ** Lemmas *)

Lemma land24_range z : in_u 24 (Z.land z 0xFFFFFF).
Proof.
  change 0xFFFFFF with (Z.ones 24). rewrite Z.land_ones by lia.
  apply Z.mod_pos_bound. lia.
Qed.

Lemma land24_small z : in_u 24 z -> Z.land z 0xFFFFFF = z.
Proof.
  intros H. change 0xFFFFFF with (Z.ones 24). rewrite Z.land_ones by lia.
  by apply Z.mod_small.
Qed.

Lemma zclamp_range v lo hi : lo <= hi -> lo <= zclamp v lo hi <= hi.
Proof. intros H. unfold zclamp. split_ifs; breflect; lia. Qed.

Lemma zclamp_id v lo hi : lo <= v <= hi -> zclamp v lo hi = v.
Proof. intros H. unfold zclamp. split_ifs; breflect; lia. Qed.

Lemma sanitize_margin_ok m d : margin_ok d -> margin_ok (sanitize_margin m d).
Proof.
  intros Hd. unfold sanitize_margin. destruct (is_finite m) eqn:Hm; [|done].
  apply f_clamp_range; done.
Qed.

Lemma margin_ok_lt m :
  margin_ok m -> f_lt m (S754_zero false) = false /\ f_lt (f32_of_Z 240) m = false.
Proof. intros (_ & H1 & H2). auto using f_le_not_lt. Qed.

Lemma sanitize_margin_id m d : margin_ok m -> sanitize_margin m d = m.
Proof.
  intros H. unfold sanitize_margin, f_clamp.
  destruct (margin_ok_lt m H) as [-> ->]. by destruct H as [-> _].
Qed.

Lemma default_margins_ok : margin_ok kDefaultMarginX /\ margin_ok kDefaultMarginY.
Proof. by_compute. Qed.

Lemma sanitize_wf cfg : wf_config (sanitize_config cfg).
Proof.
  destruct default_margins_ok. constructor; simpl.
  - by destruct (corner cfg).
  - by apply zclamp_range.
  - by apply sanitize_margin_ok.
  - by apply sanitize_margin_ok.
  - apply land24_range.
  - apply land24_range.
Qed.

Lemma sanitize_id cfg : wf_config cfg -> sanitize_config cfg = cfg.
Proof.
  intros []. destruct cfg as [c f mx my sl lc vc]. unfold sanitize_config; simpl in *.
  rewrite wf_corner0, zclamp_id, !sanitize_margin_id, !land24_small by done. done.
Qed.

Lemma form_margin_ok m k : form_margin m k -> margin_ok m.
Proof.
  intros [-> Hk]. unfold margin_ok. cut (is_finite (f32_of_Z k) &&
    (f_le (S754_zero false) (f32_of_Z k) && f_le (f32_of_Z k) (f32_of_Z 240)) = true).
  { rewrite !andb_true_iff. done. }
  revert k Hk. assert (H := forallbZ_spec 0 241 (fun k => is_finite (f32_of_Z k) &&
    (f_le (S754_zero false) (f32_of_Z k) && f_le (f32_of_Z k) (f32_of_Z 240)))).
  intros k Hk. apply H; [vm_compute; reflexivity|lia].
Qed.

Lemma form_config_wf cfg : form_config cfg -> wf_config cfg.
Proof.
  intros [? ? [? ?] [? ?] ? ?]. constructor; try done; eapply form_margin_ok; done.
Qed.

#[export] Hint Resolve sanitize_wf form_config_wf land24_range : machine.

(** *** Reading back what [serialize_config] wrote *)

Lemma drop_while_false f s : Forall (fun c => f c = false) s -> drop_while f s = s.
Proof. destruct 1 as [|c s Hc Hs]; simpl; [done|]. by rewrite Hc. Qed.

Lemma trim_plain s : Forall (fun c => isspace c = false) s -> trim s = s.
Proof.
  intros H. unfold trim. rewrite (drop_while_false _ s), drop_while_false; auto.
  - apply rev_involutive.
  - by apply Forall_rev.
Qed.

Lemma plain_not_space s : Forall (fun c => plain c = true) s -> Forall (fun c => isspace c = false) s.
Proof. intros H. eapply Forall_impl; [exact H|]. intros c Hc. by apply plain_spec in Hc as []. Qed.

Lemma split_line_kv c k v :
  Forall (fun c => plain c = true) (c :: k) -> Forall (fun c => plain c = true) v ->
  (code c =? 35) || (code c =? 59) || (code c =? 91) = false ->
  split_line ((c :: k) ++ chr 61 :: v) = Some (c :: k, v).
Proof.
  intros Hk Hv Hc. unfold split_line.
  rewrite (trim_plain ((c :: k) ++ chr 61 :: v)).
  - cbn [app]. rewrite Hc. change (c :: k ++ chr 61 :: v) with ((c :: k) ++ chr 61 :: v).
    rewrite break_at_app, !trim_plain; auto using plain_not_space.
    eapply Forall_impl; [exact Hk|]. intros d Hd. by apply plain_spec in Hd as (_ & ? & _).
  - apply Forall_app. split; [by apply plain_not_space|]. constructor; [reflexivity|].
    by apply plain_not_space.
Qed.

Lemma parse_color_hex6 z : in_u 24 z -> parse_color (chr 35 :: hex6 z) = Some z.
Proof.
  intros Hz. unfold parse_color. change (code (chr 35) =? 35) with true. cbn iota.
  rewrite hex6_digits, length_digits_of by done. cbn [Nat.eqb andb].
  replace (forallb isxdigit (digits_of 16 6 z)) with true.
  - unfold hex_to_Z. rewrite digits_of_val; [done|lia|exact Hz].
  - symmetry. apply forallb_forall, List.Forall_forall, digits_of_Forall. lia.
Qed.

Definition font_line_ok (n : Z) : bool :=
  match split_line (str "font_size=" ++ dec n) with
  | Some (k, v) => teq k (str "font_size") &&
                   match number v with Some x => font_of_float x =? n | None => false end
  | None => false
  end.

Definition margin_line_ok (key : text) (n : Z) : bool :=
  match split_line (key ++ chr 61 :: print_f32 (f32_of_Z n)) with
  | Some (k, v) => teq k key && bool_decide (number v = Some (f32_of_Z n))
  | None => false
  end.

Lemma font_lines : forallbZ 14 51 font_line_ok = true.
Proof. vm_compute. reflexivity. Qed.

Lemma margin_x_lines : forallbZ 0 241 (margin_line_ok (str "margin_x")) = true.
Proof. vm_compute. reflexivity. Qed.

Lemma margin_y_lines : forallbZ 0 241 (margin_line_ok (str "margin_y")) = true.
Proof. vm_compute. reflexivity. Qed.

Lemma parse_font_line n cfg :
  kMinFontSize <= n <= kMaxFontSize ->
  parse_line cfg (str "font_size=" ++ dec n) = set_font_size n cfg.
Proof.
  intros Hn. assert (H : font_line_ok n = true).
  { apply (forallbZ_spec 14 51 _ font_lines). unfold kMinFontSize, kMaxFontSize in Hn. lia. }
  unfold font_line_ok in H. unfold parse_line. destruct (split_line _) as [[k v]|]; [|done].
  apply andb_true_iff in H as [Hk Hv]. apply bool_decide_eq_true in Hk as ->.
  unfold assign. simpl. destruct (number v) as [x|]; [|done]. by apply Z.eqb_eq in Hv as ->.
Qed.

Lemma margin_line_inv key n :
  margin_line_ok key n = true ->
  exists v, split_line (key ++ chr 61 :: print_f32 (f32_of_Z n)) = Some (key, v) /\
            number v = Some (f32_of_Z n).
Proof.
  unfold margin_line_ok. destruct (split_line _) as [[k v]|]; [|done].
  intros H. apply andb_true_iff in H as [Hk Hv].
  apply bool_decide_eq_true in Hk as ->. apply bool_decide_eq_true in Hv. by exists v.
Qed.

Lemma parse_margin_x_line m k cfg :
  form_margin m k -> parse_line cfg (str "margin_x=" ++ print_f32 m) = set_margin_x m cfg.
Proof.
  intros [-> Hk]. destruct (margin_line_inv (str "margin_x") k) as (v & H1 & H2).
  { apply (forallbZ_spec 0 241 _ margin_x_lines). lia. }
  unfold parse_line.
  change (str "margin_x=" ++ print_f32 (f32_of_Z k))
    with (str "margin_x" ++ chr 61 :: print_f32 (f32_of_Z k)).
  rewrite H1. unfold assign. simpl. by rewrite H2.
Qed.

Lemma parse_margin_y_line m k cfg :
  form_margin m k -> parse_line cfg (str "margin_y=" ++ print_f32 m) = set_margin_y m cfg.
Proof.
  intros [-> Hk]. destruct (margin_line_inv (str "margin_y") k) as (v & H1 & H2).
  { apply (forallbZ_spec 0 241 _ margin_y_lines). lia. }
  unfold parse_line.
  change (str "margin_y=" ++ print_f32 (f32_of_Z k))
    with (str "margin_y" ++ chr 61 :: print_f32 (f32_of_Z k)).
  rewrite H1. unfold assign. simpl. by rewrite H2.
Qed.

Lemma parse_corner_line c cfg :
  named_corner c = true -> parse_line cfg (str "corner=" ++ corner_name c) = set_corner c cfg.
Proof. destruct c; intros H; try done; reflexivity. Qed.

Lemma parse_show_line b cfg :
  parse_line cfg (str "show_label=" ++ dec (if b : bool then 1 else 0)) = set_show_label b cfg.
Proof. destruct b; reflexivity. Qed.

Lemma split_color_line (key : string) c k z :
  str key = c :: k -> Forall (fun c => plain c = true) (c :: k) ->
  (code c =? 35) || (code c =? 59) || (code c =? 91) = false -> in_u 24 z ->
  split_line (str key ++ chr 61 :: chr 35 :: hex6 z) = Some (str key, chr 35 :: hex6 z).
Proof.
  intros -> Hk Hc Hz. apply split_line_kv; try done.
  constructor; [reflexivity|]. rewrite hex6_digits by done. apply digits_plain.
Qed.

Lemma parse_label_color_line z cfg :
  in_u 24 z -> parse_line cfg (str "label_color=#" ++ hex6 z) = set_label_color z cfg.
Proof.
  intros Hz. unfold parse_line.
  change (str "label_color=#" ++ hex6 z) with (str "label_color" ++ chr 61 :: chr 35 :: hex6 z).
  erewrite split_color_line; [|reflexivity|repeat constructor|reflexivity|done].
  unfold assign. cbn -[parse_color hex6]. by rewrite parse_color_hex6.
Qed.

Lemma parse_value_color_line z cfg :
  in_u 24 z -> parse_line cfg (str "value_color=#" ++ hex6 z) = set_value_color z cfg.
Proof.
  intros Hz. unfold parse_line.
  change (str "value_color=#" ++ hex6 z) with (str "value_color" ++ chr 61 :: chr 35 :: hex6 z).
  erewrite split_color_line; [|reflexivity|repeat constructor|reflexivity|done].
  unfold assign. cbn -[parse_color hex6]. by rewrite parse_color_hex6.
Qed.

(** No value of a form configuration contains a newline. *)
Definition no_nl (s : text) : bool := forallb (fun c => negb (ceq c nl)) s.

Lemma no_nl_spec s : no_nl s = true -> Forall (fun c => ceq c nl = false) s.
Proof.
  intros H. apply List.Forall_forall. intros c Hc.
  unfold no_nl in H. rewrite forallb_forall in H. specialize (H c Hc). by apply negb_true_iff in H.
Qed.

Lemma no_nl_lines :
  forallbZ 14 51 (fun n => no_nl (dec n)) && forallbZ 0 241 (fun n => no_nl (print_f32 (f32_of_Z n)))
  = true.
Proof. vm_compute. reflexivity. Qed.

Lemma no_nl_app s t : no_nl (s ++ t) = no_nl s && no_nl t.
Proof. unfold no_nl. by rewrite forallb_app. Qed.

Lemma font_no_nl n : kMinFontSize <= n <= kMaxFontSize -> no_nl (dec n) = true.
Proof.
  intros H. pose proof no_nl_lines as H'. apply andb_true_iff in H' as [H' _].
  apply (forallbZ_spec 14 51 _ H'). unfold kMinFontSize, kMaxFontSize in H. lia.
Qed.

Lemma margin_no_nl m k : form_margin m k -> no_nl (print_f32 m) = true.
Proof.
  intros [-> H]. pose proof no_nl_lines as H'. apply andb_true_iff in H' as [_ H'].
  apply (forallbZ_spec 0 241 _ H'). lia.
Qed.

Lemma color_no_nl z : in_u 24 z -> no_nl (hex6 z) = true.
Proof.
  intros Hz. rewrite hex6_digits by done. apply forallb_forall, List.Forall_forall.
  eapply Forall_impl; [apply digits_plain|]. intros c Hc.
  apply plain_spec in Hc as (_ & _ & ->). done.
Qed.

Lemma getlines_str s t r :
  no_nl (s ++ t) = true -> getlines (s ++ t ++ nl :: r) = (s ++ t) :: getlines r.
Proof. intros H. rewrite app_assoc. apply getlines_line, no_nl_spec, H. Qed.

Lemma config_reparse cfg :
  form_config cfg -> parse_config_text (serialize_config cfg) = cfg.
Proof.
  intros Hf. pose proof (form_config_wf cfg Hf) as Hwf. destruct Hf as [Hc Hn [kx Hx] [ky Hy] Hl Hv].
  unfold parse_config_text, serialize_config. rewrite !land24_small by done.
  rewrite (getlines_line (str "[overlay]")) by (apply no_nl_spec; reflexivity).
  rewrite !getlines_str;
    try (rewrite no_nl_app, ?font_no_nl, ?color_no_nl, ?(margin_no_nl _ _ Hx),
           ?(margin_no_nl _ _ Hy) by done; reflexivity);
    [|destruct (show_label cfg); reflexivity|by destruct (corner cfg)].
  cbn [fold_left getlines getlines_aux]. change (parse_line default_config (str "[overlay]")) with default_config.
  rewrite parse_corner_line, parse_font_line, (parse_margin_x_line _ _ _ Hx),
    (parse_margin_y_line _ _ _ Hy), parse_show_line, parse_label_color_line,
    parse_value_color_line by done.
  rewrite sanitize_id; destruct cfg; done.
Qed.

(** C39: a configuration the settings form can produce survives a save and a reload
    exactly: parsing the file that [serialize_config] writes gives it back. *)
Theorem config_roundtrip cfg :
  form_config cfg -> parse_config_text (serialize_config cfg) = cfg.
Proof. apply config_reparse. Qed.

(** Whatever bytes the configuration file holds, the parsed configuration is
    usable: named corner, font size in 14..64, finite margins in 0..240, 24-bit
    colours. *)
Theorem parse_config_text_wf s : wf_config (parse_config_text s).
Proof. apply sanitize_wf. Qed.

(** [sanitize_config] is idempotent, changes nothing in a usable
    configuration, and [same_config] recognises every usable configuration as
    unchanged by it. *)
Theorem sanitize_config_normalises cfg :
  sanitize_config (sanitize_config cfg) = sanitize_config cfg /\
  (wf_config cfg <-> sanitize_config cfg = cfg).
Proof.
  split; [apply sanitize_id, sanitize_wf|].
  split; [apply sanitize_id|]. intros <-. apply sanitize_wf.
Qed.

Definition sample_config : OverlayConfig := {|
  corner := TopRight; font_size := 40; margin_x := f32_of_Z 17; margin_y := f32_of_Z 240;
  show_label := false; label_color := 0x00AB01; value_color := 0xFFFFFF |}.

Lemma sample_form : form_config sample_config.
Proof.
  constructor; try reflexivity; try (unfold in_u, kMinFontSize, kMaxFontSize; simpl; lia).
  - exists 17. split; [reflexivity|lia].
  - exists 240. split; [reflexivity|lia].
Qed.

Lemma config_roundtrip_witness :
  parse_config_text (serialize_config sample_config) = sample_config.
Proof. exact (config_roundtrip sample_config sample_form). Defined.
