(* ===== verification/FileIo.v ===== *)
(** Files of the controller: the system calls, the atomic replacement of a file
    ([atomic_write] of [src/core/settings.cpp]) and the bounded session log
    ([include/common_fps/session_log.hpp]).  The monitor [fs_step] is the documented
    effect of the calls on the files; it rejects a trace in which a watched file ever
    holds anything but its old or its new contents, or is replaced by data that was not
    synced and closed. *)
From S2P Require Import Prelude Effects Text.

Definition EINTR : Z := 4.

(** [O_TRUNC] of the settings file, [O_APPEND] of the log ([O_SYNC] when durable). *)
Inductive OpenMode := Truncating | Appending (durable : bool).
#[export] Instance OpenMode_eq_dec : EqDecision OpenMode.
Proof. solve_decision. Defined.

Inductive fio :=
| Open (path : text) (mode : OpenMode)
| Write (fd : Z) (data : text)
| Fsync (fd : Z)
| Close (fd : Z)
| Rename (from to : text)
| Unlink (path : text)
| Flock (fd : Z) (exclusive : bool)
| Ftruncate (fd : Z)
| Fstat (fd : Z)
| ReadFile (path : text) (limit : nat).   (** [fopen], [fread], [ferror], [fclose] *)

(** A result code, with [errno] for [write] and [flock], the size for [fstat]; what was
    read, with the error indicator, when the file could be opened. *)
Definition fio_ret (c : fio) : Type :=
  match c with
  | Write _ _ | Flock _ _ | Fstat _ => Z * Z
  | ReadFile _ _ => option (text * bool)
  | _ => Z
  end.

Abbreviation fprog := (prog fio_ret).
Definition fioc (c : fio) : fprog (fio_ret c) := call c.

Section Programs.
Local Open Scope prog_scope.

(** The write loop: [None] when the rounds are used up (the system keeps interrupting),
    otherwise the bytes that were not written. *)
Fixpoint write_loop (fuel : nat) (fd : Z) (data : text) : fprog (option text) :=
  match data with
  | [] => Ret (Some [])
  | _ =>
      match fuel with
      | O => Ret None
      | S f =>
          let* (n, errno) := fioc (Write fd data) in
          if (n <? 0) && (errno =? EINTR) then write_loop f fd data
          else if n <=? 0 then Ret (Some data)
          else write_loop f fd (drop (Z.to_nat n) data)
      end
  end.

Definition pending_path (path : text) : text := path ++ str ".tmp".

Definition atomic_write (fuel : nat) (path data : text) : fprog (option bool) :=
  let pending := pending_path path in
  let* fd := fioc (Open pending Truncating) in
  if fd <? 0 then Ret (Some false)
  else
    let* rest := write_loop fuel fd data in
    match rest with
    | None => Ret None
    | Some rest =>
        let* synced := (if bool_decide (rest = []) then
                          let* rc := fioc (Fsync fd) in Ret (rc =? 0)
                        else Ret false) in
        let* close_rc := fioc (Close fd) in
        let ok := synced && (close_rc =? 0) in
        let* ok := (if ok then let* rc := fioc (Rename pending path) in Ret (rc =? 0)
                    else Ret false) in
        (if ok then Ret (Some true)
         else let* _ := fioc (Unlink pending) in Ret (Some false))
    end.

(** ** session_log.hpp *)

Definition kSessionLogLimit : Z := 65536.

Fixpoint lock_loop (fuel : nat) (fd : Z) : fprog (option Z) :=
  match fuel with
  | O => Ret None
  | S f =>
      let* (rc, errno) := fioc (Flock fd true) in
      if (rc <? 0) && (errno =? EINTR) then lock_loop f fd else Ret (Some rc)
  end.

Definition write_session_log (fuel : nat) (path data : text) (reset durable : bool)
    : fprog (option unit) :=
  let* fd := fioc (Open path (Appending durable)) in
  if fd <? 0 then Ret (Some tt)
  else
    let* lock_rc := lock_loop fuel fd in
    match lock_rc with
    | None => Ret None
    | Some rc =>
        if negb (rc =? 0) then let* _ := fioc (Close fd) in Ret (Some tt)
        else
          let* reset_ok := (if reset then let* r := fioc (Ftruncate fd) in Ret (r =? 0)
                            else Ret true) in
          let* (ready, st_size) := (if reset_ok then
                                      let* (r, size) := fioc (Fstat fd) in
                                      Ret ((r =? 0) && (0 <=? size), size)
                                    else Ret (false, 0)) in
          let* written := (if ready && (st_size <? kSessionLogLimit) then
                             write_loop fuel fd (take (Z.to_nat (kSessionLogLimit - st_size)) data)
                           else Ret (Some [])) in
          match written with
          | None => Ret None
          | Some _ =>
              let* _ := (if ready && durable then fioc (Fsync fd) else Ret 0) in
              let* _ := fioc (Flock fd false) in
              let* _ := fioc (Close fd) in
              Ret (Some tt)
          end
    end.

Definition reset_session_log (fuel : nat) (path : text) : fprog (option unit) :=
  write_session_log fuel path [] true false.

(** [log_message_v]: [formatted] is the complete output of [vsnprintf], [None] for its
    error; the buffer keeps 2046 characters and a newline. *)
Definition log_message_v (fuel : nat) (path : text) (formatted : option text) (durable : bool)
    : fprog (option unit) :=
  match formatted with
  | None => Ret (Some tt)
  | Some s => write_session_log fuel path (take 2046 s ++ [nl]) false durable
  end.
End Programs.

(** ** The files, as the documentation of the calls describes them *)

Record FS := {
  files : gmap text text;
  fds : gmap Z (text * bool);    (** open descriptors: the file, opened for appending *)
  synced : gset text;            (** files whose contents [fsync] confirmed *)
  locked : gset Z                (** descriptors that hold the exclusive lock *)
}.

(** [Broken]: an answer contradicted the documentation, nothing is claimed any more. *)
Inductive Disk := Intact (s : FS) | Broken.

Definition with_file (p c : text) (s : FS) : FS :=
  {| files := <[p := c]> (files s); fds := fds s; synced := synced s ∖ {[p]};
     locked := locked s |}.

Definition fd_open (fd : Z) (p c : text) (app : bool) (s : FS) : FS :=
  {| files := <[p := c]> (files s); fds := <[fd := (p, app)]> (fds s);
     synced := synced s ∖ {[p]}; locked := locked s ∖ {[fd]} |}.

Definition content (s : FS) (p : text) : text := default [] (files s !! p).

(** Effect of one call with its answer; [None]: the answer is not a documented one. *)
Definition fs_effect (s : FS) (e : event fio_ret) : option FS :=
  match e with
  | Ev (Open p m) fd =>
      Some (if fd <? 0 then s else
              fd_open fd p (if bool_decide (m = Truncating) then [] else content s p)
                (negb (bool_decide (m = Truncating))) s)
  | Ev (Write fd data) (n, _) =>
      match fds s !! fd with
      | Some (p, _) => if n <=? 0 then Some s
                  else if Z.of_nat (length data) <? n then None
                  else Some (with_file p (content s p ++ take (Z.to_nat n) data) s)
      | None => None
      end
  | Ev (Fsync fd) rc =>
      match fds s !! fd with
      | Some (p, _) => Some (if rc =? 0 then {| files := files s; fds := fds s;
                                           synced := synced s ∪ {[p]}; locked := locked s |}
                            else s)
      | None => None
      end
  | Ev (Close fd) _ => Some {| files := files s; fds := delete fd (fds s);
                              synced := synced s; locked := locked s ∖ {[fd]} |}
  | Ev (Rename a b) rc =>
      if rc =? 0 then
        match files s !! a with
        | Some c => Some {| files := <[b := c]> (delete a (files s)); fds := fds s;
                            synced := synced s; locked := locked s |}
        | None => None
        end
      else Some s
  | Ev (Unlink p) rc =>
      Some (if rc =? 0 then {| files := delete p (files s); fds := fds s;
                               synced := synced s; locked := locked s |}
            else s)
  | Ev (Ftruncate fd) rc =>
      match fds s !! fd with
      | Some (p, _) => Some (if rc =? 0 then with_file p [] s else s)
      | None => None
      end
  | Ev (Fstat fd) (rc, size) =>
      match fds s !! fd with
      | Some (p, _) => if (rc =? 0) && negb (size =? Z.of_nat (length (content s p)))
                  then None else Some s
      | None => None
      end
  | Ev (Flock fd ex) (rc, _) =>
      Some {| files := files s; fds := fds s; synced := synced s;
              locked := if (rc =? 0) && ex then locked s ∪ {[fd]}
                        else if ex then locked s else locked s ∖ {[fd]} |}
  | Ev (ReadFile p limit) r =>
      match r with
      | Some (d, false) => if bool_decide (files s !! p <> None /\ d = take limit (content s p))
                           then Some s else None
      | _ => Some s
      end
  end.

(** A file opened for appending may be shared with another thread: changing it needs the
    lock. *)
Definition may_change (s : FS) (fd : Z) : bool :=
  match fds s !! fd with Some (_, true) => bool_decide (fd ∈ locked s) | _ => true end.

(** A rename moves only data that [fsync] has confirmed since its last change. *)
Definition call_ok (s : FS) (e : event fio_ret) : bool :=
  match e with
  | Ev (Rename a _) _ => bool_decide (a ∈ synced s)
  | Ev (Write fd _) _ | Ev (Ftruncate fd) _ => may_change s fd
  | _ => true
  end.

Definition fs_step (allowed : FS -> bool) (d : Disk) (e : event fio_ret) : option Disk :=
  match d with
  | Broken => Some Broken
  | Intact s =>
      if call_ok s e then
        match fs_effect s e with
        | Some s' => if allowed s' then Some (Intact s') else None
        | None => Some Broken
        end
      else None
  end.

(** At every moment the file holds its old or its new contents. *)
Definition old_or_new (path : text) (old : option text) (new : text) (s : FS) : bool :=
  bool_decide (files s !! path = old \/ files s !! path = Some new).

(** At every moment the file respects the limit and, unless it is reset, keeps what it
    had. *)
Definition bounded_log (path old : text) (reset : bool) (s : FS) : bool :=
  (reset || bool_decide (old `prefix_of` content s path)) &&
  (Z.of_nat (length (content s path)) <=? kSessionLogLimit).

Lemma broken_wp {A} allowed (p : fprog A) (Q : A -> Disk -> Prop) :
  (forall a, Q a Broken) -> wp (fs_step allowed) p Broken Q.
Proof. intros H. by apply (wp_absorbing _ Broken). Qed.

Ltac broken := intros ?; first [done | by apply broken_wp].

(** One call: its effect is allowed, and the rest is verified from there. *)
Lemma fs_call {A} allowed c (k : fio_ret c -> fprog A) s Q :
  (forall a, Q a Broken) ->
  (forall r, call_ok s (Ev c r) = true) ->
  (forall r s', fs_effect s (Ev c r) = Some s' -> allowed s' = true /\
     wp (fs_step allowed) (k r) (Intact s') Q) ->
  wp (fs_step allowed) (Call c k) (Intact s) Q.
Proof.
  intros HB Hr H. cbn [wp]. intros r. unfold fs_step at 1. rewrite Hr. destruct (fs_effect s (Ev c r)) as [s'|] eqn:E.
  - destruct (H r s' E) as [-> ?]. done.
  - by apply broken_wp.
Qed.

Lemma content_with p c s : content (with_file p c s) p = c.
Proof. unfold content, with_file; simpl. by rewrite lookup_insert_eq. Qed.

Lemma files_insert_insert p c c' s :
  files (with_file p c' (with_file p c s)) = <[p := c']> (files s).
Proof. simpl. by rewrite insert_insert_eq. Qed.

(** [s'] is [s] with [k] characters of the data appended to the file [p] that held [c0]. *)
Definition written (s' s : FS) (p c0 : text) (k : nat) (data : text) : Prop :=
  files s' = <[p := c0 ++ take k data]> (files s) /\ fds s' = fds s /\ locked s' = locked s.

Lemma written_0 s p c0 data : files s !! p = Some c0 -> written s s p c0 0 data.
Proof. intros H. unfold written. by rewrite take_0, app_nil_r, insert_id. Qed.

Lemma written_step s p c0 n k data s' :
  (n <= length data)%nat ->
  written s' (with_file p (c0 ++ take n data) s) p (c0 ++ take n data) k (drop n data) ->
  written s' s p c0 (n + k) data.
Proof.
  intros Hn (Hf & Hd & Hl). unfold written. rewrite Hf, Hd, Hl. simpl.
  rewrite insert_insert_eq, <- app_assoc.
  split; [|done]. do 2 f_equal. rewrite <- (take_drop n data) at 3.
  rewrite take_app, take_take, length_take, Nat.min_r by lia. f_equal. f_equal. lia.
Qed.

(** What the write loop does to the file behind the descriptor. *)
Lemma write_loop_spec allowed fuel fd p app data s c0 (Q : option text -> Disk -> Prop) :
  fds s !! fd = Some (p, app) -> may_change s fd = true -> files s !! p = Some c0 ->
  (forall a, Q a Broken) ->
  (forall k s', written s' s p c0 k data -> allowed s' = true) ->
  (forall k r s', written s' s p c0 k data -> (r = Some [] -> (length data <= k)%nat) ->
     Q r (Intact s')) ->
  wp (fs_step allowed) (write_loop fuel fd data) (Intact s) Q.
Proof.
  intros Hfd Hm Hc HB. revert data s c0 Hfd Hm Hc.
  induction fuel as [|f IH]; intros data s c0 Hfd Hm Hc Hall HQ.
  { destruct data; (apply (HQ 0%nat); [by apply written_0|done]). }
  destruct data as [|x data]; [by apply (HQ 0%nat); [apply written_0|]|].
  cbn [write_loop]. apply fs_call; [done|done|].
  intros [n e] s'. cbn [fs_effect]. rewrite Hfd.
  destruct (n <=? 0) eqn:En; [|destruct (_ <? n) eqn:El; [done|]].
  - intros [= <-]. split; [by apply (Hall 0%nat), written_0|]. cbn [bindp].
    destruct ((n <? 0) && (e =? EINTR)); [by apply (IH _ _ c0)|].
    by apply (HQ 0%nat); [apply written_0|].
  - intros [= <-]. assert (Hcont : content s p = c0) by (unfold content; by rewrite Hc).
    apply Z.leb_gt in En. apply Z.ltb_ge in El. rewrite Hcont. split; [by apply (Hall (Z.to_nat n))|].
    cbn [bindp]. replace (n <? 0) with false by lia.
    apply (IH _ _ (c0 ++ take (Z.to_nat n) (x :: data))); [done|done|simpl; by rewrite lookup_insert_eq|..].
    + intros k s'' H. eapply Hall, written_step; [|exact H]. lia.
    + intros k r s'' H Hr. eapply HQ; [eapply written_step; [|exact H]; lia|].
      intros ->. specialize (Hr eq_refl). rewrite length_drop in Hr. simpl in *. lia.
Qed.

Lemma pending_ne path : pending_path path <> path.
Proof.
  intros H. apply (f_equal length) in H. unfold pending_path in H. rewrite length_app in H.
  simpl in H. lia.
Qed.

(** What [atomic_write] leaves behind. *)
Definition replaced (path data : text) (s0 : FS) (r : option bool) (d : Disk) : Prop :=
  match d with
  | Broken => True
  | Intact s =>
      (forall p, p <> path -> p <> pending_path path -> files s !! p = files s0 !! p) /\
      match r with
      | Some true => files s !! path = Some data /\ files s !! pending_path path = None
      | _ => files s !! path = files s0 !! path
      end
  end.

Lemma allowed_old path old new s : files s !! path = old -> old_or_new path old new s = true.
Proof. intros H. apply bool_decide_eq_true. by left. Qed.

(** Once the pending file is closed and only removed. *)
Lemma discard_spec path data s0 s :
  files s !! path = files s0 !! path ->
  (forall p, p <> path -> p <> pending_path path -> files s !! p = files s0 !! p) ->
  wp (fs_step (old_or_new path (files s0 !! path) data))
    (bindp (fioc (Unlink (pending_path path))) (fun _ => Ret (Some false))) (Intact s)
    (replaced path data s0).
Proof.
  intros Hp Ho. pose proof (pending_ne path). apply fs_call; [done|done|].
  intros r s' [= <-]. destruct (r =? 0); split; cbn [wp replaced files];
    rewrite ?lookup_delete_ne by done; try (by apply allowed_old);
    try (apply allowed_old; simpl; by rewrite lookup_delete_ne).
  - split; [|done]. intros p H1 H2. rewrite lookup_delete_ne by done. by apply Ho.
  - done.
Qed.

(** The data is in the pending file and synced: rename it, or discard it. *)
Lemma commit_spec path data s0 s (ok : bool) :
  (forall p, p <> path -> p <> pending_path path -> files s !! p = files s0 !! p) ->
  files s !! path = files s0 !! path ->
  (ok = true -> files s !! pending_path path = Some data /\ pending_path path ∈ synced s) ->
  wp (fs_step (old_or_new path (files s0 !! path) data))
    (bindp (if ok then bindp (fioc (Rename (pending_path path) path)) (fun rc => Ret (rc =? 0))
            else Ret false)
       (fun ok => if ok : bool then Ret (Some true)
                  else bindp (fioc (Unlink (pending_path path))) (fun _ => Ret (Some false))))
    (Intact s) (replaced path data s0).
Proof.
  intros Hoth Hkeep Hok. pose proof (pending_ne path) as Hne.
  destruct ok; [|by apply discard_spec]. destruct Hok as [Hf Hs]; [done|].
  apply wp_bind, fs_call; [broken| |].
  { intros r. by apply bool_decide_eq_true. }
  intros r s'. cbn [fs_effect]. rewrite Hf. destruct (r =? 0).
  - intros [= <-]. split.
    + apply bool_decide_eq_true. right. simpl. by rewrite lookup_insert_eq.
    + cbn [wp]. cbn [wp replaced files]. split; [|split].
      * intros p H1 H2. rewrite lookup_insert_ne, lookup_delete_ne by done. by apply Hoth.
      * by rewrite lookup_insert_eq.
      * rewrite lookup_insert_ne by done. by apply lookup_delete_eq.
  - intros [= <-]. split; [by apply allowed_old|]. cbn [wp]. by apply discard_spec.
Qed.

Lemma atomic_write_wp fuel path data s0 :
  wp (fs_step (old_or_new path (files s0 !! path) data)) (atomic_write fuel path data)
    (Intact s0) (replaced path data s0).
Proof.
  pose proof (pending_ne path) as Hne. set (pend := pending_path path) in *.
  unfold atomic_write. fold pend. apply fs_call; [done|done|].
  intros fd s1. cbn [fs_effect]. destruct (fd <? 0).
  { intros [= <-]. split; [by apply allowed_old|]. by split. }
  intros [= <-]. split; [apply allowed_old; simpl; by apply lookup_insert_ne|].
  apply wp_bind.
  apply (write_loop_spec _ _ _ pend false _ _ []);
    unfold may_change; simpl; rewrite ?lookup_insert_eq; try done.
  { broken. }
  { intros k s' [Hf _]. simpl in Hf. apply allowed_old. by rewrite Hf, insert_insert_eq, lookup_insert_ne. }
  intros k r s' (Hf & Hd & _) Hr. simpl in Hf, Hd. rewrite insert_insert_eq in Hf.
  assert (Hkeep : files s' !! path = files s0 !! path) by (rewrite Hf; by apply lookup_insert_ne).
  assert (Hoth : forall p, p <> path -> p <> pend -> files s' !! p = files s0 !! p).
  { intros p _ Hp. rewrite Hf. by apply lookup_insert_ne. }
  destruct r as [[|x rest]|]; [|..|by split].
  - specialize (Hr eq_refl). rewrite take_ge in Hf by done.
    rewrite bool_decide_true by done. apply wp_bind.
    apply fs_call; [broken|done|].
    intros rc s2. cbn [fs_effect]. rewrite Hd, lookup_insert_eq. intros [= <-].
    split; [destruct (rc =? 0); by apply allowed_old|]. cbn [wp].
    apply fs_call; [broken|done|].
    intros crc s3 [= <-]. split; [destruct (rc =? 0); by apply allowed_old|].
    apply commit_spec; simpl; [destruct (rc =? 0); done..|].
    intros Hok. apply andb_true_iff in Hok as [-> _]. simpl. rewrite Hf, lookup_insert_eq. set_solver.
  - rewrite bool_decide_false by done. cbn [bindp wp].
    apply fs_call; [broken|done|].
    intros crc s3 [= <-]. split; [by apply allowed_old|]. by apply commit_spec.
Qed.

(** *** Termination of the loops *)

(** How often the system interrupted a call of the trace. *)
Definition interrupted (e : event fio_ret) : bool :=
  match e with
  | Ev (Write _ _) (n, err) | Ev (Flock _ _) (n, err) => (n <? 0) && (err =? EINTR)
  | _ => false
  end.
Definition interrupts (t : list (event fio_ret)) : nat := length (List.filter interrupted t).

Lemma interrupts_app t1 t2 : interrupts (t1 ++ t2) = (interrupts t1 + interrupts t2)%nat.
Proof. unfold interrupts. by rewrite List.filter_app, length_app. Qed.

Lemma interrupts_cons e t :
  interrupts (e :: t) = ((if interrupted e then 1 else 0) + interrupts t)%nat.
Proof. unfold interrupts. simpl. by destruct (interrupted e). Qed.

Lemma write_loop_returns fuel fd data t r :
  exec (write_loop fuel fd data) t r -> (length data + interrupts t <= fuel)%nat -> r <> None.
Proof.
  revert data t; induction fuel as [|f IH]; intros [|x data] t; cbn [write_loop].
  - by intros [-> ->].
  - intros [-> ->]. simpl. lia.
  - by intros [-> ->].
  - intros ([n err] & t' & -> & H). rewrite interrupts_cons. cbn [interrupted bindp] in *.
    destruct ((n <? 0) && (err =? EINTR)); [intros Hf; apply (IH _ _ H); simpl in *; lia|].
    destruct (n <=? 0) eqn:En; [by destruct H as [_ ->]|]. intros Hf. apply (IH _ _ H).
    rewrite length_drop. apply Z.leb_gt in En. simpl in *. lia.
Qed.

Lemma lock_loop_returns fuel fd t r :
  exec (lock_loop fuel fd) t r -> (S (interrupts t) <= fuel)%nat -> r <> None.
Proof.
  revert t; induction fuel as [|f IH]; intros t; cbn [lock_loop]; [simpl; lia|].
  intros ([n err] & t' & -> & H). rewrite interrupts_cons. cbn [interrupted bindp] in *.
  destruct ((n <? 0) && (err =? EINTR)); [intros Hf; apply (IH _ H); lia|].
  by destruct H as [_ ->].
Qed.

(** A part of an execution returns, whatever it was given: case analysis of what follows. *)
Ltac exec_split H :=
  let t1 := fresh "t" in let t2 := fresh "t" in let a := fresh "a" in
  let H1 := fresh "He" in apply exec_bind in H as (t1 & t2 & a & -> & H1 & H).

(** [atomic_write] returns: it can only be kept busy by the system interrupting its
    writes, so rounds for every byte and every interruption are enough. *)
Theorem atomic_write_terminates fuel path data t r :
  exec (atomic_write fuel path data) t r -> (length data + interrupts t <= fuel)%nat ->
  exists b, r = Some b.
Proof.
  intros H Hf. cut (r <> None); [by destruct r as [b|]; [exists b|]|].
  unfold atomic_write in H. exec_split H. destruct (a <? 0); [by destruct H as [_ ->]|].
  exec_split H. rewrite !interrupts_app in Hf.
  apply write_loop_returns in He0 as Hr; [|lia]. destruct a0 as [rest|]; [|done].
  exec_split H. exec_split H. exec_split H.
  destruct a2; [by destruct H as [_ ->]|]. exec_split H. by destruct H as [_ ->].
Qed.

(** *** The session log *)

Section SessionLog.
Context (path data : text) (reset : bool) (s0 : FS).
Let old := content s0 path.
Let allowed := bounded_log path old reset.

(** What a logging call leaves: the old contents (nothing after a reset) and a prefix of
    the new line, never more than the limit. *)
Definition logged (s : FS) : Prop :=
  (forall p, p <> path -> files s !! p = files s0 !! p) /\
  Z.of_nat (length (content s path)) <= kSessionLogLimit /\
  exists base k, (base = old \/ (reset = true /\ base = [])) /\
    content s path = base ++ take k data.

Definition log_post (d : Disk) : Prop :=
  match d with Intact s => logged s | Broken => True end.

Lemma logged_allowed s : logged s -> allowed s = true.
Proof.
  intros (_ & Hl & base & k & Hb & Hc). unfold allowed, bounded_log. apply andb_true_iff.
  split; [|by apply Z.leb_le]. destruct Hb as [->|[-> _]]; [|done].
  apply orb_true_iff. right. apply bool_decide_eq_true. rewrite Hc. by exists (take k data).
Qed.

Lemma logged_files s s' : files s' = files s -> logged s -> logged s'.
Proof. intros Hf. unfold logged, content. by rewrite Hf. Qed.

(** A call that changes no file. *)
Lemma log_call {A} c (k : fio_ret c -> fprog A) s Q :
  logged s -> (forall a, Q a Broken) -> (forall r, call_ok s (Ev c r) = true) ->
  (forall r s', fs_effect s (Ev c r) = Some s' -> files s' = files s /\
     (logged s' -> wp (fs_step allowed) (k r) (Intact s') Q)) ->
  wp (fs_step allowed) (Call c k) (Intact s) Q.
Proof.
  intros Hs HB Hok H. apply fs_call; [done|done|]. intros r s' E. destruct (H r s' E) as [Hf Hw].
  assert (logged s') by by eapply logged_files. split; [by apply logged_allowed|by apply Hw].
Qed.

Lemma lock_loop_spec fuel fd s (Q : option Z -> Disk -> Prop) :
  logged s -> (forall a, Q a Broken) ->
  (forall r s', logged s' -> files s' = files s -> fds s' = fds s ->
     (r = Some 0 -> fd ∈ locked s') -> Q r (Intact s')) ->
  wp (fs_step allowed) (lock_loop fuel fd) (Intact s) Q.
Proof.
  intros Hs HB. revert s Hs. induction fuel as [|f IH]; intros s Hs HQ; [by apply HQ|].
  cbn [lock_loop]. apply log_call; [done|done|done|]. intros [rc err] s' [= <-].
  split; [done|]. intros Hs'. cbn [bindp]. destruct ((rc <? 0) && (err =? EINTR)).
  - apply IH; [done|]. intros r s2 H1 H2 H3 H4. by apply HQ.
  - apply HQ; [done|done|done|]. intros [= ->]. simpl. set_solver.
Qed.

(** Closing: sync, unlock, close change no file. *)
Lemma log_finish fd s (sync : bool) app :
  logged s -> fds s !! fd = Some (path, app) ->
  wp (fs_step allowed)
    (bindp (if sync then fioc (Fsync fd) else Ret 0) (fun _ =>
     bindp (fioc (Flock fd false)) (fun _ => bindp (fioc (Close fd)) (fun _ => Ret (Some tt)))))
    (Intact s) (fun _ => log_post).
Proof.
  intros Hs Hfd.
  assert (Hend : forall s, logged s -> wp (fs_step allowed)
    (bindp (fioc (Flock fd false)) (fun _ => bindp (fioc (Close fd)) (fun _ => Ret (Some tt))))
    (Intact s) (fun _ => log_post)).
  { clear. intros s Hs. apply log_call; [done|done|done|]. intros [rc err] s' [= <-].
    split; [done|]. intros Hs'. apply log_call; [done|done|done|]. intros r s' [= <-].
    by split. }
  destruct sync; [|by apply Hend]. apply log_call; [done|broken|done|].
  intros r s'. cbn [fs_effect]. rewrite Hfd. intros [= <-]. split; [by destruct (r =? 0)|].
  intros Hs'. by apply Hend.
Qed.

(** The line is appended under the lock, cut where the limit is reached. *)
Lemma log_append fuel fd s size (Q : option text -> Disk -> Prop) :
  logged s -> content s path = old \/ reset = true /\ content s path = [] ->
  fds s !! fd = Some (path, true) -> fd ∈ locked s -> is_Some (files s !! path) ->
  size = Z.of_nat (length (content s path)) -> size < kSessionLogLimit ->
  (forall a, Q a Broken) ->
  (forall r s', logged s' -> fds s' = fds s -> Q r (Intact s')) ->
  wp (fs_step allowed) (write_loop fuel fd (take (Z.to_nat (kSessionLogLimit - size)) data))
    (Intact s) Q.
Proof.
  intros Hs Hb Hfd Hl [c Hc] -> Hlt HB HQ.
  assert (Hcont : content s path = c) by (unfold content; by rewrite Hc).
  assert (H : forall k s', written s' s path c k
             (take (Z.to_nat (kSessionLogLimit - Z.of_nat (length c))) data) -> logged s').
  { intros k s' (Hf & _). destruct Hs as (Ho & _). rewrite Hcont in *. unfold logged, content.
    rewrite Hf, lookup_insert_eq. simpl. split; [|split].
    - intros p Hp. rewrite lookup_insert_ne by done. by apply Ho.
    - rewrite length_app, !length_take. unfold kSessionLogLimit in *. simpl. lia.
    - eexists c, _. split; [done|]. by rewrite take_take. }
  rewrite Hcont. eapply write_loop_spec; [exact Hfd| |exact Hc|done|..].
  - unfold may_change. rewrite Hfd. by apply bool_decide_eq_true.
  - intros k s' Hw. by eapply logged_allowed, H.
  - intros k r s' Hw _. apply HQ; [by eapply H|]. by destruct Hw as (_ & -> & _).
Qed.

(** After the file was stat'ed: append the line and close. *)
Definition log_tail (fuel : nat) (fd : Z) (durable : bool) (st : bool * Z) : fprog (option unit) :=
  (let '(ready, st_size) := st in
   let* written := (if ready && (st_size <? kSessionLogLimit) then
                      write_loop fuel fd (take (Z.to_nat (kSessionLogLimit - st_size)) data)
                    else Ret (Some [])) in
   match written with
   | None => Ret None
   | Some _ =>
       let* _ := (if ready && durable then fioc (Fsync fd) else Ret 0) in
       let* _ := fioc (Flock fd false) in
       let* _ := fioc (Close fd) in
       Ret (Some tt)
   end)%prog.

Lemma log_stat fuel fd s durable :
  logged s -> content s path = old \/ reset = true /\ content s path = [] ->
  is_Some (files s !! path) -> fds s !! fd = Some (path, true) -> fd ∈ locked s ->
  wp (fs_step allowed)
    (bindp (bindp (fioc (Fstat fd)) (fun '(r, size) => Ret ((r =? 0) && (0 <=? size), size)))
       (log_tail fuel fd durable)) (Intact s) (fun _ => log_post).
Proof.
  intros Hs Hb Hsome Hfd Hl. apply wp_bind, log_call; [done|broken|done|].
  intros [r size] s'. cbn [fs_effect]. rewrite Hfd.
  destruct ((r =? 0) && negb _) eqn:E; [done|]. intros [= <-]. split; [done|]. intros _.
  cbn [wp bindp]. unfold log_tail. apply wp_bind.
  destruct (((r =? 0) && (0 <=? size)) && (size <? kSessionLogLimit)) eqn:Er.
  - breflect. destruct Er as [[-> Hsz] Hlt]. destruct E as [?|E]; [done|]. apply log_append; try done.
    + broken.
    + intros [rest|] s' Hs' Hd'; [|done]. eapply log_finish; [done|]. by rewrite Hd'.
  - by eapply log_finish.
Qed.

(** Everything after the lock was taken. *)
Lemma log_locked fuel fd s durable (b : bool) :
  b = reset -> logged s -> files s !! path = Some old -> fds s !! fd = Some (path, true) -> fd ∈ locked s ->
  wp (fs_step allowed)
    (bindp (if b then bindp (fioc (Ftruncate fd)) (fun r => Ret (r =? 0)) else Ret true)
       (fun reset_ok => bindp (if reset_ok : bool then
            bindp (fioc (Fstat fd)) (fun '(r, size) => Ret ((r =? 0) && (0 <=? size), size))
          else Ret (false, 0)) (log_tail fuel fd durable)))
    (Intact s) (fun _ => log_post).
Proof.
  intros Hb Hs Hc Hfd Hl. apply wp_bind. destruct b.
  - apply fs_call; [broken|intros r; unfold call_ok, may_change; rewrite Hfd; by apply bool_decide_eq_true|].
    intros r s'. cbn [fs_effect]. rewrite Hfd. intros [= <-].
    destruct (r =? 0) eqn:E; cbn [bindp wp]; rewrite ?E.
    + assert (Hs' : logged (with_file path [] s)).
      { destruct Hs as (Ho & _). unfold logged. rewrite content_with. split; [|split].
        - intros p Hp. simpl. rewrite lookup_insert_ne by done. by apply Ho.
        - done.
        - exists [], 0%nat. auto. }
      split; [by apply logged_allowed|]. apply log_stat; [done|right; by rewrite content_with| |done|done].
      simpl. rewrite lookup_insert_eq. eauto.
    + split; [by apply logged_allowed|]. by eapply (log_finish _ _ false).
  - apply log_stat; [done|left|rewrite Hc; eauto|done|done]. unfold content. by rewrite Hc.
Qed.

Lemma write_session_log_wp fuel durable :
  Z.of_nat (length old) <= kSessionLogLimit ->
  wp (fs_step allowed) (write_session_log fuel path data reset durable) (Intact s0)
    (fun _ => log_post).
Proof.
  intros Hlim. assert (H0 : logged s0).
  { split; [done|]. split; [done|]. exists old, 0%nat. rewrite take_0, app_nil_r. auto. }
  unfold write_session_log. apply fs_call; [done|done|].
  intros fd s1. cbn [fs_effect]. destruct (fd <? 0).
  { intros [= <-]. split; [by apply logged_allowed|done]. }
  rewrite bool_decide_false by done. cbn [negb]. intros [= <-].
  assert (H1 : logged (fd_open fd path (content s0 path) true s0)).
  { destruct H0 as (_ & Hl & base & k & Hb & Hc).
    unfold logged, content, fd_open in *; simpl. rewrite lookup_insert_eq.
    split; [intros p Hp; by apply lookup_insert_ne|]. split; [done|]. by exists base, k. }
  split; [by apply logged_allowed|].
  apply wp_bind, lock_loop_spec; [done|broken|].
  intros r s2 H2 Hf2 Hd2 Hlock. simpl in Hf2, Hd2.
  assert (Hfd : fds s2 !! fd = Some (path, true)) by (by rewrite Hd2, lookup_insert_eq).
  assert (Hc2 : files s2 !! path = Some old) by (by rewrite Hf2, lookup_insert_eq).
  destruct r as [rc|]; [|done]. destruct (rc =? 0) eqn:Erc; cbn [negb].
  2:{ apply log_call; [done|done|done|]. intros r s3 [= <-]. by split. }
  apply Z.eqb_eq in Erc as ->. apply (log_locked fuel fd s2 durable reset); auto.
Qed.
End SessionLog.

(** ** Theorems *)

(** Whatever the system answers, a logging call appends a prefix of its line to what
    the log held (to nothing when it resets the log), only while it holds the lock, touches
    no other file, and at every moment the log has at most 64 KiB and keeps its
    beginning. *)
Theorem session_log_bounded fuel path data reset durable t r s0 :
  Z.of_nat (length (content s0 path)) <= kSessionLogLimit ->
  exec (write_session_log fuel path data reset durable) t r ->
  exists d, monitor (fs_step (bounded_log path (content s0 path) reset)) (Intact s0) t = Some d /\
            log_post path data reset s0 d.
Proof.
  intros Hlim. revert t r. apply wp_sound. by apply write_session_log_wp.
Qed.

(** A console whose calls succeed; writes take at most 5 bytes, the first is interrupted. *)
Definition sample_disk (state : FS * bool) (c : fio) : fio_ret c * (FS * bool) :=
  let '(s, woken) := state in
  let r : fio_ret c :=
    match c return fio_ret c with
    | Open _ _ => 3
    | Write _ data => if woken then (Z.min 5 (Z.of_nat (length data)), 0) else (-1, EINTR)
    | Fstat fd => (0, match fds s !! fd with
                      | Some (p, _) => Z.of_nat (length (content s p))
                      | None => 0
                      end)
    | ReadFile p n => match files s !! p with Some d => Some (take n d, false) | None => None end
    | Flock _ _ => (0, 0)
    | Fsync _ | Close _ | Rename _ _ | Unlink _ | Ftruncate _ => 0
    end in
  (r, (default s (fs_effect s (Ev c r)), match c with Write _ _ => true | _ => woken end)).

Definition sample_fs : FS :=
  {| files := <[str "a" := str "old"]> ∅; fds := ∅; synced := ∅; locked := ∅ |}.

Lemma session_log_bounded_witness :
  exists d, monitor (fs_step (bounded_log (str "a") (str "old") false)) (Intact sample_fs)
    (run sample_disk (write_session_log 9 (str "a") (str "new line") false true)
       (sample_fs, false)).2 = Some d /\ log_post (str "a") (str "new line") false sample_fs d.
Proof.
  exact (session_log_bounded 9 (str "a") (str "new line") false true _ _ sample_fs
    ltac:(vm_compute; discriminate) (run_exec sample_disk _ (sample_fs, false))).
Defined.

Lemma atomic_write_terminates_witness :
  exists b, (run sample_disk (atomic_write 9 (str "a") (str "new line"))
    (sample_fs, false)).1.1 = Some b.
Proof.
  exact (atomic_write_terminates 9 (str "a") (str "new line") _ _
    (run_exec sample_disk _ (sample_fs, false)) ltac:(vm_compute; repeat constructor)).
Defined.

Example sample_write :
  (run sample_disk (atomic_write 9 (str "a") (str "new line")) (sample_fs, false)).1.1 = Some true.
Proof. vm_compute. reflexivity. Qed.
