(* ===== verification/Settings.v ===== *)
(** The settings of the overlay over HTTP: [include/common_fps/settings.hpp] and
    [src/core/settings.cpp].  The form parser, the store that keeps the file and the memory
    in step, and the answer to one bounded request. *)
From S2P Require Import Prelude Effects Float Types Text Config FileIo.

Definition kMaxSettingsBytes : nat := 4096.
Definition kSettingsHost : text := str "127.0.0.1:39029".

Definition crlf : text := [chr 13; chr 10].

(** ** Searching in text: [find], [rfind], [substr] *)

Fixpoint starts_with (p s : text) : bool :=
  match p, s with
  | [], _ => true
  | c :: p', d :: s' => ceq c d && starts_with p' s'
  | _ :: _, [] => false
  end.

Fixpoint find_at (needle s : text) : option nat :=
  if starts_with needle s then Some 0%nat
  else match s with [] => None | _ :: s' => S <$> find_at needle s' end.

(** [s.find(needle, pos)] *)
Definition find (needle s : text) (pos : nat) : option nat :=
  if (length s <? pos)%nat then None else (fun i => (pos + i)%nat) <$> find_at needle (drop pos s).

Fixpoint rfind_char (c : ascii) (s : text) : option nat :=
  match s with
  | [] => None
  | d :: s' => match rfind_char c s' with
               | Some i => Some (S i)
               | None => if ceq d c then Some 0%nat else None
               end
  end.

Definition substr (pos n : nat) (s : text) : text := take n (drop pos s).

(** ** The form *)

(** [result.push_back(c)] of a printable character. *)
Definition push_char (z : Z) (rest : option text) : option text :=
  if (z <? 32) || (126 <? z) then None
  else match rest with Some r => Some (chr z :: r) | None => None end.

(** The source's [hex] is [Text.hexval]. *)
Fixpoint unescape (s : text) : option text :=
  match s with
  | [] => Some []
  | c :: s' =>
      if code c =? 37 then
        match s' with
        | a :: b :: rest =>
            if (hexval a <? 0) || (hexval b <? 0) then None
            else push_char (hexval a * 16 + hexval b) (unescape rest)
        | _ => None
        end
      else push_char (if code c =? 43 then 32 else code c) (unescape s')
  end.

(** The digits' value; [None] at a character that is no digit. *)
Fixpoint digits_int (s : text) (n : Z) : option Z :=
  match s with
  | [] => Some n
  | c :: s' => if isdigit c then digits_int s' (n * 10 + code c - 48) else None
  end.

Definition integer (s : text) (min max : Z) : option Z :=
  if bool_decide (s = []) || (3 <? length s)%nat then None
  else match digits_int s 0 with
       | Some n => if (n <? min) || (max <? n) then None else Some n
       | None => None
       end.

(** The loop over the fields; [fuel] bounds the number of [&]. *)
Fixpoint parse_fields (fuel : nat) (body : text) (fields : gmap text text)
    : option (gmap text text) :=
  match fuel with
  | O => None
  | S f =>
      let '(part, more) := match break_at (chr 38) body with
                           | Some (p, r) => (p, Some r)
                           | None => (body, None)
                           end in
      match break_at (chr 61) part with
      | None => None
      | Some (k, v) =>
          match unescape k, unescape v with
          | Some key, Some value =>
              match fields !! key with
              | Some _ => None
              | None =>
                  let fields' := <[key := value]> fields in
                  match more with
                  | None => Some fields'
                  | Some [] => None
                  | Some rest => parse_fields f rest fields'
                  end
              end
          | _, _ => None
          end
      end
  end.

Definition form_keys : list text :=
  [str "corner"; str "font_size"; str "margin_x"; str "margin_y"; str "show_label";
   str "label_color"; str "value_color"].

Definition form_corner (s : text) : option Corner :=
  if teq s (str "top_left") then Some TopLeft
  else if teq s (str "top_right") then Some TopRight
  else if teq s (str "bottom_left") then Some BottomLeft
  else if teq s (str "bottom_right") then Some BottomRight
  else None.

Definition form_color (color : text) : option Z :=
  match color with
  | c :: digits =>
      if (length color =? 7)%nat && (code c =? 35) && forallb (fun d => negb (hexval d <? 0)) digits
      then Some (hex_to_Z digits) else None
  | [] => None
  end.

Definition form_field (fields : gmap text text) (key : string) : text :=
  default [] (fields !! str key).

Definition config_of_fields (fields : gmap text text) : option OverlayConfig :=
  if negb (size fields =? 7)%nat then None
  else if negb (forallb (fun k => bool_decide (is_Some (fields !! k))) form_keys) then None
  else
    match form_corner (form_field fields "corner") with
    | None => None
    | Some c =>
        match integer (form_field fields "font_size") kMinFontSize kMaxFontSize,
              integer (form_field fields "margin_x") 0 240,
              integer (form_field fields "margin_y") 0 240,
              integer (form_field fields "show_label") 0 1 with
        | Some fs, Some mx, Some my, Some lbl =>
            match form_color (form_field fields "label_color"),
                  form_color (form_field fields "value_color") with
            | Some lc, Some vc =>
                Some {| corner := c; font_size := fs; margin_x := f32_of_Z mx;
                        margin_y := f32_of_Z my; show_label := negb (lbl =? 0);
                        label_color := lc; value_color := vc |}
            | _, _ => None
            end
        | _, _, _, _ => None
        end
    end.

Definition parse_settings_form (body : text) : option OverlayConfig :=
  if bool_decide (body = []) || (512 <? length body)%nat then None
  else match parse_fields (length body) body ∅ with
       | Some fields => config_of_fields fields
       | None => None
       end.

(** ** The store *)

Record SettingsStore := { path_ : text; config_ : OverlayConfig }.

Section Store.
Local Open Scope prog_scope.

(** The constructor: at most 4096 bytes of a readable file are parsed. *)
Definition open_store (path : text) : fprog SettingsStore :=
  let* f := fioc (ReadFile path (kMaxSettingsBytes + 1)) in
  match f with
  | None => Ret {| path_ := path; config_ := default_config |}
  | Some (data, error) =>
      let ok := negb error && (length data <=? kMaxSettingsBytes)%nat in
      Ret {| path_ := path;
             config_ := if ok then parse_config_text data else default_config |}
  end.

(** [SettingsStore::get] and [save] hold the mutex from their first to their last access. *)
Definition get (store : SettingsStore) : OverlayConfig := config_ store.

Definition save (fuel : nat) (store : SettingsStore) (config : OverlayConfig)
    : fprog (option (bool * SettingsStore)) :=
  let next := sanitize_config config in
  let* ok := atomic_write fuel (path_ store) (serialize_config next) in
  match ok with
  | None => Ret None
  | Some true => Ret (Some (true, {| path_ := path_ store; config_ := next |}))
  | Some false => Ret (Some (false, store))
  end.
End Store.

(** ** HTTP *)

Definition plain_type : text := str "text/plain; charset=utf-8".
Definition html_type : text := str "text/html; charset=utf-8".

Definition response (status : Z) (reason body type : text) : text :=
  str "HTTP/1.1 " ++ dec status ++ str " " ++ reason ++
  crlf ++ str "Content-Type: " ++ type ++ crlf ++ str "Content-Length: " ++
  dec (Z.of_nat (length body)) ++
  crlf ++ str "Connection: close" ++ crlf ++ str "Cache-Control: no-store" ++
  crlf ++ str "X-Content-Type-Options: nosniff" ++ crlf ++ str "X-Frame-Options: DENY" ++
  crlf ++ str "Content-Security-Policy: default-src 'self'; script-src 'self' 'unsafe-inline'; " ++
  str "style-src 'self' 'unsafe-inline'; connect-src 'self'; img-src 'self' data:; frame-ancestors 'none'" ++
  crlf ++ crlf ++ body.

Definition bad : text := response 400 (str "Bad Request") (str "Invalid request" ++ [nl]) plain_type.
Definition forbidden (why : string) : text :=
  response 403 (str "Forbidden") (str why ++ [nl]) plain_type.

Definition is_space (c : ascii) : bool := code c =? 32.
(** Blanks are removed from both ends of a header value. *)
Definition strip_blanks (s : text) : text := rev (drop_while is_space (rev (drop_while is_space s))).

(** The header lines from [pos] up to [split]; [pos + 2] wraps to 1 when no line end is
    found.  [None]: the request is bad. *)
Fixpoint parse_headers (fuel : nat) (request : text) (pos split : nat)
    (headers : gmap text text) : option (gmap text text) :=
  if (split <=? pos)%nat then Some headers
  else match fuel with
       | O => None
       | S f =>
           let '(h, pos') := match find crlf request pos with
                             | Some e => (substr pos (e - pos) request, (e + 2)%nat)
                             | None => (drop pos request, 1%nat)
                             end in
           match break_at (chr 58) h with
           | None => None
           | Some (k, v) =>
               let key := map tolower k in
               match headers !! key with
               | Some _ => None
               | None => parse_headers f request pos' split (<[key := strip_blanks v]> headers)
               end
           end
       end.

Record Head := { hd_method : text; hd_path : text; hd_headers : gmap text text; hd_body : text }.

(** Everything up to the header map; [None] where the code answers [bad()]. *)
Definition parse_head (request : text) : option Head :=
  if (kMaxSettingsBytes <? length request)%nat then None
  else match find (crlf ++ crlf) request 0, find crlf request 0 with
  | Some split, Some line_end =>
      let line := substr 0 line_end request in
      match find (str " ") line 0, rfind_char (chr 32) line with
      | Some space, Some last =>
          let version := drop (last + 1) line in
          if (space =? last)%nat ||
             negb (teq version (str "HTTP/1.1")) && negb (teq version (str "HTTP/1.0"))
          then None
          else match parse_headers (length request) request (line_end + 2) split ∅ with
               | Some headers =>
                   Some {| hd_method := substr 0 space line;
                           hd_path := substr (space + 1) (last - space - 1) line;
                           hd_headers := headers; hd_body := drop (split + 4) request |}
               | None => None
               end
      | _, _ => None
      end
  | _, _ => None
  end.

Definition header (h : Head) (key : string) : text := default [] (hd_headers h !! str key).
Definition has_header (h : Head) (key : string) : bool := bool_decide (is_Some (hd_headers h !! str key)).

(** The declared length: 0 without a header; [None] when it is not a number up to 512. *)
Definition declared_length (h : Head) : option Z :=
  if has_header h "content-length" then integer (header h "content-length") 0 512 else Some 0.

Section Http.
Local Open Scope prog_scope.

Definition post_config (fuel : nat) (h : Head) (store : SettingsStore)
    : fprog (option (text * SettingsStore)) :=
  if negb (teq (header h "x-commonfps") (str "1")) ||
     negb (teq (header h "content-type") (str "application/x-www-form-urlencoded")) ||
     (has_header h "origin" && negb (teq (header h "origin") (str "http://" ++ kSettingsHost)))
  then Ret (Some (forbidden "Invalid origin", store))
  else match parse_settings_form (hd_body h) with
       | None => Ret (Some (response 422 (str "Unprocessable Entity")
                              (str "Invalid settings" ++ [nl]) plain_type, store))
       | Some config =>
           let* saved := save fuel store config in
           match saved with
           | None => Ret None
           | Some (false, store') =>
               Ret (Some (response 500 (str "Internal Server Error")
                            (str "Cannot save settings" ++ [nl]) plain_type, store'))
           | Some (true, store') =>
               Ret (Some (response 200 (str "OK") (serialize_config (get store')) plain_type, store'))
           end
       end.

Definition route (fuel : nat) (h : Head) (store : SettingsStore) (page : text)
    : fprog (option (text * SettingsStore)) :=
  let to m p := teq (hd_method h) (str m) && teq (hd_path h) (str p) in
  if negb (teq (header h "host") kSettingsHost) then Ret (Some (forbidden "Invalid host", store))
  else if has_header h "transfer-encoding" then Ret (Some (bad, store))
  else match declared_length h with
  | None => Ret (Some (bad, store))
  | Some len =>
      if negb (len =? Z.of_nat (length (hd_body h))) then Ret (Some (bad, store))
      else if to "GET" "/" then Ret (Some (response 200 (str "OK") page html_type, store))
      else if to "GET" "/api/config" then
        Ret (Some (response 200 (str "OK") (serialize_config (get store)) plain_type, store))
      else if to "POST" "/api/config" then post_config fuel h store
      else Ret (Some (response 404 (str "Not Found") (str "Not found" ++ [nl]) plain_type, store))
  end.

Definition settings_http_response (fuel : nat) (request : text) (store : SettingsStore)
    (page : text) : fprog (option (text * SettingsStore)) :=
  match parse_head request with
  | None => Ret (Some (bad, store))
  | Some h => route fuel h store page
  end.
End Http.
