(* ===== verification/SettingsForm.v ===== *)
(** The settings form: the parser of [Settings] accepts exactly the bodies of a grammar, in
    any order of the fields and with any percent encoding, and what it accepts is a
    configuration that survives a save and a reload. *)
From S2P Require Import Prelude Float Types Text Config FileIo Settings.

(** ** The grammar of the form *)

(** [encodes s e]: [e] is a form encoding of the printable text [s]. *)
Inductive encodes : text -> text -> Prop :=
| enc_nil : encodes [] []
| enc_char c s e : 32 <= code c <= 126 -> code c <> 37 -> code c <> 43 ->
    encodes s e -> encodes (c :: s) (c :: e)
| enc_plus s e : encodes s e -> encodes (chr 32 :: s) (chr 43 :: e)
| enc_hex a b z s e : 0 <= hexval a -> 0 <= hexval b -> z = hexval a * 16 + hexval b ->
    32 <= z <= 126 -> encodes s e -> encodes (chr z :: s) (chr 37 :: a :: b :: e).

(** One [key=value] pair. *)
Definition encodes_pair (kv : text * text) (e : text) : Prop :=
  exists ek ev, e = (ek ++ chr 61 :: ev) /\ encodes kv.1 ek /\ encodes kv.2 ev /\
    (chr 61 ∉ ek) /\ (chr 38 ∉ ek) /\ (chr 38 ∉ ev).

Inductive form_body : list (text * text) -> text -> Prop :=
| form_last kv e : encodes_pair kv e -> form_body [kv] e
| form_more kv l e rest : encodes_pair kv e -> form_body l rest ->
    form_body (kv :: l) (e ++ chr 38 :: rest).

Definition number_text (s : text) (n : Z) : Prop :=
  (1 <= length s <= 3)%nat /\ Forall (fun c => isdigit c = true) s /\ n = digits_val 10 s 0.

Definition color_text (s : text) (z : Z) : Prop :=
  exists d, s = chr 35 :: d /\ length d = 6%nat /\ Forall (fun c => isxdigit c = true) d /\
    z = hex_to_Z d.

(** The seven fields of a configuration, in any order. *)
Definition fields_of (cfg : OverlayConfig) (l : list (text * text)) : Prop :=
  exists fs mx my lb lc vc kx ky kl,
    (l ≡ₚ [(str "corner", corner_name (corner cfg)); (str "font_size", fs); (str "margin_x", mx);
          (str "margin_y", my); (str "show_label", lb); (str "label_color", lc);
          (str "value_color", vc)]) /\
    named_corner (corner cfg) = true /\
    number_text fs (font_size cfg) /\ kMinFontSize <= font_size cfg <= kMaxFontSize /\
    number_text mx kx /\ 0 <= kx <= 240 /\ margin_x cfg = f32_of_Z kx /\
    number_text my ky /\ 0 <= ky <= 240 /\ margin_y cfg = f32_of_Z ky /\
    number_text lb kl /\ 0 <= kl <= 1 /\ show_label cfg = negb (kl =? 0) /\
    color_text lc (label_color cfg) /\ color_text vc (value_color cfg).

(** ** The form parser accepts exactly the grammar *)

Lemma code_eq c z : 0 <= z < 256 -> code c = z <-> c = chr z.
Proof. intros Hz. split; [intros <-; by rewrite chr_code|intros ->; by apply code_chr]. Qed.

Lemma push_char_spec z rest s :
  push_char z rest = Some s <-> 32 <= z <= 126 /\ exists r, rest = Some r /\ s = chr z :: r.
Proof.
  unfold push_char. destruct ((z <? 32) || (126 <? z)) eqn:E; breflect.
  - split; [done|]. intros [? _]. lia.
  - destruct rest as [r|]; split; [intros [= <-]|intros (_ & r' & [= ->] & ->)|done|
      intros (_ & ? & ? & _)]; try done. split; [lia|by exists r].
Qed.

Lemma unescape_sound e s : unescape e = Some s -> encodes s e.
Proof.
  revert s. induction e as [e IH] using (induction_ltof1 _ (@length ascii)). unfold ltof in IH.
  intros s. destruct e as [|c e]; [intros [= <-]; constructor|]. cbn [unescape].
  destruct (code c =? 37) eqn:Ec.
  - apply Z.eqb_eq, code_eq in Ec as ->; [|lia]. destruct e as [|a [|b e]]; try done.
    destruct ((hexval a <? 0) || _) eqn:E; [done|]. breflect.
    intros (Hz & r & Hr & ->)%push_char_spec. apply enc_hex; try lia. apply IH; [simpl; lia|done].
  - intros (Hz & r & Hr & ->)%push_char_spec. apply IH in Hr; [|simpl; lia]. breflect.
    destruct (code c =? 43) eqn:Ep.
    + apply Z.eqb_eq, code_eq in Ep as ->; [|lia]. by constructor.
    + rewrite chr_code. apply Z.eqb_neq in Ep. by constructor.
Qed.

Lemma unescape_complete s e : encodes s e -> unescape e = Some s.
Proof.
  induction 1 as [|c s e H1 H2 H3 _ IH|s e _ IH|a b z s e Ha Hb -> Hz _ IH]; [done|..];
    cbn [unescape].
  - replace (code c =? 37) with false by lia. replace (code c =? 43) with false by lia.
    apply push_char_spec. rewrite chr_code. eauto.
  - change (push_char 32 (unescape e) = Some (chr 32 :: s)). apply push_char_spec.
    split; [lia|eauto].
  - change (code (chr 37) =? 37) with true. cbn iota.
    replace (hexval a <? 0) with false by lia. replace (hexval b <? 0) with false by lia.
    apply push_char_spec. eauto.
Qed.

Lemma ceq_spec c d : ceq c d = true <-> c = d.
Proof. apply Ascii.eqb_eq. Qed.

Lemma break_at_sound c s l r : break_at c s = Some (l, r) -> s = l ++ c :: r /\ c ∉ l.
Proof.
  revert l; induction s as [|d s IH]; intros l; cbn [break_at]; [done|].
  destruct (ceq d c) eqn:E.
  - apply ceq_spec in E as ->. intros [= <- <-]. split; [done|set_solver].
  - assert (d <> c) by (intros ->; rewrite (proj2 (ceq_spec c c)) in E; done).
    destruct (break_at c s) as [[l' r']|]; [|done]. intros [= <- <-].
    destruct (IH l') as [-> Hn]; [done|]. split; [done|].
    apply not_elem_of_cons. auto.
Qed.

Lemma not_in_ceq c s : c ∉ s -> Forall (fun d => ceq d c = false) s.
Proof.
  intros H. apply Forall_forall. intros d Hd. destruct (ceq d c) eqn:E; [|done].
  by apply ceq_spec in E as ->.
Qed.

Lemma break_at_complete c l r : c ∉ l -> break_at c (l ++ c :: r) = Some (l, r).
Proof. intros H. by apply break_at_app, not_in_ceq. Qed.

Lemma break_at_none c s : break_at c s = None <-> c ∉ s.
Proof.
  split.
  - intros H Hin. apply list_elem_of_split in Hin as (l & r & ->).
    revert H. induction l as [|d l IH]; cbn [break_at app].
    + by rewrite (proj2 (ceq_spec c c)).
    + destruct (ceq d c); [done|]. destruct (break_at c (l ++ c :: r)) as [[]|]; [done|auto].
  - induction s as [|d s IH]; intros Hn; cbn [break_at]; [done|].
    destruct (ceq d c) eqn:E; [apply ceq_spec in E as ->; set_solver|].
    rewrite IH; [done|set_solver].
Qed.

(** One pair, as the loop takes it apart. *)
Lemma pair_spec k v part :
  (exists ek ev, break_at (chr 61) part = Some (ek, ev) /\ unescape ek = Some k /\
     unescape ev = Some v) /\ (chr 38 ∉ part) <-> encodes_pair (k, v) part.
Proof.
  split.
  - intros [(ek & ev & Hb & Hk & Hv) Hn]. apply break_at_sound in Hb as [-> He].
    exists ek, ev. rewrite not_elem_of_app, not_elem_of_cons in Hn.
    split_and!; simpl; try done; [by apply unescape_sound..|tauto|tauto].
  - intros (ek & ev & -> & Hk & Hv & H1 & H2 & H3). split.
    + exists ek, ev. split_and!; [by apply break_at_complete|by apply unescape_complete..].
    + rewrite not_elem_of_app, not_elem_of_cons. split_and!; done.
Qed.

Lemma form_body_nonempty l e : form_body l e -> (1 <= length e)%nat.
Proof.
  destruct 1 as [kv e (ek & ev & -> & _)|]; rewrite length_app; simpl; lia.
Qed.

(** [l] adds fields with new, distinct keys to [m0]. *)
Definition adds (l : list (text * text)) (m0 m : gmap text text) : Prop :=
  NoDup l.*1 /\ Forall (fun kv => m0 !! kv.1 = None) l /\ m = list_to_map l ∪ m0.

Lemma adds_cons k v l m0 m :
  adds ((k, v) :: l) m0 m <-> m0 !! k = None /\ adds l (<[k := v]> m0) m.
Proof.
  unfold adds. rewrite fmap_cons, NoDup_cons, Forall_cons. simpl. split.
  - intros ((Hk & Hn) & (Hm & Hf) & ->). split_and!; [done|done|..].
    + apply Forall_forall. intros kv Hin. rewrite lookup_insert_ne.
      * exact (proj1 (Forall_forall _ _) Hf kv Hin).
      * intros ->. by apply Hk, list_elem_of_fmap_2.
    + rewrite <- insert_union_l. by apply insert_union_r, not_elem_of_list_to_map_1.
  - intros (Hm & Hn & Hf & ->).
    assert (Hk : k ∉ l.*1).
    { intros ([k' v'] & -> & Hin)%list_elem_of_fmap.
      apply (proj1 (Forall_forall _ _) Hf) in Hin. simpl in Hin. by rewrite lookup_insert_eq in Hin. }
    split_and!; try done.
    + eapply Forall_impl; [exact Hf|]. simpl. intros kv H.
      destruct (decide (kv.1 = k)) as [->|Hne]; [done|]. by rewrite lookup_insert_ne in H.
    + rewrite <- insert_union_l. symmetry. by apply insert_union_r, not_elem_of_list_to_map_1.
Qed.

Lemma adds_nil m0 m : adds [] m0 m <-> m = m0.
Proof.
  unfold adds. simpl. rewrite (left_id_L ∅ (∪)).
  split; [tauto|intros ->; split_and!; [constructor|constructor|done]].
Qed.

(** The loop, one field at a time. *)
Lemma parse_fields_sound fuel body m0 m :
  parse_fields fuel body m0 = Some m -> exists l, form_body l body /\ adds l m0 m.
Proof.
  revert body m0; induction fuel as [|f IH]; intros body m0; cbn [parse_fields]; [done|].
  assert (Hpart : forall part more, match break_at (chr 38) body with
                                    | Some (p, r) => (p, Some r) | None => (body, None) end
                  = (part, more) ->
    (chr 38 ∉ part) /\ body = match more with Some r => part ++ chr 38 :: r | None => part end).
  { intros part more. destruct (break_at (chr 38) body) as [[p r]|] eqn:E; intros [= <- <-].
    - apply break_at_sound in E as [-> Hn]. done.
    - by apply break_at_none in E. }
  destruct (match break_at (chr 38) body with Some (p, r) => _ | None => _ end) as [part more].
  destruct (Hpart part more eq_refl) as [Hn ->]. clear Hpart.
  destruct (break_at (chr 61) part) as [[ek ev]|] eqn:Eb; [|done].
  destruct (unescape ek) as [k|] eqn:Ek; [|done]. destruct (unescape ev) as [v|] eqn:Ev; [|done].
  destruct (m0 !! k) eqn:Em; [done|].
  assert (Hp : encodes_pair (k, v) part) by (apply pair_spec; split; [by exists ek, ev|done]).
  destruct more as [[|c rest]|]; [done|..].
  - intros (l & Hl & Ha)%IH. exists ((k, v) :: l). split; [by constructor|]. by apply adds_cons.
  - intros [= <-]. exists [(k, v)]. split; [by constructor|]. apply adds_cons. by rewrite adds_nil.
Qed.

Lemma parse_fields_complete fuel body m0 m l :
  form_body l body -> adds l m0 m -> (length body <= fuel)%nat ->
  parse_fields fuel body m0 = Some m.
Proof.
  intros Hb. revert fuel m0; induction Hb as [[k v] e Hp|[k v] l e rest Hp Hb IH];
    intros fuel m0 [Hk Ha]%adds_cons Hf; apply pair_spec in Hp as [(ek & ev & Hb1 & Hu1 & Hu2) Hn];
    (destruct fuel as [|f]; [apply break_at_sound in Hb1 as [-> _]; rewrite ?length_app in Hf; simpl in Hf; lia|]);
    cbn [parse_fields].
  - rewrite (proj2 (break_at_none _ _) Hn), Hb1, Hu1, Hu2, Hk. by apply adds_nil in Ha as ->.
  - rewrite break_at_complete, Hb1, Hu1, Hu2, Hk by done.
    destruct rest as [|c rest]; [by apply form_body_nonempty in Hb; simpl in Hb; lia|].
    apply IH; [done|]. rewrite length_app in Hf. simpl in *. lia.
Qed.

(** *** The values *)

Lemma digits_int_spec s n m :
  digits_int s n = Some m <->
  Forall (fun c => isdigit c = true) s /\ m = digits_val 10 s n.
Proof.
  revert n; induction s as [|c s IH]; intros n; cbn [digits_int digits_val].
  - split; [by intros [= ->]|by intros [_ ->]].
  - rewrite Forall_cons. destruct (isdigit c) eqn:Ec; [|split; [done|by intros [[? _] _]]].
    rewrite IH. enough (n * 10 + code c - 48 = n * 10 + hexval c) as -> by (split; [intros []; auto|intros [[_ ?] ?]; auto]).
    unfold isdigit in Ec. unfold hexval. rewrite Ec. lia.
Qed.

Lemma digits_val_nonneg s n :
  Forall (fun c => isdigit c = true) s -> 0 <= n -> 0 <= digits_val 10 s n.
Proof.
  intros H. revert n; induction H as [|c s Hc _ IH]; intros n Hn; cbn [digits_val]; [done|].
  apply IH. unfold isdigit in Hc. unfold hexval. rewrite Hc. breflect. lia.
Qed.

Lemma integer_spec s lo hi n :
  integer s lo hi = Some n <-> number_text s n /\ lo <= n <= hi.
Proof.
  unfold integer, number_text. destruct s as [|c s]; [split; [done|simpl; lia]|].
  rewrite bool_decide_false by done. cbn [orb].
  destruct (3 <? length (c :: s))%nat eqn:El; [apply Nat.ltb_lt in El; split; [done|lia]|].
  apply Nat.ltb_ge in El.
  destruct (digits_int (c :: s) 0) as [m|] eqn:E.
  - apply digits_int_spec in E as [Hd ->].
    destruct ((_ <? lo) || _) eqn:Er; breflect; split.
    + done.
    + intros [(_ & _ & ->) ?]. lia.
    + intros [= <-]. split_and!; simpl in *; try done; lia.
    + by intros [(_ & _ & ->) _].
  - split; [done|]. intros [(_ & Hd & ->) _].
    rewrite (proj2 (digits_int_spec _ _ _) (conj Hd eq_refl)) in E. done.
Qed.

Lemma form_color_spec s z : form_color s = Some z <-> color_text s z.
Proof.
  assert (Hb : forall d, forallb (fun d => negb (hexval d <? 0)) d = true <->
                         Forall (fun c => isxdigit c = true) d).
  { intros d. rewrite forallb_forall, <- List.Forall_forall.
    split; intros H; (eapply List.Forall_impl; [|exact H]); intros c; unfold isxdigit; simpl; breflect; lia. }
  unfold form_color, color_text. destruct s as [|c d].
  { split; [done|by intros (d & ? & _)]. }
  destruct ((length (c :: d) =? 7)%nat && _ && _) eqn:E.
  - rewrite !andb_true_iff, Nat.eqb_eq, Z.eqb_eq, Hb in E. destruct E as [[El Ec] Hd].
    apply code_eq in Ec as ->; [|lia]. split.
    + intros [= <-]. exists d. simpl in El. split_and!; [done|lia|done|done].
    + by intros (d' & [= <-] & _ & _ & ->).
  - split; [done|]. intros (d' & [= -> ->] & Hl & Hd & ->). exfalso. revert E.
    apply not_false_iff_true. rewrite !andb_true_iff, Nat.eqb_eq, Hb. simpl. by rewrite Hl.
Qed.

Lemma color_text_range s z : color_text s z -> in_u 24 z.
Proof.
  intros (d & _ & Hl & Hd & ->). unfold hex_to_Z.
  assert (H : forall n d a, Forall (fun c => isxdigit c = true) d -> length d = n -> 0 <= a ->
    a * 16 ^ Z.of_nat n <= digits_val 16 d a < (a + 1) * 16 ^ Z.of_nat n).
  { clear. induction n as [|n IH]; intros [|c d] a Hd Hl Ha; try done; cbn [digits_val].
    - change (16 ^ Z.of_nat 0) with 1. lia.
    - apply Forall_cons in Hd as [Hc Hd]. injection Hl as Hl.
      assert (0 <= hexval c < 16) as Hh.
      { pose proof (ascii_cases (fun c => hexval c <? 16) eq_refl c) as H16. simpl in H16.
        unfold isxdigit in Hc. lia. }
      specialize (IH d (a * 16 + hexval c) Hd Hl ltac:(lia)).
      rewrite Nat2Z.inj_succ, Z.pow_succ_r by lia. nia. }
  specialize (H 6%nat d 0 Hd Hl ltac:(lia)). exact H.
Qed.

Lemma form_corner_spec s c : form_corner s = Some c <-> named_corner c = true /\ s = corner_name c.
Proof.
  unfold form_corner, teq. split.
  - repeat case_bool_decide; intros [= <-]; done.
  - intros [Hc ->]. destruct c; try done; vm_compute; reflexivity.
Qed.

(** *** The seven fields *)

Lemma form_keys_nodup : NoDup form_keys.
Proof. apply (bool_decide_eq_true_1 (NoDup form_keys)). by_compute. Qed.

(** A map built from distinct fields holds exactly the seven keys. *)
Lemma seven_fields (l : list (text * text)) (m : gmap text text) :
  NoDup l.*1 -> m = list_to_map l ->
  base.size m = 7%nat -> Forall (fun k => is_Some (m !! k)) form_keys ->
  l ≡ₚ map (fun k => (k, default [] (m !! k))) form_keys.
Proof.
  intros Hl -> Hs Hk.
  assert (Hkeys : form_keys ≡ₚ l.*1).
  { apply submseteq_length_Permutation.
    - apply NoDup_submseteq; [apply form_keys_nodup|]. intros k Hin.
      apply (proj1 (Forall_forall _ _) Hk) in Hin as [v Hv].
      apply elem_of_list_to_map_2 in Hv. by apply (list_elem_of_fmap_2 fst) in Hv.
    - rewrite length_fmap, <- (map_to_list_to_map l Hl) at 1.
      rewrite length_map_to_list, Hs. simpl. lia. }
  transitivity (map (fun k => (k, default [] ((list_to_map l : gmap text text) !! k))) l.*1).
  - change (l.*1) with (map fst l). rewrite List.map_map. apply Permutation_refl'.
    rewrite <- (List.map_id l) at 1. apply List.map_ext_in. intros [k v] Hin%list_elem_of_In.
    simpl. by rewrite (elem_of_list_to_map_1 l k v Hl Hin).
  - by apply Permutation_map.
Qed.

Lemma config_of_fields_sound l cfg :
  NoDup l.*1 -> config_of_fields (list_to_map l) = Some cfg -> fields_of cfg l.
Proof.
  intros Hl. unfold config_of_fields. set (m := list_to_map l).
  destruct (base.size m =? 7)%nat eqn:Es; [|done]. cbn [negb]. apply Nat.eqb_eq in Es.
  destruct (forallb _ form_keys) eqn:Ek; [|done]. cbn [negb].
  assert (Hk : Forall (fun k => is_Some (m !! k)) form_keys).
  { apply List.Forall_forall. intros k Hk. rewrite forallb_forall in Ek.
    by apply Ek, bool_decide_eq_true in Hk. }
  pose proof (seven_fields l m Hl eq_refl Es Hk) as Hp. simpl in Hp.
  unfold form_field in *.
  destruct (form_corner _) as [c|] eqn:Ec; [|done].
  destruct (integer _ kMinFontSize _) as [fs|] eqn:Efs; [|done].
  destruct (integer (_ (_ !! str "margin_x")) _ _) as [mx|] eqn:Emx; [|done].
  destruct (integer (_ (_ !! str "margin_y")) _ _) as [my|] eqn:Emy; [|done].
  destruct (integer _ 0 1) as [lb|] eqn:Elb; [|done].
  destruct (form_color (_ (_ !! str "label_color"))) as [lc|] eqn:Elc; [|done].
  destruct (form_color (_ (_ !! str "value_color"))) as [vc|] eqn:Evc; [|done]. intros [= <-].
  apply form_corner_spec in Ec as [Hc Ec]. rewrite integer_spec in Efs, Emx, Emy, Elb.
  apply form_color_spec in Elc, Evc.
  do 6 eexists. exists mx, my, lb. simpl. rewrite <- Ec.
  split_and!; [exact Hp|done|apply Efs|apply Efs|apply Efs|apply Emx|apply Emx|apply Emx|done|
    apply Emy|apply Emy|apply Emy|done|apply Elb|apply Elb|apply Elb|done|exact Elc|exact Evc].
Qed.

Lemma config_of_fields_complete l cfg :
  NoDup l.*1 -> fields_of cfg l -> config_of_fields (list_to_map l) = Some cfg.
Proof.
  intros Hl (fs & mx & my & lb & lc & vc & kx & ky & kl & Hp & Hc & Hfs & Hfs' & Hmx & Hmx' & Ex &
    Hmy & Hmy' & Ey & Hlb & Hlb' & El & Hlc & Hvc).
  rewrite (list_to_map_proper l _ Hl Hp). unfold config_of_fields.
  set (m := list_to_map _).
  replace (base.size m) with 7%nat.
  2:{ unfold m. rewrite <- length_map_to_list, map_to_list_to_map; [done|]. exact form_keys_nodup. }
  cbn [Nat.eqb negb].
  assert (E : forall k v, In (k, v) [(str "corner", corner_name (corner cfg)); (str "font_size", fs);
     (str "margin_x", mx); (str "margin_y", my); (str "show_label", lb); (str "label_color", lc);
     (str "value_color", vc)] -> m !! k = Some v).
  { intros k v Hin. apply elem_of_list_to_map_1; [exact form_keys_nodup|by apply list_elem_of_In]. }
  simpl in E. unfold form_field.
  replace (forallb _ form_keys) with true.
  2:{ symmetry. apply forallb_forall. intros k Hk. apply bool_decide_eq_true.
      simpl in Hk. destruct_or! Hk; subst; try done; eexists; apply E; eauto 10. }
  rewrite (E (str "corner") _ ltac:(auto)), (E (str "font_size") _ ltac:(auto)),
    (E (str "margin_x") _ ltac:(auto 6)), (E (str "margin_y") _ ltac:(auto 7)),
    (E (str "show_label") _ ltac:(auto 8)), (E (str "label_color") _ ltac:(auto 9)),
    (E (str "value_color") _ ltac:(auto 10)).
  cbn [negb from_option id].
  rewrite (proj2 (form_corner_spec _ _) (conj Hc eq_refl)),
    (proj2 (integer_spec _ _ _ _) (conj Hfs Hfs')), (proj2 (integer_spec _ _ _ _) (conj Hmx Hmx')),
    (proj2 (integer_spec _ _ _ _) (conj Hmy Hmy')), (proj2 (integer_spec _ _ _ _) (conj Hlb Hlb')),
    (proj2 (form_color_spec _ _) Hlc), (proj2 (form_color_spec _ _) Hvc).
  rewrite <- Ex, <- Ey, <- El. by destruct cfg.
Qed.

(** ** Theorems *)

(** C28: the form parser accepts exactly the bodies of the form grammar - the seven fields
    in any order, each once, percent-encoded in any way, at most 512 bytes, with values in
    range - and returns the configuration they spell. *)
Theorem form_accepts body cfg :
  parse_settings_form body = Some cfg <->
  (length body <= 512)%nat /\
  exists l, form_body l body /\ NoDup l.*1 /\ fields_of cfg l.
Proof.
  unfold parse_settings_form. split.
  - destruct (bool_decide (body = []) || (512 <? length body)%nat) eqn:E; [done|].
    apply orb_false_iff in E as [_ El]. apply Nat.ltb_ge in El.
    destruct (parse_fields _ _ _) as [m|] eqn:Ep; [|done]. intros Hc. split; [done|].
    apply parse_fields_sound in Ep as (l & Hb & Hn & _ & ->). rewrite (right_id_L ∅ (∪)) in Hc.
    exists l. split_and!; [done|done|]. by apply config_of_fields_sound.
  - intros (Hl & l & Hb & Hn & Hf). pose proof (form_body_nonempty _ _ Hb) as H1.
    rewrite bool_decide_false by (intros ->; simpl in H1; lia).
    replace (512 <? length body)%nat with false by (symmetry; by apply Nat.ltb_ge). cbn [orb].
    rewrite (parse_fields_complete _ _ ∅ (list_to_map l) l); [|done| |done].
    + by apply config_of_fields_complete.
    + split_and!; [done|by apply Forall_forall|by rewrite (right_id_L ∅ (∪))].
Qed.

(** What the parser accepts is a configuration that a save and a reload keep. *)
Lemma form_usable body cfg : parse_settings_form body = Some cfg -> form_config cfg.
Proof.
  unfold parse_settings_form. destruct (_ || _); [done|].
  destruct (parse_fields _ _ _) as [m|] eqn:Ep; [|done]. intros Hc.
  apply parse_fields_sound in Ep as (l & _ & Hn & _ & ->). rewrite (right_id_L ∅ (∪)) in Hc.
  apply config_of_fields_sound in Hc as
    (fs & mx & my & lb & lc & vc & kx & ky & kl & _ & Hc & _ & Hfs & _ & Hmx & Ex & _ & Hmy & Ey &
     _ & _ & _ & Hlc & Hvc); [|done].
  constructor; [done|done|by exists kx|by exists ky|by eapply color_text_range..].
Qed.
