(* ===== verification/SettingsHttp.v ===== *)
(** The settings request: [parse_head] reads back every rendered request (the abstract
    [Request] below), and one request is a transaction on the settings - it is refused
    without any system call, or it replaces the file and the memory together. *)
From S2P Require Import Prelude Effects Float Types Text Config FileIo Settings SettingsForm.

(** ** Requests *)

Record Request := {
  rq_method : text; rq_path : text; rq_version : text;
  rq_headers : list (text * text); rq_body : text
}.

Definition header_line (kv : text * text) : text := kv.1 ++ chr 58 :: kv.2 ++ crlf.
Definition request_line (rq : Request) : text :=
  rq_method rq ++ chr 32 :: rq_path rq ++ chr 32 :: rq_version rq.
Definition render (rq : Request) : text :=
  request_line rq ++ crlf ++ concat (map header_line (rq_headers rq)) ++ crlf ++ rq_body rq.

(** No piece contains a separator that would end it. *)
Record wf_request (rq : Request) : Prop := {
  wr_method : (chr 32 ∉ rq_method rq) /\ (chr 13 ∉ rq_method rq);
  wr_path : chr 13 ∉ rq_path rq;
  wr_version : (chr 32 ∉ rq_version rq) /\ (chr 13 ∉ rq_version rq);
  wr_headers : Forall (fun kv => (chr 58 ∉ kv.1) /\ (chr 13 ∉ kv.1) /\ (chr 13 ∉ kv.2))
                 (rq_headers rq);
  wr_size : (length (render rq) <= kMaxSettingsBytes)%nat
}.

Definition lower_key (kv : text * text) : text := map tolower kv.1.
Definition stored_header (kv : text * text) : text * text := (lower_key kv, strip_blanks kv.2).

(** What a request means: a known version and no header twice. *)
Definition head_of (rq : Request) : option Head :=
  if bool_decide (rq_version rq = str "HTTP/1.1" \/ rq_version rq = str "HTTP/1.0") &&
     bool_decide (NoDup (map lower_key (rq_headers rq)))
  then Some {| hd_method := rq_method rq; hd_path := rq_path rq;
               hd_headers := list_to_map (map stored_header (rq_headers rq));
               hd_body := rq_body rq |}
  else None.

(** ** Searching *)

Lemma ceq_false c d : c <> d -> ceq c d = false.
Proof. intros H. destruct (ceq c d) eqn:E; [|done]. by apply ceq_spec in E. Qed.

Lemma find_at_skip c n l s :
  c ∉ l -> find_at (c :: n) (l ++ s) = (fun i => (length l + i)%nat) <$> find_at (c :: n) s.
Proof.
  induction l as [|d l IH]; intros Hn; cbn [app].
  - by destruct (find_at _ s).
  - apply not_elem_of_cons in Hn as [Hd Hn]. cbn [find_at starts_with].
    rewrite ceq_false by done. cbn [andb]. rewrite IH by done. by destruct (find_at _ s).
Qed.

Lemma find_crlf l r : chr 13 ∉ l -> find_at crlf (l ++ crlf ++ r) = Some (length l).
Proof. intros H. unfold crlf at 1. rewrite find_at_skip by done. simpl. f_equal. lia. Qed.

(** A line end that is not followed by another one. *)
Lemma find_blank_line_skip l c r :
  chr 13 ∉ l -> c <> chr 13 ->
  find_at (crlf ++ crlf) (l ++ crlf ++ c :: r) =
    (fun i => (length l + 2 + i)%nat) <$> find_at (crlf ++ crlf) (c :: r).
Proof.
  intros Hl Hc. change (crlf ++ crlf) with (chr 13 :: chr 10 :: crlf).
  rewrite find_at_skip by done.
  assert (find_at (chr 13 :: chr 10 :: crlf) (crlf ++ c :: r) =
          (fun i => (2 + i)%nat) <$> find_at (chr 13 :: chr 10 :: crlf) (c :: r)) as ->.
  { cbn [crlf app find_at starts_with]. rewrite (ceq_false (chr 13) c) by done.
    change (ceq (chr 13) (chr 13)) with true. change (ceq (chr 10) (chr 10)) with true.
    change (ceq (chr 13) (chr 10)) with false. cbn [andb].
    by destruct (find_at (chr 13 :: chr 10 :: crlf) r). }
  destruct (find_at _ (c :: r)); simpl; [|done]. f_equal. lia.
Qed.

Lemma rfind_char_last c l r : c ∉ r -> rfind_char c (l ++ c :: r) = Some (length l).
Proof.
  intros Hr. assert (H : rfind_char c r = None).
  { clear l. induction r as [|d r IH]; [done|]. apply not_elem_of_cons in Hr as [Hd Hr].
    cbn [rfind_char]. rewrite IH by done. by rewrite ceq_false. }
  induction l as [|d l IH]; cbn [app rfind_char length].
  - by rewrite H, (proj2 (ceq_spec c c)).
  - by rewrite IH.
Qed.

(** ** The header lines *)

Lemma header_line_app k v r : header_line (k, v) ++ r = (k ++ chr 58 :: v) ++ crlf ++ r.
Proof. unfold header_line. simpl. rewrite <- !app_assoc. simpl. by rewrite <- app_assoc. Qed.

Lemma header_line_length k v : length (header_line (k, v)) = (length (k ++ chr 58 :: v) + 2)%nat.
Proof. rewrite <- (app_nil_r (header_line _)), header_line_app, app_nil_r, !length_app. simpl. lia. Qed.

Lemma header_line_shape kv r : chr 13 ∉ kv.1 -> exists c t, header_line kv ++ r = c :: t /\ c <> chr 13.
Proof.
  intros H. unfold header_line. destruct kv as [[|c k] v]; simpl in *.
  - by eexists _, _.
  - eexists _, _. split; [done|]. intros ->. apply H. by left.
Qed.

Abbreviation header_ok := (fun kv => (chr 58 ∉ kv.1) /\ (chr 13 ∉ kv.1) /\ (chr 13 ∉ kv.2)).

(** The blank line is found behind the last header. *)
Lemma find_split line hs body :
  chr 13 ∉ line -> Forall header_ok hs ->
  find_at (crlf ++ crlf) (line ++ crlf ++ concat (map header_line hs) ++ crlf ++ body) =
    Some (length line + length (concat (map header_line hs)))%nat.
Proof.
  intros Hl Hh. revert line Hl. induction Hh as [|[k v] hs (H1 & H2 & H3) Hh IH]; intros line Hl.
  - change (crlf ++ crlf) with (chr 13 :: chr 10 :: crlf). rewrite find_at_skip by done. done.
  - cbn [map concat]. rewrite <- (app_assoc (header_line (k, v))).
    destruct (header_line_shape (k, v) (concat (map header_line hs) ++ crlf ++ body) H2)
      as (c & t & E & Hc). rewrite E, find_blank_line_skip, <- E by done.
    rewrite header_line_app, IH by (apply not_elem_of_app; split; [done|]; by apply not_elem_of_cons).
    simpl. f_equal. rewrite (length_app (header_line (k, v))), header_line_length. lia.
Qed.

Definition add_header (acc : option (gmap text text)) (kv : text * text)
    : option (gmap text text) :=
  match acc with
  | Some m => match m !! lower_key kv with
              | Some _ => None
              | None => Some (<[lower_key kv := strip_blanks kv.2]> m)
              end
  | None => None
  end.
Definition add_headers (hs : list (text * text)) (m : gmap text text) : option (gmap text text) :=
  fold_left add_header hs (Some m).

Lemma add_header_none hs : fold_left add_header hs None = None.
Proof. by induction hs. Qed.

Lemma parse_headers_lines fuel pre hs body split m :
  Forall header_ok hs -> (length hs <= fuel)%nat ->
  (split + 2 = length pre + length (concat (map header_line hs)))%nat ->
  parse_headers fuel (pre ++ concat (map header_line hs) ++ crlf ++ body) (length pre) split m =
    add_headers hs m.
Proof.
  intros Hh. revert fuel pre m. induction Hh as [|[k v] hs (H1 & H2 & H3) Hh IH];
    intros fuel pre m Hf Hs.
  - simpl in Hs. destruct fuel; cbn [parse_headers]; by rewrite (proj2 (Nat.leb_le _ _)) by lia.
  - destruct fuel as [|f]; [simpl in Hf; lia|].
    assert (Hcr : chr 13 ∉ (k ++ chr 58 :: v)).
    { apply not_elem_of_app. split; [done|]. by apply not_elem_of_cons. }
    cbn [map concat] in *. rewrite length_app, header_line_length in Hs.
    cbn [parse_headers].
    rewrite (proj2 (Nat.leb_gt _ _)) by (rewrite length_app in Hs; simpl in Hs; lia).
    rewrite <- (app_assoc (header_line (k, v))), header_line_app.
    unfold find. rewrite (proj2 (Nat.ltb_ge _ _)) by (rewrite length_app; lia).
    rewrite drop_app_length, find_crlf by done.
    cbn [fmap option_fmap option_map]. unfold substr.
    rewrite drop_app_length, (Nat.add_comm (length pre)), Nat.add_sub, take_app_length,
      break_at_complete by done.
    unfold add_headers. cbn [fold_left add_header]. change (lower_key (k, v)) with (map tolower k).
    destruct (m !! map tolower k).
    + by rewrite add_header_none.
    + replace (pre ++ (k ++ chr 58 :: v) ++ crlf ++ concat (map header_line hs) ++ crlf ++ body)
        with ((pre ++ (k ++ chr 58 :: v) ++ crlf) ++ concat (map header_line hs) ++ crlf ++ body)
        by (by rewrite <- !app_assoc).
      replace (length (k ++ chr 58 :: v) + length pre + 2)%nat
        with (length (pre ++ (k ++ chr 58 :: v) ++ crlf))
        by (rewrite (length_app pre), (length_app (k ++ _)); simpl; lia).
      apply IH; [simpl in Hf; lia|].
      rewrite (length_app pre), (length_app (k ++ _)). simpl. lia.
Qed.

Lemma add_headers_spec hs m :
  (forall kv, kv ∈ hs -> m !! lower_key kv = None) ->
  add_headers hs m =
    if bool_decide (NoDup (map lower_key hs)) then Some (list_to_map (map stored_header hs) ∪ m)
    else None.
Proof.
  unfold add_headers. revert m. induction hs as [|kv hs IH]; intros m Hm.
  - simpl. by rewrite (left_id_L ∅ (∪)).
  - cbn [fold_left add_header]. rewrite (Hm kv) by (by left).
    destruct (decide (lower_key kv ∈ map lower_key hs)) as [Hin|Hout].
    + rewrite (bool_decide_false (NoDup _)) by (simpl; rewrite NoDup_cons; tauto).
      revert Hin. clear IH Hm. generalize (strip_blanks kv.2). intros v0. generalize (lower_key kv).
      intros k Hin.
      assert (Hk : is_Some (<[k:=v0]> m !! k)) by (rewrite lookup_insert_eq; eauto).
      revert Hk. generalize (<[k:=v0]> m). clear m.
      induction hs as [|kv' hs IH]; intros m Hk; [by apply not_elem_of_nil in Hin|].
      cbn [fold_left add_header]. simpl in Hin. apply elem_of_cons in Hin as [->|Hin].
      * destruct Hk as [v' ->]. apply add_header_none.
      * destruct (m !! lower_key kv') eqn:E; [apply add_header_none|].
        apply IH; [done|]. destruct (decide (k = lower_key kv')) as [->|Hne].
        -- rewrite E in Hk. by destruct Hk.
        -- by rewrite lookup_insert_ne.
    + rewrite IH.
      * destruct (decide (NoDup (map lower_key hs))) as [Hn|Hn].
        2:{ rewrite !bool_decide_false; [done|simpl; rewrite NoDup_cons; tauto|done]. }
        rewrite !bool_decide_true by (simpl; rewrite ?NoDup_cons; tauto).
        f_equal. cbn [map list_to_map foldr]. unfold stored_header at 2.
        simpl. rewrite <- insert_union_l. symmetry. apply insert_union_r.
        apply not_elem_of_list_to_map_1. intros Hin. apply Hout.
        apply list_elem_of_fmap in Hin as ([k v] & -> & Hin).
        apply list_elem_of_In, in_map_iff in Hin as (kv' & [= <- <-] & Hin).
        apply list_elem_of_In, (in_map lower_key hs kv'), Hin.
      * intros kv' Hin. rewrite lookup_insert_ne; [apply Hm; by right|].
        intros Heq. apply Hout. rewrite Heq. by apply list_elem_of_In, in_map, list_elem_of_In.
Qed.

(** The parts of the request line. *)
Lemma find_here needle l r i :
  find_at needle (l ++ r) = Some i -> find needle (l ++ r) 0 = Some i.
Proof.
  intros H. unfold find. rewrite (proj2 (Nat.ltb_ge _ 0)) by lia. by rewrite drop_0, H.
Qed.

Lemma request_line_parts rq :
  chr 32 ∉ rq_method rq -> chr 32 ∉ rq_version rq ->
  let line := request_line rq in
  let m := length (rq_method rq) in
  let last := (m + 1 + length (rq_path rq))%nat in
  find (str " ") line 0 = Some m /\ rfind_char (chr 32) line = Some last /\
  substr 0 m line = rq_method rq /\ substr (m + 1) (last - m - 1) line = rq_path rq /\
  drop (last + 1) line = rq_version rq.
Proof.
  intros Hm Hv. cbn zeta. unfold request_line, substr. split_and!.
  - apply find_here. change (str " ") with [chr 32]. rewrite find_at_skip by done.
    simpl. f_equal. lia.
  - assert (E : rq_method rq ++ chr 32 :: rq_path rq ++ chr 32 :: rq_version rq =
                (rq_method rq ++ chr 32 :: rq_path rq) ++ chr 32 :: rq_version rq).
    { rewrite <- app_assoc. done. }
    rewrite E, rfind_char_last by done. f_equal. rewrite length_app. simpl. lia.
  - by rewrite drop_0, take_app_length.
  - replace (length (rq_method rq) + 1)%nat with (length (rq_method rq ++ [chr 32]))
      by (rewrite length_app; simpl; lia).
    change (chr 32 :: rq_path rq ++ ?x) with ([chr 32] ++ rq_path rq ++ x).
    rewrite app_assoc, drop_app_length.
    replace (_ - _ - 1)%nat with (length (rq_path rq)); [by rewrite take_app_length|].
    rewrite length_app. simpl. lia.
  - replace (_ + 1 + _ + 1)%nat with (length (rq_method rq ++ [chr 32] ++ rq_path rq ++ [chr 32]))
      by (rewrite !length_app; simpl; lia).
    replace (rq_method rq ++ chr 32 :: rq_path rq ++ chr 32 :: rq_version rq)
      with ((rq_method rq ++ [chr 32] ++ rq_path rq ++ [chr 32]) ++ rq_version rq)
      by (rewrite <- !app_assoc; done).
    by rewrite drop_app_length.
Qed.

Lemma head_lines rq :
  wf_request rq ->
  find crlf (render rq) 0 = Some (length (request_line rq)) /\
  find (crlf ++ crlf) (render rq) 0 =
    Some (length (request_line rq) + length (concat (map header_line (rq_headers rq))))%nat.
Proof.
  intros [[Hm1 Hm2] Hp [Hv1 Hv2] Hh _].
  assert (Hl : chr 13 ∉ request_line rq).
  { unfold request_line. rewrite !not_elem_of_app, !not_elem_of_cons, not_elem_of_app,
      not_elem_of_cons. done. }
  unfold render. split; apply find_here; [by apply find_crlf|by apply find_split].
Qed.

(** A request is read back as what it means: for every request whose pieces contain no
    separators and that fits into 4096 bytes, the parser finds exactly its method, path,
    body and headers, keys in lower case and values without surrounding blanks, and it
    refuses an unknown version and a repeated header. *)
Theorem request_head_roundtrip rq : wf_request rq -> parse_head (render rq) = head_of rq.
Proof.
  intros Hwf. destruct (head_lines rq Hwf) as [E1 E2]. unfold parse_head. rewrite E1, E2.
  destruct Hwf as [[Hm1 Hm2] Hp [Hv1 Hv2] Hh Hs].
  rewrite (proj2 (Nat.ltb_ge _ _)) by done.
  assert (Hline : substr 0 (length (request_line rq)) (render rq) = request_line rq).
  { unfold substr, render. by rewrite drop_0, take_app_length. }
  rewrite Hline. destruct (request_line_parts rq Hm1 Hv1) as (-> & -> & -> & -> & ->).
  rewrite (proj2 (Nat.eqb_neq _ _)) by lia. cbn [orb]. unfold head_of, teq.
  assert (Hdrop : drop (length (request_line rq) +
    length (concat (map header_line (rq_headers rq))) + 4) (render rq) = rq_body rq).
  { unfold render. rewrite (app_assoc crlf), (app_assoc _ crlf), app_assoc.
    rewrite drop_app_length'; [done|]. rewrite !length_app. simpl. lia. }
  assert (Hheaders : parse_headers (length (render rq)) (render rq)
    (length (request_line rq) + 2) (length (request_line rq) +
    length (concat (map header_line (rq_headers rq)))) ∅ = add_headers (rq_headers rq) ∅).
  { unfold render at 2. rewrite (app_assoc _ crlf).
    replace (length (request_line rq) + 2)%nat with (length (request_line rq ++ crlf))
      by (rewrite length_app; simpl; lia).
    apply parse_headers_lines; [done| |rewrite length_app; simpl; lia].
    unfold render. rewrite !length_app.
    enough (length (rq_headers rq) <= length (concat (map header_line (rq_headers rq))))%nat by lia.
    clear. induction (rq_headers rq) as [|[k v] hs IH]; [done|]. cbn [map concat length].
    rewrite length_app, header_line_length. lia. }
  rewrite Hheaders, add_headers_spec, (right_id_L ∅ (∪)), Hdrop by (intros; done).
  repeat case_bool_decide; simpl; tauto.
Qed.

Definition sample_request : Request := {|
  rq_method := str "GET"; rq_path := str "/api/config"; rq_version := str "HTTP/1.1";
  rq_headers := [(str "Host", str " 127.0.0.1:39029 "); (str "Accept", str "a:b c")];
  rq_body := [] |}.

(** A decidable separator check for concrete texts. *)
Lemma not_in_text c s : forallb (fun d => negb (ceq c d)) s = true -> c ∉ s.
Proof.
  intros H Hin. rewrite forallb_forall in H. apply list_elem_of_In, H, negb_true_iff in Hin.
  by rewrite (proj2 (ceq_spec c c)) in Hin.
Qed.

Lemma request_head_roundtrip_witness :
  parse_head (render sample_request) = head_of sample_request.
Proof.
  refine (request_head_roundtrip sample_request _).
  constructor; [| | | |apply Nat.leb_le; vm_compute; reflexivity];
    repeat constructor; apply not_in_text; reflexivity.
Defined.

(** ** The settings in memory and in the file *)

(** What a restart would load. *)
Definition reload (file : option text) : OverlayConfig :=
  match file with
  | Some data => if (length data <=? kMaxSettingsBytes)%nat then parse_config_text data
                 else default_config
  | None => default_config
  end.

(** The memory is what a restart would load. *)
Definition in_step (store : SettingsStore) (s : FS) : Prop :=
  config_ store = reload (files s !! path_ store).

Lemma value_lengths :
  forallbZ 14 51 (fun n => length (dec n) <=? 20)%nat &&
  forallbZ 0 241 (fun n => length (print_f32 (f32_of_Z n)) <=? 20)%nat = true.
Proof. vm_compute. reflexivity. Qed.

Lemma margin_length m k : form_margin m k -> (length (print_f32 m) <= 20)%nat.
Proof.
  intros [-> H]. pose proof value_lengths as H'. apply andb_true_iff in H' as [_ H'].
  apply Nat.leb_le. apply (forallbZ_spec 0 241 _ H'). lia.
Qed.

Lemma font_length n : kMinFontSize <= n <= kMaxFontSize -> (length (dec n) <= 20)%nat.
Proof.
  intros H. pose proof value_lengths as H'. apply andb_true_iff in H' as [H' _].
  apply Nat.leb_le. apply (forallbZ_spec 14 51 _ H'). unfold kMinFontSize, kMaxFontSize in H. lia.
Qed.

Lemma serialized_fits cfg :
  form_config cfg -> (length (serialize_config cfg) <= kMaxSettingsBytes)%nat.
Proof.
  intros [Hc Hn [kx Hx] [ky Hy] Hl Hv]. unfold serialize_config. rewrite !land24_small by done.
  pose proof (font_length _ Hn). pose proof (margin_length _ _ Hx). pose proof (margin_length _ _ Hy).
  assert (length (corner_name (corner cfg)) <= 12)%nat by (destruct (corner cfg); simpl; lia).
  assert (length (dec (if show_label cfg then 1 else 0)) = 1)%nat as E by (by destruct (show_label cfg)).
  repeat (rewrite length_app || cbn [length]). rewrite E, !hex6_digits, !length_digits_of by done.
  unfold kMaxSettingsBytes. change (4096)%nat with (4000 + 96)%nat. simpl length. lia.
Qed.

Lemma reload_serialized cfg : form_config cfg -> reload (Some (serialize_config cfg)) = cfg.
Proof.
  intros H. unfold reload. rewrite (proj2 (Nat.leb_le _ _)) by (by apply serialized_fits).
  by apply config_reparse.
Qed.

(** What a request must carry to change the settings: the console's own host, no other
    site's origin, the header a foreign page cannot set, a form of the declared length. *)
Record authorised (h : Head) : Prop := {
  au_method : hd_method h = str "POST";
  au_path : hd_path h = str "/api/config";
  au_host : hd_headers h !! str "host" = Some kSettingsHost;
  au_own : hd_headers h !! str "x-commonfps" = Some (str "1");
  au_type : hd_headers h !! str "content-type" = Some (str "application/x-www-form-urlencoded");
  au_origin : hd_headers h !! str "origin" = None \/
    hd_headers h !! str "origin" = Some (str "http://" ++ kSettingsHost);
  au_coding : hd_headers h !! str "transfer-encoding" = None;
  au_length : exists v, hd_headers h !! str "content-length" = Some v /\
    number_text v (Z.of_nat (length (hd_body h)))
}.

Lemma header_some h key v : header h key = v -> v <> [] -> hd_headers h !! str key = Some v.
Proof. unfold header. intros <-. by destruct (hd_headers h !! str key). Qed.

Lemma teq_true s v : teq s v = true -> s = v.
Proof. apply bool_decide_eq_true. Qed.

Lemma no_header h key : has_header h key = false -> hd_headers h !! str key = None.
Proof.
  unfold has_header. intros H%bool_decide_eq_false. by apply eq_None_not_Some.
Qed.

(** The length check of a request with a body. *)
Lemma declared_body h len :
  declared_length h = Some len -> len = Z.of_nat (length (hd_body h)) -> hd_body h <> [] ->
  exists v, hd_headers h !! str "content-length" = Some v /\
    number_text v (Z.of_nat (length (hd_body h))).
Proof.
  unfold declared_length, has_header, header.
  destruct (hd_headers h !! str "content-length") as [v|] eqn:E.
  - rewrite bool_decide_true by eauto. simpl. intros [H _]%integer_spec <- _. by exists v.
  - rewrite bool_decide_false by (by intros []). intros [= <-] Hl Hb.
    by destruct (hd_body h).
Qed.

Lemma origin_allowed h :
  has_header h "origin" && negb (teq (header h "origin") (str "http://" ++ kSettingsHost)) = false ->
  hd_headers h !! str "origin" = None \/
  hd_headers h !! str "origin" = Some (str "http://" ++ kSettingsHost).
Proof.
  intros [H|H]%andb_false_iff; [left; by apply no_header|right].
  apply header_some; [|done]. by apply teq_true, negb_false_iff.
Qed.

Definition saved_reply (cfg : OverlayConfig) : text :=
  response 200 (str "OK") (serialize_config cfg) plain_type.
Definition failed_reply : text :=
  response 500 (str "Internal Server Error") (str "Cannot save settings" ++ [nl]) plain_type.

(** The outcome of a save that was asked for. *)
Definition saved (store : SettingsStore) (s0 : FS) (cfg : OverlayConfig)
    (r : option (text * SettingsStore)) (d : Disk) : Prop :=
  match r with
  | None => True
  | Some (reply, store') =>
      path_ store' = path_ store /\
      (reply = saved_reply cfg /\ config_ store' = cfg \/ reply = failed_reply /\ store' = store) /\
      match d with
      | Broken => True
      | Intact s => in_step store' s /\
          forall p, p <> path_ store -> p <> pending_path (path_ store) -> files s !! p = files s0 !! p
      end
  end.

Lemma post_saved fuel store cfg t r s0 :
  in_step store s0 -> form_config cfg ->
  exec (bindp (save fuel store cfg) (fun saved =>
      match saved with
      | None => Ret None
      | Some (false, store') => Ret (Some (failed_reply, store'))
      | Some (true, store') => Ret (Some (saved_reply (get store'), store'))
      end)) t r ->
  exists d, monitor (fs_step (old_or_new (path_ store) (files s0 !! path_ store)
      (serialize_config cfg))) (Intact s0) t = Some d /\ saved store s0 cfg r d.
Proof.
  intros Hs Hc H. apply exec_bind in H as (t1 & t2 & r1 & -> & He & H).
  unfold save in He. apply exec_bind in He as (t0 & t3 & ok & -> & He0 & He).
  rewrite (sanitize_id cfg) in * by (by apply form_config_wf).
  apply (wp_sound _ _ _ _ (atomic_write_wp fuel (path_ store) (serialize_config cfg) s0))
    in He0 as (d & Hd & Hr).
  assert (t3 = [] /\ t2 = []) as [-> ->].
  { destruct ok as [[]|]; destruct He as [-> ->]; by destruct H as [-> _]. }
  rewrite !app_nil_r. exists d. split; [done|].
  destruct ok as [[]|]; destruct He as [_ ->]; destruct H as [_ ->]; simpl; [..|done].
  - split_and!; [done|by left|]. destruct d as [s|]; [|done]. destruct Hr as (Ho & Hf & _).
    split; [|done]. unfold in_step. simpl. by rewrite Hf, reload_serialized.
  - split_and!; [done|by right|]. destruct d as [s|]; [|done]. destruct Hr as (Ho & Hf).
    split; [|done]. unfold in_step. simpl. by rewrite Hf.
Qed.

Lemma one_transaction fuel request store page t r s0 :
  in_step store s0 -> exec (settings_http_response fuel request store page) t r ->
  (t = [] /\ exists reply, r = Some (reply, store)) \/
  exists h cfg d,
    parse_head request = Some h /\ authorised h /\ parse_settings_form (hd_body h) = Some cfg /\
    monitor (fs_step (old_or_new (path_ store) (files s0 !! path_ store) (serialize_config cfg)))
      (Intact s0) t = Some d /\ saved store s0 cfg r d.
Proof.
  intros Hs. unfold settings_http_response.
  destruct (parse_head request) as [h|]; [|intros [-> ->]; left; eauto].
  unfold route. destruct (teq (header h "host") kSettingsHost) eqn:Ehost; cbn [negb];
    [|intros [-> ->]; left; eauto].
  destruct (has_header h "transfer-encoding") eqn:Ete; [intros [-> ->]; left; eauto|].
  destruct (declared_length h) as [len|] eqn:Elen; [|intros [-> ->]; left; eauto].
  destruct (negb (len =? _)) eqn:Eb; [intros [-> ->]; left; eauto|].
  destruct (_ && _); [intros [-> ->]; left; eauto|].
  destruct (_ && _); [intros [-> ->]; left; eauto|].
  destruct (_ && _) eqn:Epost; [|intros [-> ->]; left; eauto].
  unfold post_config. destruct (_ || _) eqn:Eo; [intros [-> ->]; left; eauto|].
  destruct (parse_settings_form (hd_body h)) as [cfg|] eqn:Ef; [|intros [-> ->]; left; eauto].
  intros H. right. exists h, cfg.
  destruct (post_saved fuel store cfg t r s0 Hs (form_usable _ _ Ef) H) as (d & Hd & Hr).
  exists d. split_and!; try done. clear H Hd Hr.
  rewrite !orb_false_iff, !negb_false_iff in Eo. destruct Eo as [[Eown Etype] Eorigin].
  apply andb_true_iff in Epost as [Em Ep]. apply negb_false_iff, Z.eqb_eq in Eb.
  constructor; try by apply teq_true.
  - by apply header_some; [apply teq_true|].
  - by apply header_some; [apply teq_true|].
  - by apply header_some; [apply teq_true|].
  - by apply origin_allowed.
  - by apply no_header.
  - eapply declared_body; [done|done|]. intros E. by rewrite E in Ef.
Qed.

(** C26: one request is one transaction on the settings.  Either it makes no system call
    and changes nothing; or it is an authorised request with an acceptable form, and then
    at every moment - also if the console stops - the settings file holds its old or
    exactly the new contents, it is replaced only by data already synced, the answer says
    200 exactly when memory holds the new configuration, and in every case the memory is
    what a restart would load from the file. *)
Theorem settings_transaction fuel request store page t r s0 :
  in_step store s0 -> exec (settings_http_response fuel request store page) t r ->
  (t = [] /\ exists reply, r = Some (reply, store)) \/
  exists h cfg d,
    parse_head request = Some h /\ authorised h /\ parse_settings_form (hd_body h) = Some cfg /\
    monitor (fs_step (old_or_new (path_ store) (files s0 !! path_ store) (serialize_config cfg)))
      (Intact s0) t = Some d /\ saved store s0 cfg r d.
Proof. apply one_transaction. Qed.

Definition sample_form_body : text :=
  str "corner=top_right&font_size=40&margin_x=17&margin_y=240&show_label=0&label_color=%2300ab01&value_color=%23ffffff".

Definition sample_post : Request := {|
  rq_method := str "POST"; rq_path := str "/api/config"; rq_version := str "HTTP/1.1";
  rq_headers := [(str "Host", kSettingsHost); (str "X-CommonFPS", str " 1");
    (str "Content-Type", str "application/x-www-form-urlencoded"); (str "Content-Length", str "111")];
  rq_body := sample_form_body |}.

Definition sample_store : SettingsStore := {| path_ := str "b"; config_ := default_config |}.

(** The sample really saves. *)
Example sample_saves :
  (run sample_disk (settings_http_response 200 (render sample_post) sample_store [])
    (sample_fs, false)).1.1 =
  Some (saved_reply sample_config, {| path_ := str "b"; config_ := sample_config |}).
Proof. vm_compute. reflexivity. Qed.

Lemma settings_transaction_witness :
  (run sample_disk (settings_http_response 200 (render sample_post) sample_store [])
    (sample_fs, false)).2 <> [] /\
  exists h cfg d, parse_head (render sample_post) = Some h /\ authorised h /\
    parse_settings_form (hd_body h) = Some cfg /\
    monitor (fs_step (old_or_new (str "b") None (serialize_config cfg))) (Intact sample_fs)
      (run sample_disk (settings_http_response 200 (render sample_post) sample_store [])
        (sample_fs, false)).2 = Some d /\
    saved sample_store sample_fs cfg
      (run sample_disk (settings_http_response 200 (render sample_post) sample_store [])
        (sample_fs, false)).1.1 d.
Proof.
  assert (Hne : (run sample_disk (settings_http_response 200 (render sample_post) sample_store [])
    (sample_fs, false)).2 <> []) by (vm_compute; discriminate).
  split; [exact Hne|].
  destruct (settings_transaction 200 (render sample_post) sample_store [] _ _ sample_fs
    eq_refl (run_exec sample_disk _ (sample_fs, false))) as [[E _]|H].
  - exfalso. exact (Hne E).
  - exact H.
Defined.
