(* ===== verification/SettingsService.v ===== *)
(** The settings service: [src/ps5/settings_service.cpp].  One thread accepts connections
    and serves one request each; the socket and the clock are calls, the request is
    answered by [Settings.settings_http_response] with its file calls.  Socket options and
    log lines are left out. *)
From S2P Require Import Prelude Effects Types Text Config FileIo Settings SettingsForm SettingsHttp.

Definition kSettingsPort : Z := 39029.

Inductive vcall :=
| VSocket | VBind (port : Z) | VListen (backlog : Z) | VThread    (** result codes *)
| VAccept                                     (** descriptor and [errno] *)
| VMonotonic                                  (** [monotonic_ms] *)
| VRecv (fd : Z) (capacity : nat)             (** [n], [errno], the bytes stored *)
| VSend (fd : Z) (data : text)                (** [n], [errno] *)
| VClose (fd : Z) | VUsleep (us : Z)
| VFile (c : fio).

Definition vret (c : vcall) : Type :=
  match c with
  | VAccept | VSend _ _ => Z * Z
  | VRecv _ _ => Z * Z * text
  | VFile c => fio_ret c
  | _ => Z
  end.

Abbreviation vprog := (prog vret).
Definition vc (c : vcall) : vprog (vret c) := call c.

(** A program over the file calls among the service's. *)
Fixpoint lift {A} (p : fprog A) : vprog A :=
  match p with
  | Ret a => Ret a
  | Call c k => Call (VFile c) (fun r => lift (k r))
  end.

(** ** The end of a request *)

Definition ULONG_MAX : Z := 2 ^ 64 - 1.
(** [strtoul(s, nullptr, 10)] *)
Definition strtoul10 (s : text) : Z :=
  let s0 := drop_while isspace s in
  let '(neg, s1) := match s0 with
                    | c :: r => if code c =? 45 then (true, r)
                                else if code c =? 43 then (false, r) else (false, s0)
                    | [] => (false, s0)
                    end in
  let v := digits_val 10 (take_while isdigit s1) 0 in
  if ULONG_MAX <? v then ULONG_MAX else if neg then u64 (- v) else v.

Definition blank_line : text := crlf ++ crlf.
Definition length_key : text := crlf ++ str "content-length:".

(** The C string in the buffer. *)
Definition c_string (s : text) : text := take_while (fun c => negb (code c =? 0)) s.

(** Has the loop received enough, or too much to go on? *)
Definition request_complete (buffer : text) : bool :=
  match find_at blank_line (c_string buffer) with
  | None => false
  | Some end_ =>
      let headers := map tolower (take end_ buffer) in
      let length_ := match find_at length_key headers with
                     | None => 0
                     | Some key => strtoul10 (drop (key + 17) headers)
                     end in
      (512 <? length_) || (Z.of_nat end_ + 4 + length_ <=? Z.of_nat (length buffer))
  end.

(** [n] bytes that a call stored. *)
Definition stored (n : Z) (data : text) : text :=
  take (Z.to_nat n) (data ++ repeat (chr 0) (Z.to_nat n)).

Section Programs.
Local Open Scope prog_scope.
(** The rounds of each loop: [None] when they are used up. *)
Variable fuel : nat.
Variable page : text.

Fixpoint receive_loop (rounds : nat) (fd deadline : Z) (buffer : text) : vprog (option text) :=
  if negb (length buffer <? kMaxSettingsBytes)%nat then Ret (Some buffer)
  else match rounds with
  | O => Ret None
  | S n' =>
      let* now := vc VMonotonic in
      if negb (now <? deadline) then Ret (Some buffer)
      else
        let* (n, errno, data) := vc (VRecv fd (kMaxSettingsBytes - length buffer)) in
        if (n <? 0) && (errno =? EINTR) then receive_loop n' fd deadline buffer
        else if n <=? 0 then Ret (Some buffer)
        else
          let buffer' := buffer ++ stored n data in
          if request_complete buffer' then Ret (Some buffer')
          else receive_loop n' fd deadline buffer'
  end.

Fixpoint send_loop (rounds : nat) (fd deadline : Z) (reply : text) : vprog (option unit) :=
  match reply, rounds with
  | [], _ => Ret (Some tt)
  | _, O => Ret None
  | _, S n' =>
      let* now := vc VMonotonic in
      if negb (now <? deadline) then Ret (Some tt)
      else
        let* (n, errno) := vc (VSend fd reply) in
        if (n <? 0) && (errno =? EINTR) then send_loop n' fd deadline reply
        else if n <=? 0 then Ret (Some tt)
        else send_loop n' fd deadline (drop (Z.to_nat n) reply)
  end.

Definition client (fd : Z) (store : SettingsStore) : vprog (option SettingsStore) :=
  let* now := vc VMonotonic in
  let* buffer := receive_loop fuel fd (now + 2000) [] in
  match buffer with
  | None => Ret None
  | Some buffer =>
      let* reply := lift (settings_http_response fuel buffer store page) in
      match reply with
      | None => Ret None
      | Some (reply, store) =>
          let* now := vc VMonotonic in
          let* sent := send_loop fuel fd (now + 2000) reply in
          Ret (match sent with Some _ => Some store | None => None end)
      end
  end.

(** [n] rounds of the endless loop of [run]. *)
Fixpoint run_rounds (n : nat) (store : SettingsStore) : vprog (option SettingsStore) :=
  match n with
  | O => Ret (Some store)
  | S n' =>
      let* (fd, errno) := vc VAccept in
      if fd <? 0 then
        if errno =? EINTR then run_rounds n' store
        else let* _ := vc (VUsleep 100000) in run_rounds n' store
      else
        let* served := client fd store in
        match served with
        | None => Ret None
        | Some store => let* _ := vc (VClose fd) in run_rounds n' store
        end
  end.

(** The listener; [true]: the thread runs. *)
Definition start_settings_service : vprog bool :=
  let* fd := vc VSocket in
  if fd <? 0 then Ret false
  else
    let* rc := vc (VBind kSettingsPort) in
    let* rc := (if negb (rc =? 0) then Ret (-1) else vc (VListen 4)) in
    if negb (rc =? 0) then let* _ := vc (VClose fd) in Ret false
    else
      let* rc := vc VThread in
      if negb (rc =? 0) then let* _ := vc (VClose fd) in Ret false else Ret true.
End Programs.

(** ** The socket *)

(** The bytes the calls of a trace delivered and accepted. *)
Fixpoint received (t : list (event vret)) : text :=
  match t with
  | [] => []
  | Ev (VRecv _ _) (n, _, data) :: t' => (if 0 <? n then stored n data else []) ++ received t'
  | _ :: t' => received t'
  end.
Fixpoint sent (t : list (event vret)) : text :=
  match t with
  | [] => []
  | Ev (VSend _ data) (n, _) :: t' => (if 0 <? n then take (Z.to_nat n) data else []) ++ sent t'
  | _ :: t' => sent t'
  end.

(** Every receive asks for what is left of the buffer, of which [used] bytes are taken. *)
Fixpoint asks_rest (used : nat) (t : list (event vret)) : Prop :=
  match t with
  | [] => True
  | Ev (VRecv _ capacity) (n, _, data) :: t' =>
      (used < kMaxSettingsBytes)%nat /\ capacity = (kMaxSettingsBytes - used)%nat /\
      asks_rest (used + Z.to_nat n) t'
  | _ :: t' => asks_rest used t'
  end.
(** The documented answers of [recv]: at most what was asked for. *)
Definition recv_in_bounds (e : event vret) : bool :=
  match e with Ev (VRecv _ capacity) (n, _, _) => n <=? Z.of_nat capacity | _ => true end.

Lemma length_stored n data : length (stored n data) = Z.to_nat n.
Proof. unfold stored. rewrite length_take, length_app, repeat_length. lia. Qed.

Lemma receive_loop_spec rounds fd deadline buffer t r :
  exec (receive_loop rounds fd deadline buffer) t (Some r) ->
  r = buffer ++ received t /\ asks_rest (length buffer) t /\
  ((length buffer <= kMaxSettingsBytes)%nat -> forallb recv_in_bounds t = true ->
   (length r <= kMaxSettingsBytes)%nat).
Proof.
  revert buffer t. induction rounds as [|n IH]; intros buffer t; cbn [receive_loop];
    (destruct (length buffer <? kMaxSettingsBytes)%nat eqn:E; cbn [negb];
     [|intros [-> [= ->]]; cbn; by rewrite app_nil_r]); [by intros [_ ?]|].
  apply Nat.ltb_lt in E. intros (now & t1 & -> & He). cbn [received asks_rest forallb recv_in_bounds bindp andb] in *.
  destruct (negb (now <? deadline)); [destruct He as [-> [= ->]]; cbn; by rewrite app_nil_r|].
  destruct He as ([[k errno] data] & t2 & -> & He). cbn [received asks_rest forallb recv_in_bounds bindp andb] in *.
  destruct ((k <? 0) && (errno =? EINTR)) eqn:Ei.
  { apply andb_true_iff in Ei as [Ek%Z.ltb_lt _]. apply IH in He as (H1 & H2 & H3).
    rewrite (proj2 (Z.ltb_ge 0 k)) by lia. rewrite (Z2Nat.nonpos k), Nat.add_0_r by lia.
    split; [exact H1|]. split; [done|]. intros Hb [_ Ht]%andb_true_iff. by apply H3. }
  destruct (Z.leb_spec k 0) as [Hk|Hk].
  { destruct He as [-> [= ->]]. rewrite (proj2 (Z.ltb_ge 0 k)) by lia. cbn. by rewrite app_nil_r. }
  rewrite (proj2 (Z.ltb_lt 0 k)) by lia.
  destruct (request_complete (buffer ++ stored k data)).
  - destruct He as [-> [= ->]]. cbn [received asks_rest forallb]. rewrite app_nil_r. split; [done|].
    split; [done|]. intros _ [H%Z.leb_le _]%andb_true_iff. rewrite length_app, length_stored. lia.
  - apply IH in He as (-> & H2 & H3). rewrite length_app, length_stored in H2, H3.
    split; [by rewrite app_assoc|]. split; [done|]. intros Hb [H%Z.leb_le Ht]%andb_true_iff.
    apply H3; [lia|done].
Qed.

Lemma send_loop_spec rounds fd deadline reply t :
  exec (send_loop rounds fd deadline reply) t (Some tt) -> sent t `prefix_of` reply.
Proof.
  revert reply t. induction rounds as [|n IH]; intros [|c reply] t; cbn [send_loop];
    try (intros [-> _]; apply prefix_nil).
  intros (now & t1 & -> & He). cbn [sent bindp] in *.
  destruct (negb (now <? deadline)); [destruct He as [-> _]; apply prefix_nil|].
  destruct He as ([k errno] & t2 & -> & He). cbn [sent bindp] in *.
  destruct ((k <? 0) && (errno =? EINTR)) eqn:Ei.
  { apply andb_true_iff in Ei as [Ek%Z.ltb_lt _]. rewrite (proj2 (Z.ltb_ge 0 k)) by lia. by apply IH. }
  destruct (Z.leb_spec k 0) as [Hk|Hk].
  { destruct He as [-> _]. rewrite (proj2 (Z.ltb_ge 0 k)) by lia. apply prefix_nil. }
  rewrite (proj2 (Z.ltb_lt 0 k)) by lia. apply IH in He.
  rewrite <- (take_drop (Z.to_nat k) (c :: reply)) at 2. by apply prefix_app.
Qed.

(** ** The file calls *)

Definition file_event (e : event vret) : option (event fio_ret) :=
  match e with Ev (VFile c) r => Some (Ev c r) | _ => None end.
Definition file_calls (t : list (event vret)) : list (event fio_ret) := omap file_event t.

Lemma received_app t1 t2 : received (t1 ++ t2) = received t1 ++ received t2.
Proof.
  induction t1 as [|[c r] t1 IH]; [done|].
  destruct c; cbn [app received]; try exact IH. destruct r as [[n e] data]. by rewrite IH, app_assoc.
Qed.
Lemma sent_app t1 t2 : sent (t1 ++ t2) = sent t1 ++ sent t2.
Proof.
  induction t1 as [|[c r] t1 IH]; [done|].
  destruct c; cbn [app sent]; try exact IH. destruct r as [n e]. by rewrite IH, app_assoc.
Qed.
(** Calls that are no receives leave the account of the buffer alone. *)
Definition no_recv (e : event vret) : bool := match e with Ev (VRecv _ _) _ => false | _ => true end.
Lemma asks_rest_app used t1 t2 :
  asks_rest used t1 -> forallb no_recv t2 = true -> asks_rest used (t1 ++ t2).
Proof.
  revert used. induction t1 as [|[c r] t1 IH]; intros used; cbn [app asks_rest].
  - intros _. induction t2 as [|[c r] t2 IH2]; cbn [forallb asks_rest no_recv]; [done|].
    destruct c; cbn [no_recv andb]; done.
  - destruct c; try apply IH. destruct r as [[n e] data]. intros (H1 & H2 & H3) H.
    split; [done|]. split; [done|]. by apply IH.
Qed.

Lemma lift_trace {A} (p : fprog A) t a :
  exec (lift p) t a -> exec p (file_calls t) a /\ received t = [] /\ sent t = [] /\
    forallb no_recv t = true /\ forallb recv_in_bounds t = true.
Proof.
  revert t. induction p as [x|c k IH]; intros t; cbn [lift]; [by intros [-> ->]|].
  intros (r & t' & -> & He). apply IH in He as (H1 & H2 & H3 & H4 & H5).
  split; [|done]. exists r, (file_calls t'). done.
Qed.

(** The socket loops make no file calls. *)
Definition socket_call (c : vcall) : Prop :=
  match c with VMonotonic | VRecv _ _ | VSend _ _ => True | _ => False end.
Lemma socket_trace {A} (p : vprog A) t a :
  calls socket_call p -> exec p t a -> file_calls t = [].
Proof.
  revert t. induction p as [x|c k IH]; intros t; [by intros _ [-> ->]|].
  intros [Hc Hk] (r & t' & -> & He). specialize (IH r t' (Hk r) He).
  destruct c; try done.
Qed.

Lemma receive_calls rounds fd deadline buffer : calls socket_call (receive_loop rounds fd deadline buffer).
Proof.
  revert buffer. induction rounds as [|n IH]; intros buffer; cbn [receive_loop];
    (destruct (negb _); [done|]); [done|]. split; [done|]. intros now. cbn [bindp].
  destruct (negb _); [done|]. split; [done|]. intros [[k e] data]. cbn [bindp].
  destruct (_ && _); [apply IH|]. destruct (k <=? 0); [done|]. destruct (request_complete _); [done|apply IH].
Qed.
Lemma send_calls rounds fd deadline reply : calls socket_call (send_loop rounds fd deadline reply).
Proof.
  revert reply. induction rounds as [|n IH]; intros [|c reply]; cbn [send_loop]; try done.
  split; [done|]. intros now. cbn [bindp]. destruct (negb _); [done|].
  split; [done|]. intros [k e]. cbn [bindp]. destruct (_ && _); [apply IH|].
  destruct (k <=? 0); [done|apply IH].
Qed.

(** Calls of one kind only: the receive loop sends nothing, the send loop receives
    nothing. *)
Lemma receive_sends_nothing rounds fd deadline buffer t r :
  exec (receive_loop rounds fd deadline buffer) t r -> sent t = [].
Proof.
  revert buffer t. induction rounds as [|n IH]; intros buffer t; cbn [receive_loop];
    (destruct (negb _); [by intros [-> _]|]); [by intros [-> _]|].
  intros (now & t1 & -> & He). cbn [bindp sent] in *. destruct (negb _); [by destruct He as [-> _]|].
  destruct He as ([[k e] data] & t2 & -> & He). cbn [bindp sent] in *.
  destruct (_ && _); [by eapply IH|]. destruct (k <=? 0); [by destruct He as [-> _]|].
  destruct (request_complete _); [by destruct He as [-> _]|by eapply IH].
Qed.
Lemma send_receives_nothing rounds fd deadline reply t r :
  exec (send_loop rounds fd deadline reply) t r ->
  received t = [] /\ forallb no_recv t = true /\ forallb recv_in_bounds t = true.
Proof.
  revert reply t. induction rounds as [|n IH]; intros [|c reply] t; cbn [send_loop];
    try (by intros [-> _]).
  intros (now & t1 & -> & He). cbn [bindp received forallb no_recv recv_in_bounds andb] in *.
  destruct (negb _); [by destruct He as [-> _]|].
  destruct He as ([k e] & t2 & -> & He). cbn [bindp received forallb no_recv recv_in_bounds andb] in *.
  destruct (_ && _); [by eapply IH|]. destruct (k <=? 0); [by destruct He as [-> _]|by eapply IH].
Qed.

Lemma client_spec fuel page fd store t store' :
  exec (client fuel page fd store) t (Some store') ->
  exists reply,
    exec (settings_http_response fuel (received t) store page) (file_calls t) (Some (reply, store')) /\
    sent t `prefix_of` reply /\ asks_rest 0 t /\
    (forallb recv_in_bounds t = true -> (length (received t) <= kMaxSettingsBytes)%nat).
Proof.
  unfold client. intros (now & t0 & -> & He). cbn [bindp] in He.
  apply exec_bind in He as (tr & t1 & [buffer|] & -> & Hr & He); [|by destruct He].
  apply exec_bind in He as (tf & t2 & [[reply store2]|] & -> & Hf & He); [|by destruct He].
  destruct He as (now2 & t3 & -> & He). cbn [bindp] in He.
  apply exec_bind in He as (ts & t4 & [[]|] & -> & Hs & He); [|by destruct He].
  destruct He as [-> [= ->]]. rewrite app_nil_r.
  pose proof (socket_trace _ _ _ (receive_calls _ _ _ _) Hr) as Fr.
  pose proof (socket_trace _ _ _ (send_calls _ _ _ _) Hs) as Fs.
  pose proof (receive_sends_nothing _ _ _ _ _ _ Hr) as Sr.
  destruct (send_receives_nothing _ _ _ _ _ _ Hs) as (Rs & Ns & Bs).
  destruct (lift_trace _ _ _ Hf) as (Ef & Rf & Sf & Nf & Bf).
  apply receive_loop_spec in Hr as (Eb & Ar & Br). apply send_loop_spec in Hs. cbn [app length] in *.
  assert (Hrec : received (Ev VMonotonic now :: tr ++ tf ++ Ev VMonotonic now2 :: ts) = received tr).
  { cbn [received]. rewrite !received_app. cbn [received]. by rewrite Rf, Rs, !app_nil_r. }
  assert (Hcalls : file_calls (Ev VMonotonic now :: tr ++ tf ++ Ev VMonotonic now2 :: ts) = file_calls tf).
  { unfold file_calls in *. cbn [omap list_omap file_event]. rewrite !omap_app. cbn [omap list_omap file_event].
    by rewrite Fr, Fs, app_nil_r. }
  assert (Hsent : sent (Ev VMonotonic now :: tr ++ tf ++ Ev VMonotonic now2 :: ts) = sent ts).
  { cbn [sent]. rewrite !sent_app. cbn [sent]. by rewrite Sf, Sr. }
  rewrite Hrec, Hcalls, Hsent, <- Eb. exists reply. split; [done|]. split; [done|]. split.
  - cbn [asks_rest]. apply asks_rest_app; [done|]. rewrite forallb_app. cbn [forallb no_recv].
    by rewrite Nf, Ns.
  - cbn [forallb recv_in_bounds]. rewrite !forallb_app. intros [_ [Hb _]%andb_true_iff]%andb_true_iff.
    apply Br; [unfold kMaxSettingsBytes; lia|done].
Qed.

(** ** The files over many requests *)

(** At every moment the settings file is as it was found, or what the program writes. *)
Definition settings_file (path : text) (found : option text) (s : FS) : bool :=
  bool_decide (files s !! path = found) ||
  match files s !! path with
  | Some c => bool_decide (serialize_config (reload (Some c)) = c)
  | None => false
  end.

Definition service_step (allowed : FS -> bool) (d : Disk) (e : event vret) : option Disk :=
  match file_event e with Some f => fs_step allowed d f | None => Some d end.

Lemma service_monitor allowed d t :
  monitor (service_step allowed) d t = monitor (fs_step allowed) d (file_calls t).
Proof.
  revert d. induction t as [|e t IH]; intros d; [done|]. unfold file_calls in *. cbn [monitor omap list_omap].
  unfold service_step at 1. destruct (file_event e) as [f|]; cbn [monitor]; [|apply IH].
  destruct (fs_step allowed d f); [apply IH|done].
Qed.

Lemma fs_weaken (a1 a2 : FS -> bool) d t d' :
  (forall s, a1 s = true -> a2 s = true) ->
  monitor (fs_step a1) d t = Some d' -> monitor (fs_step a2) d t = Some d'.
Proof.
  intros Ha. revert d. induction t as [|e t IH]; intros d; cbn [monitor]; [done|].
  destruct d as [s|]; cbn [fs_step]; [|apply IH]. destruct (call_ok s e); [|done].
  destruct (fs_effect s e) as [s'|]; [|apply IH]. destruct (a1 s') eqn:E; [|done].
  rewrite (Ha _ E). apply IH.
Qed.

Lemma fs_allowed (a : FS -> bool) s t s' :
  a s = true -> monitor (fs_step a) (Intact s) t = Some (Intact s') -> a s' = true.
Proof.
  revert s. induction t as [|e t IH]; intros s Ha; cbn [monitor]; [by intros [= ->]|].
  cbn [fs_step]. destruct (call_ok s e); [|done]. destruct (fs_effect s e) as [s1|].
  - destruct (a s1) eqn:E; [|done]. by apply IH.
  - clear. induction t as [|e' t IH]; [done|exact IH].
Qed.

Lemma old_or_new_settings path found s0 cfg s :
  settings_file path found s0 = true -> form_config cfg ->
  old_or_new path (files s0 !! path) (serialize_config cfg) s = true ->
  settings_file path found s = true.
Proof.
  intros H0 Hc H%bool_decide_eq_true. unfold settings_file in *. destruct H as [->| ->]; [done|].
  rewrite reload_serialized by done. by rewrite (bool_decide_true (serialize_config cfg = _)), orb_true_r.
Qed.

(** Memory and disk between two requests. *)
Definition settled_store (path : text) (found : option text) (others : gmap text text)
    (store : SettingsStore) (d : Disk) : Prop :=
  match d with
  | Broken => True
  | Intact s => in_step store s /\ path_ store = path /\ settings_file path found s = true /\
      forall p, p <> path -> p <> pending_path path -> files s !! p = others !! p
  end.

Lemma client_settled fuel page fd store t store' path found others d :
  settled_store path found others store d ->
  exec (client fuel page fd store) t (Some store') ->
  exists d', monitor (service_step (settings_file path found)) d t = Some d' /\
    settled_store path found others store' d'.
Proof.
  intros Hd (reply & He & _)%client_spec. rewrite service_monitor. destruct d as [s0|].
  2: { exists Broken. split; [|done]. clear. induction (file_calls t) as [|e l IH]; [done|exact IH]. }
  destruct Hd as (Hin & <- & Hf & Ho).
  destruct (one_transaction _ _ _ _ _ _ _ Hin He) as [(-> & r' & [= -> ->])|(h & cfg & d & _ & _ & Hcfg & Hm & Hs)].
  { by exists (Intact s0). }
  apply form_usable in Hcfg.
  assert (Hm' : monitor (fs_step (settings_file (path_ store) found)) (Intact s0) (file_calls t) = Some d).
  { eapply fs_weaken; [|exact Hm]. intros s. by apply old_or_new_settings. }
  exists d. split; [done|]. destruct Hs as (Hp & _ & Hd). destruct d as [s|]; [|done].
  destruct Hd as [Hin' Ho']. split; [done|]. split; [done|]. split; [by eapply fs_allowed|].
  intros p H1 H2. rewrite Ho' by done. by apply Ho.
Qed.

(** ** Theorems *)

(** C27: the service answers exactly what it received.  The bytes it parses are the bytes
    its receives delivered; every receive asks for no more than what is left of the
    4096-byte buffer, so answers of the documented size never overflow it; the store is
    used by this one request only; and whatever part of the answer is sent, in however
    many pieces, is a prefix of it. *)
Theorem service_answers_request fuel page fd store t store' :
  exec (client fuel page fd store) t (Some store') ->
  exists reply,
    exec (settings_http_response fuel (received t) store page) (file_calls t) (Some (reply, store')) /\
    sent t `prefix_of` reply /\ asks_rest 0 t /\
    (forallb recv_in_bounds t = true -> (length (received t) <= kMaxSettingsBytes)%nat).
Proof. apply client_spec. Qed.

(** C10: over any number of connections the settings in memory are what a restart would load
    from the settings file; at every moment in between that file is as it was found or
    holds a configuration the program wrote, completely; and no file is changed but it and
    its pending copy. *)
Theorem service_keeps_settings fuel page n store t store' s0 :
  in_step store s0 -> exec (run_rounds fuel page n store) t (Some store') ->
  exists d, monitor (service_step (settings_file (path_ store) (files s0 !! path_ store))) (Intact s0) t
      = Some d /\
    settled_store (path_ store) (files s0 !! path_ store) (files s0) store' d.
Proof.
  intros Hin. set (path := path_ store). set (found := files s0 !! path).
  assert (H0 : settled_store path found (files s0) store (Intact s0)).
  { split; [done|]. split; [done|]. split; [|done]. unfold settings_file, found.
    by rewrite (bool_decide_true (files s0 !! path = files s0 !! path)). }
  clearbody path found. clear Hin. revert H0. generalize (Intact s0) as d. generalize (files s0) as others.
  intros others. revert store t. induction n as [|n IH]; intros store t d Hd; cbn [run_rounds].
  { intros [-> [= ->]]. by exists d. }
  intros ([a errno] & t1 & -> & He). cbn [monitor bindp] in *.
  change (service_step _ d (Ev VAccept (a, errno))) with (Some d). cbn iota.
  destruct (a <? 0).
  - destruct (errno =? EINTR); [exact (IH store t1 d Hd He)|].
    destruct He as (r & t2 & -> & He). exact (IH store t2 d Hd He).
  - apply exec_bind in He as (t2 & t3 & [store1|] & -> & H1 & H2); [|by destruct H2].
    destruct (client_settled _ _ _ _ _ _ _ _ _ _ Hd H1) as (d1 & Hm & Hd1).
    rewrite monitor_app, Hm. destruct H2 as (r & t4 & -> & H2). exact (IH store1 t4 d1 Hd1 H2).
Qed.

(** ** One connection in pieces *)

(** The request arrives in pieces of at most 60 bytes; the answer is taken in pieces of at
    most 50 bytes. *)
Definition sample_net (state : text * (FS * bool)) (c : vcall) : vret c * (text * (FS * bool)) :=
  let '(request, disk) := state in
  match c return vret c * (text * (FS * bool)) with
  | VFile f => let '(r, disk') := sample_disk disk f in (r, (request, disk'))
  | VRecv _ capacity =>
      let n := min (min 60 capacity) (length request) in
      ((Z.of_nat n, 0, take n request), (drop n request, disk))
  | VSend _ data => ((Z.min 50 (Z.of_nat (length data)), 0), state)
  | VAccept => ((5, 0), state)
  | VMonotonic => (1000, state)
  | _ => (0, state)
  end.

Definition sample_service :=
  run sample_net (run_rounds 200 [] 1 sample_store) (render sample_post, (sample_fs, false)).

Lemma sample_service_saves :
  sample_service.1.1 = Some {| path_ := str "b"; config_ := sample_config |}.
Proof. vm_compute. reflexivity. Qed.

Lemma sample_service_exec :
  exec (run_rounds 200 [] 1 sample_store) sample_service.2
    (Some {| path_ := str "b"; config_ := sample_config |}).
Proof. rewrite <- sample_service_saves. unfold sample_service. apply run_exec. Qed.

Lemma service_keeps_settings_witness :
  in_step sample_store sample_fs /\
  exists d, monitor (service_step (settings_file (str "b") None)) (Intact sample_fs) sample_service.2
      = Some d /\
    settled_store (str "b") None (files sample_fs) {| path_ := str "b"; config_ := sample_config |} d.
Proof.
  split; [reflexivity|].
  exact (service_keeps_settings 200 [] 1 sample_store _ _ sample_fs eq_refl sample_service_exec).
Defined.

Definition sample_client :=
  run sample_net (client 200 [] 5 sample_store) (render sample_post, (sample_fs, false)).

Lemma sample_client_exec :
  exec (client 200 [] 5 sample_store) sample_client.2
    (Some {| path_ := str "b"; config_ := sample_config |}).
Proof.
  assert (H : sample_client.1.1 = Some {| path_ := str "b"; config_ := sample_config |})
    by (vm_compute; reflexivity).
  rewrite <- H. unfold sample_client. apply run_exec.
Qed.

Lemma service_answers_request_witness :
  exists reply,
    exec (settings_http_response 200 (received sample_client.2) sample_store [])
      (file_calls sample_client.2) (Some (reply, {| path_ := str "b"; config_ := sample_config |})) /\
    sent sample_client.2 `prefix_of` reply.
Proof.
  destruct (service_answers_request 200 [] 5 sample_store _ _ sample_client_exec) as (reply & H1 & H2 & _).
  exists reply. split; [exact H1|exact H2].
Defined.
