(* ===== verification/MediaLauncher.v ===== *)
(** The entry in the media menu: [ensure_media_launcher] of [src/ps5/media_launcher.cpp].
    The system installer is a set of calls; the two files of the title are written as the
    settings file is ([FileIo.atomic_write]).  The embedded files are parameters.  Log lines
    are left out. *)
From S2P Require Import Prelude Effects Text FileIo.

Definition ENOENT : Z := 2.
Definition kAppInstallerAuth : Z := 0x4800000000000006.
Definition kTitleId : text := str "CFPS00060".
Definition kDir : text := str "/user/app/CFPS00060".
Definition kSysDir : text := str "/user/app/CFPS00060/sce_sys".
Definition kParam : text := str "/user/app/CFPS00060/sce_sys/param.json".
Definition kIcon : text := str "/user/app/CFPS00060/sce_sys/icon0.png".

Inductive FileKind := Directory | Regular | OtherKind.
#[export] Instance FileKind_eq_dec : EqDecision FileKind.
Proof. solve_decision. Defined.

Record Stat := { ls_rc : Z; ls_errno : Z; ls_kind : FileKind; ls_size : Z }.

Inductive lcall :=
| LDlopen | LDlsym (name : string)           (** non-null? *)
| LGetAuth | LSetAuth (v : Z)
| LInitialize                                (** [sceAppInstUtilInitialize] *)
| LAppExists (title : text)                  (** code, the [present] it stores *)
| LInstall (title : text)                    (** [sceAppInstUtilAppInstallTitleDir] *)
| LLstat (path : text) | LMkdir (path : text)
| LFile (c : fio).

Definition lret (c : lcall) : Type :=
  match c with
  | LDlopen | LDlsym _ => bool
  | LAppExists _ => Z * Z
  | LLstat _ => Stat
  | LFile c => fio_ret c
  | _ => Z
  end.

Abbreviation lprog := (prog lret).
Definition lc (c : lcall) : lprog (lret c) := call c.

(** A program over the file calls among the installer's. *)
Fixpoint lift {A} (p : fprog A) : lprog A :=
  match p with
  | Ret a => Ret a
  | Call c k => Call (LFile c) (fun r => lift (k r))
  end.

Section Programs.
Local Open Scope prog_scope.
Variables settings_param settings_icon : text.
(** The rounds of the write loops. *)
Variable fuel : nat.

Definition directory (path : text) : lprog bool :=
  let* st := lc (LLstat path) in
  if ls_rc st =? 0 then Ret (bool_decide (ls_kind st = Directory))
  else if ls_errno st =? ENOENT then let* rc := lc (LMkdir path) in Ret (rc =? 0)
  else Ret false.

Definition asset (path data : text) : lprog (option bool) := lift (atomic_write fuel path data).

Definition can_stage_owned_title : lprog bool :=
  let* st := lc (LLstat kParam) in
  if negb (ls_rc st =? 0) then Ret (ls_errno st =? ENOENT)
  else if bool_decide (ls_kind st <> Regular) ||
          negb (ls_size st =? Z.of_nat (length settings_param)) then Ret false
  else if (1024 <? length settings_param)%nat then Ret false
  else
    let* f := lc (LFile (ReadFile kParam (length settings_param))) in
    Ret (match f with Some (data, _) => bool_decide (data = settings_param) | None => false end).

(** Evaluation of [a && b && ...] with effects. *)
Definition and_then (p : lprog bool) (q : lprog bool) : lprog bool :=
  let* a := p in if a : bool then q else Ret false.

(** Staging the title and installing it. *)
Definition stage_and_install : lprog (option unit) :=
  let* icon := asset kIcon settings_icon in
  match icon with
  | None => Ret None
  | Some icon =>
      let* param := (if icon : bool then asset kParam settings_param else Ret (Some false)) in
      match param with
      | None => Ret None
      | Some staged =>
          let* install_rc := (if staged : bool then lc (LInstall kTitleId) else Ret (-1)) in
          if (install_rc =? 0) || (u32 install_rc =? 0x80990002) then
            let* _ := lc (LAppExists kTitleId) in Ret (Some tt)
          else Ret (Some tt)
      end
  end.

(** Under the installer's authority. *)
Definition installer_session : lprog (option unit) :=
  let* init_rc := lc LInitialize in
  if negb (init_rc =? 0) then Ret (Some tt)
  else
    let* (check_rc, present) := lc (LAppExists kTitleId) in
    let* go := (if (check_rc =? 0) && (present =? 0)
                then and_then can_stage_owned_title (and_then (directory kDir) (directory kSysDir))
                else Ret false) in
    if go : bool then stage_and_install else Ret (Some tt).

Definition ensure_media_launcher (sdk_version : Z) : lprog (option bool) :=
  if 0x12 <=? Z.shiftr sdk_version 24 then Ret (Some true)
  else
    let* module := lc LDlopen in
    let symbol name := (if module : bool then lc (LDlsym name) else Ret false) in
    let* init := symbol "sceAppInstUtilInitialize"%string in
    let* exists_ := symbol "sceAppInstUtilAppExists"%string in
    let* install := symbol "sceAppInstUtilAppInstallTitleDir"%string in
    if negb init || negb exists_ || negb install then Ret (Some true)
    else
      let* original := lc LGetAuth in
      if (original =? 0) || (original =? 2 ^ 64 - 1) then Ret (Some true)
      else
        let* rc := lc (LSetAuth kAppInstallerAuth) in
        let* raised := (if rc =? 0 then let* now := lc LGetAuth in Ret (now =? kAppInstallerAuth)
                        else Ret false) in
        let* done := (if raised : bool then installer_session else Ret (Some tt)) in
        match done with
        | None => Ret None
        | Some _ =>
            let* rc := lc (LSetAuth original) in
            let* restored := (if rc =? 0 then let* now := lc LGetAuth in Ret (now =? original)
                              else Ret false) in
            Ret (Some restored)
        end.
End Programs.

(** ** The monitor *)

(** [Raising]: the installer's authority was asked for and not seen yet. *)
Inductive LPhase := LStart | LKnown (original : Z) | LRaising (original : Z) | LRaised (original : Z)
                  | LGiven (original : Z) (rc : Z) | LBack (restored : bool).

(** [lm_absent]: the installer said that the title is not installed; [lm_owned]: the
    parameter file does not exist or is the embedded one; [lm_icon], [lm_param]: the files
    were replaced. *)
Record Launch := {
  lm_phase : LPhase; lm_absent : bool; lm_owned : bool; lm_icon : bool; lm_param : bool
}.
Definition Launch_init : Launch :=
  {| lm_phase := LStart; lm_absent := false; lm_owned := false; lm_icon := false; lm_param := false |}.
Definition to_phase (p : LPhase) (m : Launch) : Launch :=
  {| lm_phase := p; lm_absent := lm_absent m; lm_owned := lm_owned m; lm_icon := lm_icon m;
     lm_param := lm_param m |}.
Definition set_absent (b : bool) (m : Launch) : Launch :=
  {| lm_phase := lm_phase m; lm_absent := b; lm_owned := lm_owned m; lm_icon := lm_icon m;
     lm_param := lm_param m |}.
Definition set_owned (b : bool) (m : Launch) : Launch :=
  {| lm_phase := lm_phase m; lm_absent := lm_absent m; lm_owned := b; lm_icon := lm_icon m;
     lm_param := lm_param m |}.
Definition set_staged (path : text) (m : Launch) : Launch :=
  {| lm_phase := lm_phase m; lm_absent := lm_absent m; lm_owned := lm_owned m;
     lm_icon := lm_icon m || bool_decide (path = kIcon);
     lm_param := lm_param m || bool_decide (path = kParam) |}.

Definition raised (m : Launch) : bool := match lm_phase m with LRaised _ => true | _ => false end.
Definition may_stage (m : Launch) : bool := raised m && lm_absent m && lm_owned m.

Section Monitor.
Variable settings_param : text.

Definition launch_step (m : Launch) (e : event lret) : option Launch :=
  match e with
  | Ev LGetAuth v =>
      match lm_phase m with
      | LStart => Some (to_phase (LKnown v) m)
      | LRaising o => Some (if v =? kAppInstallerAuth then to_phase (LRaised o) m else m)
      | LGiven o rc => Some (to_phase (LBack (v =? o)) m)
      | _ => None
      end
  | Ev (LSetAuth v) rc =>
      match lm_phase m with
      | LKnown o => if (v =? kAppInstallerAuth) && negb (o =? 0) then Some (to_phase (LRaising o) m) else None
      | LRaising o | LRaised o =>
          if v =? o then Some (to_phase (if rc =? 0 then LGiven o rc else LBack false) m) else None
      | _ => None
      end
  | Ev (LFile (Rename _ to)) rc =>
      if may_stage m && (bool_decide (to = kIcon) || bool_decide (to = kParam))
      then Some (if rc =? 0 then set_staged to m else m) else None
  | Ev (LFile (ReadFile path _)) f =>
      if raised m && bool_decide (path = kParam) then
        Some (set_owned (match f with Some (data, _) => bool_decide (data = settings_param) | None => false end) m)
      else None
  | Ev (LLstat path) st =>
      if raised m then
        Some (if bool_decide (path = kParam) && negb (ls_rc st =? 0)
              then set_owned (ls_errno st =? ENOENT) m else m)
      else None
  | Ev (LFile (Open path _)) _ =>
      if may_stage m && (bool_decide (path = pending_path kIcon) || bool_decide (path = pending_path kParam))
      then Some m else None
  | Ev (LFile (Unlink path)) _ =>
      if may_stage m && (bool_decide (path = pending_path kIcon) || bool_decide (path = pending_path kParam))
      then Some m else None
  | Ev (LFile (Write _ _)) _ | Ev (LFile (Fsync _)) _ | Ev (LFile (Close _)) _ =>
      if may_stage m then Some m else None
  | Ev (LFile _) _ => None
  | Ev (LMkdir _) _ => if may_stage m then Some m else None
  | Ev LInitialize _ => if raised m then Some m else None
  | Ev (LAppExists _) (rc, present) =>
      if raised m then Some (set_absent ((rc =? 0) && (present =? 0)) m) else None
  | Ev (LInstall _) _ => if may_stage m && lm_icon m && lm_param m then Some m else None
  | Ev LDlopen _ | Ev (LDlsym _) _ => Some m
  end.
End Monitor.

(** A state in which the files of the title may be written. *)
Definition staging (o : Z) (icon param : bool) : Launch :=
  {| lm_phase := LRaised o; lm_absent := true; lm_owned := true; lm_icon := icon; lm_param := param |}.

Section Proofs.
Context (settings_param settings_icon : text) (fuel : nat).
Abbreviation step := (launch_step settings_param).

(** One call of a program over the files. *)
Ltac lgo := cbn [launch_step may_stage raised staging lm_phase lm_absent lm_owned lm_icon lm_param
                 andb bindp fioc call lift].

(** The write loop keeps the state. *)
Lemma wp_lift_write n fd data o i p (Q : option text -> Launch -> Prop) :
  (forall r, Q r (staging o i p)) ->
  wp step (lift (write_loop n fd data)) (staging o i p) Q.
Proof.
  intros HQ. revert data. induction n as [|n IH]; intros [|c data]; cbn [write_loop lift wp]; try apply HQ.
  intros [k e]. lgo. destruct (_ && _); [apply IH|]. destruct (k <=? 0); [apply HQ|apply IH].
Qed.

Lemma lift_bind {A B} (p : fprog A) (f : A -> fprog B) m Q :
  wp step (lift (bindp p f)) m Q <-> wp step (lift p) m (fun a m' => wp step (lift (f a)) m' Q).
Proof.
  revert m. induction p as [a|c k IH]; intros m; cbn [bindp lift wp]; [done|].
  split; intros H r; specialize (H r); destruct (step m (Ev (LFile c) r)); try done; by apply IH.
Qed.

(** One file: staged when the result says so. *)
Lemma wp_asset path data o i p (Q : option bool -> Launch -> Prop) :
  path = kIcon \/ path = kParam ->
  (forall r, r <> Some true -> Q r (staging o i p)) ->
  Q (Some true) (set_staged path (staging o i p)) ->
  wp step (asset fuel path data) (staging o i p) Q.
Proof.
  intros Hpath HF HT.
  assert (Hp : bool_decide (pending_path path = pending_path kIcon) ||
    bool_decide (pending_path path = pending_path kParam) = true).
  { destruct Hpath as [-> | ->]; [by rewrite bool_decide_true|].
    by rewrite (bool_decide_true (pending_path kParam = pending_path kParam)), orb_true_r. }
  assert (Hq : bool_decide (path = kIcon) || bool_decide (path = kParam) = true).
  { destruct Hpath as [-> | ->]; [by rewrite bool_decide_true|].
    by rewrite (bool_decide_true (kParam = kParam)), orb_true_r. }
  unfold asset, atomic_write. cbn [bindp fioc call lift]. intros fd. lgo.
  rewrite Hp. destruct (fd <? 0); [by apply HF|].
  apply lift_bind, wp_lift_write. intros [rest|]; [|by apply HF].
  assert (Hend : forall ok : bool,
    wp step (lift (bindp (if ok then bindp (fioc (Rename (pending_path path) path)) (fun rc => Ret (rc =? 0)) else Ret false)
      (fun ok0 : bool => if ok0 then Ret (Some true)
         else bindp (fioc (Unlink (pending_path path))) (fun _ => Ret (Some false)))))
      (staging o i p) Q).
  { assert (Hun : wp step (lift (bindp (fioc (Unlink (pending_path path))) (fun _ => Ret (Some false))))
        (staging o i p) Q).
    { intros rc. lgo.
      rewrite Hp. by apply HF. }
    intros [|]; [|exact Hun]. cbn [bindp fioc call lift]. intros rc.
    lgo. rewrite Hq.
    destruct (rc =? 0); [exact HT|exact Hun]. }
  destruct (bool_decide (rest = [])); cbn [bindp fioc call lift].
  - intros rc. lgo.
    intros rc2. lgo. apply Hend.
  - intros rc2. lgo. apply (Hend false).
Qed.

(** The installer is raised and nothing is staged yet. *)
Definition session (o : Z) (m : Launch) : Prop :=
  lm_phase m = LRaised o.

Lemma wp_stage_and_install o (Q : option unit -> Launch -> Prop) :
  (forall r m, session o m -> Q r m) ->
  wp step (stage_and_install settings_param settings_icon fuel) (staging o false false) Q.
Proof.
  intros HQ. unfold stage_and_install.
  assert (Hrest : forall icon param (staged : bool), (staged = true -> icon = true /\ param = true) ->
    wp step (bindp (if staged then lc (LInstall kTitleId) else Ret (-1)) (fun install_rc =>
      if (install_rc =? 0) || (u32 install_rc =? 0x80990002) then
        bindp (lc (LAppExists kTitleId)) (fun _ => Ret (Some tt)) else Ret (Some tt)))
      (staging o icon param) Q).
  { intros icon param staged Hs. apply wp_bind. assert (Hex : forall rc, wp step
      (if (rc =? 0) || (u32 rc =? 0x80990002) then
        bindp (lc (LAppExists kTitleId)) (fun _ => Ret (Some tt)) else Ret (Some tt))
      (staging o icon param) Q).
    { intros rc. destruct (_ || _); [|by apply HQ]. intros [rc2 present]. lgo. by apply HQ. }
    destruct staged; [|apply Hex]. destruct (Hs eq_refl) as [-> ->]. intros rc. lgo. apply Hex. }
  apply wp_bind, wp_asset; [by left|..].
  - intros [[|]|] Hr; [done| |by apply HQ]. cbn [wp bindp]. by apply (Hrest false false false).
  - cbn [wp]. apply wp_bind.
    assert (set_staged kIcon (staging o false false) = staging o true false) as ->.
    { unfold set_staged. cbn [staging lm_phase lm_absent lm_owned lm_icon lm_param orb].
      by rewrite bool_decide_true, bool_decide_false by done. }
    apply wp_asset; [by right|..].
    + intros [[|]|] Hr; [done| |by apply HQ]. by apply (Hrest true false false).
    + assert (set_staged kParam (staging o true false) = staging o true true) as ->.
      { unfold set_staged. cbn [staging lm_phase lm_absent lm_owned lm_icon lm_param orb].
        by rewrite (bool_decide_true (kParam = kParam)). }
      by apply (Hrest true true true).
Qed.

Lemma wp_directory path o (Q : bool -> Launch -> Prop) :
  path <> kParam -> (forall r, Q r (staging o false false)) ->
  wp step (directory path) (staging o false false) Q.
Proof.
  intros Hp HQ st. lgo. rewrite (bool_decide_false (path = kParam)) by done. lgo.
  destruct (ls_rc st =? 0); [apply HQ|]. destruct (_ =? ENOENT); [|apply HQ].
  intros rc. lgo. apply HQ.
Qed.

Lemma wp_owned o m (Q : bool -> Launch -> Prop) :
  session o m -> lm_absent m = true -> lm_icon m = false -> lm_param m = false ->
  Q true (staging o false false) -> (forall m', session o m' -> Q false m') ->
  wp step (can_stage_owned_title settings_param) m Q.
Proof.
  intros Hs Ha Hi Hp HT HF. unfold session in Hs.
  assert (Hset : set_owned true m = staging o false false).
  { unfold set_owned. by rewrite Hs, Ha, Hi, Hp. }
  intros st. cbn [launch_step bindp]. unfold raised. rewrite Hs, (bool_decide_true (kParam = kParam)) by done. cbn [andb].
  destruct (ls_rc st =? 0); cbn [negb bindp wp].
  2: { destruct (ls_errno st =? ENOENT); [by rewrite Hset|by apply HF]. }
  destruct (_ || _); [by apply HF|]. destruct (_ <? _)%nat; [by apply HF|].
  intros f. cbn [launch_step bindp]. unfold raised. rewrite Hs, (bool_decide_true (kParam = kParam)) by done. cbn [andb wp].
  destruct f as [[data err]|]; [|by apply HF].
  destruct (bool_decide (data = settings_param)); [by rewrite Hset|by apply HF].
Qed.

Lemma wp_installer_session o (Q : option unit -> Launch -> Prop) m :
  session o m -> lm_icon m = false -> lm_param m = false -> (forall r m', session o m' -> Q r m') ->
  wp step (installer_session settings_param settings_icon fuel) m Q.
Proof.
  intros Hs Hi Hp HQ rc. cbn [launch_step bindp]. unfold raised. rewrite Hs.
  destruct (negb (rc =? 0)); [by apply HQ|].
  intros [check present]. cbn [launch_step bindp]. unfold raised. rewrite Hs.
  destruct ((check =? 0) && (present =? 0)) eqn:E; [|by apply HQ].
  apply wp_bind, wp_bind, wp_owned with (o := o); [done..| |].
  - cbn [wp]. apply wp_bind, wp_directory; [done|]. intros [|]; [|by apply HQ].
    apply wp_directory; [done|]. intros [|]; [|by apply HQ]. by apply wp_stage_and_install.
  - intros m' Hm. by apply HQ.
Qed.

(** How the launcher ends: the authority untouched, or given back. *)
Definition launch_end (r : option bool) (m : Launch) : Prop :=
  match r with
  | None => True
  | Some ok => match lm_phase m with
               | LStart | LKnown _ => ok = true
               | LBack restored => ok = restored
               | _ => False
               end
  end.

Lemma wp_launcher sdk :
  wp step (ensure_media_launcher settings_param settings_icon fuel sdk) Launch_init launch_end.
Proof.
  unfold ensure_media_launcher. destruct (_ <=? _); [done|].
  assert (Hsym : forall (module : bool) name (Q : bool -> Launch -> Prop) m, (forall b, Q b m) ->
    wp step (if module then lc (LDlsym name) else Ret false) m Q).
  { intros [|] name Q m HQ; [|apply HQ]. intros b. apply HQ. }
  intros module. cbn [launch_step bindp].
  apply wp_bind, Hsym. intros init. apply wp_bind, Hsym. intros ex. apply wp_bind, Hsym. intros inst.
  destruct (_ || _ || _); [done|]. intros original. cbn [launch_step bindp Launch_init lm_phase].
  destruct (original =? 0) eqn:E0; [done|]. cbn [orb]. destruct (original =? 2 ^ 64 - 1); [done|].
  intros rc. cbn [launch_step bindp to_phase lm_phase]. rewrite E0, Z.eqb_refl. cbn [andb negb].
  assert (Hback : forall m, lm_phase m = LRaising original \/ lm_phase m = LRaised original ->
    wp step (bindp (lc (LSetAuth original)) (fun rc =>
      bindp (if rc =? 0 then bindp (lc LGetAuth) (fun now => Ret (now =? original)) else Ret false)
        (fun restored => Ret (Some restored)))) m launch_end).
  { intros m Hm rc3. cbn [launch_step bindp].
    assert (Hgo : wp step (bindp (if rc3 =? 0 then bindp (lc LGetAuth) (fun now => Ret (now =? original))
        else Ret false) (fun restored => Ret (Some restored)))
      (to_phase (if rc3 =? 0 then LGiven original rc3 else LBack false) m) launch_end).
    { destruct (rc3 =? 0); [|done]. intros now. done. }
    destruct Hm as [-> | ->]; rewrite Z.eqb_refl; exact Hgo. }
  assert (Hsession : forall m, lm_icon m = false -> lm_param m = false -> lm_phase m = LRaised original ->
    wp step (bindp (installer_session settings_param settings_icon fuel) (fun d =>
      match d with
      | None => Ret None
      | Some _ => bindp (lc (LSetAuth original)) (fun rc =>
          bindp (if rc =? 0 then bindp (lc LGetAuth) (fun now => Ret (now =? original)) else Ret false)
            (fun restored => Ret (Some restored)))
      end)) m launch_end).
  { intros m H1 H2 H3. apply wp_bind. apply (wp_installer_session original); [done..|].
    intros [u|] m' Hm; [|done]. apply Hback. by right. }
  destruct (rc =? 0); cbn [bindp]; [|by apply Hback; left].
  intros now. cbn [launch_step bindp to_phase lm_phase].
  destruct (now =? kAppInstallerAuth); cbn [bindp]; [by apply Hsession|by apply Hback; left].
Qed.
End Proofs.

(** ** Theorem *)

(** C23: registering the media entry never leaves the controller with the installer's
    authority and never touches a title that is not the program's own.  For all answers of
    the system: the installer is called only after its authority was confirmed; files are
    written only in place of the title's two files, only when the installer said that the
    title is not installed and the parameter file was missing or equal to the embedded one;
    the title is installed only after both files were replaced completely; and once the
    authority was asked for, exactly the value read before is set back, with the result
    [true] just when it was read back again. *)
Theorem media_launcher_safe settings_param settings_icon fuel sdk t ok :
  exec (ensure_media_launcher settings_param settings_icon fuel sdk) t (Some ok) ->
  exists m, monitor (launch_step settings_param) Launch_init t = Some m /\
    match lm_phase m with
    | LStart | LKnown _ => ok = true
    | LBack restored => ok = restored
    | _ => False
    end.
Proof.
  intros He.
  destruct (wp_sound _ _ _ _ (wp_launcher settings_param settings_icon fuel sdk) t _ He) as (m & Hm & H).
  exists m. split; [exact Hm|exact H].
Qed.

(** A system on which every call succeeds and the title is missing. *)
Definition sample_installer (u : unit) (c : lcall) : lret c * unit :=
  (match c return lret c with
   | LDlopen | LDlsym _ => true
   | LGetAuth => kAppInstallerAuth
   | LAppExists _ => (0, 0)
   | LLstat _ => {| ls_rc := -1; ls_errno := ENOENT; ls_kind := OtherKind; ls_size := 0 |}
   | LFile (Write _ data) => (Z.of_nat (length data), 0)
   | LFile (Flock _ _) | LFile (Fstat _) => (0, 0)
   | LFile (ReadFile _ _) => None
   | LFile (Open _ _) => 3
   | LFile _ => 0
   | _ => 0
   end, u).

Definition sample_launch :=
  run sample_installer (ensure_media_launcher (str "{}") (str "png") 10 0x09600000) tt.

Lemma sample_launch_ok : sample_launch.1.1 = Some true.
Proof. vm_compute. reflexivity. Qed.

Lemma sample_launch_exec :
  exec (ensure_media_launcher (str "{}") (str "png") 10 0x09600000) sample_launch.2 (Some true).
Proof. rewrite <- sample_launch_ok. unfold sample_launch. apply run_exec. Qed.

Lemma media_launcher_safe_witness :
  exists m, monitor (launch_step (str "{}")) Launch_init sample_launch.2 = Some m /\
    match lm_phase m with
    | LStart | LKnown _ => true = true
    | LBack restored => true = restored
    | _ => False
    end.
Proof. exact (media_launcher_safe (str "{}") (str "png") 10 0x09600000 _ _ sample_launch_exec). Defined.
