(* ===== verification/Layout.v ===== *)
(** Overlay placement: [src/core/layout.cpp].  Coordinates are PUI units on the
    scene canvas; every operation rounds to binary32. *)
From S2P Require Import Prelude Float Types Config.

Record OverlayLayout := {
  l_anchor : Vec2;
  l_font_size : Z;
  label_advance : f32;
  width : f32;
  height : f32
}.

Definition fzero : f32 := S754_zero false.
Definition f2_7 : f32 := f32_dec 27 1.
Definition f4_5 : f32 := f32_dec 45 1.
Definition f2_5 : f32 := f32_dec 25 1.
Definition f1_45 : f32 := f32_dec 145 2.

(** A scene dimension outside the plausible range falls back to the logical one. *)
Definition scene_dim (d lo hi dflt : f32) : f32 :=
  if negb (is_finite d) || f_lt d lo || f_lt hi d then dflt else d.

Definition compute_layout (input : OverlayConfig) (scene_width0 scene_height0 : f32)
    (loading : bool) : OverlayLayout :=
  let cfg := sanitize_config input in
  let scene_width := scene_dim scene_width0 (f32_of_Z 640) (f32_of_Z 7680) kLogicalWidth in
  let scene_height := scene_dim scene_height0 (f32_of_Z 360) (f32_of_Z 4320) kLogicalHeight in
  let scale := f_min (f32_div scene_width kLogicalWidth) (f32_div scene_height kLogicalHeight) in
  let font := Z.max 1 (default 0 (f_lround (f32_mul (f32_of_Z (font_size cfg)) scale))) in
  let adv := if show_label cfg then f32_mul (f32_of_Z font) f2_7 else fzero in
  let w := f32_add adv (f32_mul (f32_of_Z font) (if loading then f4_5 else f2_5)) in
  let h := f32_mul (f32_of_Z font) f1_45 in
  let left := f_min (f32_mul (margin_x cfg) scale) (f32_sub scene_width w) in
  let top := f_min (f32_mul (margin_y cfg) scale) (f32_sub scene_height h) in
  let right := f_max fzero (f32_sub (f32_sub scene_width w) left) in
  let bottom := f_max fzero (f32_sub (f32_sub scene_height h) top) in
  {| l_anchor := match corner cfg with
                 | TopLeft => {| vx := left; vy := top |}
                 | TopRight => {| vx := right; vy := top |}
                 | BottomRight => {| vx := right; vy := bottom |}
                 | BottomLeft | CornerValue _ => {| vx := left; vy := bottom |}
                 end;
     l_font_size := font;
     label_advance := adv;
     width := w;
     height := h |}.

Definition compute_anchor (cfg : OverlayConfig) : Vec2 :=
  l_anchor (compute_layout cfg kLogicalWidth kLogicalHeight false).

(** ** The overlay stays on the logical canvas

    On the 1920x1080 canvas the horizontal position depends only on the font size,
    the label, the loading text and the horizontal margin, the vertical position
    only on the font size and the vertical margin; every value the settings form
    allows is checked by evaluation. *)

Definition adv_of (font : Z) (lbl : bool) : f32 :=
  if lbl then f32_mul (f32_of_Z font) f2_7 else fzero.
Definition width_of (font : Z) (lbl ld : bool) : f32 :=
  f32_add (adv_of font lbl) (f32_mul (f32_of_Z font) (if ld then f4_5 else f2_5)).
Definition height_of (font : Z) : f32 := f32_mul (f32_of_Z font) f1_45.

(** Position of a box of size [sz] at margin [m] along an axis of length [len]:
    near side, then far side at a given near position. *)
Definition near (room m : f32) : f32 := f_min (f32_mul m (f32_of_Z 1)) room.
Definition far (room n : f32) : f32 := f_max fzero (f32_sub room n).

Definition in_axis (len sz p : f32) : bool := f_le fzero p && f_le (f32_add p sz) len.

(** For margin [k]: the near position is the margin itself, and both positions keep
    the whole box on the axis. *)
Definition axis_ok (len sz room : f32) (k : Z) : bool :=
  let m := f32_of_Z k in
  let n := near room m in
  bool_decide (n = m) && in_axis len sz n && in_axis len sz (far room n).

Definition axis_all (len sz : f32) : bool :=
  let room := f32_sub len sz in forallbZ 0 241 (axis_ok len sz room).

Definition font_ok (font : Z) : bool :=
  bool_decide (f_lround (f32_mul (f32_of_Z font) (f32_of_Z 1)) = Some font) &&
  axis_all kLogicalHeight (height_of font) &&
  axis_all kLogicalWidth (width_of font true true) &&
  axis_all kLogicalWidth (width_of font true false) &&
  axis_all kLogicalWidth (width_of font false true) &&
  axis_all kLogicalWidth (width_of font false false).

Lemma all_fonts_ok : forallbZ 14 51 font_ok = true.
Proof. vm_compute. reflexivity. Qed.

Lemma font_ok_at font :
  kMinFontSize <= font <= kMaxFontSize -> font_ok font = true.
Proof.
  intros H. apply (forallbZ_spec 14 51 _ all_fonts_ok).
  unfold kMinFontSize, kMaxFontSize in H. lia.
Qed.

Lemma axis_all_at len sz m k :
  axis_all len sz = true -> form_margin m k ->
  let n := near (f32_sub len sz) m in
  n = m /\ in_axis len sz n = true /\ in_axis len sz (far (f32_sub len sz) n) = true.
Proof.
  intros H [-> Hk]. pose proof (forallbZ_spec 0 241 _ H k ltac:(lia)) as H'.
  unfold axis_ok in H'. apply andb_true_iff in H' as [H' H3].
  apply andb_true_iff in H' as [H1 H2]. apply bool_decide_eq_true in H1. done.
Qed.

(** On the logical canvas the scale is one and the layout is the pair of axes. *)
Lemma logical_scale :
  scene_dim kLogicalWidth (f32_of_Z 640) (f32_of_Z 7680) kLogicalWidth = kLogicalWidth /\
  scene_dim kLogicalHeight (f32_of_Z 360) (f32_of_Z 4320) kLogicalHeight = kLogicalHeight /\
  f_min (f32_div kLogicalWidth kLogicalWidth) (f32_div kLogicalHeight kLogicalHeight) = f32_of_Z 1.
Proof. repeat split; vm_compute; reflexivity. Qed.

Definition logical_layout (cfg : OverlayConfig) (ld : bool) : OverlayLayout :=
  let font := font_size cfg in
  let w := width_of font (show_label cfg) ld in
  let h := height_of font in
  let rw := f32_sub kLogicalWidth w in
  let rh := f32_sub kLogicalHeight h in
  let left := near rw (margin_x cfg) in
  let top := near rh (margin_y cfg) in
  {| l_anchor := match corner cfg with
                 | TopLeft => {| vx := left; vy := top |}
                 | TopRight => {| vx := far rw left; vy := top |}
                 | BottomRight => {| vx := far rw left; vy := far rh top |}
                 | BottomLeft | CornerValue _ => {| vx := left; vy := far rh top |}
                 end;
     l_font_size := font; label_advance := adv_of font (show_label cfg); width := w; height := h |}.

Lemma compute_layout_logical cfg ld :
  form_config cfg -> compute_layout cfg kLogicalWidth kLogicalHeight ld = logical_layout cfg ld.
Proof.
  intros Hf. pose proof (form_config_wf _ Hf) as Hwf. unfold compute_layout.
  destruct logical_scale as (-> & -> & ->). rewrite (sanitize_id cfg Hwf).
  pose proof (font_ok_at _ (wf_font _ Hwf)) as Hfont. unfold font_ok in Hfont.
  rewrite !andb_true_iff, bool_decide_eq_true in Hfont. destruct Hfont as [[[[[-> _] _] _] _] _].
  cbn [default from_option id].
  replace (Z.max 1 (font_size cfg)) with (font_size cfg); [reflexivity|].
  pose proof (wf_font _ Hwf). unfold kMinFontSize in *. lia.
Qed.

(** For every configuration the settings form can produce, with or without the
    loading text, the overlay box computed on the 1920x1080 canvas lies entirely on
    that canvas, the font size is the configured one, and a top-left overlay sits
    exactly at the configured margins. *)
Theorem layout_on_canvas cfg ld :
  form_config cfg ->
  let l := compute_layout cfg kLogicalWidth kLogicalHeight ld in
  l_font_size l = font_size cfg /\
  in_axis kLogicalWidth (width l) (vx (l_anchor l)) = true /\
  in_axis kLogicalHeight (height l) (vy (l_anchor l)) = true /\
  (corner cfg = TopLeft -> l_anchor l = {| vx := margin_x cfg; vy := margin_y cfg |}).
Proof.
  intros Hf l. subst l. rewrite compute_layout_logical by done.
  pose proof (font_ok_at _ (fc_font _ Hf)) as Hfont. unfold font_ok in Hfont.
  rewrite !andb_true_iff in Hfont. destruct Hfont as [[[[[_ Hh] H1] H2] H3] H4].
  destruct (fc_margin_x _ Hf) as [kx Hx]. destruct (fc_margin_y _ Hf) as [ky Hy].
  assert (Hw : axis_all kLogicalWidth (width_of (font_size cfg) (show_label cfg) ld) = true)
    by (destruct (show_label cfg), ld; assumption).
  destruct (axis_all_at _ _ _ _ Hw Hx) as (Ex & Nx & Fx).
  destruct (axis_all_at _ _ _ _ Hh Hy) as (Ey & Ny & Fy).
  unfold logical_layout. cbn [l_font_size width height l_anchor].
  split; [reflexivity|]. split; [|split].
  - destruct (corner cfg); cbn [vx]; assumption.
  - destruct (corner cfg); cbn [vy]; assumption.
  - intros ->. cbn [vx vy]. rewrite Ex, Ey. reflexivity.
Qed.

Lemma layout_on_canvas_witness :
  let l := compute_layout sample_config kLogicalWidth kLogicalHeight true in
  l_font_size l = font_size sample_config /\
  in_axis kLogicalWidth (width l) (vx (l_anchor l)) = true /\
  in_axis kLogicalHeight (height l) (vy (l_anchor l)) = true /\
  (corner sample_config = TopLeft ->
   l_anchor l = {| vx := margin_x sample_config; vy := margin_y sample_config |}).
Proof. exact (layout_on_canvas sample_config true sample_form). Defined.
