(* ===== verification/Wire.v ===== *)
(** The controller-to-renderer datagram: [include/common_fps/wire.hpp] and
    [src/core/wire.cpp].  [packet_bytes]/[packet_of_bytes] are the packed object
    representation that [sendto] and [recv] copy. *)
From S2P Require Import Prelude Float Types Config Layout.

Definition kWireMagic : Z := 0x53465043.
Definition kWireShutdownMagic : Z := 0x58465043.
Definition kWireVersion : Z := 2.
Definition kDefaultIpcPort : Z := 39028.

Record WirePacket := {
  w_magic : Z; w_version : Z; w_size : Z;
  w_sequence : Z;
  w_fps : Z; w_loading : Z; w_corner : Z; w_font_size : Z;
  w_margin_x : f32; w_margin_y : f32;
  w_show_label : Z; w_reserved : list Z;
  w_label_color : Z; w_value_color : Z
}.

Definition sizeof_WirePacket : Z := 44.

Definition WirePacket_init : WirePacket := {|
  w_magic := kWireMagic; w_version := kWireVersion; w_size := sizeof_WirePacket;
  w_sequence := 0;
  w_fps := 0; w_loading := 1; w_corner := 2; w_font_size := kDefaultFontSize;
  w_margin_x := kDefaultMarginX; w_margin_y := kDefaultMarginY;
  w_show_label := 1; w_reserved := [0; 0; 0];
  w_label_color := 0xB366FF; w_value_color := 0xFFFFFF
|}.

(** ** Object representation *)

Definition packet_bytes (p : WirePacket) : list Z :=
  le_encode 4 (w_magic p) ++ le_encode 2 (w_version p) ++ le_encode 2 (w_size p) ++
  le_encode 8 (w_sequence p) ++
  le_encode 4 (wrap 32 (w_fps p)) ++ le_encode 1 (w_loading p) ++ le_encode 1 (w_corner p) ++
  le_encode 2 (w_font_size p) ++
  le_encode 4 (f32_to_bits (w_margin_x p)) ++ le_encode 4 (f32_to_bits (w_margin_y p)) ++
  le_encode 1 (w_show_label p) ++ w_reserved p ++
  le_encode 4 (w_label_color p) ++ le_encode 4 (w_value_color p).

Definition packet_of_bytes (b : list Z) : WirePacket := {|
  w_magic := field 0 4 b; w_version := field 4 2 b; w_size := field 6 2 b;
  w_sequence := field 8 8 b;
  w_fps := swrap 32 (field 16 4 b); w_loading := field 20 1 b; w_corner := field 21 1 b;
  w_font_size := field 22 2 b;
  w_margin_x := f32_of_bits (field 24 4 b); w_margin_y := f32_of_bits (field 28 4 b);
  w_show_label := field 32 1 b; w_reserved := slice 33 3 b;
  w_label_color := field 36 4 b; w_value_color := field 40 4 b
|}.

Record wf_packet (p : WirePacket) : Prop := {
  wp_magic : in_u 32 (w_magic p); wp_version : in_u 16 (w_version p); wp_size : in_u 16 (w_size p);
  wp_sequence : in_u 64 (w_sequence p);
  wp_fps : in_i 32 (w_fps p); wp_loading : in_u 8 (w_loading p); wp_corner : in_u 8 (w_corner p);
  wp_font_size : in_u 16 (w_font_size p);
  wp_margin_x : f32_valid (w_margin_x p) = true; wp_margin_y : f32_valid (w_margin_y p) = true;
  wp_show_label : in_u 8 (w_show_label p);
  wp_reserved : length (w_reserved p) = 3%nat /\ bytes_ok (w_reserved p);
  wp_label_color : in_u 32 (w_label_color p); wp_value_color : in_u 32 (w_value_color p)
}.

(** ** wire.cpp *)

Definition encode_corner (c : Corner) : Z :=
  match c with
  | TopLeft => 0 | TopRight => 1 | BottomLeft => 2 | BottomRight => 3
  | CornerValue _ => 2
  end.

Definition decode_corner (c : Z) : Corner :=
  if c =? 0 then TopLeft else if c =? 1 then TopRight else if c =? 3 then BottomRight
  else BottomLeft.

Definition valid_rate (r : Z) : bool := (0 <=? r) && (r <=? kMaxDisplayFps).

Definition make_wire_packet (frame : OverlayFrame) (sequence : Z) : WirePacket := {|
  w_magic := kWireMagic; w_version := kWireVersion; w_size := sizeof_WirePacket;
  w_sequence := sequence;
  w_fps := if valid_rate (fps frame) then fps frame else 0;
  w_loading := if loading frame || negb (valid_rate (fps frame)) then 1 else 0;
  w_corner := encode_corner (corner (config frame));
  w_font_size := u16 (zclamp (font_size (config frame)) kMinFontSize kMaxFontSize);
  w_margin_x := margin_x (config frame);
  w_margin_y := margin_y (config frame);
  w_show_label := if show_label (config frame) then 1 else 0;
  w_reserved := [0; 0; 0];
  w_label_color := Z.land (label_color (config frame)) 0xFFFFFF;
  w_value_color := Z.land (value_color (config frame)) 0xFFFFFF
|}.

Definition make_shutdown_wire_packet (sequence : Z) : WirePacket := {|
  w_magic := kWireShutdownMagic; w_version := kWireVersion; w_size := sizeof_WirePacket;
  w_sequence := sequence;
  w_fps := 0; w_loading := 1; w_corner := 2; w_font_size := kDefaultFontSize;
  w_margin_x := kDefaultMarginX; w_margin_y := kDefaultMarginY;
  w_show_label := 1; w_reserved := [0; 0; 0];
  w_label_color := 0xB366FF; w_value_color := 0xFFFFFF
|}.

Definition header_is (magic : Z) (p : WirePacket) : bool :=
  (w_magic p =? magic) && (w_version p =? kWireVersion) && (w_size p =? sizeof_WirePacket).

Definition is_shutdown_wire_packet (p : WirePacket) : bool := header_is kWireShutdownMagic p.

Definition decode_wire_packet (p : WirePacket) : option OverlayFrame :=
  if negb (header_is kWireMagic p) then None
  else
    let ok := valid_rate (w_fps p) in
    let cfg := sanitize_config {|
      corner := decode_corner (w_corner p);
      font_size := zclamp (w_font_size p) kMinFontSize kMaxFontSize;
      margin_x := f_max fzero (w_margin_x p);
      margin_y := f_max fzero (w_margin_y p);
      show_label := negb (w_show_label p =? 0);
      label_color := w_label_color p;
      value_color := w_value_color p |} in
    Some {| visible := true;
            loading := negb (w_loading p =? 0) || negb ok;
            fps := if ok then w_fps p else 0;
            config := cfg;
            anchor := compute_anchor cfg |}.

(** ** Lemmas *)

Lemma length_packet_bytes p :
  length (w_reserved p) = 3%nat -> length (packet_bytes p) = 44%nat.
Proof. intros H. unfold packet_bytes. rewrite !length_app, !length_le_encode, H. done. Qed.

(** The packed 44-byte representation is lossless: what the renderer copies out of
    the datagram is the packet the controller copied in. *)
Theorem packet_bytes_roundtrip p :
  wf_packet p -> length (packet_bytes p) = 44%nat /\ packet_of_bytes (packet_bytes p) = p.
Proof.
  intros []. destruct wp_reserved0 as [Hlen _].
  split; [by apply length_packet_bytes|].
  pose proof (f32_to_bits_range _ wp_margin_x0). pose proof (f32_to_bits_range _ wp_margin_y0).
  pose proof (wrap_range 32 (w_fps p) ltac:(lia)).
  destruct p as [mg vs sz sq fp ld cr fs mx my sl rs lc vc]; cbn [w_magic w_version w_size
    w_sequence w_fps w_loading w_corner w_font_size w_margin_x w_margin_y w_show_label
    w_reserved w_label_color w_value_color] in *.
  destruct rs as [|r1 [|r2 [|r3 [|]]]]; try discriminate.
  unfold packet_of_bytes, packet_bytes; cbn [w_magic w_version w_size
    w_sequence w_fps w_loading w_corner w_font_size w_margin_x w_margin_y w_show_label
    w_reserved w_label_color w_value_color].
  f_equal; next_field; try (apply field_head_enc; assumption).
  - rewrite field_head_enc by assumption. by apply swrap_wrap_id.
  - rewrite field_head_enc by assumption. by apply f32_of_to_bits.
  - rewrite field_head_enc by assumption. by apply f32_of_to_bits.
  - apply field_last_enc. assumption.
Qed.

(** *** What a decoded packet shows *)

Lemma header_make frame seq : header_is kWireMagic (make_wire_packet frame seq) = true.
Proof. reflexivity. Qed.

Lemma decode_encode_corner c : named_corner c = true -> decode_corner (encode_corner c) = c.
Proof. by destruct c. Qed.

Lemma margin_ok_max m : margin_ok m -> f_max fzero m = m \/ (exists s, m = S754_zero s).
Proof.
  intros (Hf & H1 & H2). unfold f_max. destruct m as [s| | |s m e]; try done; [right; by exists s|].
  left. by destruct s.
Qed.

Lemma margin_ok_positive_max m :
  margin_ok m -> m <> S754_zero true -> f_max fzero m = m.
Proof. intros H Hm. destruct (margin_ok_max m H) as [->|[[] ->]]; done. Qed.

Lemma u16_font n :
  kMinFontSize <= n <= kMaxFontSize -> zclamp (u16 (zclamp n kMinFontSize kMaxFontSize)) kMinFontSize kMaxFontSize = n.
Proof.
  intros H. rewrite (zclamp_id n) by done.
  rewrite wrap_small; [by apply zclamp_id|]. unfold in_u, kMinFontSize, kMaxFontSize in *. lia.
Qed.

(** C35: end to end, the frame the renderer decodes is the frame the controller sent:
    for a usable configuration without negative-zero margins the same configuration, the
    anchor computed from it, the same rate when it is in 0..120, and the loading
    state forced when it is not. *)
Theorem wire_roundtrip frame seq :
  wf_config (config frame) ->
  margin_x (config frame) <> S754_zero true -> margin_y (config frame) <> S754_zero true ->
  decode_wire_packet (make_wire_packet frame seq) =
    Some {| visible := true;
            loading := loading frame || negb (valid_rate (fps frame));
            fps := if valid_rate (fps frame) then fps frame else 0;
            config := config frame;
            anchor := compute_anchor (config frame) |}.
Proof.
  intros Hwf Hx Hy. unfold decode_wire_packet. rewrite header_make. cbn [negb].
  assert (Hc : sanitize_config (config frame) = config frame) by by apply sanitize_id.
  destruct Hwf. destruct (config frame) as [c f mx my sl lc vc] eqn:Ecfg. cbn in * |-.
  unfold make_wire_packet. rewrite Ecfg. cbn -[compute_anchor sanitize_config valid_rate zclamp Z.land].
  rewrite !land24_small, decode_encode_corner, u16_font, !margin_ok_positive_max by done.
  assert (Hsl : negb ((if sl then 1 else 0) =? 0) = sl) by (destruct sl; reflexivity).
  assert (Hr : valid_rate (if valid_rate (fps frame) then fps frame else 0) = true)
    by (destruct (valid_rate (fps frame)) eqn:E; [exact E|reflexivity]).
  rewrite Hsl, Hc, Hr. f_equal. f_equal.
  by destruct (loading frame), (valid_rate (fps frame)).
Qed.

(** C40: whatever arrives on the socket, a packet that decodes shows a usable
    configuration with its own anchor and a rate in 0..120, and only a packet with
    the current magic, version and size decodes; a shutdown packet never does. *)
Theorem decode_wire_packet_safe p :
  (forall frame, decode_wire_packet p = Some frame ->
     wf_config (config frame) /\ anchor frame = compute_anchor (config frame) /\
     visible frame = true /\ 0 <= fps frame <= kMaxDisplayFps /\
     (w_loading p <> 0 -> loading frame = true)) /\
  (is_Some (decode_wire_packet p) <-> header_is kWireMagic p = true) /\
  (is_shutdown_wire_packet p = true -> decode_wire_packet p = None).
Proof.
  unfold decode_wire_packet. destruct (header_is kWireMagic p) eqn:Eh; cbn [negb].
  - split; [|split; [by split; [done|eexists]|]].
    + intros frame [= <-]. cbn [config anchor visible fps loading].
      split; [apply sanitize_wf|]. split; [done|]. split; [done|]. split.
      * destruct (valid_rate (w_fps p)) eqn:E; [|done]. unfold valid_rate in E. breflect. lia.
      * intros H. by apply Z.eqb_neq in H as ->.
    + unfold is_shutdown_wire_packet, header_is, kWireMagic, kWireShutdownMagic in *.
      breflect. lia.
  - split; [done|]. split; [|done]. split; [intros [? ?]; done|done].
Qed.

Lemma decode_header_some p : header_is kWireMagic p = true -> is_Some (decode_wire_packet p).
Proof. intros H. unfold decode_wire_packet. rewrite H. by eexists. Qed.

Definition sample_frame : OverlayFrame := {|
  visible := true; loading := false; fps := 60; config := sample_config;
  anchor := {| vx := fzero; vy := fzero |} |}.

Lemma wire_roundtrip_witness :
  decode_wire_packet (make_wire_packet sample_frame 7) =
    Some {| visible := true; loading := false; fps := 60; config := sample_config;
            anchor := compute_anchor sample_config |}.
Proof.
  refine (wire_roundtrip sample_frame 7 (form_config_wf _ sample_form) _ _); vm_compute; discriminate.
Defined.

Lemma packet_bytes_roundtrip_witness :
  length (packet_bytes (make_wire_packet sample_frame 7)) = 44%nat /\
  packet_of_bytes (packet_bytes (make_wire_packet sample_frame 7)) =
    make_wire_packet sample_frame 7.
Proof.
  apply (packet_bytes_roundtrip (make_wire_packet sample_frame 7)).
  constructor; try (vm_compute; split; congruence); try (vm_compute; reflexivity).
  split; [reflexivity|]. repeat constructor; vm_compute; congruence.
Defined.
