(* ===== verification/DisplayFilter.v ===== *)
(** The presentation filter: [include/common_fps/fps_display_filter.hpp].
    [sample] is one call of [FpsDisplayFilter::sample]; a run is a sequence of
    calls on one filter object. *)
From S2P Require Import Prelude Types.

Inductive FpsDisplaySource := SrcNone | VideoOut | DceFixed | DceAdaptive | SharedHen.

#[export] Instance FpsDisplaySource_eq_dec : EqDecision FpsDisplaySource.
Proof. solve_decision. Defined.

Definition kWindow : Z := 3.
Definition kStartupUs : Z := 5000000.
Definition kRiseUs : Z := 2000000.

Record FpsDisplayFilter := {
  have_epoch : bool;
  f_pid : Z;
  f_source : FpsDisplaySource;
  started_us : Z; previous_us : Z; elevated_since_us : Z;
  displayed : option Z;
  recent : list Z; accepted : list Z; elevated : list Z;
  recent_count : Z; recent_cursor : Z; accepted_cursor : Z;
  elevated_count : Z; elevated_cursor : Z
}.

Definition FpsDisplayFilter_init : FpsDisplayFilter := {|
  have_epoch := false; f_pid := -1; f_source := SrcNone;
  started_us := 0; previous_us := 0; elevated_since_us := 0;
  displayed := None;
  recent := [0; 0; 0]; accepted := [0; 0; 0]; elevated := [0; 0; 0];
  recent_count := 0; recent_cursor := 0; accepted_cursor := 0;
  elevated_count := 0; elevated_cursor := 0 |}.

(** [std::sort] and the middle element. *)
Fixpoint insert_sorted (x : Z) (l : list Z) : list Z :=
  match l with
  | [] => [x]
  | y :: l' => if x <=? y then x :: l else y :: insert_sorted x l'
  end.
Definition sort (l : list Z) : list Z := foldr insert_sorted [] l.
Definition median (l : list Z) : Z := default 0 (sort l !! Z.to_nat (kWindow `div` 2)).

Definition max_element (l : list Z) : Z :=
  match l with [] => 0 | x :: l' => fold_left Z.max l' x end.

Definition put (l : list Z) (cursor v : Z) : list Z := <[Z.to_nat cursor := v]> l.

(** Samples that say nothing: no game, no source, no measurement, or an impossible
    rate. *)
Definition usable_sample (measured : option Z) (pid : Z) (source : FpsDisplaySource) : option Z :=
  if (pid <=? 0) || bool_decide (source = SrcNone) then None
  else match measured with
       | Some m => if (m <? 0) || (kMaxDisplayFps <? m) then None else Some m
       | None => None
       end.

Definition new_epoch (st : FpsDisplayFilter) (now pid : Z) (source : FpsDisplaySource) : bool :=
  negb (have_epoch st) || negb (pid =? f_pid st) || negb (bool_decide (source = f_source st)) ||
  (now <? previous_us st) || (kMaxFpsWindowUs <? now - previous_us st).

Definition start_epoch (now pid : Z) (source : FpsDisplaySource) : FpsDisplayFilter := {|
  have_epoch := true; f_pid := pid; f_source := source;
  started_us := now; previous_us := now; elevated_since_us := 0;
  displayed := None;
  recent := [0; 0; 0]; accepted := [0; 0; 0]; elevated := [0; 0; 0];
  recent_count := 0; recent_cursor := 0; accepted_cursor := 0;
  elevated_count := 0; elevated_cursor := 0 |}.

Definition set_previous (st : FpsDisplayFilter) (now : Z) : FpsDisplayFilter := {|
  have_epoch := have_epoch st; f_pid := f_pid st; f_source := f_source st;
  started_us := started_us st; previous_us := now; elevated_since_us := elevated_since_us st;
  displayed := displayed st;
  recent := recent st; accepted := accepted st; elevated := elevated st;
  recent_count := recent_count st; recent_cursor := recent_cursor st;
  accepted_cursor := accepted_cursor st;
  elevated_count := elevated_count st; elevated_cursor := elevated_cursor st |}.

(** Nothing is displayed yet: fill the startup window. *)
Definition settle (st : FpsDisplayFilter) (m now : Z) : option Z * FpsDisplayFilter :=
  let r := put (recent st) (recent_cursor st) m in
  let cur := (recent_cursor st + 1) `mod` kWindow in
  let n := Z.min kWindow (recent_count st + 1) in
  let wait := (u64 (now - started_us st) <? kStartupUs) || (n <? kWindow) in
  let d := if wait then None else Some (median r) in
  (d, {| have_epoch := have_epoch st; f_pid := f_pid st; f_source := f_source st;
         started_us := started_us st; previous_us := previous_us st;
         elevated_since_us := elevated_since_us st;
         displayed := d;
         recent := r;
         accepted := match d with Some v => [v; v; v] | None => accepted st end;
         elevated := elevated st;
         recent_count := n; recent_cursor := cur; accepted_cursor := accepted_cursor st;
         elevated_count := elevated_count st; elevated_cursor := elevated_cursor st |}).

Definition upward_threshold (acc : list Z) : Z :=
  let reference := max_element acc in reference + Z.max 8 (reference ÷ 5).

(** Something is displayed: accept the measurement, or collect evidence of a rise. *)
Definition track (st : FpsDisplayFilter) (m now : Z) : option Z * FpsDisplayFilter :=
  if upward_threshold (accepted st) <? m then
    let since := if elevated_count st =? 0 then now else elevated_since_us st in
    let e := put (elevated st) (elevated_cursor st) m in
    let cur := (elevated_cursor st + 1) `mod` kWindow in
    let n := Z.min kWindow (elevated_count st + 1) in
    let wait := (n <? kWindow) || (u64 (now - since) <? kRiseUs) in
    let d := if wait then displayed st else Some (median e) in
    (d, {| have_epoch := have_epoch st; f_pid := f_pid st; f_source := f_source st;
           started_us := started_us st; previous_us := previous_us st;
           elevated_since_us := since;
           displayed := d;
           recent := recent st;
           accepted := if wait then accepted st
                       else let v := default 0 d in [v; v; v];
           elevated := e;
           recent_count := recent_count st; recent_cursor := recent_cursor st;
           accepted_cursor := if wait then accepted_cursor st else 0;
           elevated_count := if wait then n else 0;
           elevated_cursor := if wait then cur else 0 |})
  else
    (Some m, {| have_epoch := have_epoch st; f_pid := f_pid st; f_source := f_source st;
                started_us := started_us st; previous_us := previous_us st;
                elevated_since_us := elevated_since_us st;
                displayed := Some m;
                recent := recent st;
                accepted := put (accepted st) (accepted_cursor st) m;
                elevated := elevated st;
                recent_count := recent_count st; recent_cursor := recent_cursor st;
                accepted_cursor := (accepted_cursor st + 1) `mod` kWindow;
                elevated_count := 0; elevated_cursor := 0 |}).

Definition sample (st : FpsDisplayFilter) (measured : option Z) (now pid : Z)
    (source : FpsDisplaySource) : option Z * FpsDisplayFilter :=
  match usable_sample measured pid source with
  | None => (None, FpsDisplayFilter_init)
  | Some m =>
      let fresh := new_epoch st now pid source in
      if negb fresh && (now =? previous_us st) then (displayed st, st)
      else
        let st1 := set_previous (if fresh then start_epoch now pid source else st) now in
        match displayed st1 with
        | None => settle st1 m now
        | Some _ => track st1 m now
        end
  end.

(** ** Runs *)

Record input := { i_measured : option Z; i_now : Z; i_pid : Z; i_source : FpsDisplaySource }.

Definition step (st : FpsDisplayFilter) (i : input) : option Z * FpsDisplayFilter :=
  sample st (i_measured i) (i_now i) (i_pid i) (i_source i).

Definition final (ins : list input) : FpsDisplayFilter :=
  fold_left (fun st i => (step st i).2) ins FpsDisplayFilter_init.

(** The output of the last call of a run. *)
Definition last_output (ins : list input) (i : input) : option Z := (step (final ins) i).1.

(** ** Lemmas on the windows *)

Lemma insert_sorted_elem x y l : x ∈ insert_sorted y l <-> x = y \/ x ∈ l.
Proof.
  induction l as [|z l IH]; simpl.
  - rewrite list_elem_of_singleton, elem_of_nil. tauto.
  - destruct (y <=? z); rewrite !elem_of_cons, ?IH; tauto.
Qed.

Lemma sort_elem x l : x ∈ sort l <-> x ∈ l.
Proof.
  induction l as [|y l IH]; simpl; [done|]. rewrite insert_sorted_elem, IH, elem_of_cons. done.
Qed.

Lemma length_sort l : length (sort l) = length l.
Proof.
  assert (H : forall x l, length (insert_sorted x l) = S (length l)).
  { intros x l'; induction l' as [|y l' IH]; simpl; [done|]. destruct (x <=? y); simpl; congruence. }
  induction l as [|y l IH]; simpl; [done|]. by rewrite H, IH.
Qed.

(** The median of a full window is one of its values. *)
Lemma median_elem l : length l = 3%nat -> median l ∈ l.
Proof.
  intros Hl. unfold median. change (Z.to_nat (kWindow `div` 2)) with 1%nat.
  assert (H : is_Some (sort l !! 1%nat)) by (apply lookup_lt_is_Some; rewrite length_sort; lia).
  destruct H as [x Hx]. rewrite Hx. simpl. apply sort_elem. by eapply list_elem_of_lookup_2.
Qed.

Lemma median_const v : median [v; v; v] = v.
Proof.
  unfold median, sort. cbn [foldr insert_sorted]. rewrite Z.leb_refl. cbn [insert_sorted].
  rewrite !Z.leb_refl. reflexivity.
Qed.

(** A ring of the last three pushed values, all satisfying [P] as far as filled. *)
Definition ring (P : Z -> Prop) (l : list Z) (n c : Z) : Prop :=
  length l = 3%nat /\ 0 <= c < 3 /\ 0 <= n <= 3 /\ (n < 3 -> c = n) /\
  forall i x, (i < Z.to_nat n)%nat -> l !! i = Some x -> P x.

Lemma ring_empty (P : Z -> Prop) l : length l = 3%nat -> ring P l 0 0.
Proof. intros H. repeat split; lia. Qed.

Lemma ring_push (P : Z -> Prop) l n c m :
  ring P l n c -> P m ->
  ring P (put l c m) (Z.min kWindow (n + 1)) ((c + 1) `mod` kWindow).
Proof.
  unfold kWindow. intros (Hl & Hc & Hn & Hcn & HP) Hm. unfold put.
  repeat split; try lia.
  - by rewrite length_insert.
  - apply Z.mod_pos_bound; lia.
  - apply Z.mod_pos_bound; lia.
  - intros H. rewrite Z.mod_small; lia.
  - intros i x Hi Hx. destruct (decide (i = Z.to_nat c)) as [->|Hne].
    + rewrite list_lookup_insert_eq in Hx by lia. by simplify_eq.
    + rewrite list_lookup_insert_ne in Hx by done. apply (HP i x); [|done].
      apply lookup_lt_Some in Hx. lia.
Qed.

Lemma ring_full_median (P : Z -> Prop) l n c : ring P l n c -> n = 3 -> P (median l).
Proof.
  intros (Hl & _ & _ & _ & HP) ->. pose proof (median_elem l Hl) as H.
  apply list_elem_of_lookup in H as [i Hi]. apply (HP i); [|done].
  apply lookup_lt_Some in Hi. lia.
Qed.

Lemma ring_mono (P Q : Z -> Prop) l n c :
  (forall x, P x -> Q x) -> ring P l n c -> ring Q l n c.
Proof. intros H (? & ? & ? & ? & HP). repeat split; try lia. eauto. Qed.

(** *** The epoch invariant: every stored value satisfies [P]; a displayed value has
    waited out the startup time. *)
Record Good (P : Z -> Prop) (st : FpsDisplayFilter) : Prop := {
  g_epoch : have_epoch st = true;
  g_recent : ring P (recent st) (recent_count st) (recent_cursor st);
  g_elevated : ring P (elevated st) (elevated_count st) (elevated_cursor st);
  g_shown : forall d, displayed st = Some d ->
            P d /\ length (accepted st) = 3%nat /\ started_us st + kStartupUs <= previous_us st;
  g_time : started_us st <= previous_us st;
  g_u64 : 0 <= started_us st /\ in_u 64 (previous_us st)
}.

Lemma Good_mono (P Q : Z -> Prop) (st : FpsDisplayFilter) : (forall x, P x -> Q x) -> Good P st -> Good Q st.
Proof.
  intros H []. constructor; eauto using ring_mono.
  intros d Hd. destruct (g_shown0 d Hd) as (? & ? & ?). auto.
Qed.

Lemma start_good P now pid source : in_u 64 now -> Good P (start_epoch now pid source).
Proof.
  intros H. constructor; simpl; try done; try (by apply ring_empty).
  unfold in_u in *. lia.
Qed.

Lemma set_previous_good P (st : FpsDisplayFilter) now :
  previous_us st <= now -> in_u 64 now -> Good P st -> Good P (set_previous st now).
Proof.
  intros Hle Hu []. constructor; simpl; try done; try lia.
  - intros d Hd. destruct (g_shown0 d Hd) as (? & ? & ?). repeat split; [done|done|lia].
  - tauto.
Qed.

Lemma set_same_good P now pid source :
  in_u 64 now -> Good P (set_previous (start_epoch now pid source) now).
Proof. intros H. apply set_previous_good; [done|done|by apply start_good]. Qed.

Lemma u64_diff a b : 0 <= b -> b <= a -> in_u 64 a -> u64 (a - b) = a - b.
Proof. intros H1 H2 [H3 H4]. apply wrap_small. unfold in_u. lia. Qed.

Lemma settle_good (P : Z -> Prop) (st : FpsDisplayFilter) m now :
  Good P st -> displayed st = None -> previous_us st = now -> P m ->
  Good P (settle st m now).2 /\ forall v, (settle st m now).1 = Some v -> displayed (settle st m now).2 = Some v.
Proof.
  intros [] Hd Hnow Hm. unfold settle.
  pose proof (ring_push P _ _ _ m g_recent0 Hm) as Hr.
  split; [|done]. constructor; simpl; try done.
  intros d. destruct (_ || _) eqn:E; [done|]. intros [= <-].
  breflect. destruct E as [E1 E2]. rewrite u64_diff in E1 by (subst; tauto || lia).
  split; [|split; [done|lia]].
  eapply ring_full_median; [exact Hr|]. destruct Hr as (_ & _ & ? & _). unfold kWindow in *. lia.
Qed.

Lemma track_good (P : Z -> Prop) (st : FpsDisplayFilter) m now d0 :
  Good P st -> displayed st = Some d0 -> previous_us st = now -> P m ->
  Good P (track st m now).2 /\ forall v, (track st m now).1 = Some v -> displayed (track st m now).2 = Some v.
Proof.
  intros [] Hd Hnow Hm. destruct (g_shown0 d0 Hd) as (Hp & Hl & Hs). unfold track.
  pose proof (ring_push P _ _ _ m g_elevated0 Hm) as He.
  destruct (upward_threshold (accepted st) <? m).
  - split; [|done]. constructor; simpl; try done.
    + destruct (_ || _); [done|]. apply ring_empty. by rewrite (proj1 He).
    + destruct (_ || _) eqn:E; [by rewrite Hd; intros d [= <-]|].
      intros d [= <-]. split; [|done]. eapply ring_full_median; [exact He|].
      apply orb_false_iff in E as [E _]. apply Z.ltb_ge in E.
      destruct He as (_ & _ & ? & _). unfold kWindow in *. lia.
  - split; [|done]. constructor; simpl; try done.
    + apply ring_empty. apply g_elevated0.
    + intros d [= <-]. split; [done|]. split; [|done]. unfold put. by rewrite length_insert.
Qed.

(** One call keeps the invariant, for a predicate that the new measurement satisfies
    and that carries over from the current epoch to the next state. *)
Lemma sample_good (P Q : Z -> Prop) (st : FpsDisplayFilter) measured now pid source :
  in_u 64 now ->
  (have_epoch st = true -> Good P st) ->
  (forall x, P x -> f_pid st = pid -> f_source st = source -> Q x) ->
  (forall m, measured = Some m -> 0 <= m <= kMaxDisplayFps -> Q m) ->
  let '(out, st') := sample st measured now pid source in
  (have_epoch st' = true -> Good Q st' /\ f_pid st' = pid /\ f_source st' = source /\
                            previous_us st' = now) /\
  (forall v, out = Some v -> have_epoch st' = true /\ displayed st' = Some v).
Proof.
  intros Hu HG HPQ HQ. unfold sample.
  destruct (usable_sample measured pid source) as [m|] eqn:Em; [|done].
  assert (Hm : Q m).
  { unfold usable_sample in Em. destruct (_ || _); [done|]. destruct measured as [m'|]; [|done].
    destruct (_ || _) eqn:E in Em; [done|]. simplify_eq. apply HQ; [done|]. breflect. lia. }
  destruct (new_epoch st now pid source) eqn:En; cbn [negb andb].
  - cbn [displayed set_previous start_epoch].
    destruct (settle_good Q _ m now (set_same_good Q now pid source Hu) eq_refl eq_refl Hm) as [H1 H2].
    destruct (settle _ m now) as [out st'] eqn:Es. split.
    + intros _. split; [done|]. unfold settle in Es. by simplify_eq.
    + intros v Hv. split; [apply H1|]. by apply H2.
  - unfold new_epoch in En. breflect. destruct En as [[[[He Hp] Hs] Hlt] Hgap].
    apply bool_decide_eq_true in Hs.
    assert (HGQ : Good Q st) by (eapply Good_mono; [|by apply HG]; eauto).
    destruct (now =? previous_us st) eqn:Enow.
    { apply Z.eqb_eq in Enow. by split; [|intros v Hv; split]. }
    pose proof (set_previous_good Q st now Hlt Hu HGQ) as HG'.
    cbn [displayed set_previous]. destruct (displayed st) as [d0|] eqn:Ed.
    + destruct (track_good Q _ m now d0 HG' Ed eq_refl Hm) as [H1 H2].
      destruct (track _ m now) as [out st'] eqn:Et. split.
      * intros _. split; [done|]. unfold track in Et. destruct (_ <? m); by simplify_eq.
      * intros v Hv. split; [apply H1|]. by apply H2.
    + destruct (settle_good Q _ m now HG' Ed eq_refl Hm) as [H1 H2].
      destruct (settle _ m now) as [out st'] eqn:Es. split.
      * intros _. split; [done|]. unfold settle in Es. by simplify_eq.
      * intros v Hv. split; [apply H1|]. by apply H2.
Qed.

Lemma sample_started (st : FpsDisplayFilter) measured now pid source :
  let st' := (sample st measured now pid source).2 in
  have_epoch st' = true ->
  started_us st' = now \/
  (started_us st' = started_us st /\ have_epoch st = true /\ f_pid st = pid /\ f_source st = source).
Proof.
  unfold sample. destruct (usable_sample _ _ _) as [m|]; [|done].
  destruct (new_epoch st now pid source) eqn:En; cbn [negb andb].
  - intros _. left. reflexivity.
  - unfold new_epoch in En. breflect. destruct En as [[[[He Hp] Hs] _] _].
    apply bool_decide_eq_true in Hs. intros H. right.
    destruct (now =? previous_us st); [done|]. cbn [displayed set_previous] in *.
    destruct (displayed st); [unfold track; destruct (_ <? _)|unfold settle]; done.
Qed.

Definition same_game (i j : input) : Prop := i_pid j = i_pid i /\ i_source j = i_source i.

Definition seen (ins : list input) (pid : Z) (source : FpsDisplaySource) (v : Z) : Prop :=
  exists j, j ∈ ins /\ i_pid j = pid /\ i_source j = source /\ i_measured j = Some v /\
            0 <= v <= kMaxDisplayFps.

Record RunInv (ins : list input) (st : FpsDisplayFilter) : Prop := {
  ri_good : Good (seen ins (f_pid st) (f_source st)) st;
  ri_start : exists j, j ∈ ins /\ i_pid j = f_pid st /\ i_source j = f_source st /\
                       i_now j = started_us st
}.

Lemma final_snoc ins i : final (ins ++ [i]) = (step (final ins) i).2.
Proof. unfold final. by rewrite fold_left_app. Qed.

Lemma run_invariant ins :
  Forall (fun i => in_u 64 (i_now i)) ins -> have_epoch (final ins) = true -> RunInv ins (final ins).
Proof.
  induction ins as [|i ins IH] using rev_ind; [done|].
  intros Hu He. apply Forall_app in Hu as [Hu Hi]. rewrite Forall_singleton in Hi.
  specialize (IH Hu). rewrite final_snoc in *. set (st := final ins) in *.
  pose proof (sample_started st (i_measured i) (i_now i) (i_pid i) (i_source i)) as Hst.
  pose proof (sample_good (seen ins (f_pid st) (f_source st))
                (seen (ins ++ [i]) (i_pid i) (i_source i)) st
                (i_measured i) (i_now i) (i_pid i) (i_source i) Hi) as Hg.
  unfold step in *. destruct (sample st _ _ _ _) as [out st']. cbn [snd] in *.
  destruct Hg as [Hg _].
  - intros H. by apply IH.
  - intros x (j & Hj & H1 & H2 & H3) Hp Hs. exists j. split; [auto with machine|].
    split; [congruence|]. split; [congruence|done].
  - intros m Hm Hr. exists i. split; [auto with machine|]. done.
  - destruct (Hg He) as (HG & Hp & Hs & _). constructor; [by rewrite Hp, Hs|].
    destruct (Hst He) as [H|(H & He' & Hp' & Hs')].
    + exists i. split; [auto with machine|]. by rewrite Hp, Hs, H.
    + destruct (ri_start _ _ (IH He')) as (j & Hj & H1 & H2 & H3).
      exists j. split; [auto with machine|]. repeat split; congruence.
Qed.

Lemma output_sound ins i :
  Forall (fun j => in_u 64 (i_now j)) (ins ++ [i]) ->
  (forall v, last_output ins i = Some v ->
     0 <= v <= kMaxDisplayFps /\
     (exists j, j ∈ ins ++ [i] /\ same_game i j /\ i_measured j = Some v) /\
     (exists j, j ∈ ins ++ [i] /\ same_game i j /\ i_now j + kStartupUs <= i_now i)) /\
  (i_pid i <= 0 \/ i_source i = SrcNone \/ i_measured i = None -> last_output ins i = None).
Proof.
  intros Hu. split.
  - intros v Hv. apply Forall_app in Hu as Hu'. destruct Hu' as [Hui Hi].
    rewrite Forall_singleton in Hi. set (st := final ins) in *.
    pose proof (run_invariant (ins ++ [i]) Hu) as HR. rewrite final_snoc in HR. fold st in HR.
    pose proof (sample_good (seen ins (f_pid st) (f_source st))
                  (seen (ins ++ [i]) (i_pid i) (i_source i)) st
                  (i_measured i) (i_now i) (i_pid i) (i_source i) Hi) as Hg.
    unfold last_output in Hv. fold st in Hv. unfold step in *.
    destruct (sample st _ _ _ _) as [out st']. cbn [fst snd] in *. subst out.
    destruct Hg as [Hg1 Hg2].
    + intros H. apply (run_invariant ins Hui H).
    + intros x (j & Hj & H1 & H2 & H3) Hp Hs. exists j. split; [auto with machine|].
      split; [congruence|]. split; [congruence|done].
    + intros m Hm Hr. exists i. split; [auto with machine|]. done.
    + destruct (Hg2 v eq_refl) as [He Hd]. destruct (Hg1 He) as (HG & Hp & Hs & Hn).
      destruct (g_shown _ _ HG v Hd) as ((j & Hj & H1 & H2 & H3 & H4) & _ & Ht).
      split; [done|]. split; [by exists j|].
      destruct (ri_start _ _ (HR He)) as (k & Hk & K1 & K2 & K3).
      exists k. split; [done|]. split; [split; congruence|]. lia.
  - intros H. unfold last_output, step, sample.
    replace (usable_sample _ _ _) with (@None Z); [done|].
    unfold usable_sample. destruct (_ || _) eqn:E; [done|]. breflect.
    rewrite bool_decide_eq_false in E. destruct H as [H|[H|H]]; [lia|tauto|by rewrite H].
Qed.


(** *** Spikes, drops and confirmed rises *)

(** [st] displays [d] for this game and source, with nothing collected above it. *)
Record Showing (st : FpsDisplayFilter) (d t pid : Z) (source : FpsDisplaySource) : Prop := {
  sh_epoch : have_epoch st = true; sh_pid : f_pid st = pid; sh_source : f_source st = source;
  sh_prev : previous_us st = t; sh_shown : displayed st = Some d;
  sh_elev : length (elevated st) = 3%nat
}.

Lemma sample_tracks st d t m now pid source :
  Showing st d t pid source -> 0 < pid -> source <> SrcNone -> 0 <= m <= kMaxDisplayFps ->
  t < now <= t + kMaxFpsWindowUs ->
  sample st (Some m) now pid source = track (set_previous st now) m now.
Proof.
  intros [] Hp Hs Hm Ht. unfold sample, usable_sample.
  replace ((pid <=? 0) || bool_decide (source = SrcNone)) with false
    by (symmetry; breflect; rewrite bool_decide_eq_false; split; [lia|done]).
  replace ((m <? 0) || (kMaxDisplayFps <? m)) with false by (symmetry; breflect; lia).
  replace (new_epoch st now pid source) with false.
  - cbn [negb andb]. replace (now =? previous_us st) with false by (symmetry; breflect; lia).
    cbn [displayed set_previous]. by rewrite sh_shown0.
  - symmetry. unfold new_epoch. rewrite sh_epoch0. breflect.
    rewrite bool_decide_eq_true. repeat split; try lia; done.
Qed.

(** [n] measurements of [m] above the threshold of the accepted values [acc] have been
    collected, the first of them at [since]. *)
Record Pending (st : FpsDisplayFilter) (d t pid : Z) (source : FpsDisplaySource)
    (acc : list Z) (m n since : Z) : Prop := {
  pe_show : Showing st d t pid source;
  pe_acc : accepted st = acc;
  pe_count : elevated_count st = n; pe_cursor : elevated_cursor st = n;
  pe_since : 0 < n -> elevated_since_us st = since;
  pe_vals : forall i, (i < Z.to_nat n)%nat -> elevated st !! i = Some m
}.

Lemma pending_push st d t now pid source acc m n since :
  Pending st d t pid source acc m n since -> 0 <= n <= 1 ->
  0 < pid -> source <> SrcNone -> 0 <= m <= kMaxDisplayFps -> t < now <= t + kMaxFpsWindowUs ->
  upward_threshold acc < m ->
  (sample st (Some m) now pid source).1 = Some d /\
  Pending (sample st (Some m) now pid source).2 d now pid source acc m (n + 1)
    (if n =? 0 then now else since).
Proof.
  intros [HS Ha Hc Hcur Hs Hv] Hn Hp Hsrc Hm Ht Hlt.
  rewrite (sample_tracks st d t) by done. unfold track.
  cbn [accepted set_previous elevated_count displayed elevated elevated_cursor elevated_since_us].
  rewrite Ha, Hc, Hcur. apply Z.ltb_lt in Hlt as ->. destruct HS.
  replace (Z.min kWindow (n + 1) <? kWindow) with true by (symmetry; unfold kWindow; breflect; lia).
  cbn [orb fst snd]. split; [done|].
  constructor; [constructor; try done| | | | |]; cbn [accepted elevated_count elevated_cursor
    elevated_since_us elevated displayed].
  - unfold put. by rewrite length_insert.
  - done.
  - unfold kWindow. lia.
  - unfold kWindow. rewrite Z.mod_small; lia.
  - intros _. destruct (n =? 0) eqn:E; [done|]. apply Hs. breflect. lia.
  - intros i Hi. unfold put. destruct (decide (i = Z.to_nat n)) as [->|Hne].
    + apply list_lookup_insert_eq. lia.
    + rewrite list_lookup_insert_ne by done. apply Hv. lia.
Qed.

Lemma pending_rise st d t now pid source acc m since :
  Pending st d t pid source acc m 2 since ->
  0 < pid -> source <> SrcNone -> 0 <= m <= kMaxDisplayFps -> t < now <= t + kMaxFpsWindowUs ->
  upward_threshold acc < m -> 0 <= since -> since + kRiseUs <= now -> in_u 64 now ->
  (sample st (Some m) now pid source).1 = Some m.
Proof.
  intros [HS Ha Hc Hcur Hs Hv] Hp Hsrc Hm Ht Hlt Hs0 Hs1 Hu.
  rewrite (sample_tracks st d t) by done. unfold track.
  cbn [accepted set_previous elevated_count displayed elevated elevated_cursor elevated_since_us].
  rewrite Ha, Hc, Hcur. apply Z.ltb_lt in Hlt as ->.
  change (Z.min kWindow (2 + 1) <? kWindow) with false. change (2 =? 0) with false. cbn [orb fst].
  unfold kRiseUs in *. rewrite Hs, u64_diff by (done || lia).
  replace (now - since <? 2000000) with false by (symmetry; breflect; lia).
  pose proof (sh_elev _ _ _ _ _ HS) as Hl.
  pose proof (Hv 0%nat ltac:(simpl; lia)) as H0. pose proof (Hv 1%nat ltac:(simpl; lia)) as H1.
  destruct (elevated st) as [|e0 [|e1 [|e2 [|]]]]; try discriminate.
  injection H0 as ->. injection H1 as ->. f_equal. apply (median_const m).
Qed.

(** A measurement at or below the upward threshold is displayed at once (drops and
    recoveries are never hidden); the first measurement above the threshold, and a
    second one, leave the displayed rate unchanged (brief spikes are filtered); three
    consecutive equal measurements above it, one second apart, are displayed
    (a sustained higher rate is shown). *)
Theorem filter_tracking st d t pid source m :
  Showing st d t pid source -> 0 < pid -> source <> SrcNone ->
  0 <= m <= kMaxDisplayFps -> 0 <= t -> t + 3000000 < 2 ^ 64 ->
  let s1 := sample st (Some m) (t + 1000000) pid source in
  let s2 := sample s1.2 (Some m) (t + 2000000) pid source in
  let s3 := sample s2.2 (Some m) (t + 3000000) pid source in
  (m <= upward_threshold (accepted st) -> s1.1 = Some m) /\
  (upward_threshold (accepted st) < m -> elevated_count st = 0 -> elevated_cursor st = 0 ->
   s1.1 = Some d /\ s2.1 = Some d /\ s3.1 = Some m).
Proof.
  intros HS Hp Hs Hm Ht0 Ht. cbv zeta. split.
  - intros Hle. rewrite (sample_tracks st d t) by (done || unfold kMaxFpsWindowUs; lia).
    unfold track. cbn [accepted set_previous]. apply Z.ltb_ge in Hle as ->. done.
  - intros Hlt Hc Hcur.
    assert (P0 : Pending st d t pid source (accepted st) m 0 0).
    { constructor; try done; intros; lia. }
    unfold kMaxFpsWindowUs.
    destruct (pending_push _ _ _ (t + 1000000) _ _ _ _ _ _ P0) as [O1 P1]; try done;
      [unfold kMaxFpsWindowUs; lia|].
    destruct (pending_push _ _ _ (t + 2000000) _ _ _ _ _ _ P1) as [O2 P2]; try done;
      [unfold kMaxFpsWindowUs; lia|].
    split; [done|]. split; [done|].
    apply (pending_rise _ _ _ _ _ _ _ _ _ P2); try done;
      unfold kMaxFpsWindowUs, kRiseUs, in_u; simpl; lia.
Qed.

Definition demo (t v : Z) : input :=
  {| i_measured := Some v; i_now := t * 1000000; i_pid := 77; i_source := VideoOut |}.

(** Six calls of a game at 60, then one at 62. *)
Definition demo_run : list input := map (fun t => demo t 60) [1; 2; 3; 4; 5; 6].


Lemma filter_tracking_witness :
  let st := final demo_run in
  let s1 := sample st (Some 120) 7000000 77 VideoOut in
  let s2 := sample s1.2 (Some 120) 8000000 77 VideoOut in
  let s3 := sample s2.2 (Some 120) 9000000 77 VideoOut in
  s1.1 = Some 60 /\ s2.1 = Some 60 /\ s3.1 = Some 120.
Proof.
  refine (proj2 (filter_tracking (final demo_run) 60 6000000 77 VideoOut 120 _ _ _ _ _ _) _ _ _);
    try (vm_compute; congruence); try (vm_compute; reflexivity).
  - constructor; reflexivity.
  - split; vm_compute; congruence.
Defined.
