(* ===== verification/Platform.v ===== *)
(** The interface [include/common_fps/platform.hpp] between the portable core and a
    console adapter: a class of operations over the adapter's own state [W].  Every
    operation may change that state, and the answers are unconstrained except for the
    documented laws of [PlatformLaws]. *)
From S2P Require Import Prelude.

Abbreviation ProcessId := Z.

Record ModuleInfo := { mod_base : Z; mod_name : string }.

Class Platform (W : Type) := {
  find_game_process : W -> option ProcessId * W;
  process_alive : ProcessId -> W -> bool * W;
  find_module : ProcessId -> string -> W -> option ModuleInfo * W;
  (** [read_memory pid address size]: the bytes copied out, [None] for [false]. *)
  read_memory : ProcessId -> Z -> nat -> W -> option (list Z) * W;
  firmware_sdk_version : W -> Z * W;
  monotonic_us : W -> Z * W;
  sleep_ms : Z -> W -> W
}.

(** A successful read fills the whole buffer with bytes; the clock is a [uint64_t]. *)
Class PlatformLaws (W : Type) `{Platform W} := {
  read_memory_fills pid addr size w bytes :
    (read_memory pid addr size w).1 = Some bytes -> length bytes = size /\ bytes_ok bytes;
  monotonic_u64 w : in_u 64 (monotonic_us w).1
}.

(** A concrete adapter for examples: memory as a list of mapped blocks, a clock that a
    sleep advances, one module. *)
Record SimWorld := {
  sim_now : Z;
  sim_sdk : Z;
  sim_game : option ProcessId;
  sim_base : Z;
  sim_mem : Z -> Z -> nat -> option (list Z)   (** time, address, size *)
}.

Definition sim_advance (us : Z) (w : SimWorld) : SimWorld := {|
  sim_now := sim_now w + us; sim_sdk := sim_sdk w; sim_game := sim_game w;
  sim_base := sim_base w; sim_mem := sim_mem w |}.

Definition sim_read (w : SimWorld) (addr : Z) (size : nat) : option (list Z) :=
  match sim_mem w (sim_now w) addr size with
  | Some l => if (length l =? size)%nat && forallb (in_ub 8) l then Some l else None
  | None => None
  end.

#[export] Instance SimPlatform : Platform SimWorld := {|
  find_game_process w := (sim_game w, w);
  process_alive pid w := (bool_decide (sim_game w = Some pid), w);
  find_module _ name w := (Some {| mod_base := sim_base w; mod_name := name |}, w);
  read_memory _ addr size w := (sim_read w addr size, w);
  firmware_sdk_version w := (sim_sdk w, w);
  monotonic_us w := (u64 (sim_now w), w);
  sleep_ms ms w := sim_advance (ms * 1000) w
|}.

#[export] Instance SimLaws : PlatformLaws SimWorld.
Proof.
  split.
  - intros pid addr size w bytes. simpl. unfold sim_read.
    destruct (sim_mem _ _ _ _) as [l|]; [|done]. destruct (_ && _) eqn:E; [|done].
    intros [= <-]. apply andb_true_iff in E as [E1 E2]. apply Nat.eqb_eq in E1. split; [done|].
    apply List.Forall_forall. intros x Hx. rewrite forallb_forall in E2.
    by apply in_ub_spec, E2.
  - intros w. simpl. apply wrap_range. lia.
Qed.
