(* ===== verification/FpsSampler.v ===== *)
(** The VideoOut counter sampler: [include/common_fps/fps_sampler.hpp] and
    [src/core/fps_sampler.cpp], over any platform.  [ps5] selects the console build
    (the [PS5] macro adds the discovery back-off of [attach]).  Log lines are left out. *)
From S2P Require Import Prelude Types Platform.

Definition plausible_user_pointer (value : Z) : bool :=
  (0x10000 <=? value) && (value <? 0x0000800000000000) && (Z.land value 0x7 =? 0).

Definition unsigned_distance (left right : Z) : Z :=
  if right <? left then left - right else right - left.

Record FpsSampler := {
  pid_ : ProcessId;
  module_base_ : Z;
  counter_address_ : Z;
  have_baseline_ : bool;
  warmup_deltas_remaining_ : Z;
  previous_counter_ : Z;
  previous_time_us_ : Z;
  discovery_failed_pid_ : ProcessId;
  discovery_retry_after_us_ : Z
}.

Definition FpsSampler_init : FpsSampler := {|
  pid_ := -1; module_base_ := 0; counter_address_ := 0;
  have_baseline_ := false; warmup_deltas_remaining_ := kWarmupDeltasToDiscard;
  previous_counter_ := 0; previous_time_us_ := 0;
  discovery_failed_pid_ := -1; discovery_retry_after_us_ := 0 |}.

Definition reset (s : FpsSampler) : FpsSampler := {|
  pid_ := -1; module_base_ := 0; counter_address_ := 0;
  have_baseline_ := false; warmup_deltas_remaining_ := kWarmupDeltasToDiscard;
  previous_counter_ := 0; previous_time_us_ := 0;
  discovery_failed_pid_ := discovery_failed_pid_ s;
  discovery_retry_after_us_ := discovery_retry_after_us_ s |}.

Definition attached (s : FpsSampler) : bool := (0 <=? pid_ s) && negb (counter_address_ s =? 0).

(** ** Counter discovery *)

Record Layout := { enabled_offset : nat; pointer_offset : nat }.

Definition kLayouts : list Layout := [
  {| enabled_offset := 0x00; pointer_offset := 0x08 |};
  {| enabled_offset := 0x04; pointer_offset := 0x08 |};
  {| enabled_offset := 0x00; pointer_offset := 0x10 |};
  {| enabled_offset := 0x04; pointer_offset := 0x10 |}].

Definition kScanBegin : Z := 0x10000.
Definition kScanStep : Z := 0x2000.
Definition kScanWindows : nat := 248.     (** ([kScanEnd] - [kScanBegin]) / [kScanStep] *)
Definition kLayoutLookahead : nat := 0x20.
Definition kScanReadSize : nat := 0x2020.
Definition kScanRecords : nat := 1025.    (** offsets 0, 8, ... with the lookahead inside *)
Definition kMaxCandidates : nat := 256.
Definition kTableSize : nat := kVideoOutProbeEntryCount * kVideoOutProbeEntrySize.
Definition kProvenFixedTableSdk : Z := 0x09600000.

Record Candidate := {
  c_record : Z; c_pointer : Z; c_root : Z; c_counter : Z;
  c_first : Z; c_second : option Z; c_third : option Z
}.

Record Scan := {
  candidates : list Candidate;
  pointer_matches : Z; indirect_roots : Z; candidates_truncated : bool
}.

Definition Scan_init : Scan :=
  {| candidates := []; pointer_matches := 0; indirect_roots := 0; candidates_truncated := false |}.

Section Sampler.
Context {W : Type} `{Platform W}.

(** [read_memory] into an unsigned integer of [n] bytes. *)
Definition read_uint (pid : ProcessId) (addr : Z) (n : nat) (w : W) : option Z * W :=
  let '(r, w1) := read_memory pid addr n w in (le_decode <$> r, w1).

(** The fixed chain of FW 9.60: the first record with a flag, a pointer and a root. *)
Fixpoint fixed_chain (pid : ProcessId) (table : list Z) (i : nat) (n : nat) (w : W)
    : option Z * W :=
  match n with
  | O => (None, w)
  | S n' =>
      let enabled := field (i * kVideoOutProbeEntrySize) 4 table in
      let pointer := field (i * kVideoOutProbeEntrySize + 8) 8 table in
      if (enabled =? 0) || (pointer =? 0) then fixed_chain pid table (S i) n' w
      else
        let '(r, w1) := read_uint pid pointer 8 w in
        match r with
        | Some root => if root =? 0 then fixed_chain pid table (S i) n' w1
                       else (Some (u64 (root + kVideoOutCounterOffset)), w1)
        | None => fixed_chain pid table (S i) n' w1
        end
  end.

Definition resolve_fixed (pid : ProcessId) (base : Z) (w : W) : option Z * W :=
  let '(sdk, w1) := firmware_sdk_version w in
  if Z.land sdk 0xffff0000 =? kProvenFixedTableSdk then
    let '(r, w2) := read_memory pid (u64 (base + kVideoOutProbeTableOffset)) kTableSize w1 in
    match r with
    | Some table => fixed_chain pid table 0 kVideoOutProbeEntryCount w2
    | None => (None, w2)
    end
  else (None, w1).

Definition count_root (sc : Scan) : Scan :=
  {| candidates := candidates sc; pointer_matches := pointer_matches sc;
     indirect_roots := indirect_roots sc + 1; candidates_truncated := candidates_truncated sc |}.
Definition count_pointer (sc : Scan) : Scan :=
  {| candidates := candidates sc; pointer_matches := pointer_matches sc + 1;
     indirect_roots := indirect_roots sc; candidates_truncated := candidates_truncated sc |}.
Definition truncate (sc : Scan) : Scan :=
  {| candidates := candidates sc; pointer_matches := pointer_matches sc;
     indirect_roots := indirect_roots sc; candidates_truncated := true |}.
Definition append_candidate (c : Candidate) (sc : Scan) : Scan :=
  {| candidates := candidates sc ++ [c]; pointer_matches := pointer_matches sc;
     indirect_roots := indirect_roots sc; candidates_truncated := candidates_truncated sc |}.

Definition add_candidate (pid : ProcessId) (record pointer root : Z) (sc : Scan) (w : W)
    : Scan * W :=
  if negb (plausible_user_pointer root) then (sc, w)
  else
    let counter := u64 (root + kVideoOutCounterOffset) in
    if existsb (fun c => c_counter c =? counter) (candidates sc) then (sc, w)
    else
      let '(r, w1) := read_uint pid counter 4 w in
      match r with
      | None => (sc, w1)
      | Some first =>
          if (length (candidates sc) =? kMaxCandidates)%nat then (truncate sc, w1)
          else (append_candidate {| c_record := record; c_pointer := pointer; c_root := root;
                                    c_counter := counter; c_first := first;
                                    c_second := None; c_third := None |} sc, w1)
      end.

(** One layout at one record of a window. *)
Definition scan_layout (pid : ProcessId) (window : list Z) (address : Z) (local : nat)
    (sc : Scan) (w : W) (l : Layout) : Scan * W :=
  let enabled := field (local + enabled_offset l) 4 window in
  let pointer := field (local + pointer_offset l) 8 window in
  if (enabled =? 0) || (8 <? enabled) || negb (plausible_user_pointer pointer) then (sc, w)
  else
    let sc1 := count_pointer sc in
    let '(r, w1) := read_uint pid pointer 8 w in
    match r with
    | Some root =>
        if plausible_user_pointer root
        then add_candidate pid (u64 (address + Z.of_nat local)) pointer root (count_root sc1) w1
        else (sc1, w1)
    | None => (sc1, w1)
    end.

Definition scan_record (pid : ProcessId) (window : list Z) (address : Z) (acc : Scan * W)
    (local : nat) : Scan * W :=
  fold_left (fun a l => scan_layout pid window address local a.1 a.2 l) kLayouts acc.

Definition scan_window (pid : ProcessId) (base : Z) (acc : Scan * W) (k : nat) : Scan * W :=
  let address := u64 (base + (kScanBegin + kScanStep * Z.of_nat k)) in
  let '(r, w1) := read_memory pid address kScanReadSize acc.2 in
  match r with
  | Some window =>
      fold_left (scan_record pid window address) (map (fun i => i * 8)%nat (seq 0 kScanRecords))
        (acc.1, w1)
  | None => (acc.1, w1)
  end.

Definition scan_all (pid : ProcessId) (base : Z) (w : W) : Scan * W :=
  fold_left (scan_window pid base) (seq 0 kScanWindows) (Scan_init, w).

(** Second and third reading of every candidate. *)
Fixpoint read_second (pid : ProcessId) (cs : list Candidate) (w : W) : list Candidate * W :=
  match cs with
  | [] => ([], w)
  | c :: cs' =>
      let '(r, w1) := read_uint pid (c_counter c) 4 w in
      let '(rest, w2) := read_second pid cs' w1 in
      ({| c_record := c_record c; c_pointer := c_pointer c; c_root := c_root c;
          c_counter := c_counter c; c_first := c_first c; c_second := r;
          c_third := c_third c |} :: rest, w2)
  end.

Fixpoint read_third (pid : ProcessId) (cs : list Candidate) (w : W) : list Candidate * W :=
  match cs with
  | [] => ([], w)
  | c :: cs' =>
      let '(r, w1) := match c_second c with
                      | None => (c_third c, w)
                      | Some _ => read_uint pid (c_counter c) 4 w
                      end in
      let '(rest, w2) := read_third pid cs' w1 in
      ({| c_record := c_record c; c_pointer := c_pointer c; c_root := c_root c;
          c_counter := c_counter c; c_first := c_first c; c_second := c_second c;
          c_third := r |} :: rest, w2)
  end.

(** Score of a candidate; [None] when it is skipped. *)
Definition candidate_score (c : Candidate) : option Z :=
  match c_second c, c_third c with
  | Some second, Some third =>
      let delta1 := u32 (second - c_first c) in
      let delta2 := u32 (third - second) in
      if (delta1 =? 0) || (45 <? delta1) || (delta2 =? 0) || (45 <? delta2) then None
      else
        let jitter := unsigned_distance delta1 delta2 in
        if 4 <? jitter then None
        else
          let estimated_fps := u32 (u32 (delta1 + delta2) * 2) in
          let rate_distance :=
            Z.min (unsigned_distance estimated_fps 30)
              (Z.min (unsigned_distance estimated_fps 60) (unsigned_distance estimated_fps 120)) in
          Some (u32 (u32 (jitter * 1000) + u32 (rate_distance * 10)))
  | _, _ => None
  end.

(** The first candidate of least score. *)
Fixpoint select_best (cs : list Candidate) (best : option Candidate) (best_score : Z)
    : option Candidate :=
  match cs with
  | [] => best
  | c :: cs' =>
      match candidate_score c with
      | Some score => if score <? best_score then select_best cs' (Some c) score
                      else select_best cs' best best_score
      | None => select_best cs' best best_score
      end
  end.

(** The scan of the module and the choice among its candidates. *)
Definition scan_and_validate (pid : ProcessId) (base : Z) (w1 : W) : option Z * W :=
  let '(sc, w2) := scan_all pid base w1 in
  match candidates sc with
  | [] => (None, w2)
  | cs =>
      let '(cs2, w3) := read_second pid cs (sleep_ms 250 w2) in
      let '(cs3, w4) := read_third pid cs2 (sleep_ms 250 w3) in
      match select_best cs3 None UINT_MAX with
      | Some winner => (Some (c_counter winner), w4)
      | None => (None, w4)
      end
  end.

Definition resolve_counter_address (pid : ProcessId) (base : Z) (w : W) : option Z * W :=
  let '(fixed, w1) := resolve_fixed pid base w in
  match fixed with
  | Some counter => (Some counter, w1)
  | None => scan_and_validate pid base w1
  end.

(** ** attach and sample *)

Definition kRetryUs : Z := 10000000.

Definition attach (ps5 : bool) (pid : ProcessId) (s : FpsSampler) (w : W)
    : bool * FpsSampler * W :=
  let '(now, w1) := if ps5 then monotonic_us w else (0, w) in
  if ps5 && (pid =? discovery_failed_pid_ s) && (now <? discovery_retry_after_us_ s)
  then (false, s, w1)
  else
    let s1 := reset s in
    let '(m, w2) := find_module pid "libSceVideoOut.sprx" w1 in
    match m with
    | None => (false, s1, w2)
    | Some info =>
        if mod_base info =? 0 then (false, s1, w2)
        else
          let '(r, w3) := resolve_counter_address pid (mod_base info) w2 in
          match r with
          | None =>
              let '(later, w4) := if ps5 then monotonic_us w3 else (0, w3) in
              (false,
               {| pid_ := -1; module_base_ := 0; counter_address_ := 0;
                  have_baseline_ := false; warmup_deltas_remaining_ := kWarmupDeltasToDiscard;
                  previous_counter_ := 0; previous_time_us_ := 0;
                  discovery_failed_pid_ := if ps5 then pid else discovery_failed_pid_ s;
                  discovery_retry_after_us_ :=
                    if ps5 then u64 (later + kRetryUs) else discovery_retry_after_us_ s |}, w4)
          | Some counter =>
              (true,
               {| pid_ := pid; module_base_ := mod_base info; counter_address_ := counter;
                  have_baseline_ := false; warmup_deltas_remaining_ := kWarmupDeltasToDiscard;
                  previous_counter_ := 0; previous_time_us_ := 0;
                  discovery_failed_pid_ := if ps5 then -1 else discovery_failed_pid_ s;
                  discovery_retry_after_us_ :=
                    if ps5 then 0 else discovery_retry_after_us_ s |}, w3)
          end
    end.

(** The counter bookkeeping of one successful read at [now]. *)
Definition rebase (s : FpsSampler) (baseline : bool) (warmup counter now : Z) : FpsSampler := {|
  pid_ := pid_ s; module_base_ := module_base_ s; counter_address_ := counter_address_ s;
  have_baseline_ := baseline; warmup_deltas_remaining_ := warmup;
  previous_counter_ := counter; previous_time_us_ := now;
  discovery_failed_pid_ := discovery_failed_pid_ s;
  discovery_retry_after_us_ := discovery_retry_after_us_ s |}.

Definition measure (s : FpsSampler) (current_counter now_us : Z) : option Z * FpsSampler :=
  if negb (have_baseline_ s) then
    (None, rebase s true (warmup_deltas_remaining_ s) current_counter now_us)
  else if (now_us <=? previous_time_us_ s) || (kMaxFpsWindowUs <? now_us - previous_time_us_ s) then
    (None, rebase s true kWarmupDeltasToDiscard current_counter now_us)
  else
    let elapsed_us := now_us - previous_time_us_ s in
    if elapsed_us <? kMinFpsWindowUs then (None, s)
    else
      let delta := u32 (current_counter - previous_counter_ s) in
      let scaled := u64 (delta * 10000000) in
      let tenths := scaled `div` elapsed_us in
      if negb (warmup_deltas_remaining_ s =? 0) then
        (None, rebase s true (u32 (warmup_deltas_remaining_ s - 1)) current_counter now_us)
      else
        let s' := rebase s true (warmup_deltas_remaining_ s) current_counter now_us in
        if kMaxTenthsFps <? tenths then (None, s')
        else (Some (Z.min ((tenths + 5) `div` 10) kMaxDisplayFps), s').

Definition sample (s : FpsSampler) (w : W) : option Z * FpsSampler * W :=
  if negb (attached s) then (None, s, w)
  else
    let '(alive, w1) := process_alive (pid_ s) w in
    if negb alive then (None, reset s, w1)
    else
      let '(r, w2) := read_uint (pid_ s) (counter_address_ s) 4 w1 in
      match r with
      | None => (None, reset s, w2)
      | Some current_counter =>
          let '(now_us, w3) := monotonic_us w2 in
          let '(out, s') := measure s current_counter now_us in (out, s', w3)
      end.
End Sampler.

(** ** Lemmas on discovery *)

Section Discovery.
Context {W : Type} `{Platform W}.

(** Passage of time: the worlds reached by readings and sleeps. *)
Inductive tick : W -> W -> Prop :=
| tick_read pid addr n w : tick w (read_memory pid addr n w).2
| tick_sleep ms w : tick w (sleep_ms ms w)
| tick_sdk w : tick w (firmware_sdk_version w).2.
Definition later : W -> W -> Prop := rtc tick.

(** At least one sleep of 250 ms in between. *)
Definition slept (w w' : W) : Prop := exists u, later w u /\ later (sleep_ms 250 u) w'.

(** The counter reads as [v] in world [w]. *)
Definition reads (pid : ProcessId) (counter v : Z) (w : W) : Prop :=
  (read_uint pid counter 4 w).1 = Some v.

(** What a candidate records: a plausible root, its counter, and the first reading. *)
Definition cand_first (pid : ProcessId) (w0 w : W) (c : Candidate) : Prop :=
  plausible_user_pointer (c_root c) = true /\
  c_counter c = u64 (c_root c + kVideoOutCounterOffset) /\
  exists w1, later w0 w1 /\ reads pid (c_counter c) (c_first c) w1 /\ later w1 w.

(** After the second pass. *)
Definition cand_second (pid : ProcessId) (w0 w : W) (c : Candidate) : Prop :=
  plausible_user_pointer (c_root c) = true /\
  c_counter c = u64 (c_root c + kVideoOutCounterOffset) /\ c_third c = None /\
  exists w1, later w0 w1 /\ reads pid (c_counter c) (c_first c) w1 /\
    forall v, c_second c = Some v ->
      exists w2, slept w1 w2 /\ reads pid (c_counter c) v w2 /\ later w2 w.

(** After the third pass. *)
Definition cand_third (pid : ProcessId) (w0 : W) (c : Candidate) : Prop :=
  plausible_user_pointer (c_root c) = true /\
  c_counter c = u64 (c_root c + kVideoOutCounterOffset) /\
  exists w1, later w0 w1 /\ reads pid (c_counter c) (c_first c) w1 /\
    forall v v', c_second c = Some v -> c_third c = Some v' ->
      exists w2 w3, slept w1 w2 /\ reads pid (c_counter c) v w2 /\
                    slept w2 w3 /\ reads pid (c_counter c) v' w3.

(** The scan keeps at most 256 candidates with pairwise different counters. *)
Record scan_inv (pid : ProcessId) (w0 : W) (a : Scan * W) : Prop := {
  si_later : later w0 a.2;
  si_ok : Forall (fun c => cand_first pid w0 a.2 c /\ c_third c = None) (candidates a.1);
  si_nodup : NoDup (map c_counter (candidates a.1));
  si_bound : (length (candidates a.1) <= kMaxCandidates)%nat
}.

Lemma read_uint_later pid addr n w : later w (read_uint pid addr n w).2.
Proof.
  unfold read_uint. pose proof (tick_read pid addr n w) as Ht.
  destruct (read_memory pid addr n w) as [r w1]. by apply rtc_once.
Qed.

Lemma slept_later w w1 w2 w3 : later w w1 -> slept w1 w2 -> later w2 w3 -> slept w w3.
Proof. intros H1 (u & Hu & Hs) H3. exists u. split; by etrans. Qed.

Lemma scan_init_inv pid w : scan_inv pid w (Scan_init, w).
Proof. split; simpl; [reflexivity|constructor|constructor|unfold kMaxCandidates; lia]. Qed.

(** Time passing, and the two statistics, leave the invariant alone. *)
Lemma scan_inv_later pid w0 sc sc' w w' :
  scan_inv pid w0 (sc, w) -> candidates sc' = candidates sc -> later w w' ->
  scan_inv pid w0 (sc', w').
Proof.
  intros [Hl Hok Hnd Hb] Hc Hw. split; cbn [fst snd] in *; rewrite ?Hc; try done; [by etrans|].
  eapply Forall_impl; [exact Hok|]. cbn. intros c [(Hp & He & w1 & H1 & Hr & H2) Ht].
  repeat split; try done. exists w1. repeat split; try done. by etrans.
Qed.

Lemma add_candidate_inv pid rec ptr root sc w0 w :
  scan_inv pid w0 (sc, w) -> scan_inv pid w0 (add_candidate pid rec ptr root sc w).
Proof.
  intros Hi. unfold add_candidate.
  destruct (plausible_user_pointer root) eqn:Ep; cbn [negb]; [|done].
  destruct (existsb _ _) eqn:Ex; [done|].
  pose proof (read_uint_later pid (u64 (root + kVideoOutCounterOffset)) 4 w) as Hl.
  destruct (read_uint _ _ _ _) as [[first|] w1] eqn:Er; cbn [snd] in Hl;
    pose proof (scan_inv_later _ _ _ sc _ w1 Hi eq_refl Hl) as Hi1; [|done].
  destruct (length (candidates sc) =? kMaxCandidates)%nat eqn:El;
    [by eapply scan_inv_later; [exact Hi1|done|reflexivity]|].
  destruct Hi as [Hlw _ _ _]. destruct Hi1 as [Hl1 Hok Hnd Hb]. cbn [fst snd] in *.
  split; cbn [fst snd candidates append_candidate]; [done| | |].
  - apply Forall_app. split; [done|]. constructor; [|done]. split; [|done].
    split; [done|]. split; [done|]. exists w. split; [done|]. split; [|done].
    unfold reads. cbn [c_counter c_first]. by rewrite Er.
  - rewrite map_app. apply NoDup_app. split; [done|]. split; [|apply NoDup_singleton].
    intros x Hx Hx'. apply list_elem_of_singleton in Hx' as ->.
    apply list_elem_of_fmap in Hx as (c & Hc & Hin). apply list_elem_of_In in Hin.
    assert (existsb (fun c => c_counter c =? u64 (root + kVideoOutCounterOffset)) (candidates sc)
            = true) as Hex; [|congruence].
    apply existsb_exists. exists c. split; [done|]. by apply Z.eqb_eq.
  - apply Nat.eqb_neq in El. rewrite length_app. simpl. lia.
Qed.

Lemma scan_layout_inv pid window addr local sc w0 w l :
  scan_inv pid w0 (sc, w) -> scan_inv pid w0 (scan_layout pid window addr local sc w l).
Proof.
  intros Hi. unfold scan_layout. destruct (_ || _); [done|].
  match goal with |- context [read_uint ?p ?a ?n w] => pose proof (read_uint_later p a n w) as Hl end.
  destruct (read_uint _ _ _ _) as [[root|] w1]; cbn [snd] in Hl;
    [|by eapply scan_inv_later; [exact Hi|done|done]].
  destruct (plausible_user_pointer root); [|by eapply scan_inv_later; [exact Hi|done|done]].
  apply add_candidate_inv. by eapply scan_inv_later.
Qed.

Lemma scan_all_inv pid base w0 w : later w0 w -> scan_inv pid w0 (scan_all pid base w).
Proof.
  intros H0. unfold scan_all. apply (fold_left_inv (scan_inv pid w0)).
  2: { split; cbn; [done|constructor|constructor|unfold kMaxCandidates; lia]. }
  intros [sc u] k _ Ha. unfold scan_window. cbn [fst snd].
  match goal with |- context [read_memory ?p ?a ?n u] => pose proof (tick_read p a n u) as Ht end.
  destruct (read_memory _ _ _ _) as [[win|] w1]; cbn [snd] in Ht;
    [|by eapply scan_inv_later; [exact Ha|done|apply rtc_once]].
  apply (fold_left_inv (scan_inv pid w0));
    [|by eapply scan_inv_later; [exact Ha|done|apply rtc_once]].
  intros [sc1 u1] local _ Hb. unfold scan_record.
  apply (fold_left_inv (scan_inv pid w0)); [|done].
  intros [sc2 u2] l _ Hd. by apply scan_layout_inv.
Qed.

Lemma read_second_ok pid cs w0 w u :
  Forall (fun c => cand_first pid w0 w c /\ c_third c = None) cs -> later (sleep_ms 250 w) u ->
  Forall (cand_second pid w0 (read_second pid cs u).2) (read_second pid cs u).1 /\
  later u (read_second pid cs u).2.
Proof.
  intros Hc. revert u; induction Hc as [|c cs [(Hp & He & w1 & H1 & Hr & H2) Ht] Hcs IH];
    intros u Hu; cbn [read_second]; [done|].
  pose proof (read_uint_later pid (c_counter c) 4 u) as Hl.
  destruct (read_uint _ _ _ _) as [r u1] eqn:Er. cbn [snd] in Hl.
  destruct (IH u1) as [IH1 IH2]; [by etrans|].
  destruct (read_second pid cs u1) as [rest u2]. cbn [fst snd] in *. split; [|by etrans].
  constructor; [|done]. split; [done|]. split; [done|]. split; [done|].
  exists w1. split; [done|]. split; [done|]. cbn [c_second]. intros v ->.
  exists u. split; [by exists w|]. split; [by unfold reads; cbn [c_counter]; rewrite Er|]. by etrans.
Qed.

Lemma read_third_ok pid cs w0 w u :
  Forall (cand_second pid w0 w) cs -> later (sleep_ms 250 w) u ->
  Forall (cand_third pid w0) (read_third pid cs u).1.
Proof.
  intros Hc. revert u; induction Hc as [|c cs (Hp & He & Ht & w1 & H1 & Hr & H2) Hcs IH];
    intros u Hu; cbn [read_third]; [constructor|].
  destruct (c_second c) as [v|] eqn:Ev.
  - pose proof (read_uint_later pid (c_counter c) 4 u) as Hl.
    destruct (read_uint _ _ _ _) as [r u1] eqn:Er. cbn [snd] in Hl.
    specialize (IH u1). destruct (read_third pid cs u1) as [rest u2].
    constructor; [|apply IH; by etrans]. split; [done|]. split; [done|].
    exists w1. split; [done|]. split; [done|]. cbn [c_second c_third]. intros ? v' [= <-] ->.
    destruct (H2 v eq_refl) as (w2 & Hs & Hr2 & Hl2). exists w2, u.
    split; [done|]. split; [done|]. split; [by exists w|]. unfold reads. cbn [c_counter]. by rewrite Er.
  - specialize (IH u Hu). destruct (read_third pid cs u) as [rest u2]. constructor; [|done].
    split; [done|]. split; [done|]. exists w1. done.
Qed.
End Discovery.

(** Two increments that look like a display counter sampled twice at 250 ms. *)
Definition display_like (first second third : Z) : Prop :=
  let d1 := u32 (second - first) in
  let d2 := u32 (third - second) in
  1 <= d1 <= 45 /\ 1 <= d2 <= 45 /\ Z.abs (d1 - d2) <= 4.

Lemma unsigned_distance_abs a b : unsigned_distance a b = Z.abs (a - b).
Proof. unfold unsigned_distance. case_match; breflect; lia. Qed.

Lemma candidate_score_spec c score :
  candidate_score c = Some score ->
  0 <= score < UINT_MAX /\
  exists second third, c_second c = Some second /\ c_third c = Some third /\
                       display_like (c_first c) second third.
Proof.
  unfold candidate_score. destruct (c_second c) as [s2|]; [|done]. destruct (c_third c) as [s3|]; [|done].
  set (d1 := u32 (s2 - c_first c)). set (d2 := u32 (s3 - s2)).
  rewrite !unsigned_distance_abs. destruct (_ || _) eqn:E; [done|]. destruct (4 <? _) eqn:Ej; [done|].
  assert (R1 : in_u 32 d1) by (apply wrap_range; lia).
  assert (R2 : in_u 32 d2) by (apply wrap_range; lia).
  assert (Hd : 1 <= d1 <= 45 /\ 1 <= d2 <= 45 /\ Z.abs (d1 - d2) <= 4)
    by (unfold in_u in *; breflect; lia).
  clear E Ej. rewrite (wrap_small 32 (d1 + d2)) by (unfold in_u; lia).
  rewrite (wrap_small 32 ((d1 + d2) * 2)) by (unfold in_u; lia).
  rewrite (wrap_small 32 (Z.abs (d1 - d2) * 1000)) by (unfold in_u; lia).
  rewrite (wrap_small 32 (Z.min _ _ * 10)) by (unfold in_u; lia).
  rewrite wrap_small by (unfold in_u; lia).
  intros [= <-]. unfold UINT_MAX. split; [lia|]. by exists s2, s3.
Qed.

Lemma select_best_spec cs best bs :
  match best with Some c => candidate_score c = Some bs | None => bs = UINT_MAX end ->
  match select_best cs best bs with
  | Some c => (c ∈ cs \/ best = Some c) /\
              exists sc, candidate_score c = Some sc /\ sc <= bs /\
              forall c' sc', c' ∈ cs -> candidate_score c' = Some sc' -> sc <= sc'
  | None => best = None /\ forall c', c' ∈ cs -> candidate_score c' = None
  end.
Proof.
  revert best bs; induction cs as [|c cs IH]; intros best bs Hb; simpl.
  - destruct best as [c|].
    + split; [by right|]. exists bs. split; [done|]. split; [lia|]. intros c' sc' Hc'. by apply elem_of_nil in Hc'.
    + split; [done|]. intros c' Hc'. by apply elem_of_nil in Hc'.
  - destruct (candidate_score c) as [score|] eqn:Ec.
    + destruct (score <? bs) eqn:E; breflect.
      * specialize (IH (Some c) score Ec). destruct (select_best cs (Some c) score) as [c0|]; [|by destruct IH].
        destruct IH as (Hin & sc & Hsc & Hle & Hmin). split.
        { left. destruct Hin as [Hin|[= ->]]; [by right|by left]. }
        exists sc. split; [done|]. split; [lia|].
        intros c' sc' Hc' Hs'. apply elem_of_cons in Hc' as [->|Hc']; [|eauto].
        rewrite Ec in Hs'. by simplify_eq.
      * specialize (IH best bs Hb). destruct (select_best cs best bs) as [c0|].
        -- destruct IH as (Hin & sc & Hsc & Hle & Hmin).
           split; [destruct Hin; [left; by right|by right]|].
           exists sc. split; [done|]. split; [lia|].
           intros c' sc' Hc' Hs'. apply elem_of_cons in Hc' as [->|Hc']; [|eauto].
           rewrite Ec in Hs'. simplify_eq. lia.
        -- destruct IH as [-> _]. subst bs. apply candidate_score_spec in Ec as [Ec _]. lia.
    + specialize (IH best bs Hb). destruct (select_best cs best bs) as [c0|].
      * destruct IH as (Hin & sc & Hsc & Hle & Hmin).
        split; [destruct Hin; [left; by right|by right]|].
        exists sc. split; [done|]. split; [lia|].
        intros c' sc' Hc' Hs'. apply elem_of_cons in Hc' as [->|Hc']; [congruence|eauto].
      * destruct IH as [-> Hall]. split; [done|].
        intros c' Hc'. apply elem_of_cons in Hc' as [->|Hc']; [done|eauto].
Qed.

(** The validation of the scan picks, among the candidates that advanced like a display
    counter in both 250 ms windows, the first of least score, and fails exactly
    when there is none. *)
Theorem select_best_optimal cs :
  match select_best cs None UINT_MAX with
  | Some c => c ∈ cs /\ exists sc, candidate_score c = Some sc /\
              forall c' sc', c' ∈ cs -> candidate_score c' = Some sc' -> sc <= sc'
  | None => forall c, c ∈ cs -> candidate_score c = None
  end.
Proof.
  pose proof (select_best_spec cs None UINT_MAX eq_refl) as Hs.
  destruct (select_best cs None UINT_MAX) as [c|]; [|by apply Hs].
  destruct Hs as ([Hin|Hin] & sc & Hsc & _ & Hmin); [|done]. eauto.
Qed.

Section Resolve.
Context {W : Type} `{Platform W}.

Lemma fixed_chain_some pid table i n (w : W) counter w' :
  fixed_chain pid table i n w = (Some counter, w') ->
  exists root, root <> 0 /\ counter = u64 (root + kVideoOutCounterOffset).
Proof.
  revert i w; induction n as [|n IH]; intros i w; cbn [fixed_chain]; [done|].
  destruct (_ || _); [apply IH|]. destruct (read_uint _ _ _ _) as [[root|] w1]; [|apply IH].
  destruct (root =? 0) eqn:E; [apply IH|]. intros [= <- <-]. exists root. by apply Z.eqb_neq in E.
Qed.

Lemma fixed_chain_later pid table i n (w : W) : later w (fixed_chain pid table i n w).2.
Proof.
  revert i w; induction n as [|n IH]; intros i w; cbn [fixed_chain]; [reflexivity|].
  destruct (_ || _); [apply IH|].
  match goal with |- context [read_uint ?p ?a ?n w] => pose proof (read_uint_later p a n w) as Hl end.
  destruct (read_uint _ _ _ _) as [[root|] w1]; cbn [snd] in Hl; [|by etrans; [|apply IH]].
  destruct (root =? 0); [by etrans; [|apply IH]|done].
Qed.

(** What the scan may select: the counter of a plausible root, read three times, at
    least 250 ms apart, with the increments of a display. *)
Definition scanned_counter (pid : ProcessId) (w0 : W) (counter : Z) : Prop :=
  exists root first second third w1 w2 w3,
    plausible_user_pointer root = true /\ counter = u64 (root + kVideoOutCounterOffset) /\
    reads pid counter first w1 /\ reads pid counter second w2 /\ reads pid counter third w3 /\
    later w0 w1 /\ slept w1 w2 /\ slept w2 w3 /\ display_like first second third.

Lemma scan_and_validate_sound pid base w0 w counter :
  later w0 w -> (scan_and_validate pid base w).1 = Some counter ->
  scanned_counter pid w0 counter.
Proof.
  intros H0. unfold scan_and_validate. pose proof (scan_all_inv pid base w0 w H0) as [_ Hok _ _].
  destruct (scan_all pid base w) as [sc w2]. cbn [fst snd] in Hok.
  destruct (candidates sc) as [|c0 cs0]; [done|].
  destruct (read_second_ok pid _ w0 w2 (sleep_ms 250 w2) Hok) as [Hs _]; [reflexivity|].
  destruct (read_second _ _ _) as [cs2 w3]. cbn [fst snd] in Hs.
  pose proof (read_third_ok pid _ w0 w3 (sleep_ms 250 w3) Hs) as Ht.
  destruct (read_third _ _ _) as [cs3 w4]. cbn [fst] in Ht.
  pose proof (select_best_spec cs3 None UINT_MAX eq_refl) as Hb.
  destruct (select_best cs3 None UINT_MAX) as [c|]; [|done]. intros [= <-].
  destruct Hb as ([Hin|Hin] & sc' & Hsc & _); [|done].
  apply candidate_score_spec in Hsc as [_ (v2 & v3 & E2 & E3 & Hd)].
  specialize (Ht (rtc_refl _ _)). rewrite Forall_forall in Ht. destruct (Ht c Hin) as (Hp & He & w1 & Hl & Hr1 & Hr).
  destruct (Hr _ _ E2 E3) as (u2 & u3 & Hs12 & Hr2 & Hs23 & Hr3).
  by exists (c_root c), (c_first c), v2, v3, w1, u2, u3.
Qed.

End Resolve.

(** ** Measurement *)

(** A published value: the frames counted since the baseline, through the 32-bit wrap,
    over the elapsed time, rounded to the nearest integer and capped at 120. *)
Definition nearest_rate (v frames elapsed_us : Z) : Prop :=
  0 <= v <= kMaxDisplayFps /\
  (2 * v - 1) * elapsed_us <= 2 * frames * 1000000 /\
  (v < kMaxDisplayFps -> 2 * frames * 1000000 < (2 * v + 1) * elapsed_us).

Lemma u32_sub_advance c0 k : 0 <= k < 2 ^ 32 -> u32 (u32 (c0 + k) - u32 c0) = k.
Proof.
  intros Hk. unfold wrap. rewrite <- Zminus_mod. rewrite <- (Z.mod_small k (2 ^ 32)) at 2 by done.
  f_equal. lia.
Qed.

Lemma rounding v frames elapsed tenths :
  0 <= frames -> 0 < elapsed -> tenths = (frames * 10000000) `div` elapsed ->
  v = Z.min ((tenths + 5) `div` 10) kMaxDisplayFps -> nearest_rate v frames elapsed.
Proof.
  intros Hf He Ht Hv. unfold nearest_rate, kMaxDisplayFps in *.
  assert (H1 : elapsed * tenths <= frames * 10000000) by (subst; apply Z.mul_div_le; lia).
  assert (H2 : frames * 10000000 < elapsed * (tenths + 1))
    by (subst tenths; pose proof (Z.mul_succ_div_gt (frames * 10000000) elapsed He); lia).
  assert (H0 : 0 <= tenths) by (subst; apply Z.div_pos; lia). clear Ht.
  pose proof (Z.div_mod (tenths + 5) 10 ltac:(lia)) as Hd.
  pose proof (Z.mod_pos_bound (tenths + 5) 10 ltac:(lia)) as Hm.
  set (q := (tenths + 5) `div` 10) in *. split; [lia|].
  assert (Hq : 10 * v <= tenths + 5) by lia.
  split; [nia|]. intros Hlt. assert (v = q) by lia. subst v. nia.
Qed.


Definition sample_state : FpsSampler :=
  rebase FpsSampler_init true 0 (u32 (2 ^ 32 - 10)) 1000000.


(** ** Warm-up and back-off *)

(** At least [k] more readings are needed before a value may be published. *)
Definition silent (k : nat) (s : FpsSampler) : Prop :=
  match k with
  | O => True
  | S O => have_baseline_ s = false \/ warmup_deltas_remaining_ s = 1
  | _ => have_baseline_ s = false /\ warmup_deltas_remaining_ s = 1
  end.

Lemma measure_silent k s counter now :
  silent (S k) s -> (k <= 1)%nat ->
  (measure s counter now).1 = None /\ silent k (measure s counter now).2.
Proof.
  intros Hs Hk. destruct k as [|[|k]]; [| |lia]; cbn [silent] in *; unfold measure.
  - split; [|done]. destruct (have_baseline_ s); cbn [negb]; [|done].
    destruct Hs as [|Hs]; [done|]. rewrite Hs.
    destruct (_ || _); [done|]. by destruct (_ <? _).
  - destruct Hs as [Hb Hw]. rewrite Hb. cbn. split; [done|]. by right.
Qed.

Lemma reset_silent k s : silent k (reset s).
Proof. destruct k as [|[|k]]; cbn; auto. Qed.

Section Lifecycle.
Context {W : Type} `{Platform W}.

Lemma sample_silent k s (w : W) :
  silent (S k) s -> (k <= 1)%nat -> (sample s w).1.1 = None /\ silent k (sample s w).1.2.
Proof.
  intros Hs Hk. unfold sample. destruct (negb (attached s)).
  { split; [done|]. destruct k as [|[|k]]; cbn in *; [done| |lia]. left. by destruct Hs. }
  destruct (process_alive _ _) as [[|] w1]; cbn [negb]; [|split; [done|apply reset_silent]].
  destruct (read_uint _ _ _ _) as [[c|] w2]; [|split; [done|apply reset_silent]].
  destruct (monotonic_us w2) as [now w3]. pose proof (measure_silent k s c now Hs Hk) as Hm.
  by destruct (measure s c now).
Qed.

Lemma attach_success ps5 pid s (w w1 : W) s1 :
  attach ps5 pid s w = (true, s1, w1) -> silent 2 s1 /\ pid_ s1 = pid.
Proof.
  unfold attach. destruct (if ps5 then _ else _) as [now wa]. destruct (_ && _ && _); [done|].
  destruct (find_module _ _ _) as [[info|] wb]; [|done]. destruct (mod_base info =? 0); [done|].
  destruct (resolve_counter_address _ _ _) as [[c|] wc].
  - by intros [= <- <-].
  - by destruct (if ps5 then _ else _) as [later wd].
Qed.

(** After every successful attach the first two readings publish nothing, whatever
    the process, the counter and the clock do in between. *)
Theorem attach_warm_up ps5 pid s (w w1 wa wb : W) s1 :
  attach ps5 pid s w = (true, s1, w1) ->
  (sample s1 wa).1.1 = None /\ (sample (sample s1 wa).1.2 wb).1.1 = None.
Proof.
  intros Ha. apply attach_success in Ha as [Hs _].
  destruct (sample_silent 1 s1 wa Hs) as [H1 H2]; [lia|].
  destruct (sample_silent 0 _ wb H2) as [H3 _]; [lia|]. done.
Qed.

(** A discovery on the console that is not refused does not depend on the past. *)
Lemma attach_fresh `{!PlatformLaws W} pid s (w : W) :
  pid <> discovery_failed_pid_ s \/ discovery_retry_after_us_ s <= (monotonic_us w).1 ->
  (attach true pid s w).1.1 = (attach true pid FpsSampler_init w).1.1 /\
  (attach true pid s w).2 = (attach true pid FpsSampler_init w).2.
Proof.
  intros Hf. pose proof (monotonic_u64 w) as Hm. unfold attach.
  destruct (monotonic_us w) as [now wa]. cbn [fst andb] in *.
  replace ((pid =? _) && (now <? _)) with false at 1 2
    by (symmetry; rewrite andb_false_iff, Z.eqb_neq, Z.ltb_ge; tauto).
  replace ((pid =? discovery_failed_pid_ FpsSampler_init) && _) with false
    by (symmetry; rewrite andb_false_iff, Z.ltb_ge; unfold in_u in Hm; cbn; lia).
  destruct (find_module _ _ _) as [[m|] wb]; [|done]. destruct (mod_base m =? 0); [done|].
  destruct (resolve_counter_address _ _ _) as [[c|] wc]; [done|].
  by destruct (monotonic_us wc).
Qed.

(** On the console a failed discovery at time [t] is not repeated for 10 s: the same
    process is refused from the clock alone, without looking at it, and the refusal
    changes nothing; afterwards, and for any other process at once, an attach does
    exactly what a fresh sampler would. *)
Theorem attach_back_off `{!PlatformLaws W} pid s (w w1 : W) s1 info :
  attach true pid s w = (false, s1, w1) ->
  (find_module pid "libSceVideoOut.sprx" (monotonic_us w).2).1 = Some info ->
  mod_base info <> 0 ->
  pid <> discovery_failed_pid_ s \/ discovery_retry_after_us_ s <= (monotonic_us w).1 ->
  exists t w0, monotonic_us w0 = (t, w1) /\ attached s1 = false /\ forall w2,
    ((monotonic_us w2).1 < u64 (t + kRetryUs) ->
     attach true pid s1 w2 = (false, s1, (monotonic_us w2).2)) /\
    (forall pid', pid' <> pid \/ u64 (t + kRetryUs) <= (monotonic_us w2).1 ->
     (attach true pid' s1 w2).1.1 = (attach true pid' FpsSampler_init w2).1.1 /\
     (attach true pid' s1 w2).2 = (attach true pid' FpsSampler_init w2).2).
Proof.
  intros Ha Hm Hb Hf. unfold attach in Ha.
  destruct (monotonic_us w) as [now wa]. cbn [fst snd andb] in *.
  replace ((pid =? _) && (now <? _)) with false in Ha
    by (symmetry; rewrite andb_false_iff, Z.eqb_neq, Z.ltb_ge; tauto).
  destruct (find_module _ _ _) as [[m|] wb]; cbn [fst] in Hm; [|done]. injection Hm as ->.
  apply Z.eqb_neq in Hb. rewrite Hb in Ha.
  destruct (resolve_counter_address _ _ _) as [[c|] wc]; [done|].
  destruct (monotonic_us wc) as [t wd] eqn:Et. injection Ha as <- <-.
  exists t, wc. split; [done|]. split; [done|]. intros w2. split.
  - intros Hlt. unfold attach. cbn [discovery_failed_pid_ discovery_retry_after_us_].
    destruct (monotonic_us w2) as [t2 w3]. cbn [fst snd] in *. rewrite Z.eqb_refl.
    by replace (t2 <? u64 (t + kRetryUs)) with true by (symmetry; by apply Z.ltb_lt).
  - intros pid' Hd. by apply attach_fresh.
Qed.
End Lifecycle.

(** ** Witnesses *)

(** FW 9.60 with one enabled record whose root is [0x90000000]. *)
Definition sim_table : list Z :=
  le_encode 8 1 ++ le_encode 8 0x88000000 ++ repeat 0 (kTableSize - 16).
Definition sim960 : SimWorld := {|
  sim_now := 5000000; sim_sdk := 0x09600004; sim_game := Some 7; sim_base := 0x80000000;
  sim_mem t addr size :=
    if addr =? 0x80000000 + kVideoOutProbeTableOffset then Some sim_table
    else if addr =? 0x88000000 then Some (le_encode 8 0x90000000)
    else if addr =? 0x90000000 + kVideoOutCounterOffset then Some (le_encode 4 (t `div` 16000))
    else None |}.
(** The same console on another firmware: the table is not used and the scan finds nothing. *)
Definition sim_other : SimWorld := {|
  sim_now := 5000000; sim_sdk := 0x05500000; sim_game := Some 7; sim_base := 0x80000000;
  sim_mem := sim_mem sim960 |}.

Definition attached_state : FpsSampler := (attach true 7 FpsSampler_init sim960).1.2.
Definition failed_state : FpsSampler := (attach true 7 FpsSampler_init sim_other).1.2.
Definition failed_world : SimWorld := (attach true 7 FpsSampler_init sim_other).2.

(** A successful (failed) attach, by its parts: only the outcome is evaluated. *)
Lemma parts {A B C} (x : A * B * C) a : x.1.1 = a -> x = (a, x.1.2, x.2).
Proof. destruct x as [[a' b] c]. simpl. by intros ->. Qed.

Lemma attach_warm_up_witness :
  (sample attached_state sim960).1.1 = None /\
  (sample (sample attached_state sim960).1.2 (sim_advance 500000 sim960)).1.1 = None.
Proof.
  apply (attach_warm_up true 7 FpsSampler_init sim960 (attach true 7 FpsSampler_init sim960).2).
  apply parts. vm_compute. reflexivity.
Defined.

Lemma attach_back_off_witness :
  exists t w0, monotonic_us w0 = (t, failed_world) /\ attached failed_state = false.
Proof.
  destruct (attach_back_off 7 FpsSampler_init sim_other failed_world failed_state
              {| mod_base := 0x80000000; mod_name := "libSceVideoOut.sprx" |})
    as (t & w0 & H1 & H2 & _).
  - apply parts. vm_compute. reflexivity.
  - reflexivity.
  - vm_compute. discriminate.
  - left. vm_compute. discriminate.
  - exists t, w0. split; assumption.
Defined.

