(* ===== verification/DceCounter.v ===== *)
(** The DCE flip-counter logic: [include/common_fps/fps_rate.hpp],
    [include/common_fps/dce_counter_sampler.hpp] and [src/core/dce_counter_sampler.cpp].
    Rates are computed in binary64 as the code does. *)
From S2P Require Import Prelude Float Types.

(** ** validated_fps *)

Definition kFpsLow : f64 := f64_of_Z 1.
Definition kFpsHigh : f64 := f64_div (f64_of_Z kMaxTenthsFps) (f64_of_Z 10).
Definition kHalf : f64 := f64_div (f64_of_Z 1) (f64_of_Z 2).

Definition validated_fps (fps : f64) : option Z :=
  if negb (is_finite fps) || f_lt fps kFpsLow || f_lt kFpsHigh fps then None
  else match f_trunc (f64_add fps kHalf) with
       | Some n => Some (Z.min n kMaxDisplayFps)
       | None => None
       end.

Definition kWords : nat := 12.

Record DceCounterSampler := {
  have_baseline_ : bool;
  warmup_deltas_remaining_ : Z;
  previous_words_ : list Z;
  previous_time_us_ : Z;
  candidate_streak_ : list Z;
  candidate_last_fps_ : list Z;
  selected_word_ : Z;
  selected_invalid_ : Z
}.

Definition DceCounterSampler_init : DceCounterSampler := {|
  have_baseline_ := false; warmup_deltas_remaining_ := kWarmupDeltasToDiscard;
  previous_words_ := repeat 0 kWords; previous_time_us_ := 0;
  candidate_streak_ := repeat 0 kWords; candidate_last_fps_ := repeat 0 kWords;
  selected_word_ := -1; selected_invalid_ := 0 |}.

Definition reset (s : DceCounterSampler) : DceCounterSampler := {|
  have_baseline_ := false; warmup_deltas_remaining_ := kWarmupDeltasToDiscard;
  previous_words_ := repeat 0 kWords; previous_time_us_ := 0;
  candidate_streak_ := repeat 0 kWords; candidate_last_fps_ := repeat 0 kWords;
  selected_word_ := -1; selected_invalid_ := 0 |}.

(** The reading becomes the baseline of the next one. *)
Definition rebase (s : DceCounterSampler) (warmup : Z) (words : list Z) (now_us : Z)
    : DceCounterSampler := {|
  have_baseline_ := true; warmup_deltas_remaining_ := warmup;
  previous_words_ := words; previous_time_us_ := now_us;
  candidate_streak_ := candidate_streak_ s; candidate_last_fps_ := candidate_last_fps_ s;
  selected_word_ := selected_word_ s; selected_invalid_ := selected_invalid_ s |}.

Definition with_selection (s : DceCounterSampler) (word invalid : Z) : DceCounterSampler := {|
  have_baseline_ := have_baseline_ s; warmup_deltas_remaining_ := warmup_deltas_remaining_ s;
  previous_words_ := previous_words_ s; previous_time_us_ := previous_time_us_ s;
  candidate_streak_ := candidate_streak_ s; candidate_last_fps_ := candidate_last_fps_ s;
  selected_word_ := word; selected_invalid_ := invalid |}.

Definition with_candidates (s : DceCounterSampler) (streak last : list Z) : DceCounterSampler := {|
  have_baseline_ := have_baseline_ s; warmup_deltas_remaining_ := warmup_deltas_remaining_ s;
  previous_words_ := previous_words_ s; previous_time_us_ := previous_time_us_ s;
  candidate_streak_ := streak; candidate_last_fps_ := last;
  selected_word_ := selected_word_ s; selected_invalid_ := selected_invalid_ s |}.

Definition word (l : list Z) (i : nat) : Z := nth i l 0.

(** The lambda [fps_for_word]: 0 when the word gives no valid rate. *)
Definition fps_for_word (previous words : list Z) (elapsed_us : Z) (index : nat) : Z :=
  if word words index <? word previous index then 0
  else
    let delta := word words index - word previous index in
    let fps := f64_div (f64_mul (f64_of_Z delta) (f64_of_Z 1000000)) (f64_of_Z elapsed_us) in
    default 0 (validated_fps fps).

(** State of the discovery loop. *)
Record Discovery := {
  d_streak : list Z; d_last : list Z;
  best_streak : Z; best_word : Z; best_fps : Z
}.

Definition discovery_step (rate : nat -> Z) (d : Discovery) (i : nat) : Discovery :=
  let fps := rate i in
  if fps =? 0 then
    {| d_streak := <[i := 0]> (d_streak d); d_last := <[i := 0]> (d_last d);
       best_streak := best_streak d; best_word := best_word d; best_fps := best_fps d |}
  else
    let previous := word (d_last d) i in
    let difference := if fps <? previous then previous - fps else fps - previous in
    let streak := if negb (previous =? 0) && (difference <=? 12)
                  then u32 (word (d_streak d) i + 1) else 1 in
    let better := (2 <=? streak) && (best_streak d <? streak) in
    {| d_streak := <[i := streak]> (d_streak d); d_last := <[i := fps]> (d_last d);
       best_streak := if better then streak else best_streak d;
       best_word := if better then Z.of_nat i else best_word d;
       best_fps := if better then fps else best_fps d |}.

Definition discover (rate : nat -> Z) (s : DceCounterSampler) : Discovery :=
  fold_left (discovery_step rate) (seq 0 kWords)
    {| d_streak := candidate_streak_ s; d_last := candidate_last_fps_ s;
       best_streak := 0; best_word := -1; best_fps := 0 |}.

(** The fixed word, then the selected one; a selection is dropped at its third miss. *)
Definition choose_known (rate : nat -> Z) (s : DceCounterSampler) : Z * DceCounterSampler :=
  let fixed_fps := rate 1%nat in
  if negb (fixed_fps =? 0) then (fixed_fps, with_selection s 1 0)
  else if (0 <=? selected_word_ s) && (selected_word_ s <? Z.of_nat kWords) then
    let chosen := rate (Z.to_nat (selected_word_ s)) in
    if chosen =? 0 then
      let invalid := u32 (selected_invalid_ s + 1) in
      if 3 <=? invalid then (0, with_selection s (-1) 0)
      else (0, with_selection s (selected_word_ s) invalid)
    else (chosen, with_selection s (selected_word_ s) 0)
  else (0, s).

(** Discovery among all words when nothing is selected. *)
Definition choose (rate : nat -> Z) (s : DceCounterSampler) : Z * DceCounterSampler :=
  let '(chosen, s1) := choose_known rate s in
  if (chosen =? 0) && (selected_word_ s1 <? 0) then
    let d := discover rate s1 in
    let s2 := with_candidates s1 (d_streak d) (d_last d) in
    if 0 <=? best_word d then (best_fps d, with_selection s2 (best_word d) (selected_invalid_ s2))
    else (chosen, s2)
  else (chosen, s1).

Definition sample (s : DceCounterSampler) (words : list Z) (now_us : Z)
    : option Z * DceCounterSampler :=
  if negb (have_baseline_ s) then (None, rebase s (warmup_deltas_remaining_ s) words now_us)
  else if (now_us <=? previous_time_us_ s) || (kMaxFpsWindowUs <? now_us - previous_time_us_ s) then
    (None, rebase (reset s) kWarmupDeltasToDiscard words now_us)
  else
    let elapsed_us := now_us - previous_time_us_ s in
    if elapsed_us <? kMinFpsWindowUs then (None, s)
    else if negb (warmup_deltas_remaining_ s =? 0) then
      (None, rebase s (u32 (warmup_deltas_remaining_ s - 1)) words now_us)
    else
      let '(chosen_fps, s1) := choose (fps_for_word (previous_words_ s) words elapsed_us) s in
      let s2 := rebase s1 (warmup_deltas_remaining_ s1) words now_us in
      if chosen_fps =? 0 then (None, s2) else (Some chosen_fps, s2).

(** ** Well-formed states *)

Record wf_dce (s : DceCounterSampler) : Prop := {
  wd_selected : -1 <= selected_word_ s < Z.of_nat kWords;
  wd_invalid : 0 <= selected_invalid_ s < 3;
  wd_streak : length (candidate_streak_ s) = kWords;
  wd_last : length (candidate_last_fps_ s) = kWords
}.

Lemma wf_dce_init : wf_dce DceCounterSampler_init.
Proof. by split; vm_compute. Qed.

(** ** The rate *)

(** The sum of two positive values is not negative. *)
Definition not_negative (x : spec_float) : bool :=
  match x with S754_finite true _ _ | S754_infinity true => false | _ => true end.

Lemma binary_round_not_negative prec emax m e :
  not_negative (binary_round prec emax false m e) = true.
Proof.
  unfold binary_round, binary_round_aux. destruct (shl_align _ _ _) as [mz ez].
  destruct (shr_fexp _ _ _ _ _) as [r1 e1]. destruct (shr_fexp _ _ _ _ _) as [r2 e2].
  destruct (shr_m r2); [done| |done]. by destruct (_ <=? _).
Qed.

Lemma f64_add_half_not_negative m e :
  not_negative (f64_add (S754_finite false m e) kHalf) = true.
Proof.
  change kHalf with (S754_finite false 4503599627370496 (-53)).
  unfold f64_add, SFadd, binary_normalize. cbn [cond_Zopp].
  destruct (Z.pos _ + Z.pos _) eqn:E; [done|apply binary_round_not_negative|]. lia.
Qed.

Lemma f_trunc_nonneg x n : not_negative x = true -> f_trunc x = Some n -> 0 <= n.
Proof.
  destruct x as [s|s| |[] m e]; try done; cbn [f_trunc]; [by intros _ [= <-]|].
  intros _ [= <-]. destruct e; [lia|lia|]. apply Z.div_pos; lia.
Qed.

Lemma validated_fps_range fps v : validated_fps fps = Some v -> 0 <= v <= kMaxDisplayFps.
Proof.
  unfold validated_fps. destruct (_ || _) eqn:E; [done|]. breflect. destruct E as [[E1 E2] _].
  destruct (f_trunc _) as [n|] eqn:Et; [|done]. intros [= <-].
  assert (0 <= n); [|unfold kMaxDisplayFps; lia]. eapply f_trunc_nonneg; [|exact Et].
  destruct fps as [s|s| |[] m e]; [by destruct s|done|done|done|].
  apply f64_add_half_not_negative.
Qed.

Lemma fps_for_word_range previous words elapsed i :
  0 <= fps_for_word previous words elapsed i <= kMaxDisplayFps.
Proof.
  unfold fps_for_word. destruct (_ <? _); [done|]. cbv zeta.
  destruct (validated_fps _) as [v|] eqn:E; [|done]. by eapply validated_fps_range.
Qed.

(** ** Discovery *)

(** The best candidate so far has a valid rate within 12 of its previous one. *)
Definition confirmed (rate : nat -> Z) (last : list Z) (w : nat) : Prop :=
  rate w <> 0 /\ word last w <> 0 /\ Z.abs (rate w - word last w) <= 12.

Record disc_inv (rate : nat -> Z) (last0 : list Z) (done : nat) (d : Discovery) : Prop := {
  di_streak : length (d_streak d) = kWords;
  di_last : length (d_last d) = kWords;
  di_rest : forall i, (done <= i)%nat -> word (d_last d) i = word last0 i;
  di_best : best_word d = -1 \/
    exists w, (w < done)%nat /\ best_word d = Z.of_nat w /\ best_fps d = rate w /\
              confirmed rate last0 w
}.

Lemma word_insert_ne (l : list Z) i j v : i <> j -> word (<[i := v]> l) j = word l j.
Proof.
  intros Hne. unfold word. rewrite !nth_lookup. by rewrite list_lookup_insert_ne.
Qed.

Lemma discovery_step_inv rate last0 n d :
  disc_inv rate last0 n d -> disc_inv rate last0 (S n) (discovery_step rate d n).
Proof.
  intros [Hs Hl Hr Hb]. unfold discovery_step.
  assert (Hb' : best_word d = -1 \/ exists w, (w < S n)%nat /\ best_word d = Z.of_nat w /\
                best_fps d = rate w /\ confirmed rate last0 w).
  { destruct Hb as [Hb|(w & ? & ?)]; [by left|right]. exists w. split; [lia|done]. }
  destruct (rate n =? 0) eqn:E0.
  { split; cbn [d_streak d_last best_word best_fps]; rewrite ?length_insert; try done.
    intros i Hi. rewrite word_insert_ne by lia. apply Hr. lia. }
  cbv zeta. rewrite (Hr n (le_n n)).
  set (diff := if rate n <? word last0 n then _ else _).
  set (streak := if _ && _ then _ else 1). split; cbn [d_streak d_last best_word best_fps].
  - by rewrite length_insert.
  - by rewrite length_insert.
  - intros i Hi. rewrite word_insert_ne by lia. apply Hr. lia.
  - destruct ((2 <=? streak) && _) eqn:Eb; [|done]. right. exists n.
    split; [lia|]. split; [done|]. split; [done|].
    apply andb_true_iff in Eb as [Eb _]. apply Z.leb_le in Eb.
    subst streak. destruct (negb _ && _) eqn:Ec; [|lia].
    apply andb_true_iff in Ec as [Ec1 Ec2].
    apply negb_true_iff, Z.eqb_neq in Ec1. apply Z.leb_le in Ec2. apply Z.eqb_neq in E0.
    split; [done|]. split; [done|]. subst diff. destruct (rate n <? word last0 n) eqn:El; breflect; lia.
Qed.

Lemma discover_inv rate s :
  wf_dce s -> disc_inv rate (candidate_last_fps_ s) kWords (discover rate s).
Proof.
  intros [_ _ Hs Hl]. unfold discover.
  assert (forall n d, disc_inv rate (candidate_last_fps_ s) 0 d -> disc_inv rate (candidate_last_fps_ s) n
            (fold_left (discovery_step rate) (seq 0 n) d)) as Hn.
  { induction n as [|n IH]; intros d Hd; [done|].
    rewrite seq_S, fold_left_app. apply discovery_step_inv. by apply IH. }
  apply Hn. split; cbn; try done. by left.
Qed.

(** ** The choice *)

(** What a published rate rests on: the fixed word, a word already selected, or a word
    that discovery has confirmed by two rates in a row. *)
Definition choice_ok (rate : nat -> Z) (s : DceCounterSampler) (v : Z) (s' : DceCounterSampler)
    : Prop :=
  exists w, (w < kWords)%nat /\ selected_word_ s' = Z.of_nat w /\ rate w = v /\
    (rate 1%nat <> 0 -> w = 1%nat) /\
    (w = 1%nat \/ selected_word_ s = Z.of_nat w \/ confirmed rate (candidate_last_fps_ s) w).

Lemma choose_known_spec rate s :
  wf_dce s -> let r := choose_known rate s in
  wf_dce r.2 /\ candidate_last_fps_ r.2 = candidate_last_fps_ s /\
  (r.1 <> 0 -> choice_ok rate s r.1 r.2) /\
  (r.1 = 0 -> rate 1%nat = 0) /\
  (selected_word_ r.2 = -1 \/ selected_word_ r.2 = 1 \/ selected_word_ r.2 = selected_word_ s).
Proof.
  intros [Hsel Hinv Hs Hl]. unfold choose_known, kWords in *. cbv zeta.
  destruct (rate 1%nat =? 0) eqn:E1; cbn [negb].
  2: { apply Z.eqb_neq in E1. cbn. split; [by split; cbn; unfold kWords; lia|]. split; [done|].
       split; [|tauto]. intros _. exists 1%nat. unfold kWords. split_and!; try done; [lia|by left]. }
  apply Z.eqb_eq in E1. destruct (_ && _) eqn:E2.
  2: { cbn. split_and!; [by split|done|by intros []|done|auto]. }
  breflect. destruct (rate (Z.to_nat (selected_word_ s)) =? 0) eqn:E3.
  - rewrite wrap_small by (unfold in_u; lia). destruct (3 <=? _) eqn:E4; breflect; cbn.
    + split_and!; [by split; cbn; unfold kWords; lia|done|by intros []|done|auto].
    + split_and!; [by split; cbn; unfold kWords; lia|done|by intros []|done|auto].
  - apply Z.eqb_neq in E3. cbn. split; [by split; cbn; unfold kWords; lia|]. split; [done|].
    split; [|auto]. intros _. exists (Z.to_nat (selected_word_ s)). unfold kWords, choice_ok.
    cbn [selected_word_ with_selection]. split_and!; [lia|lia|done|by intros []|right; left; lia].
Qed.

Lemma choose_spec rate s :
  wf_dce s -> let r := choose rate s in
  wf_dce r.2 /\ (r.1 <> 0 -> choice_ok rate s r.1 r.2).
Proof.
  intros Hw. unfold choose. pose proof (choose_known_spec rate s Hw) as Hk. cbv zeta in *.
  destruct (choose_known rate s) as [chosen s1]. cbn [fst snd] in Hk.
  destruct Hk as (Hw1 & Hlast & Hok & H1 & _).
  destruct (_ && _) eqn:E; [|done]. apply andb_true_iff in E as [E1 E2]. breflect.
  pose proof (discover_inv rate s1 Hw1) as [Ds Dl _ Db].
  destruct Hw1 as [Hsel Hinv _ _]. set (d := discover rate s1) in *. clearbody d.
  destruct (0 <=? best_word d) eqn:Eb; breflect; cbn [fst snd].
  - destruct Db as [Db|(w & Hlt & Hbw & Hbf & Hc)]; [lia|]. unfold kWords in *.
    split; [split; cbn; unfold kWords; try done; lia|]. intros _. exists w.
    split; [done|]. split; [done|]. split; [done|]. rewrite <- Hlast.
    split; [|by right; right]. intros Hr. by apply H1 in E1.
  - split; [by split; cbn|]. done.
Qed.

Lemma sample_wf s words now : wf_dce s -> wf_dce (sample s words now).2.
Proof.
  intros Hw. unfold sample. destruct (negb _); [by destruct Hw; split|].
  destruct (_ || _); [by split; vm_compute|]. destruct (_ <? _); [done|].
  destruct (negb _); [by destruct Hw; split|].
  pose proof (choose_spec (fps_for_word (previous_words_ s) words (now - previous_time_us_ s)) s Hw)
    as [Hc _]. destruct (choose _ s) as [c s1]. destruct Hc. by destruct (c =? 0); split.
Qed.

(** The states that readings and resets reach. *)
Inductive dce_reachable : DceCounterSampler -> Prop :=
| dr_init : dce_reachable DceCounterSampler_init
| dr_sample s words now : dce_reachable s -> dce_reachable (sample s words now).2
| dr_reset s : dce_reachable s -> dce_reachable (reset s).

Lemma dce_reachable_wf s : dce_reachable s -> wf_dce s.
Proof. induction 1; [apply wf_dce_init|by apply sample_wf|apply wf_dce_init]. Qed.

Lemma sample_sound s words now v s' :
  dce_reachable s -> sample s words now = (Some v, s') ->
  let elapsed := now - previous_time_us_ s in
  1 <= v <= kMaxDisplayFps /\ have_baseline_ s = true /\ warmup_deltas_remaining_ s = 0 /\
  kMinFpsWindowUs <= elapsed <= kMaxFpsWindowUs /\
  choice_ok (fps_for_word (previous_words_ s) words elapsed) s v s' /\
  previous_words_ s' = words /\ previous_time_us_ s' = now.
Proof.
  intros Hr. apply dce_reachable_wf in Hr as Hw. unfold sample.
  destruct (have_baseline_ s) eqn:Eb; cbn [negb]; [|done].
  destruct (_ || _) eqn:Ew; [done|]. destruct (_ <? kMinFpsWindowUs) eqn:Em; [done|].
  destruct (negb _) eqn:Eu; [done|]. breflect.
  set (rate := fps_for_word _ _ _). pose proof (choose_spec rate s Hw) as [_ Hc].
  assert (forall w, 0 <= rate w <= kMaxDisplayFps) as Hrate by (intros; apply fps_for_word_range).
  clearbody rate.
  destruct (choose rate s) as [c s1]. cbn [fst snd] in Hc.
  destruct (c =? 0) eqn:E0; [done|]. apply Z.eqb_neq in E0. intros [= -> <-]. specialize (Hc E0).
  destruct Hc as (w & Hw1 & Hw2 & Hw3 & Hw4).
  specialize (Hrate w). split; [lia|]. split; [done|]. split; [done|]. split; [lia|].
  split; [by exists w|done].
Qed.

(** C37: a published DCE rate is between 1 and 120, was measured over 0.2 s to 3 s after
    the baseline and the warm-up, and is the validated rate of the selected counter word:
    the fixed word whenever that one gives a rate, else the word selected before, else a
    word whose last two valid rates differ by at most 12. *)
Theorem dce_sample_sound s words now v s' :
  dce_reachable s -> sample s words now = (Some v, s') ->
  let elapsed := now - previous_time_us_ s in
  1 <= v <= kMaxDisplayFps /\ have_baseline_ s = true /\ warmup_deltas_remaining_ s = 0 /\
  kMinFpsWindowUs <= elapsed <= kMaxFpsWindowUs /\
  choice_ok (fps_for_word (previous_words_ s) words elapsed) s v s' /\
  previous_words_ s' = words /\ previous_time_us_ s' = now.
Proof. apply sample_sound. Qed.

(** Two baseline words, the warm-up, then 30 flips in 500 ms. *)
Definition flip_words (n : Z) : list Z := [7; n; 0; 0; 0; 0; 0; 0; 0; 0; 0; 0].
Definition flip_state : DceCounterSampler :=
  (sample (sample DceCounterSampler_init (flip_words 1000) 1000000).2 (flip_words 1030) 1500000).2.

Lemma flip_state_reachable : dce_reachable flip_state.
Proof. repeat constructor. Qed.

Lemma dce_sample_sound_witness : 1 <= 60 <= kMaxDisplayFps.
Proof.
  apply (dce_sample_sound flip_state (flip_words 1060) 2000000 60
           (sample flip_state (flip_words 1060) 2000000).2).
  - apply flip_state_reachable.
  - vm_compute. reflexivity.
Defined.
