(* ===== verification/DceAdapter.v ===== *)
(** The console adapter of the DCE counter: [src/ps5/dce_fps_sampler.hpp] and
    [src/ps5/dce_fps_sampler.cpp], as a program over the system calls it makes.
    Log lines are left out. *)
From S2P Require Import Prelude Effects Float Types DceCounter.

Inductive OpenTarget := SharedFpsSample | DceDeviceRW | DceDeviceRO.

(** The system calls of the adapter with their answers. *)
Inductive dce_call :=
| DOpen (t : OpenTarget)                  (** [open]: a descriptor or a negative value *)
| DRead (fd : Z)                          (** [read] of 128 bytes: the bytes, [None] for an error *)
| DClose (fd : Z)
| DIoctl (fd command selector mask : Z)   (** [ioctl]: the result and the output block after it *)
| DGetAuth                                (** [kernel_get_ucred_authid(getpid())] *)
| DSetAuth (authid : Z)                   (** [kernel_set_ucred_authid(getpid(), _)] *)
| DMonotonic.

Definition dce_ret (c : dce_call) : Type :=
  match c with
  | DOpen _ => Z
  | DRead _ => option (list Z)
  | DClose _ => unit
  | DIoctl _ _ _ _ => Z * list Z
  | DGetAuth => Z
  | DSetAuth _ => Z
  | DMonotonic => Z
  end.

Abbreviation dprog := (prog dce_ret).

Definition kSharedFpsMagic : Z := 0x4f465053.
Definition kPtraceAuthId : Z := 0x4800000000010003.
Definition kDceFlipIoctl : Z := 0x80308217.
Definition kDceFlipIoctlSignExtended : Z := 0xffffffff80308217.
Definition kDceSelector : Z := 0x10000000A.
Definition kDceMask : Z := 0x8000000000.

Inductive Backend := BNone | BHenShared | BDceFixed | BDceAdaptive.

Record DceFpsSampler := {
  fd_ : Z;
  counter_sampler_ : DceCounterSampler;
  consecutive_failures_ : Z;
  backend_logged_ : bool;
  backend_name_ : Backend
}.

Definition DceFpsSampler_init : DceFpsSampler := {|
  fd_ := -1; counter_sampler_ := DceCounterSampler_init; consecutive_failures_ := 0;
  backend_logged_ := false; backend_name_ := BNone |}.

Definition with_fd (s : DceFpsSampler) (fd failures : Z) : DceFpsSampler := {|
  fd_ := fd; counter_sampler_ := counter_sampler_ s; consecutive_failures_ := failures;
  backend_logged_ := backend_logged_ s; backend_name_ := backend_name_ s |}.

Definition with_backend (s : DceFpsSampler) (c : DceCounterSampler) (logged : bool) (b : Backend)
    : DceFpsSampler := {|
  fd_ := fd_ s; counter_sampler_ := c; consecutive_failures_ := consecutive_failures_ s;
  backend_logged_ := logged; backend_name_ := b |}.

Definition reset_adapter (s : DceFpsSampler) : DceFpsSampler :=
  with_backend s (reset (counter_sampler_ s)) false BNone.

Section Programs.
Local Open Scope prog_scope.

Definition dcall (c : dce_call) : dprog (dce_ret c) := call c.

(** ready, original, changed *)
Definition begin_auth_window : dprog (bool * Z * bool) :=
  let* original := dcall DGetAuth in
  if original =? kPtraceAuthId then Ret (true, original, false)
  else
    let* rc := dcall (DSetAuth kPtraceAuthId) in
    if negb (rc =? 0) then Ret (false, original, false) else Ret (true, original, true).

Definition end_auth_window (original : Z) (changed : bool) : dprog bool :=
  if negb changed then Ret true
  else let* rc := dcall (DSetAuth original) in Ret (rc =? 0).

(** The first 128 bytes of the shared sample, zero-filled past what was read. *)
Definition shared_rate (got : list Z) : option Z :=
  if (length got <? 20)%nat then None
  else
    let magic := field 0 4 got in
    let fps := f32_of_bits (field 16 4 got) in
    let valid := negb (field 12 1 got =? 0) in
    if negb (magic =? kSharedFpsMagic) || negb valid then None
    else match validated_fps (f64_of_f32 fps) with
         | Some rounded => if rounded =? 0 then None else Some rounded
         | None => None
         end.

Definition sample_shared_hen (s : DceFpsSampler) : dprog (option Z * DceFpsSampler) :=
  let* fd := dcall (DOpen SharedFpsSample) in
  if fd <? 0 then Ret (None, s)
  else
    let* got := dcall (DRead fd) in
    dcall (DClose fd) ;;;
    match got with
    | None => Ret (None, s)
    | Some bytes =>
        match shared_rate bytes with
        | Some rounded => Ret (Some rounded, with_backend s (counter_sampler_ s) true BHenShared)
        | None => Ret (None, s)
        end
    end.

Definition ensure_open (s : DceFpsSampler) : dprog (bool * DceFpsSampler) :=
  if 0 <=? fd_ s then Ret (true, s)
  else
    let* fd := dcall (DOpen DceDeviceRW) in
    if 0 <=? fd then Ret (true, with_fd s fd 0)
    else
      let* (auth_ready, original_auth, changed) := begin_auth_window in
      let* fd2 := (if auth_ready : bool then
                     let* a := dcall (DOpen DceDeviceRW) in
                     if a <? 0 then dcall (DOpen DceDeviceRO) else Ret a
                   else Ret fd) in
      let* auth_restored := (if auth_ready : bool then end_auth_window original_auth changed
                             else Ret false) in
      if fd2 <? 0 then Ret (false, with_fd s fd2 (u32 (consecutive_failures_ s + 1)))
      else if negb auth_restored then
        dcall (DClose fd2) ;;; Ret (false, with_fd s (-1) (consecutive_failures_ s))
      else Ret (true, with_fd s fd2 0).

Definition dce_ioctl (fd command : Z) : dprog (Z * list Z) :=
  dcall (DIoctl fd command kDceSelector kDceMask).

(** Both encodings of the command, the second only when the first fails. *)
Definition ioctl_pair (fd : Z) : dprog (Z * list Z) :=
  let* r := dce_ioctl fd kDceFlipIoctl in
  if r.1 <? 0 then dce_ioctl fd kDceFlipIoctlSignExtended else Ret r.

Definition words_of (output : list Z) : list Z :=
  map (fun i => field (8 * i) 8 output) (seq 0 kWords).

Definition query_dce (s : DceFpsSampler) : dprog (option (list Z) * DceFpsSampler) :=
  let* (opened, s1) := ensure_open s in
  if negb opened then Ret (None, s1)
  else
    let* first := ioctl_pair (fd_ s1) in
    let* (final, auth_restored) :=
      (if first.1 <? 0 then
         let* (auth_ready, original_auth, changed) := begin_auth_window in
         if auth_ready : bool then
           let* r := ioctl_pair (fd_ s1) in
           let* restored := end_auth_window original_auth changed in
           Ret (r, restored)
         else Ret (first, true)
       else Ret (first, true)) in
    if negb (final.1 =? 0) || negb auth_restored then
      let failures := u32 (consecutive_failures_ s1 + 1) in
      if 8 <=? failures then
        dcall (DClose (fd_ s1)) ;;; Ret (None, reset_adapter (with_fd s1 (-1) failures))
      else Ret (None, with_fd s1 (fd_ s1) failures)
    else Ret (Some (words_of final.2), with_fd s1 (fd_ s1) 0).

Definition sample_adapter (s : DceFpsSampler) : dprog (option Z * DceFpsSampler) :=
  let* (shared, s1) := sample_shared_hen s in
  match shared with
  | Some v => Ret (Some v, s1)
  | None =>
      let* (query, s2) := query_dce s1 in
      match query with
      | None => Ret (None, s2)
      | Some words =>
          let* now := dcall DMonotonic in
          let '(fps, c) := sample (counter_sampler_ s2) words now in
          match fps with
          | None => Ret (None, with_backend s2 c (backend_logged_ s2) (backend_name_ s2))
          | Some v =>
              Ret (Some v, with_backend s2 c true
                             (if selected_word_ c =? 1 then BDceFixed else BDceAdaptive))
          end
      end
  end.

(** The destructor. *)
Definition destroy (s : DceFpsSampler) : dprog unit :=
  if 0 <=? fd_ s then dcall (DClose (fd_ s)) else Ret tt.
End Programs.

(** ** The resource monitor

    Open descriptors, and the authority to give back while it is raised.  The monitor
    rejects a read, an ioctl or a close on a descriptor that is not open, and any change
    of authority other than raising to the ptrace identity after reading the current one
    and giving exactly that one back. *)
Record DceMonitor := { m_fds : list Z; m_last_auth : option Z; m_raised : option Z }.

Fixpoint remove_one (x : Z) (l : list Z) : list Z :=
  match l with
  | [] => []
  | y :: l' => if y =? x then l' else y :: remove_one x l'
  end.

Definition dce_step (m : DceMonitor) (e : event dce_ret) : option DceMonitor :=
  match e with
  | Ev (DOpen _) r =>
      Some (if r <? 0 then m else {| m_fds := r :: m_fds m; m_last_auth := m_last_auth m;
                                     m_raised := m_raised m |})
  | Ev (DRead fd) _ | Ev (DIoctl fd _ _ _) _ =>
      if bool_decide (fd ∈ m_fds m) then Some m else None
  | Ev (DClose fd) _ =>
      if bool_decide (fd ∈ m_fds m)
      then Some {| m_fds := remove_one fd (m_fds m); m_last_auth := m_last_auth m;
                   m_raised := m_raised m |}
      else None
  | Ev DGetAuth r => Some {| m_fds := m_fds m; m_last_auth := Some r; m_raised := m_raised m |}
  | Ev (DSetAuth v) rc =>
      match m_raised m with
      | None =>
          match m_last_auth m with
          | Some o => if (v =? kPtraceAuthId) && negb (o =? kPtraceAuthId) then
                        Some (if rc =? 0 then {| m_fds := m_fds m; m_last_auth := None;
                                                 m_raised := Some o |} else m)
                      else None
          | None => None
          end
      | Some o => if v =? o then
                    Some (if rc =? 0 then {| m_fds := m_fds m; m_last_auth := None;
                                             m_raised := None |} else m)
                  else None
      end
  | Ev DMonotonic _ => Some m
  end.

(** The descriptors the sampler holds. *)
Definition held (s : DceFpsSampler) : list Z := if 0 <=? fd_ s then [fd_ s] else [].

Definition adapter_inv (s : DceFpsSampler) (m : DceMonitor) : Prop :=
  m_fds m = held s /\ dce_reachable (counter_sampler_ s).

Abbreviation dwp := (wp dce_step).

Lemma begin_auth_wp m Q :
  m_raised m = None ->
  (forall original m', m_fds m' = m_fds m -> m_raised m' = None -> Q (true, original, false) m') ->
  (forall original m', m_fds m' = m_fds m -> m_raised m' = Some original -> Q (true, original, true) m') ->
  (forall original m', m_fds m' = m_fds m -> m_raised m' = None -> Q (false, original, false) m') ->
  dwp begin_auth_window m Q.
Proof.
  intros Hr Q1 Q2 Q3. unfold begin_auth_window. intros original. cbn [dce_step wp bindp call dcall].
  destruct (original =? kPtraceAuthId) eqn:E; [by apply Q1|].
  intros rc. cbn. rewrite Hr, E. cbn. destruct (rc =? 0); cbn; [by apply Q2|by apply Q3].
Qed.

Lemma end_auth_wp original changed m Q :
  (if changed : bool then m_raised m = Some original else m_raised m = None) ->
  (forall m', m_fds m' = m_fds m -> m_raised m' = None -> Q true m') ->
  (forall m', m_fds m' = m_fds m -> Q false m') ->
  dwp (end_auth_window original changed) m Q.
Proof.
  intros Hr Q1 Q2. unfold end_auth_window. destruct changed; cbn [negb]; [|by apply Q1].
  intros rc. cbn. rewrite Hr, Z.eqb_refl. destruct (rc =? 0); [by apply Q1|by apply Q2].
Qed.

(** What every piece establishes: the invariant, the authority, the range of a result. *)
Definition good (s : DceFpsSampler) (m : DceMonitor) : Prop :=
  adapter_inv s m /\ m_raised m = None.

Lemma remove_one_head x l : remove_one x (x :: l) = l.
Proof. simpl. by rewrite Z.eqb_refl. Qed.

Lemma shared_rate_range got v : shared_rate got = Some v -> 1 <= v <= kMaxDisplayFps.
Proof.
  unfold shared_rate. destruct (_ <? _)%nat; [done|]. destruct (_ || _); [done|].
  destruct (validated_fps _) as [r|] eqn:E; [|done]. apply validated_fps_range in E.
  destruct (r =? 0) eqn:E0; [done|]. intros [= <-]. breflect. lia.
Qed.

Lemma sample_shared_hen_wp s m :
  good s m ->
  dwp (sample_shared_hen s) m (fun r m' =>
    good r.2 m' /\ match r.1 with Some v => 1 <= v <= kMaxDisplayFps | None => True end).
Proof.
  intros [[Hf Hd] Hr]. unfold sample_shared_hen. intros fd. cbn [dce_step].
  cbn [bindp dcall call wp]. destruct (fd <? 0) eqn:E; [by cbn|].
  intros got. cbn [dce_step m_fds]. rewrite bool_decide_eq_true_2 by (rewrite elem_of_cons; by left).
  cbn [bindp dcall call wp]. intros []. cbn [dce_step m_fds].
  rewrite bool_decide_eq_true_2 by (rewrite elem_of_cons; by left). rewrite remove_one_head.
  assert (good s {| m_fds := m_fds m; m_last_auth := m_last_auth m; m_raised := m_raised m |})
    as Hg by done.
  destruct got as [bytes|]; [|done]. destruct (shared_rate bytes) eqn:Es; [|done].
  cbn [wp fst snd]. split; [done|]. by eapply shared_rate_range.
Qed.

Definition fds_of (fd : Z) : list Z := if 0 <=? fd then [fd] else [].

Lemma open_wp t m Q :
  m_fds m = [] ->
  (forall fd m', m_fds m' = fds_of fd -> m_raised m' = m_raised m -> Q fd m') ->
  dwp (dcall (DOpen t)) m Q.
Proof.
  intros Hm HQ fd. cbn [dce_step wp]. unfold fds_of in HQ.
  destruct (fd <? 0) eqn:E; apply HQ; cbn [m_fds m_raised]; try done.
  - replace (0 <=? fd) with false by (symmetry; breflect; lia). done.
  - replace (0 <=? fd) with true by (symmetry; breflect; lia). by rewrite Hm.
Qed.

Lemma close_wp fd m Q :
  m_fds m = [fd] ->
  (forall m', m_fds m' = [] -> m_raised m' = m_raised m -> Q tt m') ->
  dwp (dcall (DClose fd)) m Q.
Proof.
  intros Hm HQ []. cbn [dce_step]. rewrite Hm, bool_decide_eq_true_2 by (rewrite elem_of_cons; by left).
  rewrite remove_one_head. by apply HQ.
Qed.

(** The second attempt, under the raised authority. *)
Lemma open_twice_wp m Q :
  m_fds m = [] ->
  (forall fd m', m_fds m' = fds_of fd -> m_raised m' = m_raised m -> Q fd m') ->
  dwp (bindp (dcall (DOpen DceDeviceRW))
         (fun a => if a <? 0 then dcall (DOpen DceDeviceRO) else Ret a)) m Q.
Proof.
  intros Hm HQ. apply wp_bind, open_wp; [done|]. intros a m' Hf Hr.
  destruct (a <? 0) eqn:E; [|by apply HQ]. rewrite <- Hr in HQ. apply open_wp; [|done].
  rewrite Hf. unfold fds_of. by replace (0 <=? a) with false by (symmetry; breflect; lia).
Qed.

Lemma ensure_open_wp s m :
  good s m ->
  dwp (ensure_open s) m (fun r m' =>
    adapter_inv r.2 m' /\ (r.1 = true -> m_raised m' = None /\ 0 <= fd_ r.2)).
Proof.
  intros [[Hf Hd] Hr]. unfold ensure_open. destruct (0 <=? fd_ s) eqn:E0; [by apply Z.leb_le in E0|].
  assert (m_fds m = []) as Hf0 by (unfold held in Hf; by rewrite E0 in Hf).
  apply wp_bind, open_wp; [done|]. intros fd m1 Hf1 Hr1. rewrite Hr in Hr1.
  destruct (0 <=? fd) eqn:E1.
  { cbn. apply Z.leb_le in E1 as E1'. done. }
  assert (m_fds m1 = []) as Hf1' by (by rewrite Hf1; unfold fds_of; rewrite E1).
  (* what happens after the second attempt, once the authority was given back or not *)
  assert (forall fd2 restored m2,
    m_fds m2 = fds_of fd2 -> (restored = true -> m_raised m2 = None) ->
    dwp (if fd2 <? 0 then Ret (false, with_fd s fd2 (u32 (consecutive_failures_ s + 1)))
         else if negb restored then
           bindp (dcall (DClose fd2)) (fun _ => Ret (false, with_fd s (-1) (consecutive_failures_ s)))
         else Ret (true, with_fd s fd2 0)) m2
      (fun r m' => adapter_inv r.2 m' /\ (r.1 = true -> m_raised m' = None /\ 0 <= fd_ r.2))) as Hend.
  { intros fd2 restored m2 Hm2 Hres. destruct (fd2 <? 0) eqn:E2; [by cbn|].
    destruct restored; cbn [negb]; [cbn; split; [done|]; apply Z.ltb_ge in E2; auto|].
    apply wp_bind, close_wp; [rewrite Hm2; unfold fds_of|by cbn].
    by replace (0 <=? fd2) with true by (symmetry; breflect; lia). }
  apply wp_bind. apply begin_auth_wp; [done| | |]; intros original m2 Hf2 Hr2; rewrite Hf1' in Hf2.
  - apply wp_bind, open_twice_wp; [done|]. intros fd2 m3 Hf3 Hr3. rewrite Hr2 in Hr3.
    apply wp_bind, end_auth_wp; [done| |]; intros m4 Hf4; [intros Hr4|];
      (apply Hend; [by rewrite Hf4|done]).
  - apply wp_bind, open_twice_wp; [done|]. intros fd2 m3 Hf3 Hr3. rewrite Hr2 in Hr3.
    apply wp_bind, end_auth_wp; [done| |]; intros m4 Hf4; [intros Hr4|];
      (apply Hend; [by rewrite Hf4|done]).
  - cbn [bindp]. apply Hend; [|done]. rewrite Hf2. unfold fds_of. by rewrite E1.
Qed.

Lemma ioctl_pair_wp fd m Q :
  fd ∈ m_fds m -> (forall r, Q r m) -> dwp (ioctl_pair fd) m Q.
Proof.
  intros Hfd HQ. unfold ioctl_pair, dce_ioctl. intros r. cbn [dce_step].
  rewrite bool_decide_eq_true_2 by done. cbn [bindp wp]. destruct (r.1 <? 0); [|apply HQ].
  intros r2. cbn [dce_step]. rewrite bool_decide_eq_true_2 by done. apply HQ.
Qed.

Lemma query_dce_wp s m :
  good s m ->
  dwp (query_dce s) m (fun r m' =>
    adapter_inv r.2 m' /\ (r.1 <> None -> m_raised m' = None)).
Proof.
  intros Hg. unfold query_dce. apply wp_bind. eapply wp_mono; [|by apply ensure_open_wp].
  intros [opened s1] m1 [[Hf1 Hd1] Ho]. destruct opened; cbn [negb fst snd] in *; [|by cbn].
  destruct Ho as [Hr1 Hfd]; [done|].
  assert (held s1 = [fd_ s1]) as Hh by (unfold held; by rewrite (proj2 (Z.leb_le _ _) Hfd)).
  assert (forall (final : Z * list Z) restored m2, m_fds m2 = m_fds m1 ->
    (restored = true -> m_raised m2 = None) ->
    dwp (if negb (final.1 =? 0) || negb restored then
           if 8 <=? u32 (consecutive_failures_ s1 + 1) then
             bindp (dcall (DClose (fd_ s1))) (fun _ =>
               Ret (None, reset_adapter (with_fd s1 (-1) (u32 (consecutive_failures_ s1 + 1)))))
           else Ret (None, with_fd s1 (fd_ s1) (u32 (consecutive_failures_ s1 + 1)))
         else Ret (Some (words_of final.2), with_fd s1 (fd_ s1) 0)) m2
      (fun r m' => adapter_inv r.2 m' /\ (r.1 <> None -> m_raised m' = None))) as Hend.
  { intros final restored m2 Hm2 Hres. destruct (_ || _) eqn:E.
    - destruct (8 <=? _).
      + apply wp_bind, close_wp; [by rewrite Hm2, Hf1|]. intros m3 Hm3 _. cbn. split; [|done].
        split; [done|]. cbn. by apply dr_reset.
      + cbn. split; [|done]. split; [by rewrite Hm2|done].
    - apply orb_false_iff in E as [_ E]. destruct restored; [|done]. cbn.
      split; [by split; [rewrite Hm2|]|auto]. }
  assert (fd_ s1 ∈ m_fds m1) as Hin by (rewrite Hf1, Hh; by apply list_elem_of_singleton).
  apply wp_bind, ioctl_pair_wp; [done|]. intros first. apply wp_bind.
  destruct (first.1 <? 0); [|by apply Hend].
  apply wp_bind, begin_auth_wp; [done| | |]; intros original m2 Hf2 Hr2; cbn beta iota.
  1,2: apply wp_bind, ioctl_pair_wp; [by rewrite Hf2|]; intros r; apply wp_bind, end_auth_wp;
    [done| |]; intros m3 Hf3; [intros Hr3|]; (apply Hend; [by rewrite Hf3, Hf2|done]).
  by apply Hend.
Qed.

Lemma sample_adapter_wp s m :
  good s m ->
  dwp (sample_adapter s) m (fun r m' =>
    adapter_inv r.2 m' /\
    match r.1 with Some v => 1 <= v <= kMaxDisplayFps /\ m_raised m' = None | None => True end).
Proof.
  intros Hg. unfold sample_adapter. apply wp_bind.
  eapply wp_mono; [|by apply sample_shared_hen_wp]. intros [shared s1] m1 [Hg1 Hv].
  cbn [fst snd] in *. destruct shared as [v|]; [by destruct Hg1|].
  apply wp_bind. eapply wp_mono; [|by apply query_dce_wp]. intros [q s2] m2 [[Hf2 Hd2] Hr2].
  cbn [fst snd] in *. destruct q as [words|]; [|by cbn].
  intros now. cbn [dce_step dcall call bindp wp].
  destruct (sample (counter_sampler_ s2) words now) as [fps c] eqn:Es.
  assert (dce_reachable c) as Hc
    by (replace c with (sample (counter_sampler_ s2) words now).2 by (by rewrite Es); by constructor).
  destruct fps as [v|]; cbn [wp fst snd]; [|done].
  split; [done|]. split; [|by apply Hr2]. by eapply sample_sound in Es as [H _].
Qed.


(** A console without the shared sample: the device opens only under the authority,
    and the first reading is the baseline. *)
Definition sim_dce (auth : Z) (c : dce_call) : dce_ret c * Z :=
  match c with
  | DOpen DceDeviceRW => (if auth =? kPtraceAuthId then 5 else -1, auth)
  | DOpen _ => (-1, auth)
  | DRead _ => (None, auth)
  | DClose _ => (tt, auth)
  | DIoctl _ _ _ _ => ((0, repeat 1 96), auth)
  | DGetAuth => (auth, auth)
  | DSetAuth a => (0, a)
  | DMonotonic => (1000000, auth)
  end.

Definition dce_run := run sim_dce (sample_adapter DceFpsSampler_init) 42.

