(* ===== verification/Guards.v ===== *)
(** The two installation state machines and the loader contract:
    [autoload_guard.hpp]/[.cpp] (Module [Autoload]), [scene_guard.hpp]/[.cpp] (Module
    [Scene]) and [integration/loader/v1_loader_contract.*] (Module [Loader]), as programs
    over the calls to their backends.  Each guard is related, over every history of ticks
    and every behaviour of its backend, to a monitor that states the contract. *)
From S2P Require Import Prelude Effects.

Module Autoload.

Inductive AutoloadState :=
| WaitingForRuntime | StabilizingRuntime | WaitingToRetry | InstallingRenderer | Ready.

Record AutoloadPolicy := { consecutive_ready_samples : Z; retry_delay_us : Z }.
Definition AutoloadPolicy_default : AutoloadPolicy :=
  {| consecutive_ready_samples := 3; retry_delay_us := 1500000 |}.

Inductive backend_call := RuntimeReady | RendererAlive | InstallRendererOnce.
Definition backend_ret (_ : backend_call) : Type := bool.
Abbreviation bprog := (prog backend_ret).
Definition bcall (c : backend_call) : bprog bool := call c.

Record AutoloadGuard := {
  policy_ : AutoloadPolicy;
  state_ : AutoloadState;
  consecutive_ready_ : Z;
  install_attempts_ : Z;
  retry_not_before_us_ : Z
}.

Definition make (policy : AutoloadPolicy) : AutoloadGuard := {|
  policy_ := if consecutive_ready_samples policy =? 0
             then {| consecutive_ready_samples := 1; retry_delay_us := retry_delay_us policy |}
             else policy;
  state_ := WaitingForRuntime; consecutive_ready_ := 0; install_attempts_ := 0;
  retry_not_before_us_ := 0 |}.

Definition reset (g : AutoloadGuard) : AutoloadGuard := {|
  policy_ := policy_ g; state_ := WaitingForRuntime; consecutive_ready_ := 0;
  install_attempts_ := 0; retry_not_before_us_ := 0 |}.

Definition with_state (g : AutoloadGuard) (st : AutoloadState) (ready : Z) : AutoloadGuard := {|
  policy_ := policy_ g; state_ := st; consecutive_ready_ := ready;
  install_attempts_ := install_attempts_ g; retry_not_before_us_ := retry_not_before_us_ g |}.

Definition schedule_retry (g : AutoloadGuard) (now_us : Z) : AutoloadGuard := {|
  policy_ := policy_ g; state_ := WaitingToRetry; consecutive_ready_ := 0;
  install_attempts_ := install_attempts_ g;
  retry_not_before_us_ := u64 (now_us + retry_delay_us (policy_ g)) |}.

Definition begin_install (g : AutoloadGuard) : AutoloadGuard := {|
  policy_ := policy_ g; state_ := InstallingRenderer; consecutive_ready_ := consecutive_ready_ g;
  install_attempts_ := u32 (install_attempts_ g + 1);
  retry_not_before_us_ := retry_not_before_us_ g |}.

Section Tick.
Local Open Scope prog_scope.

(** The part of [tick] after the readiness gate. *)
Definition install (g : AutoloadGuard) (now_us : Z) : bprog AutoloadGuard :=
  let* alive := bcall RendererAlive in
  if alive : bool then Ret (with_state g Ready (consecutive_ready_ g))
  else
    let g1 := begin_install g in
    let* installed := bcall InstallRendererOnce in
    if negb installed then Ret (schedule_retry g1 now_us)
    else
      let* confirmed := bcall RendererAlive in
      if negb confirmed then Ret (schedule_retry g1 now_us)
      else Ret (with_state g1 Ready (consecutive_ready_samples (policy_ g1))).

Definition stabilize (g : AutoloadGuard) (now_us : Z) : bprog AutoloadGuard :=
  let* ready := bcall RuntimeReady in
  if negb ready then Ret (with_state g WaitingForRuntime 0)
  else
    let g1 := with_state g StabilizingRuntime (u32 (consecutive_ready_ g + 1)) in
    if consecutive_ready_ g1 <? consecutive_ready_samples (policy_ g1) then Ret g1
    else install g1 now_us.

Definition tick (g : AutoloadGuard) (now_us : Z) : bprog AutoloadGuard :=
  match state_ g with
  | Ready =>
      let* alive := bcall RendererAlive in
      if alive : bool then Ret g else Ret (schedule_retry g now_us)
  | WaitingToRetry =>
      if now_us <? retry_not_before_us_ g then Ret g else stabilize g now_us
  | _ => stabilize g now_us
  end.
End Tick.

(** *** The contract *)

(** What is known of the renderer. *)
Inductive Phase := Unknown | Absent | Installed | Up.

Record Contract := { c_ready : Z; c_hold : Z; c_phase : Phase }.
Definition Contract_init : Contract := {| c_ready := 0; c_hold := 0; c_phase := Unknown |}.

(** A failed or lost renderer: back to the gate, and nothing before the delay. *)
Definition failed (p : AutoloadPolicy) (now : Z) : Contract :=
  {| c_ready := 0; c_hold := u64 (now + retry_delay_us p); c_phase := Unknown |}.

(** The gate is consulted only after the delay.  A renderer is installed only after
    [consecutive_ready_samples] ready answers in a row, right after a negative health
    check, and it counts as up only by a positive one. *)
Definition contract_step (p : AutoloadPolicy) (now : Z) (m : Contract) (e : event backend_ret)
    : option Contract :=
  match e with
  | Ev RuntimeReady r =>
      match c_phase m with
      | Unknown =>
          if now <? c_hold m then None
          else Some {| c_ready := if r : bool then c_ready m + 1 else 0; c_hold := 0; c_phase := Unknown |}
      | _ => None
      end
  | Ev RendererAlive r =>
      if r : bool then Some {| c_ready := c_ready m; c_hold := c_hold m; c_phase := Up |}
      else match c_phase m with
           | Installed | Up => Some (failed p now)
           | _ => Some {| c_ready := c_ready m; c_hold := c_hold m; c_phase := Absent |}
           end
  | Ev InstallRendererOnce r =>
      match c_phase m with
      | Absent =>
          if c_ready m <? consecutive_ready_samples p then None
          else if r : bool then Some {| c_ready := c_ready m; c_hold := c_hold m; c_phase := Installed |}
          else Some (failed p now)
      | _ => None
      end
  end.

(** Histories: ticks at given times. *)
Inductive history (p : AutoloadPolicy) : AutoloadGuard -> list (Z * list (event backend_ret)) -> Prop :=
| h_init : history p (make p) []
| h_tick g h now t g' :
    history p g h -> in_u 64 now -> exec (tick g now) t g' -> history p g' (h ++ [(now, t)]).

Fixpoint judge (p : AutoloadPolicy) (m : Contract) (h : list (Z * list (event backend_ret)))
    : option Contract :=
  match h with
  | [] => Some m
  | (now, t) :: h' =>
      match monitor (contract_step p now) m t with Some m' => judge p m' h' | None => None end
  end.

Lemma judge_snoc p m h now t :
  judge p m (h ++ [(now, t)]) =
  match judge p m h with Some m' => monitor (contract_step p now) m' t | None => None end.
Proof.
  revert m; induction h as [|[now' t'] h IH]; intros m; simpl.
  - by destruct (monitor _ m t).
  - by destruct (monitor _ m t').
Qed.

(** The guard's state seen through the contract. *)
Record agrees (g : AutoloadGuard) (m : Contract) : Prop := {
  ag_policy : 1 <= consecutive_ready_samples (policy_ g) < 2 ^ 32;
  ag_state : match state_ g with
    | Ready => c_phase m = Up /\ c_hold m = 0
    | WaitingToRetry => c_phase m = Unknown /\ c_ready m = 0 /\ consecutive_ready_ g = 0 /\
                        c_hold m = retry_not_before_us_ g
    | InstallingRenderer => False
    | _ => c_phase m = Unknown /\ c_hold m = 0 /\ c_ready m = consecutive_ready_ g /\
           0 <= consecutive_ready_ g < consecutive_ready_samples (policy_ g)
    end
}.

Lemma failed_agrees g now :
  1 <= consecutive_ready_samples (policy_ g) < 2 ^ 32 ->
  agrees (schedule_retry g now) (failed (policy_ g) now).
Proof. by split. Qed.

Lemma install_wp g m now :
  state_ g = StabilizingRuntime -> 1 <= consecutive_ready_samples (policy_ g) < 2 ^ 32 ->
  c_phase m = Unknown -> c_hold m = 0 ->
  consecutive_ready_samples (policy_ g) <= c_ready m ->
  wp (contract_step (policy_ g) now) (install g now) m
     (fun g' m' => policy_ g' = policy_ g /\ agrees g' m').
Proof.
  intros Hs Hp Hph Hh Hr. unfold install. intros [|]; cbn; [by split|]. rewrite Hph.
  intros r; cbn. replace (c_ready m <? _) with false by (symmetry; breflect; lia).
  destruct r; cbn; [|split; [done|]; by apply (failed_agrees (begin_install g))].
  intros [|]; cbn; [done|]. split; [done|]. by apply (failed_agrees (begin_install g)).
Qed.

Lemma stabilize_wp g m now :
  agrees g m -> c_phase m = Unknown -> c_hold m <= now -> c_ready m = consecutive_ready_ g ->
  0 <= consecutive_ready_ g < consecutive_ready_samples (policy_ g) ->
  wp (contract_step (policy_ g) now) (stabilize g now) m
     (fun g' m' => policy_ g' = policy_ g /\ agrees g' m').
Proof.
  intros [Hp _] Hph Hh Hr Hc. unfold stabilize. intros ready; cbn. rewrite Hph.
  replace (now <? c_hold m) with false by (symmetry; breflect; lia).
  destruct ready; cbn [negb]; [|cbn; split; [done|]; split; cbn; [done|]; split_and!; try done; lia].
  rewrite wrap_small by (unfold in_u; lia).
  destruct (_ <? consecutive_ready_samples _) eqn:E; cbn in E; breflect.
  - cbn. split; [done|]. split; cbn; [done|]. split_and!; [done|done|lia|lia|lia].
  - apply (install_wp (with_state g StabilizingRuntime (consecutive_ready_ g + 1))); cbn; try done. lia.
Qed.

Lemma tick_wp g m now :
  agrees g m -> in_u 64 now ->
  wp (contract_step (policy_ g) now) (tick g now) m
     (fun g' m' => policy_ g' = policy_ g /\ agrees g' m').
Proof.
  intros Ha [Hn _]. pose proof Ha as [Hp Hs]. unfold tick. destruct (state_ g) eqn:Es.
  - destruct Hs as (H1 & H2 & H3 & H4). apply stabilize_wp; try done. lia.
  - destruct Hs as (H1 & H2 & H3 & H4). apply stabilize_wp; try done. lia.
  - destruct Hs as (H1 & H2 & H3 & H4). destruct (now <? _) eqn:E; [by cbn|].
    apply stabilize_wp; try done; breflect; lia.
  - done.
  - destruct Hs as (H1 & H2). intros [|]; cbn; [|rewrite H1; cbn; by split].
    split; [done|]. split; [done|]. by rewrite Es.
Qed.

Lemma history_agrees p g h :
  in_u 32 (consecutive_ready_samples p) -> history p g h ->
  policy_ g = policy_ (make p) /\
  exists m, judge (policy_ (make p)) Contract_init h = Some m /\ agrees g m.
Proof.
  intros Hu Hh. induction Hh as [|g h now t g' Hh [IHp (m & Hm & Ha)] Hnow He].
  - split; [done|]. exists Contract_init. split; [done|]. unfold in_u in Hu.
    assert (1 <= consecutive_ready_samples (policy_ (make p)) < 2 ^ 32)
      by (cbn; destruct (consecutive_ready_samples p =? 0) eqn:E; breflect; cbn; lia).
    split; [done|]. cbn [make state_ consecutive_ready_]. cbn in *. split_and!; try done; lia.
  - destruct (wp_sound _ _ m _ (tick_wp g m now Ha Hnow) t g' He) as (m' & Hm' & Hp' & Ha').
    split; [congruence|]. exists m'. split; [|done]. rewrite judge_snoc, Hm. by rewrite <- IHp.
Qed.

(** Over every history of ticks and every behaviour of the backend the autoload guard
    keeps its contract: no readiness check within the retry delay of a failed or lost
    renderer, an installation only after the required run of ready answers and right
    after a negative health check, and [Ready] only when the last health check of the
    renderer was positive. *)
Theorem autoload_contract p g h :
  in_u 32 (consecutive_ready_samples p) -> history p g h ->
  exists m, judge (policy_ (make p)) Contract_init h = Some m /\
            (state_ g = Ready <-> c_phase m = Up).
Proof.
  intros Hu Hh. apply history_agrees in Hh as [_ (m & Hm & [_ Ha])]; [|done].
  exists m. split; [done|]. destruct (state_ g); try done; destruct Ha as [Ha _]; rewrite Ha; done.
Qed.

(** *** Progress *)

(** A backend that is ready, and whose renderer is alive once it is installed. *)
Definition healthy (alive : bool) (c : backend_call) : bool * bool :=
  match c with
  | RuntimeReady => (true, alive)
  | RendererAlive => (alive, alive)
  | InstallRendererOnce => (true, true)
  end.

Fixpoint ticks (g : AutoloadGuard) (alive : bool) (times : list Z) : AutoloadGuard * bool :=
  match times with
  | [] => (g, alive)
  | now :: times' =>
      let r := run (fun a c => healthy a c) (tick g now) alive in ticks r.1.1 r.1.2 times'
  end.

Lemma ticks_stabilize g times :
  in_u 32 (consecutive_ready_samples (policy_ g)) -> 
  (state_ g = WaitingForRuntime \/ state_ g = StabilizingRuntime) ->
  0 <= consecutive_ready_ g -> install_attempts_ g = 0 ->
  consecutive_ready_ g < consecutive_ready_samples (policy_ g) ->
  Z.of_nat (length times) = consecutive_ready_samples (policy_ g) - consecutive_ready_ g ->
  state_ (ticks g false times).1 = Ready /\ install_attempts_ (ticks g false times).1 = 1.
Proof.
  revert g; induction times as [|now times IH]; intros g Hu Hs Hc Hi Hlt Hlen; cbn [length] in Hlen; [lia|].
  unfold in_u in Hu.
  assert (tick g now = stabilize g now) as Ht by (unfold tick; by destruct Hs as [-> | ->]).
  cbn [ticks]. rewrite Ht. unfold stabilize. cbn [bindp bcall call run healthy negb].
  rewrite wrap_small by (unfold in_u; lia). cbn [consecutive_ready_ with_state policy_].
  destruct (_ <? consecutive_ready_samples _) eqn:E; breflect.
  - cbn [run fst snd]. apply IH; cbn; try done; try (by right); unfold in_u; lia.
  - assert (times = []) as -> by (destruct times; [done|cbn [length] in Hlen; lia]).
    cbn. by rewrite Hi.
Qed.

(** With a ready runtime and a working installer the guard is [Ready] after exactly
    [consecutive_ready_samples] ticks from any reset, with one installation. *)
Theorem autoload_progress g times :
  1 <= consecutive_ready_samples (policy_ g) < 2 ^ 32 ->
  Z.of_nat (length times) = consecutive_ready_samples (policy_ g) ->
  let g' := (ticks (reset g) false times).1 in state_ g' = Ready /\ install_attempts_ g' = 1.
Proof.
  intros Hu Hlen. apply ticks_stabilize; cbn; try done; [unfold in_u; lia|by left|lia|lia].
Qed.

Lemma autoload_progress_witness :
  let g' := (ticks (reset (make AutoloadPolicy_default)) false [250000; 500000; 750000]).1 in
  state_ g' = Ready /\ install_attempts_ g' = 1.
Proof. apply autoload_progress; [by vm_compute|reflexivity]. Defined.

(** One tick of the default guard against a backend that is not ready. *)
Lemma autoload_contract_witness :
  exists m, judge AutoloadPolicy_default Contract_init [(5, [Ev (R := backend_ret) RuntimeReady false])] = Some m /\
    (WaitingForRuntime = Ready <-> c_phase m = Up).
Proof.
  apply (autoload_contract AutoloadPolicy_default (with_state (make AutoloadPolicy_default) WaitingForRuntime 0)).
  - by vm_compute.
  - apply (h_tick _ (make AutoloadPolicy_default) []); [apply h_init|by vm_compute|].
    exists false, []. split; [reflexivity|]. split; reflexivity.
Defined.

End Autoload.

Module Scene.

Inductive SceneState := WaitingForScene | StabilizingScene | CreatingWidgets | Ready.

Record ScenePolicy := { consecutive_ready_samples : Z }.
Definition ScenePolicy_default : ScenePolicy := {| consecutive_ready_samples := 2 |}.

Inductive scene_call := SceneReady | WidgetsAlive | CreateWidgetsOnce.
Definition scene_ret (_ : scene_call) : Type := bool.
Abbreviation sprog := (prog scene_ret).
Definition scall (c : scene_call) : sprog bool := call c.

Record SceneGuard := { policy_ : ScenePolicy; state_ : SceneState; consecutive_ready_ : Z }.

Definition make (policy : ScenePolicy) : SceneGuard := {|
  policy_ := if consecutive_ready_samples policy =? 0 then {| consecutive_ready_samples := 1 |}
             else policy;
  state_ := WaitingForScene; consecutive_ready_ := 0 |}.

Definition with_state (g : SceneGuard) (st : SceneState) (ready : Z) : SceneGuard :=
  {| policy_ := policy_ g; state_ := st; consecutive_ready_ := ready |}.

Definition reset (g : SceneGuard) : SceneGuard := with_state g WaitingForScene 0.

Section Tick.
Local Open Scope prog_scope.

Definition create (g : SceneGuard) : sprog SceneGuard :=
  let* alive := scall WidgetsAlive in
  if alive : bool then Ret (with_state g Ready (consecutive_ready_ g))
  else
    let g1 := with_state g CreatingWidgets (consecutive_ready_ g) in
    let* created := scall CreateWidgetsOnce in
    if negb created then Ret (with_state g1 WaitingForScene 0)
    else
      let* confirmed := scall WidgetsAlive in
      if negb confirmed then Ret (with_state g1 WaitingForScene 0)
      else Ret (with_state g1 Ready (consecutive_ready_ g1)).

Definition stabilize (g : SceneGuard) : sprog SceneGuard :=
  let* ready := scall SceneReady in
  if negb ready then Ret (with_state g WaitingForScene 0)
  else
    let g1 := with_state g StabilizingScene (u32 (consecutive_ready_ g + 1)) in
    if consecutive_ready_ g1 <? consecutive_ready_samples (policy_ g1) then Ret g1
    else create g1.

Definition tick (g : SceneGuard) : sprog SceneGuard :=
  match state_ g with
  | Ready =>
      let* alive := scall WidgetsAlive in
      if alive : bool then Ret g else stabilize (reset g)
  | _ => stabilize g
  end.
End Tick.

(** *** The contract: widgets are created only over a scene seen ready
    [consecutive_ready_samples] times in a row, right after a negative liveness check, so
    there are never two sets, and they count as up only by a positive one. *)
Inductive Phase := Unknown | Absent | Created | Up.
Record Contract := { c_ready : Z; c_phase : Phase }.
Definition Contract_init : Contract := {| c_ready := 0; c_phase := Unknown |}.

Definition contract_step (p : ScenePolicy) (m : Contract) (e : event scene_ret) : option Contract :=
  match e with
  | Ev SceneReady r =>
      match c_phase m with
      | Unknown => Some {| c_ready := if r : bool then c_ready m + 1 else 0; c_phase := Unknown |}
      | _ => None
      end
  | Ev WidgetsAlive r =>
      if r : bool then Some {| c_ready := c_ready m; c_phase := Up |}
      else match c_phase m with
           | Created | Up => Some Contract_init
           | _ => Some {| c_ready := c_ready m; c_phase := Absent |}
           end
  | Ev CreateWidgetsOnce r =>
      match c_phase m with
      | Absent => if c_ready m <? consecutive_ready_samples p then None
                  else Some (if r : bool then {| c_ready := c_ready m; c_phase := Created |}
                             else Contract_init)
      | _ => None
      end
  end.

Record agrees (g : SceneGuard) (m : Contract) : Prop := {
  ag_policy : 1 <= consecutive_ready_samples (policy_ g) < 2 ^ 32;
  ag_state : match state_ g with
    | Ready => c_phase m = Up
    | CreatingWidgets => False
    | _ => c_phase m = Unknown /\ c_ready m = consecutive_ready_ g /\
           0 <= consecutive_ready_ g < consecutive_ready_samples (policy_ g)
    end
}.

Abbreviation swp g := (wp (contract_step (policy_ g))).

Lemma gate_agrees g : 1 <= consecutive_ready_samples (policy_ g) < 2 ^ 32 ->
  agrees (with_state g WaitingForScene 0) Contract_init.
Proof. intros H. split; [done|]. cbn. split_and!; try done; lia. Qed.

Lemma scene_stabilize_wp g m :
  1 <= consecutive_ready_samples (policy_ g) < 2 ^ 32 ->
  c_phase m = Unknown -> c_ready m = consecutive_ready_ g ->
  0 <= consecutive_ready_ g < consecutive_ready_samples (policy_ g) ->
  swp g (stabilize g) m (fun g' m' => policy_ g' = policy_ g /\ agrees g' m').
Proof.
  intros Hp Hph Hr Hc. unfold stabilize. intros ready; cbn. rewrite Hph.
  destruct ready; cbn [negb]; [|split; [done|]; by apply gate_agrees].
  rewrite wrap_small by (unfold in_u; lia).
  destruct (_ <? consecutive_ready_samples _) eqn:E; cbn in E; breflect.
  { cbn. split; [done|]. split; [done|]. cbn. split_and!; try done; lia. }
  intros [|]; cbn; [by split; [done|]; split; cbn|].
  intros r; cbn. replace (c_ready m + 1 <? _) with false by (symmetry; breflect; lia).
  destruct r; cbn; [|split; [done|]; by apply gate_agrees].
  intros [|]; cbn; [by split; [done|]; split; cbn|]. split; [done|]. by apply gate_agrees.
Qed.

Lemma scene_tick_wp g m :
  agrees g m -> swp g (tick g) m (fun g' m' => policy_ g' = policy_ g /\ agrees g' m').
Proof.
  intros Ha. pose proof Ha as [Hp Hs]. unfold tick. destruct (state_ g) eqn:Es; try done.
  - apply scene_stabilize_wp; try done; by apply Hs.
  - apply scene_stabilize_wp; try done; by apply Hs.
  - intros [|]; cbn.
    + split; [done|]. split; [done|]. by rewrite Es.
    + rewrite Hs. cbn [with_state policy_]. apply (scene_stabilize_wp (reset g)); cbn; try done; lia.
Qed.

Inductive history (p : ScenePolicy) : SceneGuard -> list (event scene_ret) -> Prop :=
| h_init : history p (make p) []
| h_tick g h t g' : history p g h -> exec (tick g) t g' -> history p g' (h ++ t).

Lemma scene_history_agrees p g h :
  in_u 32 (consecutive_ready_samples p) -> history p g h ->
  policy_ g = policy_ (make p) /\
  exists m, monitor (contract_step (policy_ (make p))) Contract_init h = Some m /\ agrees g m.
Proof.
  intros Hu Hh. induction Hh as [|g h t g' Hh [IHp (m & Hm & Ha)] He].
  - split; [done|]. exists Contract_init. split; [done|]. unfold in_u in Hu.
    assert (1 <= consecutive_ready_samples (policy_ (make p)) < 2 ^ 32)
      by (cbn; destruct (consecutive_ready_samples p =? 0) eqn:E; breflect; cbn; lia).
    split; [done|]. cbn [make state_ consecutive_ready_]. cbn in *. split_and!; try done; lia.
  - destruct (wp_sound _ _ m _ (scene_tick_wp g m Ha) t g' He) as (m' & Hm' & Hp' & Ha').
    split; [congruence|]. exists m'. split; [|done]. rewrite monitor_app, Hm. by rewrite <- IHp.
Qed.

(** Over every history of ticks and every behaviour of ShellUI the scene guard keeps
    its contract: widgets are created only over a scene seen ready the required number of
    times in a row and right after they were found missing, a failed creation goes back to
    the gate, and [Ready] holds exactly when the last liveness check was positive. *)
Theorem scene_contract p g h :
  in_u 32 (consecutive_ready_samples p) -> history p g h ->
  exists m, monitor (contract_step (policy_ (make p))) Contract_init h = Some m /\
            (state_ g = Ready <-> c_phase m = Up).
Proof.
  intros Hu Hh. apply scene_history_agrees in Hh as [_ (m & Hm & [_ Ha])]; [|done].
  exists m. split; [done|]. destruct (state_ g); try done; destruct Ha as [Ha _]; by rewrite Ha.
Qed.

Lemma scene_contract_witness :
  exists m, monitor (contract_step ScenePolicy_default) Contract_init
              [Ev (R := scene_ret) SceneReady true] = Some m /\
    (StabilizingScene = Ready <-> c_phase m = Up).
Proof.
  apply (scene_contract ScenePolicy_default (with_state (make ScenePolicy_default) StabilizingScene 1)).
  - by vm_compute.
  - apply (h_tick _ (make ScenePolicy_default) []); [apply h_init|].
    exists true, []. split; [reflexivity|]. split; reflexivity.
Defined.

End Scene.

Module Loader.

Inductive loader_call :=
| WaitForShelluiScene | BeginLoaderSession | PreparePayloadArgs
| LoadRenderer (elf : list Z) (args : Z) | ContinueTarget | EndLoaderSession.
Definition loader_ret (c : loader_call) : Type :=
  match c with PreparePayloadArgs => Z | _ => bool end.
Definition lcall (c : loader_call) : prog loader_ret (loader_ret c) := call c.

Section Install.
Local Open Scope prog_scope.

(** [elf] is [None] for a null pointer. *)
Definition install_renderer_v1_compatible (elf : option (list Z)) : prog loader_ret bool :=
  match elf with
  | None | Some [] => Ret false
  | Some image =>
      let* scene := lcall WaitForShelluiScene in
      if negb scene then Ret false
      else
        let* session := lcall BeginLoaderSession in
        if negb session then Ret false
        else
          let* args := lcall PreparePayloadArgs in
          if args =? 0 then lcall EndLoaderSession ;;; Ret false
          else
            let* loaded := lcall (LoadRenderer image args) in
            if negb loaded then lcall EndLoaderSession ;;; Ret false
            else
              let* continued := lcall ContinueTarget in
              if negb continued then lcall EndLoaderSession ;;; Ret false
              else lcall EndLoaderSession
  end.
End Install.

(** One session: closed, open without arguments, open with them, loaded, continued. *)
Inductive Session := NoScene | SceneUp | Opened | Armed (args : Z) | Loaded | Continued | Failed | Closed (ok : bool).

Definition session_step (image : list Z) (m : Session) (e : event loader_ret) : option Session :=
  match e with
  | Ev WaitForShelluiScene r =>
      match m with NoScene => Some (if r : bool then SceneUp else NoScene) | _ => None end
  | Ev BeginLoaderSession r =>
      match m with SceneUp => Some (if r : bool then Opened else SceneUp) | _ => None end
  | Ev PreparePayloadArgs r =>
      match m with Opened => Some (if r =? 0 then Failed else Armed r) | _ => None end
  | Ev (LoadRenderer elf a) r =>
      match m with
      | Armed args => if bool_decide (elf = image) && (a =? args)
                      then Some (if r : bool then Loaded else Failed) else None
      | _ => None
      end
  | Ev ContinueTarget r =>
      match m with Loaded => Some (if r : bool then Continued else Failed) | _ => None end
  | Ev EndLoaderSession r =>
      match m with Continued => Some (Closed r) | Failed => Some (Closed false) | _ => None end
  end.

(** The loader contract, for every answer of the backend: the image is loaded inside
    one session, after the scene and with the non-null arguments prepared in that session;
    every session that was opened is ended exactly once; and the result is true exactly
    when every step, the end of the session included, succeeded. *)
Theorem loader_session image t ok :
  exec (install_renderer_v1_compatible (Some image)) t ok ->
  match image with
  | [] => t = [] /\ ok = false
  | _ => exists m, monitor (session_step image) NoScene t = Some m /\
                   match m with
                   | NoScene | SceneUp => ok = false
                   | Closed r => ok = r
                   | _ => False
                   end
  end.
Proof.
  destruct image as [|b image]; [done|]. intros He. revert He.
  set (im := b :: image). intros He.
  eapply (wp_sound (session_step im) _ NoScene (fun ok m =>
    match m with NoScene | SceneUp => ok = false | Closed r => ok = r | _ => False end)); [|exact He].
  intros [|]; cbn; [|done]. intros [|]; cbn; [|done].
  intros args; cbn. destruct (args =? 0) eqn:E; [by intros ?; cbn|].
  intros r; cbn. rewrite bool_decide_eq_true_2, Z.eqb_refl by done. cbn.
  destruct r; cbn; [|by intros ?]. intros [|]; cbn; [by intros ?|by intros ?].
Qed.

Lemma loader_session_witness : exists m, monitor (session_step [1]) NoScene
  [Ev (R := loader_ret) WaitForShelluiScene true; Ev (R := loader_ret) BeginLoaderSession false] = Some m.
Proof.
  destruct (loader_session [1] [Ev (R := loader_ret) WaitForShelluiScene true;
     Ev (R := loader_ret) BeginLoaderSession false] false) as (m & Hm & _); [|by exists m].
  exists true, [Ev (R := loader_ret) BeginLoaderSession false]. split; [reflexivity|].
  exists false, []. split; [reflexivity|]. split; reflexivity.
Defined.

End Loader.
