(* ===== verification/Lifecycle.v ===== *)
(** The in-process overlay loop: [include/common_fps/lifecycle.hpp], [renderer.hpp],
    [app.hpp], [src/core/lifecycle.cpp] and [src/core/app.cpp], over any platform and any
    renderer.  The endless loop of [run] is unfolded for any number of rounds. *)
From S2P Require Import Prelude Float Types Config Layout Platform FpsSampler.

(** [include/common_fps/renderer.hpp] *)
Class Renderer (W : Type) := {
  initialize : W -> bool * W;
  render : OverlayFrame -> W -> W
}.

Record Lifecycle := { sampler_ : FpsSampler; config_ : OverlayConfig }.

Definition Lifecycle_make (cfg : OverlayConfig) : Lifecycle :=
  {| sampler_ := FpsSampler_init; config_ := cfg |}.
Definition set_config (l : Lifecycle) (cfg : OverlayConfig) : Lifecycle :=
  {| sampler_ := sampler_ l; config_ := cfg |}.
Definition reset_lifecycle (l : Lifecycle) : Lifecycle :=
  {| sampler_ := reset (sampler_ l); config_ := config_ l |}.

Definition loading_frame (cfg : OverlayConfig) : OverlayFrame :=
  {| visible := true; loading := true; fps := fps OverlayFrame_init; config := cfg;
     anchor := compute_anchor cfg |}.
Definition value_frame (cfg : OverlayConfig) (v : Z) : OverlayFrame :=
  {| visible := true; loading := false; fps := v; config := cfg; anchor := compute_anchor cfg |}.

Section Loop.
Context {W : Type} `{Platform W} (ps5 : bool).

Definition tick (l : Lifecycle) (w : W) : OverlayFrame * Lifecycle * W :=
  let frame := loading_frame (config_ l) in
  let with_sampler s := {| sampler_ := s; config_ := config_ l |} in
  let finish s w0 :=
    let '(value, s', w') := sample s w0 in
    match value with
    | None => (frame, with_sampler s', w')
    | Some v => (value_frame (config_ l) v, with_sampler s', w')
    end in
  if negb (attached (sampler_ l)) then
    let '(pid, w1) := find_game_process w in
    match pid with
    | None => (frame, l, w1)
    | Some p =>
        let '(ok, s, w2) := attach ps5 p (sampler_ l) w1 in
        if negb ok then (frame, with_sampler s, w2) else finish s w2
    end
  else finish (sampler_ l) w.

Context `{!Renderer W}.

(** [n] rounds of the loop: the frames rendered. *)
Fixpoint rounds (n : nat) (l : Lifecycle) (w : W) : list OverlayFrame * Lifecycle * W :=
  match n with
  | O => ([], l, w)
  | S n' =>
      let '(frame, l1, w1) := tick l w in
      let '(frames, l2, w2) := rounds n' l1 (sleep_ms 1000 (render frame w1)) in
      (frame :: frames, l2, w2)
  end.

(** [run], observed for [n] rounds: [inl (-1)] when the renderer does not start. *)
Definition run (n : nat) (cfg : OverlayConfig) (w : W) : Z + list OverlayFrame :=
  let '(ok, w1) := initialize w in
  if negb ok then inl (-1) else inr (rounds n (Lifecycle_make cfg) w1).1.1.

(** ** Properties *)

(** A frame of configuration [cfg]. *)
Definition frame_ok (cfg : OverlayConfig) (f : OverlayFrame) : Prop :=
  visible f = true /\ config f = cfg /\ anchor f = compute_anchor cfg /\
  if loading f then fps f = 0 else 0 <= fps f <= kMaxDisplayFps.

Lemma measure_range s c now v s' : measure s c now = (Some v, s') -> 0 <= v <= kMaxDisplayFps.
Proof.
  unfold measure. destruct (negb _); [done|]. destruct (_ || _) eqn:Ew; [done|].
  destruct (_ <? kMinFpsWindowUs) eqn:Em; [done|]. destruct (negb _); [done|].
  destruct (kMaxTenthsFps <? _); [done|]. intros [= <- _]. breflect.
  assert (0 <= u64 (u32 (c - previous_counter_ s) * 10000000) `div` (now - previous_time_us_ s)).
  { apply Z.div_pos; [apply wrap_range; lia|unfold kMinFpsWindowUs in *; lia]. }
  unfold kMaxDisplayFps. split; [|lia]. apply Z.min_glb; [|lia]. apply Z.div_pos; lia.
Qed.

Lemma sample_range s (w : W) v s' w' : sample s w = (Some v, s', w') -> 0 <= v <= kMaxDisplayFps.
Proof.
  unfold sample. destruct (negb _); [done|]. destruct (process_alive _ _) as [[|] w1]; cbn [negb]; [|done].
  destruct (read_uint _ _ _ _) as [[c|] w2]; [|done]. destruct (monotonic_us w2) as [now w3].
  destruct (measure s c now) as [out s1] eqn:E. intros [= -> _ _]. by eapply measure_range.
Qed.

Lemma attach_silent k pid s (w w1 : W) s1 :
  attach ps5 pid s w = (false, s1, w1) -> silent k s -> silent k s1.
Proof.
  unfold attach. destruct (if ps5 then _ else _) as [now wa].
  destruct (_ && _ && _); [by intros [= <- <-]|]. pose proof (reset_silent k s) as Hk.
  destruct (find_module _ _ _) as [[info|] wb]; [|by intros [= <- <-]].
  destruct (mod_base info =? 0); [by intros [= <- <-]|].
  destruct (resolve_counter_address _ _ _) as [[c|] wc]; [done|].
  destruct (if ps5 then _ else _) as [later wd]; intros [= <- _] _.
  destruct k as [|[|k]]; cbn; auto.
Qed.

Lemma tick_spec l (w : W) :
  let '(f, l', _) := tick l w in
  frame_ok (config_ l) f /\ config_ l' = config_ l.
Proof.
  unfold tick.
  assert (forall s w0, let '(f, l', _) :=
    (let '(value, s', w') := sample s w0 in
     match value with
     | None => (loading_frame (config_ l), {| sampler_ := s'; config_ := config_ l |}, w')
     | Some v => (value_frame (config_ l) v, {| sampler_ := s'; config_ := config_ l |}, w')
     end) in frame_ok (config_ l) f /\ config_ l' = config_ l) as Hfin.
  { intros s w0. destruct (sample s w0) as [[[v|] s'] w'] eqn:E; [|done].
    apply sample_range in E. done. }
  destruct (negb _); [|apply Hfin].
  destruct (find_game_process w) as [[p|] w1]; [|done].
  destruct (attach _ _ _ _) as [[ok s] w2]. destruct ok; cbn [negb]; [apply Hfin|done].
Qed.

(** While readings are still needed, a tick shows the loading text. *)
Lemma tick_silent k l (w : W) :
  silent (S k) (sampler_ l) -> (k <= 1)%nat ->
  let '(f, l', _) := tick l w in loading f = true /\ silent k (sampler_ l').
Proof.
  intros Hs Hk. unfold tick.
  assert (forall s w0, silent (S k) s -> let '(f, l', _) :=
    (let '(value, s', w') := sample s w0 in
     match value with
     | None => (loading_frame (config_ l), {| sampler_ := s'; config_ := config_ l |}, w')
     | Some v => (value_frame (config_ l) v, {| sampler_ := s'; config_ := config_ l |}, w')
     end) in loading f = true /\ silent k (sampler_ l')) as Hfin.
  { intros s w0 Hs0. destruct (sample_silent k s w0 Hs0 Hk) as [Hn Hk'].
    destruct (sample s w0) as [[out s'] w']. cbn [fst snd] in *. by subst out. }
  assert (forall s, silent (S k) s -> silent k s) as Hdown.
  { intros s. destruct k as [|[|k']]; cbn; [done| |lia]. tauto. }
  destruct (negb _); [|by apply Hfin].
  destruct (find_game_process w) as [[p|] w1]; [|by split; [|apply Hdown]].
  destruct (attach ps5 p (sampler_ l) w1) as [[ok s] w2] eqn:Ea. destruct ok; cbn [negb].
  - apply Hfin. apply attach_success in Ea as [Ha _]. destruct k as [|[|k']]; cbn in *; [tauto|done|lia].
  - split; [done|]. apply Hdown. by eapply attach_silent.
Qed.

Lemma rounds_spec n l (w : W) :
  length (rounds n l w).1.1 = n /\ Forall (frame_ok (config_ l)) (rounds n l w).1.1.
Proof.
  revert l w; induction n as [|n IH]; intros l w; cbn [rounds]; [done|].
  pose proof (tick_spec l w) as Ht. destruct (tick l w) as [[f l1] w1]. destruct Ht as [Hf Hc].
  specialize (IH l1 (sleep_ms 1000 (render f w1))). rewrite Hc in IH.
  destruct (rounds n l1 _) as [[fs l2] w2]. cbn [fst length] in *.
  destruct IH as [IH1 IH2]. split; [by rewrite IH1|by constructor].
Qed.

Lemma rounds_silent n k l (w : W) :
  silent k (sampler_ l) -> (k <= 2)%nat ->
  Forall (fun f => loading f = true) (take k (rounds n l w).1.1).
Proof.
  revert k l w; induction n as [|n IH]; intros k l w Hs Hk; cbn [rounds]; [by destruct k|].
  destruct k as [|k]; [constructor|].
  pose proof (tick_silent k l w Hs) as Ht. destruct (tick l w) as [[f l1] w1].
  destruct Ht as [Hf Hk']; [lia|]. specialize (IH k l1 (sleep_ms 1000 (render f w1)) Hk').
  destruct (rounds n l1 _) as [[fs l2] w2]. cbn [fst take] in *. constructor; [done|]. apply IH. lia.
Qed.

(** However long the loop runs and whatever the console answers, it renders one frame
    per round; every frame is visible, carries the configuration and the anchor computed
    from it (the anchor never drifts), and shows either the loading text or a rate
    between 0 and 120; the first two frames always show the loading text. *)
Theorem run_frames n cfg (w : W) :
  match run n cfg w with
  | inl code => (initialize w).1 = false /\ code = -1
  | inr frames => length frames = n /\ Forall (frame_ok cfg) frames /\
                  Forall (fun f => loading f = true) (take 2 frames)
  end.
Proof.
  unfold run. destruct (initialize w) as [[|] w1]; cbn [negb]; [|done].
  destruct (rounds_spec n (Lifecycle_make cfg) w1) as [H1 H2]. split; [done|]. split; [done|].
  apply rounds_silent; [done|lia].
Qed.
End Loop.
