(* ===== verification/HookProtocol.v ===== *)
(** The hook protocol between the renderer and the controller:
    [include/common_fps/shellui_hook_protocol.hpp] and [firmware_runtime_policy.hpp].
    Requests and acknowledgements with their packed object representation, the checksum,
    the firmware policy and the validators. *)
From S2P Require Import Prelude.

Definition kShellUiHookRequestMagic : Z := 0x395145524b484643.
Definition kShellUiHookAckMagic : Z := 0x394b43414b484643.
Definition kShellUiHookProtocolVersion : Z := 9.
Definition kShellUiHookPatchSize : nat := 16.
Definition kShellUiAbsoluteJumpPrefix : list Z := [0xff; 0x25; 0; 0; 0; 0].

(** ** Firmware policy *)

Inductive ShellUiHookBackend := Unsupported | Mdbg | PtraceIo.
#[export] Instance ShellUiHookBackend_eq_dec : EqDecision ShellUiHookBackend.
Proof. solve_decision. Defined.

Definition family_of (sdk : Z) : Z := Z.land sdk 0xffff0000.
Definition between (lo x hi : Z) : bool := (lo <=? x) && (x <=? hi).

Definition shellui_hook_backend (sdk : Z) (eta_chain : bool) : ShellUiHookBackend :=
  let family := family_of sdk in
  if between 0x03000000 family 0x08200000 then Mdbg
  else if (family =? 0x09600000) && eta_chain then PtraceIo
  else Unsupported.

Definition shellui_main_thread_guard_backend (sdk : Z) : ShellUiHookBackend :=
  let family := family_of sdk in
  if between 0x01000000 family 0x08200000 || (family =? 0x09000000) then Mdbg
  else if ((0x08300000 <=? family) && (family <? 0x09000000)) ||
          ((0x09000000 <? family) && (family <? 0x09600000)) ||
          ((0x09600000 <? family) && (family <=? 0x10ff0000)) ||
          (family =? 0x11600000)
  then PtraceIo
  else Unsupported.

Definition shellui_hook_probe_backend (sdk : Z) : ShellUiHookBackend :=
  let family := family_of sdk in
  if between 0x01000000 family 0x08200000 || (family =? 0x09000000) then Mdbg
  else if between 0x08300000 family 0x10ff0000 || (family =? 0x11600000) then PtraceIo
  else Unsupported.

Definition firmware_is_fw1160 (sdk : Z) : bool := family_of sdk =? 0x11600000.

(** ** Messages *)

Inductive ShellUiHookAckPhase := PhasePatch | PhaseProbe | PhaseMainThreadGuard.
Definition phase_code (p : ShellUiHookAckPhase) : Z :=
  match p with PhasePatch => 0 | PhaseProbe => 1 | PhaseMainThreadGuard => 2 end.

Inductive ShellUiHookStatus :=
| Success | InvalidRequest | UnsupportedFirmware | AuthFailure | AttachFailure
| ExpectedBytesMismatch | WriteFailure | VerifyFailure | DetachFailure | AuthRestoreFailure.

Definition status_code (s : ShellUiHookStatus) : Z :=
  match s with
  | Success => 0 | InvalidRequest => -1 | UnsupportedFirmware => -2 | AuthFailure => -3
  | AttachFailure => -4 | ExpectedBytesMismatch => -5 | WriteFailure => -6
  | VerifyFailure => -7 | DetachFailure => -8 | AuthRestoreFailure => -9
  end.

Record ShellUiHookRequest := {
  q_magic : Z; q_version : Z; q_pid : Z; q_nonce : Z;
  q_method_address : Z; q_hook_address : Z; q_original_call_address : Z;
  q_patch_size : Z; q_displaced_size : Z;
  q_expected : list Z; q_desired : list Z; q_checksum : Z
}.

Definition ShellUiHookRequest_init : ShellUiHookRequest := {|
  q_magic := kShellUiHookRequestMagic; q_version := kShellUiHookProtocolVersion; q_pid := -1;
  q_nonce := 0; q_method_address := 0; q_hook_address := 0; q_original_call_address := 0;
  q_patch_size := Z.of_nat kShellUiHookPatchSize; q_displaced_size := 0;
  q_expected := repeat 0 kShellUiHookPatchSize; q_desired := repeat 0 kShellUiHookPatchSize;
  q_checksum := 0 |}.

Record ShellUiHookAck := {
  a_magic : Z; a_version : Z; a_pid : Z; a_nonce : Z;
  a_status : Z; a_read_rc : Z; a_write_rc : Z;
  a_verified : Z; a_restored : Z; a_detached : Z; a_auth_restored : Z; a_phase : Z;
  a_observed : list Z; a_checksum : Z
}.

Definition ShellUiHookAck_init : ShellUiHookAck := {|
  a_magic := kShellUiHookAckMagic; a_version := kShellUiHookProtocolVersion; a_pid := -1;
  a_nonce := 0; a_status := status_code InvalidRequest; a_read_rc := -1; a_write_rc := -1;
  a_verified := 0; a_restored := 0; a_detached := 0; a_auth_restored := 0;
  a_phase := phase_code PhasePatch;
  a_observed := repeat 0 kShellUiHookPatchSize; a_checksum := 0 |}.

(** *** Object representation ([#pragma pack(1)]) *)

Definition sizeof_request : nat := 92.
Definition offsetof_request_checksum : nat := 88.
Definition sizeof_ack : nat := 61.
Definition offsetof_ack_checksum : nat := 57.

(** The bytes before the checksum. *)
Definition request_head (q : ShellUiHookRequest) : list Z :=
  le_encode 8 (q_magic q) ++ le_encode 4 (q_version q) ++ le_encode 4 (wrap 32 (q_pid q)) ++
  le_encode 8 (q_nonce q) ++ le_encode 8 (q_method_address q) ++
  le_encode 8 (q_hook_address q) ++ le_encode 8 (q_original_call_address q) ++
  le_encode 4 (q_patch_size q) ++ le_encode 4 (q_displaced_size q) ++
  q_expected q ++ q_desired q.
Definition request_bytes (q : ShellUiHookRequest) : list Z :=
  request_head q ++ le_encode 4 (q_checksum q).

Definition request_of_bytes (b : list Z) : ShellUiHookRequest := {|
  q_magic := field 0 8 b; q_version := field 8 4 b; q_pid := i32 (field 12 4 b);
  q_nonce := field 16 8 b; q_method_address := field 24 8 b; q_hook_address := field 32 8 b;
  q_original_call_address := field 40 8 b; q_patch_size := field 48 4 b;
  q_displaced_size := field 52 4 b;
  q_expected := slice 56 16 b; q_desired := slice 72 16 b; q_checksum := field 88 4 b |}.

Definition ack_head (a : ShellUiHookAck) : list Z :=
  le_encode 8 (a_magic a) ++ le_encode 4 (a_version a) ++ le_encode 4 (wrap 32 (a_pid a)) ++
  le_encode 8 (a_nonce a) ++ le_encode 4 (wrap 32 (a_status a)) ++
  le_encode 4 (wrap 32 (a_read_rc a)) ++ le_encode 4 (wrap 32 (a_write_rc a)) ++
  le_encode 1 (a_verified a) ++ le_encode 1 (a_restored a) ++ le_encode 1 (a_detached a) ++
  le_encode 1 (a_auth_restored a) ++ le_encode 1 (a_phase a) ++ a_observed a.
Definition ack_bytes (a : ShellUiHookAck) : list Z := ack_head a ++ le_encode 4 (a_checksum a).

Definition ack_of_bytes (b : list Z) : ShellUiHookAck := {|
  a_magic := field 0 8 b; a_version := field 8 4 b; a_pid := i32 (field 12 4 b);
  a_nonce := field 16 8 b; a_status := i32 (field 24 4 b); a_read_rc := i32 (field 28 4 b);
  a_write_rc := i32 (field 32 4 b); a_verified := field 36 1 b; a_restored := field 37 1 b;
  a_detached := field 38 1 b; a_auth_restored := field 39 1 b; a_phase := field 40 1 b;
  a_observed := slice 41 16 b; a_checksum := field 57 4 b |}.

(** Values that fit their fields. *)
Record wf_request (q : ShellUiHookRequest) : Prop := {
  wq_magic : in_u 64 (q_magic q); wq_version : in_u 32 (q_version q); wq_pid : in_i 32 (q_pid q);
  wq_nonce : in_u 64 (q_nonce q); wq_method : in_u 64 (q_method_address q);
  wq_hook : in_u 64 (q_hook_address q); wq_original : in_u 64 (q_original_call_address q);
  wq_patch : in_u 32 (q_patch_size q); wq_displaced : in_u 32 (q_displaced_size q);
  wq_expected : length (q_expected q) = kShellUiHookPatchSize /\ bytes_ok (q_expected q);
  wq_desired : length (q_desired q) = kShellUiHookPatchSize /\ bytes_ok (q_desired q);
  wq_checksum : in_u 32 (q_checksum q)
}.

(** ** Checksum *)

Definition checksum_step (hash byte : Z) : Z := u32 (Z.lxor hash byte * 16777619).
Definition shellui_hook_checksum (data : list Z) : Z := fold_left checksum_step data 2166136261.

Definition shellui_hook_request_checksum (q : ShellUiHookRequest) : Z :=
  shellui_hook_checksum (take offsetof_request_checksum (request_bytes q)).
Definition shellui_hook_ack_checksum (a : ShellUiHookAck) : Z :=
  shellui_hook_checksum (take offsetof_ack_checksum (ack_bytes a)).

(** ** Validators *)

Definition byte_at (l : list Z) (i : nat) : Z := nth i l 0.
Definition bytes_eqb (a b : list Z) : bool := bool_decide (a = b).

Definition shellui_hook_is_eta_chain (q : ShellUiHookRequest) : bool :=
  bytes_eqb (take 6 (q_expected q)) kShellUiAbsoluteJumpPrefix.

Definition shellui_user_address (address : Z) : bool :=
  (0x10000 <=? address) && (address <? 0x0000800000000000).

Definition shellui_hook_request_common_is_valid (q : ShellUiHookRequest) (pid : Z) : bool :=
  negb (negb (q_magic q =? kShellUiHookRequestMagic) ||
        negb (q_version q =? kShellUiHookProtocolVersion) ||
        negb (q_pid q =? pid) || (pid <=? 0) || (q_nonce q =? 0) ||
        negb (shellui_user_address (q_method_address q)) ||
        negb (shellui_user_address (u64 (u64 (q_method_address q + Z.of_nat kShellUiHookPatchSize) - 1))) ||
        negb (shellui_user_address (q_hook_address q)) ||
        negb (q_patch_size q =? Z.of_nat kShellUiHookPatchSize) ||
        negb (q_checksum q =? shellui_hook_request_checksum q)).

Definition shellui_hook_request_is_probe (q : ShellUiHookRequest) : bool :=
  q_displaced_size q =? 0.

Definition shellui_hook_request_is_main_thread_guard (q : ShellUiHookRequest) : bool :=
  (q_displaced_size q =? 1) && (q_original_call_address q =? 0) &&
  (q_hook_address q =? q_method_address q).

(** [for (i = from; i < upto; ++i) if (!f(i)) return false] *)
Definition all_from (from upto : nat) (f : nat -> bool) : bool :=
  forallb f (seq from (upto - from)).

Definition shellui_hook_probe_request_is_valid (q : ShellUiHookRequest) (pid : Z) : bool :=
  if negb (shellui_hook_request_common_is_valid q pid) ||
     negb (q_original_call_address q =? 0) || negb (shellui_hook_request_is_probe q)
  then false
  else all_from 0 kShellUiHookPatchSize (fun i =>
         (byte_at (q_expected q) i =? 0) && (byte_at (q_desired q) i =? 0)).

Definition shellui_main_thread_guard_request_is_valid (q : ShellUiHookRequest) (pid : Z) : bool :=
  if negb (shellui_hook_request_common_is_valid q pid) ||
     negb (shellui_hook_request_is_main_thread_guard q) ||
     (byte_at (q_expected q) 0 =? 0xc3) || negb (byte_at (q_desired q) 0 =? 0xc3)
  then false
  else all_from 1 kShellUiHookPatchSize (fun i =>
         byte_at (q_desired q) i =? byte_at (q_expected q) i).

Definition shellui_hook_request_is_valid (q : ShellUiHookRequest) (pid : Z) : bool :=
  if negb (shellui_hook_request_common_is_valid q pid) ||
     negb (shellui_user_address (q_original_call_address q)) ||
     (q_original_call_address q =? q_hook_address q) ||
     (q_original_call_address q =? q_method_address q) ||
     (q_displaced_size q <? 14) || (16 <? q_displaced_size q) ||
     shellui_hook_request_is_probe q || shellui_hook_request_is_main_thread_guard q ||
     negb (bytes_eqb (take 6 (q_desired q)) kShellUiAbsoluteJumpPrefix)
  then false
  else if negb (field 6 8 (q_desired q) =? q_hook_address q) then false
  else
    let displaced := Z.to_nat (q_displaced_size q) in
    if shellui_hook_is_eta_chain q then
      if negb (q_displaced_size q =? 14) ||
         negb (field 6 8 (q_expected q) =? q_original_call_address q) then false
      else all_from displaced kShellUiHookPatchSize (fun i =>
             byte_at (q_desired q) i =? byte_at (q_expected q) i)
    else if negb (all_from 14 displaced (fun i => byte_at (q_desired q) i =? 0x90)) then false
    else all_from displaced kShellUiHookPatchSize (fun i =>
           byte_at (q_desired q) i =? byte_at (q_expected q) i).

(** ** The representation is lossless *)

Lemma length_request_head q :
  wf_request q -> length (request_head q) = offsetof_request_checksum.
Proof.
  intros []. destruct wq_expected0 as [He _]. destruct wq_desired0 as [Hd _].
  unfold request_head. rewrite !length_app, !length_le_encode, He, Hd. done.
Qed.

Lemma request_checksum_head q :
  wf_request q -> shellui_hook_request_checksum q = shellui_hook_checksum (request_head q).
Proof.
  intros Hw. unfold shellui_hook_request_checksum, request_bytes.
  by rewrite take_app_le, take_ge by (rewrite length_request_head by done; unfold offsetof_request_checksum; lia).
Qed.

Lemma wrap_swrap_id z : in_u 32 z -> wrap 32 (swrap 32 z) = z.
Proof.
  intros H. rewrite <- (wrap_small 32 z) at 2 by done. unfold swrap, wrap.
  rewrite Zminus_mod_idemp_l. f_equal. lia.
Qed.

Lemma request_of_request_bytes q :
  wf_request q -> request_of_bytes (request_bytes q) = q.
Proof.
  intros []. pose proof (wrap_range 32 (q_pid q) ltac:(lia)) as Hpid.
  destruct wq_expected0 as [He _]. destruct wq_desired0 as [Hd _].
  destruct q as [mg vs pd nc me hk oc ps ds ex de ck].
  cbn [q_magic q_version q_pid q_nonce q_method_address q_hook_address q_original_call_address
       q_patch_size q_displaced_size q_expected q_desired q_checksum] in *.
  unfold kShellUiHookPatchSize in *.
  unfold request_of_bytes, request_bytes, request_head.
  cbn [q_magic q_version q_pid q_nonce q_method_address q_hook_address q_original_call_address
       q_patch_size q_displaced_size q_expected q_desired q_checksum].
  rewrite <- !(app_assoc (A:=Z)).
  f_equal; next_field; try (apply field_head_enc; assumption).
  - rewrite field_head_enc by assumption. by apply swrap_wrap_id.
  - repeat rewrite slice_skip by (rewrite ?length_le_encode; simpl; lia). rewrite ?length_le_encode.
    by apply slice_head.
  - repeat rewrite slice_skip by (rewrite ?length_le_encode, ?He; simpl; lia).
    rewrite ?length_le_encode, He. by apply slice_head.
  - repeat rewrite field_skip by (rewrite ?length_le_encode, ?He, ?Hd; simpl; lia).
    rewrite ?length_le_encode, He, Hd. by apply field_last_enc.
Qed.

Lemma field_u off n l w : bytes_ok l -> 256 ^ Z.of_nat n = 2 ^ w -> in_u w (field off n l).
Proof. intros H He. unfold in_u. rewrite <- He. by apply field_range. Qed.

Lemma request_bytes_of_bytes b :
  length b = sizeof_request -> bytes_ok b -> request_bytes (request_of_bytes b) = b.
Proof.
  intros Hlen Hb. unfold request_bytes, request_head, request_of_bytes.
  cbn [q_magic q_version q_pid q_nonce q_method_address q_hook_address q_original_call_address
       q_patch_size q_displaced_size q_expected q_desired q_checksum].
  rewrite wrap_swrap_id by (by apply field_u).
  unfold sizeof_request in Hlen.
  rewrite !le_encode_field by (try done; lia).
  rewrite <- !(app_assoc (A:=Z)).
  rewrite (slice_join 72 16 4), (slice_join 56 16 20), (slice_join 52 4 36), (slice_join 48 4 40),
    (slice_join 40 8 44), (slice_join 32 8 52), (slice_join 24 8 60), (slice_join 16 8 68),
    (slice_join 12 4 76), (slice_join 8 4 80), (slice_join 0 8 84).
  by apply slice_all.
Qed.

Lemma request_of_bytes_wf b :
  length b = sizeof_request -> bytes_ok b -> wf_request (request_of_bytes b).
Proof.
  intros Hlen Hb. unfold sizeof_request in Hlen.
  assert (forall off, (off + 16 <= 92)%nat ->
    length (slice off 16 b) = kShellUiHookPatchSize /\ bytes_ok (slice off 16 b)) as Hs.
  { intros off Ho. split; [apply (length_slice off 16); lia|by apply slice_bytes]. }
  split; cbn [q_magic q_version q_pid q_nonce q_method_address q_hook_address
    q_original_call_address q_patch_size q_displaced_size q_expected q_desired q_checksum
    request_of_bytes]; try (by apply field_u); try (apply Hs; lia).
  apply swrap_range. lia.
Qed.

(** The packed 92-byte request is lossless in both directions: reading back what was
    written gives the request, and every 92-byte file denotes exactly one well-formed
    request that would be written back as the same bytes. *)
Theorem request_roundtrip :
  (forall q, wf_request q ->
     length (request_bytes q) = sizeof_request /\ request_of_bytes (request_bytes q) = q) /\
  (forall b, length b = sizeof_request -> bytes_ok b ->
     wf_request (request_of_bytes b) /\ request_bytes (request_of_bytes b) = b).
Proof.
  split.
  - intros q Hq. split; [|by apply request_of_request_bytes].
    unfold request_bytes. rewrite length_app, length_request_head, length_le_encode by done. done.
  - intros b Hl Hb. split; [by apply request_of_bytes_wf|by apply request_bytes_of_bytes].
Qed.

(** ** The checksum detects a damaged byte *)

(** 899433627 inverts the FNV prime modulo 2^32. *)
Lemma fnv_prime_inverse x : in_u 32 x -> u32 (u32 (x * 16777619) * 899433627) = x.
Proof.
  intros Hx. unfold wrap. rewrite Zmult_mod_idemp_l.
  replace (x * 16777619 * 899433627) with (x + (x * 3513497) * 2 ^ 32) by lia.
  rewrite Z_mod_plus_full. by apply Z.mod_small.
Qed.

Lemma lxor_range h b : in_u 32 h -> is_byte b -> in_u 32 (Z.lxor h b).
Proof.
  intros Hh [Hb1 Hb2]. apply lxor_in_u; [done|done|]. change (2 ^ 8) with 256 in Hb2.
  unfold in_u. lia.
Qed.

Lemma lxor_cancel_r h1 h2 b : Z.lxor h1 b = Z.lxor h2 b -> h1 = h2.
Proof.
  intros H. apply (f_equal (fun x => Z.lxor x b)) in H.
  by rewrite !Z.lxor_assoc, Z.lxor_nilpotent, !Z.lxor_0_r in H.
Qed.

Lemma checksum_step_range h b : in_u 32 (checksum_step h b).
Proof. apply wrap_range. lia. Qed.

Lemma checksum_step_xor h1 b1 h2 b2 :
  in_u 32 h1 -> in_u 32 h2 -> is_byte b1 -> is_byte b2 ->
  checksum_step h1 b1 = checksum_step h2 b2 -> Z.lxor h1 b1 = Z.lxor h2 b2.
Proof.
  intros H1 H2 H3 H4 H. unfold checksum_step in H.
  rewrite <- (fnv_prime_inverse (Z.lxor h1 b1)), <- (fnv_prime_inverse (Z.lxor h2 b2)) by (by apply lxor_range).
  by rewrite H.
Qed.

Lemma checksum_fold_range l h : in_u 32 h -> in_u 32 (fold_left checksum_step l h).
Proof. revert h; induction l; intros h H; cbn [fold_left]; [done|]. apply IHl, checksum_step_range. Qed.

Lemma checksum_fold_inj l h1 h2 :
  bytes_ok l -> in_u 32 h1 -> in_u 32 h2 ->
  fold_left checksum_step l h1 = fold_left checksum_step l h2 -> h1 = h2.
Proof.
  intros Hl. revert h1 h2; induction Hl as [|b l Hb Hl IH]; intros h1 h2 H1 H2 H; [done|].
  cbn [fold_left] in H. apply IH in H; [|apply checksum_step_range..].
  apply checksum_step_xor in H; try done. by eapply lxor_cancel_r.
Qed.

(** The checksum of two messages that differ in one byte differs. *)
Lemma checksum_one_byte l i b v :
  bytes_ok l -> l !! i = Some b -> is_byte v -> v <> b ->
  shellui_hook_checksum (<[i := v]> l) <> shellui_hook_checksum l.
Proof.
  intros Hl Hi Hv Hne H. unfold shellui_hook_checksum in H.
  assert (i < length l)%nat as Hlt by (by eapply lookup_lt_Some).
  rewrite <- (take_drop_middle l i b Hi) in H at 2. rewrite insert_take_drop in H by done.
  rewrite !fold_left_app in H. cbn [fold_left] in H.
  assert (in_u 32 (fold_left checksum_step (take i l) 2166136261)) as Hr by (by apply checksum_fold_range).
  apply checksum_fold_inj in H; [|by apply Forall_drop|apply checksum_step_range..].
  apply checksum_step_xor in H; try done; [|by eapply Forall_lookup_1].
  apply Hne. rewrite (Z.lxor_comm _ v), (Z.lxor_comm _ b) in H. by apply lxor_cancel_r in H.
Qed.

(** A message that ends with its checksum does not, after damage to one byte. *)
Lemma checksum_damage n b i old new :
  bytes_ok b -> b !! i = Some old -> is_byte new -> new <> old ->
  le_decode (drop n b) = shellui_hook_checksum (take n b) ->
  le_decode (drop n (<[i := new]> b)) <> shellui_hook_checksum (take n (<[i := new]> b)).
Proof.
  intros Hb Hi Hn Hne Hv E. destruct (decide (i < n)%nat) as [Hlt|Hge].
  - rewrite drop_insert_lt, take_insert_lt in E by done. rewrite Hv in E.
    by apply (checksum_one_byte (take n b) i old new);
      [apply Forall_take|rewrite lookup_take_lt| | |].
  - rewrite take_insert_ge, drop_insert_ge in E by lia. rewrite <- Hv in E.
    apply le_decode_inj in E; [|by apply Forall_insert; [apply Forall_drop|]|by apply Forall_drop|by rewrite length_insert].
    apply (f_equal (fun l => l !! (i - n)%nat)) in E.
    rewrite list_lookup_insert_eq in E.
    + rewrite lookup_drop in E. replace (n + (i - n))%nat with i in E by lia. congruence.
    + rewrite length_drop. apply lookup_lt_Some in Hi. lia.
Qed.

Lemma common_checksum q pid :
  shellui_hook_request_common_is_valid q pid = true ->
  q_checksum q = shellui_hook_request_checksum q.
Proof.
  unfold shellui_hook_request_common_is_valid. rewrite negb_true_iff, !orb_false_iff, !negb_false_iff.
  intros [_ H]. by apply Z.eqb_eq.
Qed.

Lemma checksum_of_bytes b :
  length b = sizeof_request -> bytes_ok b ->
  q_checksum (request_of_bytes b) = le_decode (drop 88 b) /\
  shellui_hook_request_checksum (request_of_bytes b) = shellui_hook_checksum (take 88 b).
Proof.
  intros Hl Hb. unfold shellui_hook_request_checksum. rewrite request_bytes_of_bytes by done.
  split; [|done]. cbn [q_checksum request_of_bytes]. unfold field, slice.
  rewrite (take_ge (drop 88 b)); [done|]. rewrite length_drop, Hl. unfold sizeof_request. lia.
Qed.

(** A request file with a single damaged byte, anywhere in it, is rejected by every
    validator, for every process. *)
Theorem request_corruption_detected b i old new pid pid' :
  length b = sizeof_request -> bytes_ok b -> b !! i = Some old -> is_byte new -> new <> old ->
  shellui_hook_request_common_is_valid (request_of_bytes b) pid = true ->
  let q := request_of_bytes (<[i := new]> b) in
  shellui_hook_request_is_valid q pid' = false /\
  shellui_main_thread_guard_request_is_valid q pid' = false /\
  shellui_hook_probe_request_is_valid q pid' = false.
Proof.
  intros Hl Hb Hi Hn Hne Hv q.
  assert (shellui_hook_request_common_is_valid q pid' = false) as Hq.
  2: { unfold shellui_hook_request_is_valid, shellui_main_thread_guard_request_is_valid,
         shellui_hook_probe_request_is_valid. by rewrite Hq. }
  destruct (shellui_hook_request_common_is_valid q pid') eqn:E; [|done].
  apply common_checksum in Hv, E. subst q.
  assert (bytes_ok (<[i := new]> b)) as Hb' by (by apply Forall_insert).
  destruct (checksum_of_bytes b Hl Hb) as [E1 E2].
  destruct (checksum_of_bytes (<[i := new]> b)) as [E3 E4]; [by rewrite length_insert|done|].
  rewrite E1, E2 in Hv. rewrite E3, E4 in E. exfalso. revert E.
  by apply (checksum_damage 88 b i old new).
Qed.

(** ** What each kind of request asks for *)

Lemma all_from_spec a b f :
  all_from a b f = true -> forall i, (a <= i < b)%nat -> f i = true.
Proof.
  intros H i Hi. unfold all_from in H. rewrite forallb_forall in H. apply H, in_seq. lia.
Qed.

(** Two 16-byte blocks that agree at every index from [n] agree from [n] on. *)
Lemma same_tail d e n :
  length d = kShellUiHookPatchSize -> length e = kShellUiHookPatchSize ->
  all_from n kShellUiHookPatchSize (fun i => byte_at d i =? byte_at e i) = true ->
  drop n d = drop n e.
Proof.
  intros Hd He H. apply (list_eq_same_length _ _ (kShellUiHookPatchSize - n)%nat); [by rewrite length_drop, He|by rewrite length_drop, Hd|].
  intros i x y Hi. rewrite !lookup_drop. intros Hx Hy.
  apply all_from_spec with (i := (n + i)%nat) in H; [|lia]. unfold byte_at in H.
  rewrite !nth_lookup, Hx, Hy in H. by apply Z.eqb_eq in H.
Qed.

(** The absolute jump [jmp [rip+0]; .quad target]. *)
Definition absolute_jump (target : Z) : list Z := kShellUiAbsoluteJumpPrefix ++ le_encode 8 target.

Lemma jump_bytes d target :
  length d = kShellUiHookPatchSize -> bytes_ok d ->
  bytes_eqb (take 6 d) kShellUiAbsoluteJumpPrefix = true -> field 6 8 d = target ->
  take 14 d = absolute_jump target.
Proof.
  intros Hl Hb Hp Ht. apply bool_decide_eq_true in Hp. unfold absolute_jump. rewrite <- Hp, <- Ht.
  rewrite le_encode_field by (rewrite ?Hl; unfold kShellUiHookPatchSize; done || lia).
  change (take 6 d) with (slice 0 6 d). by rewrite (slice_join 0 6 8).
Qed.

Inductive RequestKind := KPatch | KGuard | KProbe.
#[export] Instance RequestKind_eq_dec : EqDecision RequestKind.
Proof. solve_decision. Defined.

Definition kind_valid (k : RequestKind) : ShellUiHookRequest -> Z -> bool :=
  match k with
  | KPatch => shellui_hook_request_is_valid
  | KGuard => shellui_main_thread_guard_request_is_valid
  | KProbe => shellui_hook_probe_request_is_valid
  end.

(** The code change a request asks for: from [expected] to [desired]. *)
Definition asks (k : RequestKind) (q : ShellUiHookRequest) : Prop :=
  match k with
  | KPatch =>
      14 <= q_displaced_size q <= 16 /\
      take 14 (q_desired q) = absolute_jump (q_hook_address q) /\
      drop (Z.to_nat (q_displaced_size q)) (q_desired q) =
        drop (Z.to_nat (q_displaced_size q)) (q_expected q) /\
      q_original_call_address q <> q_hook_address q /\
      q_original_call_address q <> q_method_address q /\
      (shellui_hook_is_eta_chain q = true ->
       take 14 (q_expected q) = absolute_jump (q_original_call_address q) /\ q_displaced_size q = 14)
  | KGuard =>
      exists b, b <> 0xc3 /\ q_expected q = b :: tail (q_expected q) /\
                q_desired q = 0xc3 :: tail (q_expected q)
  | KProbe =>
      q_expected q = repeat 0 kShellUiHookPatchSize /\ q_desired q = repeat 0 kShellUiHookPatchSize
  end.

Lemma common_facts q pid :
  wf_request q -> shellui_hook_request_common_is_valid q pid = true ->
  q_pid q = pid /\ 0 < pid /\ q_nonce q <> 0 /\
  0x10000 <= q_method_address q /\ q_method_address q + 15 < 0x0000800000000000 /\
  shellui_user_address (q_hook_address q) = true.
Proof.
  intros Hw. unfold shellui_hook_request_common_is_valid.
  rewrite negb_true_iff, !orb_false_iff, !negb_false_iff.
  intros [[[[[[[[[_ _] Hp] H0] Hn] Hm] Hm2] Hh] _] _]. pose proof (wq_method _ Hw) as Hr. unfold in_u in Hr.
  unfold shellui_user_address in Hm, Hm2. breflect.
  unfold kShellUiHookPatchSize in Hm2. rewrite (wrap_small 64 (_ + _)) in Hm2 by (unfold in_u; lia).
  rewrite wrap_small in Hm2 by (unfold in_u; lia). split_and!; try done; lia.
Qed.

Lemma all_zero l :
  length l = kShellUiHookPatchSize -> (forall i, (i < kShellUiHookPatchSize)%nat -> byte_at l i = 0) ->
  l = repeat 0 kShellUiHookPatchSize.
Proof.
  intros Hl Hz. apply (list_eq_same_length _ _ kShellUiHookPatchSize); [by rewrite repeat_length|done|].
  intros i x y Hi Hx Hy. specialize (Hz i Hi). unfold byte_at in Hz. rewrite nth_lookup, Hx in Hz.
  apply list_elem_of_lookup_2, list_elem_of_In, repeat_spec in Hy. cbn in Hz. congruence.
Qed.

Lemma probe_asks q pid :
  wf_request q -> shellui_hook_probe_request_is_valid q pid = true -> asks KProbe q.
Proof.
  intros Hw. unfold shellui_hook_probe_request_is_valid. destruct (_ || _); [done|]. intros H.
  destruct (wq_expected _ Hw) as [He _]. destruct (wq_desired _ Hw) as [Hd _].
  split; apply all_zero; try done; intros i Hi; apply all_from_spec with (i := i) in H;
    try lia; breflect; by destruct H.
Qed.

Lemma guard_asks q pid :
  wf_request q -> shellui_main_thread_guard_request_is_valid q pid = true -> asks KGuard q.
Proof.
  intros Hw. unfold shellui_main_thread_guard_request_is_valid. destruct (_ || _) eqn:E; [done|].
  intros H. destruct (wq_expected _ Hw) as [He _]. destruct (wq_desired _ Hw) as [Hd _].
  apply same_tail in H; try done. rewrite !orb_false_iff, negb_false_iff in E.
  destruct E as [[_ E1] E2]. cbn [asks].
  destruct (q_expected q) as [|b e], (q_desired q) as [|b' d]; try done. cbn in *.
  breflect. subst b'. rewrite !drop_0 in H. subst d. by exists b.
Qed.

Lemma patch_asks q pid :
  wf_request q -> shellui_hook_request_is_valid q pid = true -> asks KPatch q.
Proof.
  intros Hw. unfold shellui_hook_request_is_valid. destruct (_ || _) eqn:E; [done|].
  rewrite !orb_false_iff, negb_false_iff in E. destruct E as [[[[[[[[_ _] E1] E2] E3] E4] _] _] E5].
  destruct (negb (field 6 8 (q_desired q) =? q_hook_address q)) eqn:E6; [done|].
  destruct (wq_expected _ Hw) as [He Hbe]. destruct (wq_desired _ Hw) as [Hd Hbd].
  apply negb_false_iff in E5. apply negb_false_iff, Z.eqb_eq in E6. pose proof (jump_bytes _ _ Hd Hbd E5 E6) as Hj.
  apply Z.eqb_neq in E1, E2. apply Z.ltb_ge in E3, E4. cbn [asks].
  destruct (shellui_hook_is_eta_chain q) eqn:Ec.
  - destruct (_ || _) eqn:E7; [done|]. apply orb_false_iff in E7 as [E7 E8].
    apply negb_false_iff, Z.eqb_eq in E7, E8. intros H. apply same_tail in H; try done.
    split_and!; try done. intros _. split; [|done]. by apply jump_bytes.
  - destruct (negb _); [done|]. intros H. apply same_tail in H; try done.
Qed.

(** No request is accepted as two kinds. *)
Lemma kind_valid_unique q pid k k' :
  wf_request q -> kind_valid k q pid = true -> kind_valid k' q pid = true -> k' = k.
Proof.
  intros Hw Hk Hk'.
  assert (forall k0, kind_valid k0 q pid = true -> (q_displaced_size q =? 0) = bool_decide (k0 = KProbe) /\
            (q_displaced_size q =? 1) = bool_decide (k0 = KGuard)) as Hd.
  2: { destruct (Hd k Hk) as [D1 D2], (Hd k' Hk') as [D3 D4]. rewrite D1 in D3. rewrite D2 in D4.
       by destruct k, k'. }
  intros k0 H0. destruct k0; cbn [kind_valid] in H0.
  - apply patch_asks in H0 as [Hr _]; [|done]. split; apply Z.eqb_neq; lia.
  - unfold shellui_main_thread_guard_request_is_valid in H0. destruct (_ || _) eqn:E; [done|].
    rewrite !orb_false_iff, !negb_false_iff in E. destruct E as [[[_ E] _] _].
    unfold shellui_hook_request_is_main_thread_guard in E.
    rewrite !andb_true_iff in E. destruct E as [[E _] _]. rewrite E.
    apply Z.eqb_eq in E. by rewrite E.
  - unfold shellui_hook_probe_request_is_valid in H0. destruct (_ || _) eqn:E; [done|].
    rewrite !orb_false_iff, !negb_false_iff in E. destruct E as [_ E].
    unfold shellui_hook_request_is_probe in E. rewrite E. apply Z.eqb_eq in E. by rewrite E.
Qed.

Lemma kind_valid_common q pid k :
  kind_valid k q pid = true -> shellui_hook_request_common_is_valid q pid = true.
Proof.
  intros Hk. destruct (shellui_hook_request_common_is_valid q pid) eqn:E; [done|].
  destruct k; cbn in Hk; unfold shellui_hook_request_is_valid,
    shellui_main_thread_guard_request_is_valid, shellui_hook_probe_request_is_valid in Hk;
    by rewrite E in Hk.
Qed.

(** C6: a request that a validator accepts asks for what its kind may change and nothing
    else, in the 16 bytes of a method that lie in user space: a probe for no byte, a guard
    for the first byte to become RET (0xC3), a patch for an absolute jump to the hook over
    14 bytes with everything past the displaced instructions untouched; and no request is
    accepted as two kinds. *)
Theorem request_kinds q pid k :
  wf_request q -> kind_valid k q pid = true ->
  asks k q /\ q_pid q = pid /\ 0 < pid /\ q_nonce q <> 0 /\
  0x10000 <= q_method_address q /\ q_method_address q + 15 < 0x0000800000000000 /\
  (forall k', kind_valid k' q pid = true -> k' = k).
Proof.
  intros Hw Hk.
  assert (asks k q) as Ha
    by (destruct k; [by eapply patch_asks|by eapply guard_asks|by eapply probe_asks]).
  pose proof (kind_valid_common q pid k Hk) as Hc.
  pose proof (common_facts q pid Hw Hc) as (H1 & H2 & H3 & H4 & H5 & _).
  split_and!; try done. intros k' Hk'. by apply (kind_valid_unique q pid k).
Qed.

(** ** Witnesses *)

Definition with_checksum (q : ShellUiHookRequest) : ShellUiHookRequest := {|
  q_magic := q_magic q; q_version := q_version q; q_pid := q_pid q; q_nonce := q_nonce q;
  q_method_address := q_method_address q; q_hook_address := q_hook_address q;
  q_original_call_address := q_original_call_address q; q_patch_size := q_patch_size q;
  q_displaced_size := q_displaced_size q; q_expected := q_expected q; q_desired := q_desired q;
  q_checksum := shellui_hook_request_checksum q |}.

(** A guard request for process 77. *)
Definition sample_guard : ShellUiHookRequest := with_checksum {|
  q_magic := kShellUiHookRequestMagic; q_version := kShellUiHookProtocolVersion; q_pid := 77;
  q_nonce := 12345; q_method_address := 0x880001000; q_hook_address := 0x880001000;
  q_original_call_address := 0; q_patch_size := 16; q_displaced_size := 1;
  q_expected := 0x55 :: repeat 0x90 15; q_desired := 0xc3 :: repeat 0x90 15; q_checksum := 0 |}.

Lemma sample_guard_wf : wf_request sample_guard.
Proof.
  split; try (vm_compute; intuition congruence); split; try reflexivity;
    vm_compute; repeat constructor; intuition congruence.
Qed.

Lemma sample_guard_bytes : length (request_bytes sample_guard) = sizeof_request /\
  bytes_ok (request_bytes sample_guard).
Proof.
  split; [reflexivity|]. unfold request_bytes, request_head, sample_guard.
  repeat (apply Forall_app; split); auto with machine; vm_compute; repeat constructor; intuition congruence.
Qed.

Lemma request_kinds_witness : asks KGuard sample_guard.
Proof.
  apply (request_kinds sample_guard 77 KGuard); [apply sample_guard_wf|].
  vm_compute. reflexivity.
Defined.

Lemma request_corruption_detected_witness :
  let q := request_of_bytes (<[12%nat := 78]> (request_bytes sample_guard)) in
  shellui_hook_request_is_valid q 78 = false /\
  shellui_main_thread_guard_request_is_valid q 78 = false /\
  shellui_hook_probe_request_is_valid q 78 = false.
Proof.
  apply (request_corruption_detected _ 12 77 78 77 78).
  - apply sample_guard_bytes.
  - apply sample_guard_bytes.
  - vm_compute. reflexivity.
  - vm_compute. intuition congruence.
  - discriminate.
  - vm_compute. reflexivity.
Defined.
