(* ===== verification/Debugger.v ===== *)
(** The debugger primitives of the controller: the system calls they rest on,
    [include/common_fps/shellui_code_read.hpp] (exact transfers and the firmware-gated
    read fallback) and [src/ps5/shellui_mdbg_io.cpp] (transfers through the MDBG system
    call inside a credential window). *)
From S2P Require Import Prelude Effects HookProtocol.

(** Error numbers and protection bits of the console's FreeBSD headers. *)
Definition EPERM : Z := 1.
Definition EIO : Z := 5.
Definition EFAULT : Z := 14.
Definition EINVAL : Z := 22.
Definition ENOTSUP : Z := 45.
Definition PROT_READ : Z := 1.
Definition PROT_WRITE : Z := 2.
Definition PROT_EXEC : Z := 4.

(** ** System calls *)

Inductive Path := RequestPath | RequestTempPath | AckPath | AckTempPath.
#[export] Instance Path_eq_dec : EqDecision Path.
Proof. solve_decision. Defined.

(** Reply of the MDBG system call. *)
Record MdbgReply := { x_rc : Z; x_errno : Z; x_status : Z; x_length : Z; x_data : list Z }.

Inductive sys :=
| GetAuth | SetAuth (v : Z)                    (** [kernel_(get|set)_ucred_authid(getpid())] *)
| GetCaps | SetCaps (c : list Z)               (** [kernel_(get|set)_ucred_caps(getpid())] *)
| MdbgRead (pid address : Z) (size : Z)        (** syscall 573, operation 0x12 *)
| MdbgWrite (pid address : Z) (bytes : list Z) (** syscall 573, operation 0x13 *)
| MdbgCopyout (pid address : Z) (size : nat)
| MdbgCopyin (pid address : Z) (bytes : list Z)
| PtCopyout (pid address : Z) (size : nat)
| PtCopyin (pid address : Z) (bytes : list Z)
| PtAttach (pid : Z) | PtDetach (pid : Z) | KillCont (pid : Z)
| GetProt (pid address : Z)                    (** [kernel_get_vmem_protection(_, _, 1)] *)
| Mprotect (pid address size prot : Z)
| FirmwareSdk
| FOpen (p : Path) (write : bool) | FRead (size : nat) | FGetc | FWrite (bytes : list Z)
| FFlush | FClose
| Rename (from to : Path) | Unlink (p : Path).

(** Answers: result codes, with [errno] where the code reads it, and the bytes copied. *)
Definition sys_ret (c : sys) : Type :=
  match c with
  | GetCaps => option (list Z)
  | MdbgRead _ _ _ | MdbgWrite _ _ _ => MdbgReply
  | MdbgCopyout _ _ _ | PtCopyout _ _ _ => Z * list Z
  | PtCopyin _ _ _ => Z * Z
  | FOpen _ _ => bool
  | FRead _ => list Z
  | FGetc => option Z
  | _ => Z
  end.

Abbreviation sprog := (prog sys_ret).
Definition sysc (c : sys) : sprog (sys_ret c) := call c.

(** [n] bytes of a buffer a call wrote [l] into: bytes, zero past what was written. *)
Definition buffer (n : nat) (l : list Z) : list Z := take n (map u8 l ++ repeat 0 n).

Lemma length_buffer n l : length (buffer n l) = n.
Proof. unfold buffer. rewrite length_take, length_app, repeat_length. lia. Qed.

Lemma buffer_bytes n l : bytes_ok (buffer n l).
Proof.
  unfold buffer. apply Forall_take, Forall_app. split.
  - apply Forall_map, Forall_forall. intros x _. apply wrap_range. lia.
  - apply Forall_forall. intros x Hx. apply list_elem_of_In, repeat_spec in Hx as ->. done.
Qed.

Section Programs.
Local Open Scope prog_scope.

(** ** shellui_code_read.hpp *)

Record DebuggerReadChunk := { ch_syscall_rc : Z; ch_status : Z; ch_bytes : Z }.

(** One step of [debugger_transfer_exact]: the error of a chunk. *)
Definition chunk_error (r : DebuggerReadChunk) (remaining : Z) : Z :=
  let error := if negb (ch_syscall_rc r =? 0) then ch_syscall_rc r else ch_status r in
  if (error =? 0) && ((ch_bytes r =? 0) || (remaining <? ch_bytes r)) then EIO else error.

(** The loop; [fuel] rounds, [data] what the chunks have transferred. *)
Fixpoint transfer_loop (fuel : nat) (size offset : Z) (data : list Z)
    (transfer_chunk : Z -> Z -> sprog (DebuggerReadChunk * list Z)) : sprog (Z * list Z) :=
  if size <=? offset then Ret (0, data)
  else match fuel with
       | O => Ret (EIO, data)
       | S f =>
           let* (r, bytes) := transfer_chunk offset (size - offset) in
           let error := chunk_error r (size - offset) in
           if negb (error =? 0) then Ret (error, data)
           else transfer_loop f size (offset + ch_bytes r) (data ++ bytes) transfer_chunk
       end.

(** Every chunk transfers at least one byte: [size] rounds are enough. *)
Definition debugger_transfer_exact (size : Z)
    (transfer_chunk : Z -> Z -> sprog (DebuggerReadChunk * list Z)) : sprog (Z * list Z) :=
  if size =? 0 then Ret (EINVAL, [])
  else transfer_loop (Z.to_nat size) size 0 [] transfer_chunk.

Record ShellUiCodeReadResult := {
  rd_rc : Z; rd_primary_rc : Z; rd_fallback_rc : Z; rd_fallback_attempted : bool
}.

(** [read_shellui_code] into a non-null buffer of [size] bytes. *)
Definition read_shellui_code (sdk : Z) (backend : ShellUiHookBackend) (size : nat)
    (ptrace_read mdbg_read : nat -> sprog (Z * list Z))
    : sprog (ShellUiCodeReadResult * list Z) :=
  let zero := repeat 0 size in
  if (size =? 0)%nat then
    Ret ({| rd_rc := EINVAL; rd_primary_rc := -1; rd_fallback_rc := -1;
            rd_fallback_attempted := false |}, zero)
  else match backend with
  | Unsupported =>
      Ret ({| rd_rc := ENOTSUP; rd_primary_rc := -1; rd_fallback_rc := -1;
              rd_fallback_attempted := false |}, zero)
  | _ =>
      let* (primary, data) := (match backend with
                               | Mdbg => mdbg_read size
                               | _ => ptrace_read size
                               end) in
      if bool_decide (backend = PtraceIo) && firmware_is_fw1160 sdk && (primary =? EFAULT) then
        let* (fallback, data2) := mdbg_read size in
        Ret ({| rd_rc := fallback; rd_primary_rc := primary; rd_fallback_rc := fallback;
                rd_fallback_attempted := true |},
             if negb (fallback =? 0) then zero else data2)
      else
        Ret ({| rd_rc := primary; rd_primary_rc := primary; rd_fallback_rc := -1;
                rd_fallback_attempted := false |},
             if negb (primary =? 0) then zero else data)
  end.

(** ** shellui_mdbg_io.cpp *)

Definition kCoredumpAuth : Z := 0x4800000000000006.
Definition privileged_caps : list Z := repeat 0xff 16.

(** The result of the system call: [errno] for -1. *)
Definition errno_of (rc err : Z) : Z := if rc =? -1 then (if negb (err =? 0) then err else EIO) else rc.

Definition mdbg_chunk (write : option Z) (pid address offset remaining : Z)
    : sprog (DebuggerReadChunk * list Z) :=
  let* reply := match write with
                | None => sysc (MdbgRead pid (u64 (address + offset)) remaining)
                | Some byte => sysc (MdbgWrite pid (u64 (address + offset)) [byte])
                end in
  Ret ({| ch_syscall_rc := errno_of (x_rc reply) (x_errno reply); ch_status := x_status reply;
          ch_bytes := u64 (x_length reply) |},
       buffer (Z.to_nat (Z.min remaining (u64 (x_length reply)))) (x_data reply)).

(** [transfer_exact] between the target and a non-null local buffer of [size] bytes:
    a read ([write = None]) or the write of one byte. *)
Definition transfer_exact (write : option Z) (pid address size : Z) : sprog (Z * list Z) :=
  let zero := repeat 0 (Z.to_nat size) in
  if (pid <=? 0) || (size =? 0) || (Z.of_nat kShellUiHookPatchSize <? size) ||
     (bool_decide (write <> None) && negb (size =? 1)) ||
     negb (shellui_user_address address) ||
     negb (shellui_user_address (u64 (u64 (address + size) - 1)))
  then Ret (EINVAL, zero)
  else
    let* original_auth := sysc GetAuth in
    if original_auth =? 0 then Ret (EIO, zero)
    else
      let* original_caps := sysc GetCaps in
      match original_caps with
      | None => Ret (EIO, zero)
      | Some caps0 =>
          let caps := buffer 16 caps0 in
          let* auth_rc := sysc (SetAuth kCoredumpAuth) in
          let* (result, data) :=
            (if auth_rc =? 0 then
               let* caps_rc := sysc (SetCaps privileged_caps) in
               if caps_rc =? 0 then debugger_transfer_exact size (mdbg_chunk write pid address)
               else Ret (EIO, zero)
             else Ret (EIO, zero)) in
          let* auth_set := sysc (SetAuth original_auth) in
          let* caps_set := sysc (SetCaps caps) in
          let* auth_restored := (if auth_set =? 0 then
                                   let* a := sysc GetAuth in Ret (a =? original_auth)
                                 else Ret false) in
          let* caps_restored := (if caps_set =? 0 then
                                   let* c := sysc GetCaps in
                                   Ret (match c with
                                        | Some c0 => bytes_eqb (buffer 16 c0) caps
                                        | None => false
                                        end)
                                 else Ret false) in
          let result' := if negb auth_restored || negb caps_restored then EIO else result in
          Ret (result', if negb (result' =? 0) then zero else data)
      end.

Definition shellui_mdbg_read_exact (pid address : Z) (size : nat) : sprog (Z * list Z) :=
  transfer_exact None pid address (Z.of_nat size).
Definition shellui_mdbg_write_byte (pid address byte : Z) : sprog Z :=
  let* (rc, _) := transfer_exact (Some byte) pid address 1 in Ret rc.
End Programs.

Lemma bytes_eqb_refl l : bytes_eqb l l = true.
Proof. unfold bytes_eqb. by apply bool_decide_eq_true_2. Qed.

Lemma bytes_eqb_eq a b : bytes_eqb a b = true <-> a = b.
Proof. apply bool_decide_eq_true. Qed.

(** ** The exact transfer loop *)

(** [fuel] rounds are enough as soon as they are as many as the bytes that remain: the
    result does not depend on the fuel any more. *)
Lemma chunk_error_zero r remaining :
  chunk_error r remaining = 0 -> 0 <= ch_bytes r -> 0 < ch_bytes r <= remaining.
Proof.
  unfold chunk_error. destruct (_ && _) eqn:E; [by unfold EIO|]. intros H. rewrite H in E. cbn in E. breflect. lia.
Qed.

(** ** The credential window of an MDBG transfer *)

(** Where a transfer of [size] bytes at [address] stands.  [next] is the first byte not
    transferred yet; [live] holds until a chunk fails. *)
Inductive Window :=
| WIdle
| WAuth (auth : Z)
| WSaved (auth : Z) (caps : list Z)
| WRaised (auth : Z) (caps : list Z) (ok : bool)
| WOpen (auth : Z) (caps : list Z) (next : Z) (live : bool)
| WAuthBack (auth : Z) (caps : list Z) (full ok : bool)
| WClosed (auth : Z) (caps : list Z) (full auth_ok caps_ok : bool).

(** The reply to a chunk of at most [remaining] bytes. *)
Definition reply_chunk (x : MdbgReply) : DebuggerReadChunk :=
  {| ch_syscall_rc := errno_of (x_rc x) (x_errno x); ch_status := x_status x;
     ch_bytes := u64 (x_length x) |}.

Section Window.
Context (write : option Z) (pid address size : Z).

Definition window_chunk (m : Window) (p a n : Z) (x : MdbgReply) : option Window :=
  match m with
  | WOpen auth caps next live =>
      if live && (p =? pid) && (a =? u64 next) && (n =? address + size - next) && (0 <? n)
      then Some (if chunk_error (reply_chunk x) n =? 0
                 then WOpen auth caps (next + u64 (x_length x)) true
                 else WOpen auth caps next false)
      else None
  | _ => None
  end.

(** The contract: save both credentials, raise the authority, raise the capabilities,
    transfer contiguous chunks only in between, give back exactly what was saved; the
    checks afterwards count only if they read back the saved values. *)
Definition window_step (m : Window) (e : event sys_ret) : option Window :=
  match e with
  | Ev GetAuth r =>
      match m with
      | WIdle => Some (WAuth r)
      | WClosed a c f ao co => Some (WClosed a c f (ao && (r =? a)) co)
      | _ => None
      end
  | Ev GetCaps r =>
      match m with
      | WAuth a => Some (match r with Some c => WSaved a (buffer 16 c) | None => WAuth a end)
      | WClosed a c f ao co =>
          Some (WClosed a c f ao (co && match r with Some c' => bytes_eqb (buffer 16 c') c | None => false end))
      | _ => None
      end
  | Ev (SetAuth v) rc =>
      match m with
      | WSaved a c => if v =? kCoredumpAuth then Some (WRaised a c (rc =? 0)) else None
      | WRaised a c _ => if v =? a then Some (WAuthBack a c false (rc =? 0)) else None
      | WOpen a c next live =>
          if v =? a then Some (WAuthBack a c (live && (next =? address + size)) (rc =? 0)) else None
      | _ => None
      end
  | Ev (SetCaps v) rc =>
      match m with
      | WRaised a c true => if bytes_eqb v privileged_caps then Some (WOpen a c address (rc =? 0)) else None
      | WAuthBack a c f ao => if bytes_eqb v c then Some (WClosed a c f ao (rc =? 0)) else None
      | _ => None
      end
  | Ev (MdbgRead p a n) x => if bool_decide (write = None) then window_chunk m p a n x else None
  | Ev (MdbgWrite p a b) x =>
      match write with
      | Some byte => if bytes_eqb b [byte] then window_chunk m p a 1 x else None
      | None => None
      end
  | _ => None
  end.

Abbreviation wwp := (wp window_step).

(** The loop from [offset]: it ends with everything transferred exactly when it returns
    0, and then it has collected one byte for each. *)
Lemma transfer_loop_wp fuel auth caps offset data Q :
  0 <= offset -> offset < size -> size <= 16 -> (write <> None -> size = 1) ->
  0x10000 <= address -> address + size < 2 ^ 63 -> size - offset <= Z.of_nat fuel ->
  Z.of_nat (length data) = offset ->
  (forall rc data' next live,
     (rc = 0 -> live = true /\ next = address + size /\ Z.of_nat (length data') = size) ->
     Q (rc, data') (WOpen auth caps next live)) ->
  wwp (transfer_loop fuel size offset data (mdbg_chunk write pid address))
      (WOpen auth caps (address + offset) true) Q.
Proof.
  revert offset data. induction fuel as [|fuel IH]; intros offset data Ho Hs Hz Hw Ha Hb Hf Hl HQ; [lia|].
  cbn [transfer_loop]. replace (size <=? offset) with false by (symmetry; breflect; lia).
  (* both kinds of chunk leave the same window *)
  assert (forall x : MdbgReply, exists m',
    window_chunk (WOpen auth caps (address + offset) true) pid (u64 (address + offset)) (size - offset) x = Some m' /\
    wwp (bindp (Ret (reply_chunk x, buffer (Z.to_nat (Z.min (size - offset) (u64 (x_length x)))) (x_data x)))
           (fun '(r, bytes) =>
              if negb (chunk_error r (size - offset) =? 0) then Ret (chunk_error r (size - offset), data)
              else transfer_loop fuel size (offset + ch_bytes r) (data ++ bytes) (mdbg_chunk write pid address)))
        m' Q) as Hx.
  { intros x. unfold window_chunk. rewrite !Z.eqb_refl.
    replace (size - offset =? address + size - (address + offset)) with true by (symmetry; breflect; lia).
    replace (0 <? size - offset) with true by (symmetry; breflect; lia). cbn [andb].
    eexists. split; [reflexivity|]. cbn [bindp]. destruct (chunk_error _ _ =? 0) eqn:E; cbn [negb].
    - apply Z.eqb_eq in E. pose proof (wrap_range 64 (x_length x) ltac:(lia)) as Hr. unfold in_u in Hr.
      apply chunk_error_zero in E; cbn [ch_bytes reply_chunk] in *; [|lia].
      set (k := u64 (x_length x)) in *.
      destruct (decide (offset + k < size)) as [Hlt|Hge].
      + replace (address + offset + k) with (address + (offset + k)) by lia.
        apply IH; try done; try lia. rewrite length_app, length_buffer. lia.
      + assert (offset + k = size) as Hk by lia.
        destruct fuel; cbn [transfer_loop];
          replace (size <=? offset + k) with true by (symmetry; breflect; lia); cbn [wp];
          apply HQ; intros _; rewrite length_app, length_buffer; split_and!; try done; lia.
    - cbn [wp]. apply HQ. intros H0. rewrite H0 in E. done. }
  destruct write as [byte|] eqn:Ew; cbn [mdbg_chunk bindp sysc wp]; intros x; destruct (Hx x) as (m' & Hm & Hwp).
  - cbn [window_step]. rewrite Ew. rewrite bytes_eqb_refl.
    assert (size - offset = 1) as H1 by (assert (size = 1) by (by apply Hw); lia). rewrite H1 in Hm.
    by rewrite Hm.
  - cbn [window_step]. rewrite Ew, bool_decide_eq_true_2 by done. by rewrite Hm.
Qed.
End Window.

(** How a transfer may end. *)
Definition transfer_end (size : Z) (r : Z * list Z) (m : Window) : Prop :=
  (r.1 <> 0 -> r.2 = repeat 0 (Z.to_nat size)) /\ length r.2 = Z.to_nat size /\
  match m with
  | WIdle => r.1 = EINVAL
  | WAuth _ => r.1 = EIO
  | WClosed _ _ full auth_ok caps_ok => r.1 = 0 -> full = true /\ auth_ok = true /\ caps_ok = true
  | _ => False
  end.

(** The two restores and their checks. *)
Lemma give_back_wp write pid address size auth caps m result data :
  0 <= size ->
  (exists ok, m = WRaised auth caps ok /\ result <> 0) \/
  (exists next live, m = WOpen auth caps next live /\
     (result = 0 -> live = true /\ next = address + size /\ Z.of_nat (length data) = size)) ->
  wp (window_step write pid address size)
    (bindp (sysc (SetAuth auth)) (fun auth_set =>
     bindp (sysc (SetCaps caps)) (fun caps_set =>
     bindp (if auth_set =? 0 then bindp (sysc GetAuth) (fun a => Ret (a =? auth)) else Ret false)
       (fun auth_restored =>
     bindp (if caps_set =? 0 then bindp (sysc GetCaps) (fun c =>
              Ret match c with Some c0 => bytes_eqb (buffer 16 c0) caps | None => false end)
            else Ret false) (fun caps_restored =>
     let result' := if negb auth_restored || negb caps_restored then EIO else result in
     Ret (result', if negb (result' =? 0) then repeat 0 (Z.to_nat size) else data))))))
    m (transfer_end size).
Proof.
  intros Hs Hm. intros ra. cbn [window_step].
  assert (exists full, (result = 0 -> full = true /\ length data = Z.to_nat size) /\
    match m with
    | WRaised a c _ => if auth =? a then Some (WAuthBack a c false (ra =? 0)) else None
    | WOpen a c next live => if auth =? a then Some (WAuthBack a c (live && (next =? address + size)) (ra =? 0)) else None
    | _ => None
    end = Some (WAuthBack auth caps full (ra =? 0))) as (full & Hfull & Hstep).
  { destruct Hm as [(ok & -> & Hr)|(next & live & -> & Hr)]; rewrite Z.eqb_refl; eexists; split; [|done| |done].
    - done.
    - intros H0. destruct (Hr H0) as (-> & -> & Hl). rewrite Z.eqb_refl. split; [done|lia]. }
  assert (window_step write pid address size m (Ev (SetAuth auth) ra) = Some (WAuthBack auth caps full (ra =? 0)))
    as Hstep' by (destruct Hm as [(ok & -> & _)|(next & live & -> & _)]; exact Hstep).
  cbn [window_step] in Hstep'. rewrite Hstep'. cbn [bindp sysc call].
  intros rc. cbn [window_step]. rewrite bytes_eqb_refl.
  assert (forall ao co af cf,
    (af = true -> ao = true) -> (cf = true -> co = true) ->
    transfer_end size
      (if negb af || negb cf then EIO else result,
       if negb ((if negb af || negb cf then EIO else result) =? 0) then repeat 0 (Z.to_nat size) else data)
      (WClosed auth caps full ao co)) as Hend.
  { intros ao co af cf H1 H2. unfold transfer_end. cbn [fst snd].
    destruct (negb af || negb cf) eqn:Ex.
    - change (EIO =? 0) with false. cbn [negb]. rewrite repeat_length. done.
    - apply orb_false_iff in Ex as [E1 E2]. apply negb_false_iff in E1, E2.
      destruct (result =? 0) eqn:E0; cbn [negb]; breflect.
      + destruct (Hfull E0) as [-> Hl]. split; [by intros []|]. split; [done|]. intros _. auto.
      + rewrite repeat_length. split_and!; done. }
  destruct (ra =? 0); destruct (rc =? 0); cbn [bindp sysc call wp].
  - intros a. cbn [window_step andb]. intros c. cbn [window_step bindp wp]. apply Hend; [done|].
    by destruct c.
  - intros a. cbn [window_step andb bindp wp]. by apply Hend.
  - intros c. cbn [window_step andb bindp wp]. apply Hend; [done|]. by destruct c.
  - by apply Hend.
Qed.

Lemma transfer_exact_wp write pid address size :
  0 <= size -> (write <> None -> size = 1) -> in_u 64 address ->
  wp (window_step write pid address size) (transfer_exact write pid address size) WIdle
     (transfer_end size).
Proof.
  intros Hs Hw Hu. unfold transfer_exact. destruct (_ || _) eqn:E.
  { unfold transfer_end; cbn [wp fst snd]. by rewrite repeat_length. }
  rewrite !orb_false_iff, !negb_false_iff in E. destruct E as [[[[[_ E2] E3] _] E4] _].
  unfold kShellUiHookPatchSize in E3. unfold shellui_user_address in E4. breflect.
  intros auth. cbn [window_step bindp sysc call wp]. destruct (auth =? 0).
  { unfold transfer_end; cbn [wp fst snd]. by rewrite repeat_length. }
  intros caps. cbn [window_step]. destruct caps as [caps0|]; cbn [bindp wp].
  2: { unfold transfer_end; cbn [wp fst snd]. by rewrite repeat_length. }
  intros ra. cbn [window_step]. rewrite Z.eqb_refl. apply wp_bind.
  destruct (ra =? 0); cbn [bindp sysc call wp].
  2: { apply give_back_wp; [done|]. left. exists false. by unfold EIO. }
  intros rc. cbn [window_step]. rewrite bytes_eqb_refl.
  destruct (rc =? 0).
  - unfold debugger_transfer_exact. replace (size =? 0) with false by (symmetry; breflect; lia).
    rewrite <- (Z.add_0_r address) at 3. apply transfer_loop_wp; try done; try lia.
    intros res data next live Hr. apply give_back_wp; [done|]. right. exists next, live. done.
  - cbn [wp]. apply give_back_wp; [done|]. right. exists address, false. done.
Qed.

(** A transfer through the MDBG system call, whatever the kernel answers: chunks are
    transferred only between raising and giving back both credentials, contiguously from
    the first byte and never past the last; what is given back is exactly what was saved,
    also when raising failed half way; and the result is 0 only when every byte was
    transferred and both credentials were read back as saved.  Otherwise the whole buffer
    is zero. *)
Theorem mdbg_transfer_window write pid address size t r :
  0 <= size -> (write <> None -> size = 1) -> in_u 64 address ->
  exec (transfer_exact write pid address size) t r ->
  exists m, monitor (window_step write pid address size) WIdle t = Some m /\ transfer_end size r m.
Proof.
  intros Hs Hw Hu He. by apply (wp_sound _ _ _ _ (transfer_exact_wp write pid address size Hs Hw Hu)).
Qed.

(** ** Transfers under another contract

    For a client whose own monitor lets credential calls pass ([cred_ok]) and follows the
    chunks with a relation [J] between the bytes collected and its state. *)
Section Frame.
Context {M : Type} (step : M -> event sys_ret -> option M) (write : option Z) (pid address size : Z).
Context (J : list Z -> M -> Prop).

Definition is_cred (e : event sys_ret) : Prop :=
  match e with Ev GetAuth _ | Ev (SetAuth _) _ | Ev GetCaps _ | Ev (SetCaps _) _ => True | _ => False end.

Definition chunk_event (offset : Z) (x : MdbgReply) : event sys_ret :=
  match write with
  | None => Ev (MdbgRead pid (u64 (address + offset)) (size - offset)) x
  | Some byte => Ev (MdbgWrite pid (u64 (address + offset)) [byte]) x
  end.

Definition chunk_bytes (offset : Z) (x : MdbgReply) : list Z :=
  buffer (Z.to_nat (Z.min (size - offset) (u64 (x_length x)))) (x_data x).

(** [K] holds at all times, [J] of what has been collected. *)
Context (K : M -> Prop).
Hypothesis cred_ok : forall m e, is_cred e -> K m ->
  exists m', step m e = Some m' /\ K m' /\ forall d, J d m -> J d m'.
Hypothesis chunk_ok : forall d m x,
  K m -> J d m -> Z.of_nat (length d) < size ->
  exists m', step m (chunk_event (Z.of_nat (length d)) x) = Some m' /\ K m' /\
    (chunk_error (reply_chunk x) (size - Z.of_nat (length d)) = 0 ->
     J (d ++ chunk_bytes (Z.of_nat (length d)) x) m').

Lemma transfer_loop_frame fuel d m Q :
  K m -> J d m -> Z.of_nat (length d) <= size -> size - Z.of_nat (length d) <= Z.of_nat fuel ->
  (forall rc d' m', K m' -> (rc = 0 -> J d' m' /\ Z.of_nat (length d') = size) -> Q (rc, d') m') ->
  wp step (transfer_loop fuel size (Z.of_nat (length d)) d (mdbg_chunk write pid address)) m Q.
Proof.
  revert d m. induction fuel as [|fuel IH]; intros d m HK HJ Hle Hf HQ; cbn [transfer_loop];
    destruct (size <=? Z.of_nat (length d)) eqn:E;
    try (cbn [wp]; apply HQ; [done|]; intros _; split; [done|]; apply Z.leb_le in E; lia);
    apply Z.leb_gt in E; [lia|].
  assert (forall x, exists m', step m (chunk_event (Z.of_nat (length d)) x) = Some m' /\
    wp step (bindp (Ret (reply_chunk x, chunk_bytes (Z.of_nat (length d)) x))
           (fun '(r, bytes) =>
              if negb (chunk_error r (size - Z.of_nat (length d)) =? 0)
              then Ret (chunk_error r (size - Z.of_nat (length d)), d)
              else transfer_loop fuel size (Z.of_nat (length d) + ch_bytes r) (d ++ bytes) (mdbg_chunk write pid address)))
        m' Q) as Hx.
  { intros x. destruct (chunk_ok d m x HK HJ E) as (m' & Hm & HK' & HJ'). exists m'. split; [done|].
    cbn [bindp]. destruct (chunk_error _ _ =? 0) eqn:E0; cbn [negb].
    - apply Z.eqb_eq in E0. specialize (HJ' E0).
      pose proof (wrap_range 64 (x_length x) ltac:(lia)) as Hr. unfold in_u in Hr.
      apply chunk_error_zero in E0; cbn [ch_bytes reply_chunk] in *; [|lia].
      assert (Z.of_nat (length (d ++ chunk_bytes (Z.of_nat (length d)) x)) =
              Z.of_nat (length d) + u64 (x_length x)) as Hlen
        by (unfold chunk_bytes; rewrite length_app, length_buffer; lia).
      rewrite <- Hlen. apply IH; try done; lia.
    - cbn [wp]. apply HQ; [done|]. intros H0. by rewrite H0 in E0. }
  unfold chunk_event in Hx.
  destruct write as [byte|]; cbn [mdbg_chunk bindp sysc call wp]; intros x;
    destruct (Hx x) as (m' & Hm & Hwp); by rewrite Hm.
Qed.

Definition is_cred_call (c : sys) : bool :=
  match c with GetAuth | SetAuth _ | GetCaps | SetCaps _ => true | _ => false end.

Lemma cred_wp c m Q :
  is_cred_call c = true -> K m ->
  (forall r m', K m' -> (forall d, J d m -> J d m') -> Q r m') -> wp step (sysc c) m Q.
Proof.
  intros Hc HK HQ r. assert (is_cred (Ev c r)) as He by (by destruct c).
  destruct (cred_ok m (Ev c r) He HK) as (m' & -> & HK' & HJ). by apply HQ.
Qed.

Lemma transfer_exact_frame m Q :
  0 <= size -> K m -> J [] m ->
  (forall rc d m', K m' -> (rc = 0 -> J d m' /\ length d = Z.to_nat size) -> Q (rc, d) m') ->
  wp step (transfer_exact write pid address size) m Q.
Proof.
  intros Hs HK HJ HQ. unfold transfer_exact. destruct (_ || _) eqn:E; [by apply HQ|].
  rewrite !orb_false_iff in E. destruct E as [[[[[_ E2] _] _] _] _].
  apply wp_bind, cred_wp; [done..|]. intros auth m1 HK1 HJ1. destruct (auth =? 0); [by apply HQ|].
  apply wp_bind, cred_wp; [done..|]. intros [caps|] m2 HK2 HJ2; [|by apply HQ].
  apply wp_bind, cred_wp; [done..|]. intros ra m3 HK3 HJ3. apply wp_bind.
  (* giving the credentials back *)
  assert (forall rc d m', K m' -> (rc = 0 -> J d m' /\ Z.of_nat (length d) = size) ->
    wp step (bindp (sysc (SetAuth auth)) (fun auth_set =>
     bindp (sysc (SetCaps (buffer 16 caps))) (fun caps_set =>
     bindp (if auth_set =? 0 then bindp (sysc GetAuth) (fun a => Ret (a =? auth)) else Ret false)
       (fun auth_restored =>
     bindp (if caps_set =? 0 then bindp (sysc GetCaps) (fun c =>
              Ret match c with Some c0 => bytes_eqb (buffer 16 c0) (buffer 16 caps) | None => false end)
            else Ret false) (fun caps_restored =>
     let result' := if negb auth_restored || negb caps_restored then EIO else rc in
     Ret (result', if negb (result' =? 0) then repeat 0 (Z.to_nat size) else d)))))) m' Q) as Hback.
  { intros rc d m4 HK4 HJ4.
    assert (forall af cf m', K m' -> (forall d, J d m4 -> J d m') ->
      Q (if negb af || negb cf then EIO else rc,
         if negb ((if negb af || negb cf then EIO else rc) =? 0) then repeat 0 (Z.to_nat size) else d) m') as Hend.
    { intros af cf m' HK' HJ'. destruct (_ || _); [by apply HQ|]. apply HQ; [done|].
      intros ->. destruct (HJ4 eq_refl) as [H1 H2]. split; [by apply HJ'|]. cbn. lia. }
    apply wp_bind, cred_wp; [done..|]. intros r1 m5 HK5 HJ5.
    apply wp_bind, cred_wp; [done..|]. intros r2 m6 HK6 HJ6. apply wp_bind.
    destruct (r1 =? 0).
    - apply wp_bind, cred_wp; [done..|]. intros r3 m7 HK7 HJ7. cbn [wp]. apply wp_bind.
      destruct (r2 =? 0); [|cbn [wp]; apply Hend; auto].
      apply wp_bind, cred_wp; [done..|]. intros r4 m8 HK8 HJ8. cbn [wp]. apply Hend; auto.
    - cbn [wp]. apply wp_bind. destruct (r2 =? 0); [|cbn [wp]; apply Hend; auto].
      apply wp_bind, cred_wp; [done..|]. intros r4 m8 HK8 HJ8. cbn [wp]. apply Hend; auto. }
  destruct (ra =? 0); [|by apply Hback].
  apply wp_bind, cred_wp; [done..|]. intros rc m4 HK4 HJ4. destruct (rc =? 0); [|by apply Hback].
  unfold debugger_transfer_exact. rewrite E2. apply (transfer_loop_frame _ []); try done.
  - auto.
  - cbn. lia.
Qed.
End Frame.

(** A kernel that transfers two bytes at a time. *)
Definition sim_mdbg (auth : Z) (c : sys) : sys_ret c * Z :=
  match c with
  | GetAuth => (auth, auth)
  | SetAuth v => (0, v)
  | GetCaps => (Some (repeat 1 16), auth)
  | MdbgRead _ a n => ({| x_rc := 0; x_errno := 0; x_status := 0; x_length := Z.min n 2;
                          x_data := [u8 a; u8 (a + 1)] |}, auth)
  | MdbgWrite _ _ _ => ({| x_rc := 0; x_errno := 0; x_status := 0; x_length := 1; x_data := [] |}, auth)
  | MdbgCopyout _ _ _ | PtCopyout _ _ _ => ((0, []), auth)
  | PtCopyin _ _ _ => ((0, 0), auth)
  | FOpen _ _ => (false, auth)
  | FRead _ => ([], auth)
  | FGetc => (None, auth)
  | _ => (0, auth)
  end.

Definition mdbg_run := run sim_mdbg (shellui_mdbg_read_exact 9 0x880000010 5) 42.

Lemma mdbg_transfer_window_witness :
  mdbg_run.1.1 = (0, [0x10; 0x11; 0x12; 0x13; 0x14]) /\
  exists m, monitor (window_step None 9 0x880000010 5) WIdle mdbg_run.2 = Some m /\
            transfer_end 5 mdbg_run.1.1 m.
Proof.
  split; [vm_compute; reflexivity|].
  apply (mdbg_transfer_window None 9 0x880000010 5).
  - lia.
  - intros H. destruct (H eq_refl).
  - vm_compute. intuition congruence.
  - apply run_exec.
Defined.
