(* ===== verification/KernelCalls.v ===== *)
(** The kernel primitives of the console that the process queries use (kernel reads and
    writes, the process and module lists, MDBG reads), and memory as they show it. *)
From S2P Require Import Prelude Effects Debugger.

Inductive kcall :=
| KCopyout (address : Z) (size : nat)           (** [kernel_copyout] *)
| KCopyin (address : Z) (bytes : list Z)        (** [kernel_copyin] *)
| FwVersion                                     (** [kernel_get_fw_version] *)
| SysctlSdk                                     (** [kern.sdk_version]: code, length, value *)
| Getpid
| ProcUcred (pid : Z)                           (** [kernel_get_proc_ucred] *)
| DlCount (pid : Z)                             (** [dl_get_list] for the count *)
| DlList (pid : Z) (count : Z)                  (** [dl_get_list] into [count] handles *)
| DlInfo (pid handle : Z)                       (** [dl_get_info_2] *)
| Calloc (count : Z)
| SysctlProcSize                                (** the size of [KERN_PROC_PROC] *)
| SysctlProc (capacity : Z)                     (** [KERN_PROC_PROC] into [capacity] bytes *)
| MdbgCopy (pid address : Z) (size : nat)       (** [mdbg_copyout] *)
| ClockGettime                                  (** [CLOCK_MONOTONIC]: code, seconds, nanoseconds *)
| Usleep (us : Z).

(** [ModuleInfoCompat]: name, size and alignment of its members. *)
Definition ModuleInfoCompat : list (string * nat * nat) := [
  ("filename", 128, 1); ("handle", 8, 8); ("unknown0", 32, 1); ("init", 8, 8); ("fini", 8, 8);
  ("eh_frame_hdr", 8, 8); ("eh_frame_hdr_sz", 8, 8); ("eh_frame", 8, 8); ("eh_frame_sz", 8, 8);
  ("sections", 64, 8); ("unknown7", 1176, 1); ("fingerprint", 20, 1); ("unknown8", 4, 4);
  ("libname", 128, 1); ("unknown9", 4, 4); ("sandboxed_path", 1024, 1); ("sdk_version", 8, 8)]%string%nat.

(** C's layout: the next multiple of the alignment. *)
Definition aligned (n align : nat) : nat := (n + align - 1) / align * align.
Fixpoint offset_of (member : string) (start : nat) (l : list (string * nat * nat)) : option nat :=
  match l with
  | [] => None
  | (name, size, align) :: l' =>
      let here := aligned start align in
      if bool_decide (name = member) then Some here else offset_of member (here + size) l'
  end.
Fixpoint size_of (start : nat) (l : list (string * nat * nat)) : nat :=
  match l with
  | [] => aligned start 8
  | (_, size, align) :: l' => size_of (aligned start align + size) l'
  end.
Definition kModuleInfoSize : nat := size_of 0 ModuleInfoCompat.
(** [sections[0].vaddr] is the first member of the array. *)
Definition kVaddrOffset : nat := default 0%nat (offset_of "sections" 0 ModuleInfoCompat).

Example module_info_layout : kVaddrOffset = 216%nat /\ kModuleInfoSize = 2648%nat.
Proof. split; reflexivity. Qed.

(** Result code and what the kernel wrote into the zeroed structure. *)
Record DlInfoReply := { di_rc : Z; di_bytes : list Z }.
Definition di_filename (r : DlInfoReply) : list Z := slice 0 128 (buffer kModuleInfoSize (di_bytes r)).
Definition di_vaddr (r : DlInfoReply) : Z := field kVaddrOffset 8 (buffer kModuleInfoSize (di_bytes r)).

Definition kret (c : kcall) : Type :=
  match c with
  | KCopyout _ _ | MdbgCopy _ _ _ => Z * list Z
  | SysctlSdk | ClockGettime => Z * Z * Z
  | DlCount _ | SysctlProcSize => Z * Z
  | DlList _ _ | SysctlProc _ => Z * Z * list Z
  | DlInfo _ _ => DlInfoReply
  | Calloc _ => bool
  | _ => Z
  end.

Abbreviation kprog := (prog kret).
Definition kc (c : kcall) : kprog (kret c) := call c.

(** ** Memory *)

(** The byte at every kernel address. *)
Definition memory := Z -> Z.
Definition read_mem (mem : memory) (a : Z) (n : nat) : list Z :=
  (fun i => mem (u64 (a + Z.of_nat i))) <$> seq 0 n.
Definition load64 (mem : memory) (a : Z) : Z := le_decode (read_mem mem a 8).
Definition load32 (mem : memory) (a : Z) : Z := le_decode (read_mem mem a 4).

Lemma length_read_mem mem a n : length (read_mem mem a n) = n.
Proof. unfold read_mem. by rewrite length_fmap, length_seq. Qed.

Lemma lookup_read_mem mem a n i :
  (i < n)%nat -> read_mem mem a n !! i = Some (mem (u64 (a + Z.of_nat i))).
Proof.
  intros H. unfold read_mem.
  rewrite list_lookup_fmap, lookup_seq_lt by done. done.
Qed.

(** A successful kernel read shows this memory. *)
Definition truthful (mem : memory) (e : event kret) : bool :=
  match e with
  | Ev (KCopyout a n) (rc, d) => negb (rc =? 0) || bool_decide (buffer n d = read_mem mem a n)
  | _ => true
  end.
Definition truthful_trace (mem : memory) (t : list (event kret)) : Prop :=
  Forall (fun e => truthful mem e = true) t.

(** The monitor that is left at the first answer that does not show the memory. *)
Inductive KView := Shown | Hidden.
Definition view_step (mem : memory) (m : KView) (e : event kret) : option KView :=
  match m with
  | Hidden => Some Hidden
  | Shown => Some (if truthful mem e then Shown else Hidden)
  end.

Lemma view_truthful mem t : truthful_trace mem t -> monitor (view_step mem) Shown t = Some Shown.
Proof. induction 1 as [|e t He _ IH]; [done|]. simpl. by rewrite He. Qed.

(** What holds of every result once the memory is not shown any more. *)
Definition shown {A} (Q : A -> Prop) (a : A) (m : KView) : Prop :=
  match m with Shown => Q a | Hidden => True end.

Lemma view_sound {A} mem (p : kprog A) Q t a :
  wp (view_step mem) p Shown (shown Q) -> exec p t a -> truthful_trace mem t -> Q a.
Proof.
  intros Hw He Ht. destruct (wp_sound _ _ _ _ Hw t a He) as (m & Hm & HQ).
  rewrite view_truthful in Hm by done. by injection Hm as <-.
Qed.

Lemma hidden_wp {A} mem (p : kprog A) (Q : A -> Prop) : wp (view_step mem) p Hidden (shown Q).
Proof. by apply (wp_absorbing _ Hidden). Qed.

Lemma shown_bind {A B} mem (p : kprog A) (f : A -> kprog B) (P : A -> Prop) Q :
  wp (view_step mem) p Shown (shown P) ->
  (forall a, P a -> wp (view_step mem) (f a) Shown (shown Q)) ->
  wp (view_step mem) (bindp p f) Shown (shown Q).
Proof.
  intros Hp Hf. apply wp_bind. eapply wp_mono; [|exact Hp].
  intros a [|]; simpl; [apply Hf|intros _; apply hidden_wp].
Qed.

(** A call about which nothing is known. *)
Lemma shown_call {A} mem c (k : kret c -> kprog A) Q :
  (forall r, truthful mem (Ev c r) = true -> wp (view_step mem) (k r) Shown (shown Q)) ->
  wp (view_step mem) (Call c k) Shown (shown Q).
Proof.
  intros H. cbn [wp view_step]. intros r. destruct (truthful mem (Ev c r)) eqn:E; [by apply H|].
  apply hidden_wp.
Qed.
