(* ===== verification/ProcRw.v ===== *)
(** Reading another process through the kernel's direct map, FW 9.60:
    [src/ps5/stable_sampler/proc_rw_v960.cpp].  The process is found in the kernel's list,
    its page tables are walked for every page, and the bytes are copied page by page.
    The reference is [hw_translate], the four-level page walk of the processor on one
    address. *)
From S2P Require Import Prelude Effects Debugger KernelCalls.

Definition kFw960 : Z := 0x09600000.
Definition kAllprocFromKdata : Z := 0x02755D50.
Definition kProcPid : Z := 0xBC.
Definition kProcVmspace : Z := 0x200.
Definition kProcNext : Z := 0x00.
Definition kVmspacePmap : Z := 0x1D8.
Definition kPmapPml4Virtual : Z := 0x20.
Definition kPmapPml4Physical : Z := 0x28.
Definition kFixedDmapBase : Z := 0xFFFF873B00000000.
Definition kPresent : Z := 1.
Definition kPageSizeBit : Z := 0x80.
Definition kMask4K : Z := 0x000FFFFFFFFFF000.
Definition kMask2M : Z := 0x000FFFFFFFE00000.
Definition kMask1G : Z := 0x000FFFFFC0000000.
Definition kPage4K : Z := 0x1000.
Definition kPage2M : Z := 0x200000.
Definition kPage1G : Z := 0x40000000.
Definition kMaxProcWalk : nat := 1024.

Section Programs.
Local Open Scope prog_scope.
(** [KERNEL_ADDRESS_DATA_BASE] *)
Context (kdata : Z).

Definition read_kernel (address : Z) (size : nat) : kprog (option (list Z)) :=
  if (address =? 0) || (size =? 0)%nat then Ret None
  else
    let* (rc, d) := kc (KCopyout address size) in
    Ret (if rc =? 0 then Some (buffer size d) else None).

(** [read_kernel_value] of an [n]-byte integer. *)
Definition read_kernel_value (n : nat) (address : Z) : kprog (option Z) :=
  let* r := read_kernel address n in
  Ret (match r with Some l => Some (le_decode l) | None => None end).

Definition firmware_sdk_version : kprog Z :=
  let* physical_sdk := kc FwVersion in
  if negb (physical_sdk =? 0) then Ret physical_sdk
  else
    let* (rc, len, sdk) := kc SysctlSdk in
    Ret (if negb (rc =? 0) || negb (len =? 4) then 0 else sdk).

Definition is_960 (sdk : Z) : bool := Z.land sdk 0xFFFF0000 =? kFw960.
Definition firmware_is_960 : kprog bool :=
  let* sdk := firmware_sdk_version in Ret (is_960 sdk).

Fixpoint find_proc_loop (fuel : nat) (pid current : Z) : kprog Z :=
  match fuel with
  | O => Ret 0
  | S f =>
      if current =? 0 then Ret 0
      else
        let* candidate_pid := read_kernel_value 4 (u64 (current + kProcPid)) in
        match candidate_pid with
        | None => Ret 0
        | Some c =>
            if c =? u32 pid then Ret current
            else
              let* next := read_kernel_value 8 (u64 (current + kProcNext)) in
              match next with
              | None => Ret 0
              | Some n => if n =? current then Ret 0 else find_proc_loop f pid n
              end
        end
  end.

Definition find_proc (pid : Z) : kprog Z :=
  if pid <=? 0 then Ret 0
  else
    let* ok := firmware_is_960 in
    if negb ok || (kdata =? 0) then Ret 0
    else
      let* current := read_kernel_value 8 (u64 (kdata + kAllprocFromKdata)) in
      match current with
      | None => Ret 0
      | Some c => find_proc_loop kMaxProcWalk pid c
      end.

(** [g_dmap_base] is passed and returned. *)
Definition choose_dmap (g_dmap_base pml4_virtual pml4_physical : Z) : Z :=
  if negb (g_dmap_base =? 0) then g_dmap_base
  else
    let g := if (pml4_physical <? pml4_virtual) && (pml4_physical <? 2 ^ 40) then
               let candidate := pml4_virtual - pml4_physical in
               if negb (Z.shiftr candidate 48 =? 0) then candidate else 0
             else 0 in
    if g =? 0 then kFixedDmapBase else g.

Definition dmap_base (g_dmap_base : Z) : Z :=
  if negb (g_dmap_base =? 0) then g_dmap_base else kFixedDmapBase.

(** The entry, when it could be read and is present. *)
Definition read_page_entry (address : Z) : kprog (option Z) :=
  let* e := read_kernel_value 8 address in
  Ret (match e with
       | Some entry => if negb (Z.land entry kPresent =? 0) then Some entry else None
       | None => None
       end).

(** The walk from the tables; physical address and page size, [0, 0] on failure. *)
Definition walk (dmap pml4_virtual remote : Z) : kprog (Z * Z) :=
  let pml4_index := Z.land (Z.shiftr remote 39) 0x1FF in
  let pdpt_index := Z.land (Z.shiftr remote 30) 0x1FF in
  let pd_index := Z.land (Z.shiftr remote 21) 0x1FF in
  let pt_index := Z.land (Z.shiftr remote 12) 0x1FF in
  let* pml4e := read_page_entry (u64 (pml4_virtual + pml4_index * 8)) in
  match pml4e with
  | None => Ret (0, 0)
  | Some pml4e =>
  let* pdpte := read_page_entry (u64 (dmap + Z.land pml4e kMask4K + pdpt_index * 8)) in
  match pdpte with
  | None => Ret (0, 0)
  | Some pdpte =>
  if negb (Z.land pdpte kPageSizeBit =? 0) then
    Ret (Z.lor (Z.land pdpte kMask1G) (Z.land remote (kPage1G - 1)), kPage1G)
  else
  let* pde := read_page_entry (u64 (dmap + Z.land pdpte kMask4K + pd_index * 8)) in
  match pde with
  | None => Ret (0, 0)
  | Some pde =>
  if negb (Z.land pde kPageSizeBit =? 0) then
    Ret (Z.lor (Z.land pde kMask2M) (Z.land remote (kPage2M - 1)), kPage2M)
  else
  let* pte := read_page_entry (u64 (dmap + Z.land pde kMask4K + pt_index * 8)) in
  match pte with
  | None => Ret (0, 0)
  | Some pte =>
    Ret (Z.lor (Z.land pte kMask4K) (Z.land remote (kPage4K - 1)), kPage4K)
  end end end end.

(** Physical address, page size, [g_dmap_base]. *)
Definition translate (pid remote g_dmap_base : Z) : kprog (Z * Z * Z) :=
  let* proc := find_proc pid in
  if proc =? 0 then Ret (0, 0, g_dmap_base)
  else
  let* vmspace := read_kernel_value 8 (u64 (proc + kProcVmspace)) in
  let vmspace := default 0 vmspace in
  if vmspace =? 0 then Ret (0, 0, g_dmap_base)
  else
  let* pmap := read_kernel_value 8 (u64 (vmspace + kVmspacePmap)) in
  let pmap := default 0 pmap in
  if pmap =? 0 then Ret (0, 0, g_dmap_base)
  else
  let* pml4_virtual := read_kernel_value 8 (u64 (pmap + kPmapPml4Virtual)) in
  let pml4_virtual := default 0 pml4_virtual in
  if pml4_virtual =? 0 then Ret (0, 0, g_dmap_base)
  else
  let* pml4_physical := read_kernel_value 8 (u64 (pmap + kPmapPml4Physical)) in
  let pml4_physical := default 0 pml4_physical in
  if pml4_physical =? 0 then Ret (0, 0, g_dmap_base)
  else
  let dmap := choose_dmap g_dmap_base pml4_virtual pml4_physical in
  if dmap =? 0 then Ret (0, 0, dmap)
  else
  let* (physical, page_size) := walk dmap pml4_virtual remote in
  Ret (physical, page_size, dmap).

(** The chunks: [None] when the rounds are used up, otherwise success and the bytes
    written to the output so far. *)
Fixpoint proc_read_loop (fuel : nat) (pid remote remaining : Z) (output : list Z) (g : Z)
    : kprog (option (bool * list Z) * Z) :=
  if remaining =? 0 then Ret (Some (true, output), g)
  else match fuel with
  | O => Ret (None, g)
  | S f =>
      let* (physical, page_size, g') := translate pid remote g in
      if (physical =? 0) || (page_size =? 0) then Ret (Some (false, output), g')
      else
        let page_offset := Z.land remote (page_size - 1) in
        let chunk := Z.min remaining (page_size - page_offset) in
        let* (rc, d) := kc (KCopyout (u64 (dmap_base g' + physical)) (Z.to_nat chunk)) in
        if negb (rc =? 0) then Ret (Some (false, output), g')
        else proc_read_loop f pid (u64 (remote + chunk)) (remaining - chunk)
               (output ++ buffer (Z.to_nat chunk) d) g'
  end.

(** Every chunk moves a byte: [size] rounds are enough.  The local buffer is not null. *)
Definition proc_read (pid remote : Z) (size : nat) (g : Z) : kprog (option (bool * list Z) * Z) :=
  if (size =? 0)%nat then Ret (Some (true, []), g)
  else if (pid <=? 0) || (remote =? 0) then Ret (Some (false, []), g)
  else proc_read_loop size pid remote (Z.of_nat size) [] g.
End Programs.

(** ** The reference: kernel structures and the processor's page walk in a memory *)

(** The first record of the process list with this number, in at most [fuel] records. *)
Fixpoint process_in (mem : memory) (fuel : nat) (pid p : Z) : option Z :=
  match fuel with
  | O => None
  | S f =>
      if p =? 0 then None
      else if load32 mem (u64 (p + kProcPid)) =? pid then Some p
      else process_in mem f pid (load64 mem (u64 (p + kProcNext)))
  end.

(** The page-table root of a process: its virtual and physical address. *)
Definition page_root (mem : memory) (kdata pid : Z) : option (Z * Z) :=
  match process_in mem kMaxProcWalk pid (load64 mem (u64 (kdata + kAllprocFromKdata))) with
  | None => None
  | Some proc =>
      let vmspace := load64 mem (u64 (proc + kProcVmspace)) in
      let pmap := load64 mem (u64 (vmspace + kVmspacePmap)) in
      Some (load64 mem (u64 (pmap + kPmapPml4Virtual)), load64 mem (u64 (pmap + kPmapPml4Physical)))
  end.

(** Bit 0 of an entry: present; bits 12 to 51, aligned to the page: the frame; bit 7: a
    large page. *)
Definition frame (entry size : Z) : Z := (entry mod 2 ^ 52) / size * size.
Definition next_entry (mem : memory) (dmap entry index : Z) : Z :=
  load64 mem (u64 (dmap + frame entry 4096 + index mod 512 * 8)).

(** The processor's walk for one address: physical address and page size. *)
Definition hw_translate (mem : memory) (dmap pml4 va : Z) : option (Z * Z) :=
  let e4 := load64 mem (u64 (pml4 + (va / 2 ^ 39) mod 512 * 8)) in
  if Z.even e4 then None else
  let e3 := next_entry mem dmap e4 (va / 2 ^ 30) in
  if Z.even e3 then None else
  if Z.testbit e3 7 then Some (frame e3 (2 ^ 30) + va mod 2 ^ 30, 2 ^ 30) else
  let e2 := next_entry mem dmap e3 (va / 2 ^ 21) in
  if Z.even e2 then None else
  if Z.testbit e2 7 then Some (frame e2 (2 ^ 21) + va mod 2 ^ 21, 2 ^ 21) else
  let e1 := next_entry mem dmap e2 (va / 2 ^ 12) in
  if Z.even e1 then None else Some (frame e1 (2 ^ 12) + va mod 2 ^ 12, 2 ^ 12).

(** The byte of the process at [va], through the direct map at [dmap]. *)
Definition process_byte (mem : memory) (dmap pml4 va : Z) : option Z :=
  match hw_translate mem dmap pml4 va with
  | Some (pa, _) => Some (mem (u64 (dmap + pa)))
  | None => None
  end.

(** ** The bit operations *)

Lemma mask_frame e k : 0 <= k <= 52 ->
  Z.land e (Z.shiftl (Z.ones (52 - k)) k) = frame e (2 ^ k).
Proof.
  intros Hk. unfold frame. rewrite <- Z.shiftr_div_pow2, <- Z.shiftl_mul_pow2, <- Z.land_ones by lia.
  apply Z.bits_inj'. intros n Hn. rewrite Z.land_spec, !Z.shiftl_spec by lia.
  destruct (decide (n < k)).
  - rewrite !(Z.testbit_neg_r _ (n - k)) by lia. apply andb_false_r.
  - rewrite Z.shiftr_spec, Z.land_spec by lia. replace (n - k + k) with n by lia.
    destruct (decide (n < 52)).
    + rewrite !Z.ones_spec_low by lia. done.
    + rewrite !Z.ones_spec_high by lia. by rewrite !andb_false_r.
Qed.

Lemma mask_4K e : Z.land e kMask4K = frame e 4096.
Proof. apply (mask_frame e 12). lia. Qed.
Lemma mask_2M e : Z.land e kMask2M = frame e (2 ^ 21).
Proof. apply (mask_frame e 21). lia. Qed.
Lemma mask_1G e : Z.land e kMask1G = frame e (2 ^ 30).
Proof. apply (mask_frame e 30). lia. Qed.

Lemma low_bits a k : 0 <= k -> Z.land a (2 ^ k - 1) = a mod 2 ^ k.
Proof. intros Hk. replace (2 ^ k - 1) with (Z.ones k) by (rewrite Z.ones_equiv; lia). by apply Z.land_ones. Qed.

Lemma index_bits a k : 0 <= k -> Z.land (Z.shiftr a k) 0x1FF = (a / 2 ^ k) mod 512.
Proof.
  intros Hk. change 0x1FF with (2 ^ 9 - 1). rewrite low_bits by lia.
  by rewrite Z.shiftr_div_pow2.
Qed.

Lemma present_bit e : negb (Z.land e kPresent =? 0) = negb (Z.even e).
Proof.
  unfold kPresent. change 1 with (2 ^ 1 - 1). rewrite low_bits, Z.pow_1_r by lia.
  rewrite Zmod_even. by destruct (Z.even e).
Qed.

Lemma large_bit e : negb (Z.land e kPageSizeBit =? 0) = Z.testbit e 7.
Proof.
  unfold kPageSizeBit. destruct (Z.testbit e 7) eqn:E.
  - apply negb_true_iff, Z.eqb_neq. intros H.
    assert (Z.testbit (Z.land e 0x80) 7 = true) by (by rewrite Z.land_spec, E).
    by rewrite H in *.
  - apply negb_false_iff, Z.eqb_eq. change 0x80 with (2 ^ 7).
    apply Z.bits_inj'. intros n Hn. rewrite Z.land_spec, Z.bits_0, Z.pow2_bits_eqb by lia.
    destruct (7 =? n) eqn:E7; [apply Z.eqb_eq in E7 as <-; by rewrite E|apply andb_false_r].
Qed.

(** An aligned frame and an offset. *)
Lemma frame_offset e k b : 0 <= k -> 0 <= b < 2 ^ k -> Z.lor (frame e (2 ^ k)) b = frame e (2 ^ k) + b.
Proof.
  intros Hk Hb. assert (H : Z.land (frame e (2 ^ k)) b = 0).
  { unfold frame. rewrite <- Z.shiftl_mul_pow2 by lia. apply Z.bits_inj'. intros n Hn.
    rewrite Z.land_spec, Z.bits_0. destruct (decide (n < k)).
    - rewrite Z.shiftl_spec_low; [done|lia].
    - rewrite <- (Z.mod_small b (2 ^ k)), Z.mod_pow2_bits_high by lia. apply andb_false_r. }
  rewrite (Z.add_nocarry_lxor _ _ H), (Z.lxor_lor _ _ H). done.
Qed.


(** *** Addresses of one page have one translation *)

Lemma same_page_index va va' j k : 0 <= j <= k -> va / 2 ^ j = va' / 2 ^ j -> va / 2 ^ k = va' / 2 ^ k.
Proof.
  intros Hj H. replace (2 ^ k) with (2 ^ j * 2 ^ (k - j)) by (rewrite <- Z.pow_add_r by lia; f_equal; lia).
  assert (0 < 2 ^ j) by (apply Z.pow_pos_nonneg; lia).
  assert (0 < 2 ^ (k - j)) by (apply Z.pow_pos_nonneg; lia).
  by rewrite <- !Z.div_div, H by lia.
Qed.

Definition page_size_ok (s : Z) : Prop := s = 2 ^ 12 \/ s = 2 ^ 21 \/ s = 2 ^ 30.

(** A translation gives the page size, the base of the page and the offset in it. *)
Lemma hw_translate_page mem dmap pml4 va pa s :
  hw_translate mem dmap pml4 va = Some (pa, s) ->
  page_size_ok s /\
  forall va', va' / s = va / s -> hw_translate mem dmap pml4 va' = Some (pa - va mod s + va' mod s, s).
Proof.
  assert (Hix : forall j k v v', 0 <= j <= k -> v' / 2 ^ j = v / 2 ^ j -> v / 2 ^ k = v' / 2 ^ k).
  { intros j k v v' Hj H. symmetry. by apply (same_page_index v' v j k). }
  unfold hw_translate. destruct (Z.even _) eqn:E4; [done|].
  destruct (Z.even _) eqn:E3 in |- *; [done|]. destruct (Z.testbit _ 7) eqn:L3 in |- *.
  { intros [= <- <-]. split; [by right; right|]. intros va' H.
    rewrite <- (Hix 30 39 va va'), E4, <- (Hix 30 30 va va'), E3, L3 by (done || lia). do 2 f_equal. lia. }
  destruct (Z.even _) eqn:E2 in |- *; [done|]. destruct (Z.testbit _ 7) eqn:L2 in |- *.
  { intros [= <- <-]. split; [by right; left|]. intros va' H.
    rewrite <- (Hix 21 39 va va'), E4, <- (Hix 21 30 va va'), E3, L3, <- (Hix 21 21 va va'), E2, L2
      by (done || lia). do 2 f_equal. lia. }
  destruct (Z.even _) eqn:E1 in |- *; [done|].
  intros [= <- <-]. split; [by left|]. intros va' H.
  rewrite <- (Hix 12 39 va va'), E4, <- (Hix 12 30 va va'), E3, L3, <- (Hix 12 21 va va'), E2, L2,
    <- (Hix 12 12 va va'), E1 by (done || lia). do 2 f_equal. lia.
Qed.

(** The bytes of one page are contiguous in the direct map. *)
Lemma page_bytes mem dmap pml4 va pa s i :
  hw_translate mem dmap pml4 va = Some (pa, s) -> 0 <= i -> va mod s + i < s ->
  process_byte mem dmap pml4 (va + i) = Some (mem (u64 (dmap + pa + i))).
Proof.
  intros H Hi Hs. apply hw_translate_page in H as [Hps Hpage]. unfold process_byte.
  assert (0 < s) by (destruct Hps as [->|[->| ->]]; lia).
  pose proof (Z.div_mod va s ltac:(lia)) as Hd. pose proof (Z.mod_pos_bound va s ltac:(lia)).
  assert (Hq : (va + i) / s = va / s).
  { symmetry. apply (Z.div_unique _ _ _ (va mod s + i)); lia. }
  assert (Hr : (va + i) mod s = va mod s + i).
  { symmetry. apply (Z.mod_unique _ _ (va / s)); lia. }
  rewrite (Hpage _ Hq), Hr. do 3 f_equal. lia.
Qed.

(** ** The program reads what the reference reads *)

Section Shown.
Context (mem : memory) (kdata : Z).
Abbreviation view := (view_step mem).

Lemma read_value_shown n a :
  wp view (read_kernel_value n a) Shown
    (shown (fun r => match r with Some v => v = le_decode (read_mem mem a n) | None => True end)).
Proof.
  unfold read_kernel_value, read_kernel. destruct (_ || _); [done|].
  apply shown_call. intros [rc d] H. cbn [bindp wp shown]. cbn [truthful] in H.
  destruct (rc =? 0); [|done]. by apply bool_decide_eq_true in H as ->.
Qed.

Lemma page_entry_shown a :
  wp view (read_page_entry a) Shown
    (shown (fun r => match r with Some e => e = load64 mem a /\ Z.even e = false | None => True end)).
Proof.
  unfold read_page_entry. eapply shown_bind; [apply read_value_shown|]. intros [v|]; [|done].
  intros ->. change (le_decode _) with (load64 mem a). cbn [wp shown]. rewrite present_bit.
  destruct (Z.even (load64 mem a)) eqn:E; simpl; auto.
Qed.

Lemma find_loop_shown fuel pid p :
  wp view (find_proc_loop fuel pid p) Shown
    (shown (fun r => r = 0 \/ process_in mem fuel (u32 pid) p = Some r)).
Proof.
  revert p; induction fuel as [|f IH]; intros p; cbn [find_proc_loop]; [by left|].
  destruct (p =? 0) eqn:Ep; [by left|].
  eapply shown_bind; [apply read_value_shown|]. intros [c|]; [|by left]. intros ->.
  destruct (_ =? u32 pid) eqn:Epid.
  - right. cbn [process_in]. unfold load32. by rewrite Ep, Epid.
  - eapply shown_bind; [apply read_value_shown|]. intros [n|]; [|by left]. intros ->.
    destruct (_ =? p); [by left|]. eapply wp_mono; [|apply IH]. intros r [|]; [|done]. simpl.
    intros [->|H]; [by left|right]. cbn [process_in]. unfold load32. by rewrite Ep, Epid.
Qed.

Lemma shown_any {A} (p : kprog A) : wp view p Shown (shown (fun _ => True)).
Proof.
  induction p as [a|c k IH]; [done|]. apply shown_call. intros r _. apply IH.
Qed.

Lemma find_proc_shown pid :
  wp view (find_proc kdata pid) Shown (shown (fun r => r = 0 \/
    process_in mem kMaxProcWalk (u32 pid) (load64 mem (u64 (kdata + kAllprocFromKdata))) = Some r)).
Proof.
  unfold find_proc. destruct (pid <=? 0); [by left|].
  eapply shown_bind; [apply shown_any|]. intros ok _. destruct (_ || _); [by left|].
  eapply shown_bind; [apply read_value_shown|]. intros [c|]; [|by left]. intros ->.
  apply find_loop_shown.
Qed.

Lemma walk_shown dmap pml4 va :
  wp view (walk dmap pml4 va) Shown (shown (fun '(p, s) =>
    s = 0 \/ hw_translate mem dmap pml4 va = Some (p, s))).
Proof.
  assert (Hpos : forall k, 0 <= k -> 0 <= va mod 2 ^ k < 2 ^ k).
  { intros k Hk. apply Z.mod_pos_bound, Z.pow_pos_nonneg; lia. }
  unfold walk, hw_translate, next_entry. rewrite !index_bits by lia.
  eapply shown_bind; [apply page_entry_shown|]. intros [e4|]; [intros [-> H4]|by left].
  rewrite !mask_4K, H4.
  eapply shown_bind; [apply page_entry_shown|]. intros [e3|]; [intros [-> H3]|by left].
  rewrite !large_bit, H3, mask_1G, mask_4K. change kPage1G with (2 ^ 30).
  rewrite (low_bits va 30), frame_offset by auto with lia.
  destruct (Z.testbit _ 7); [by right|].
  eapply shown_bind; [apply page_entry_shown|]. intros [e2|]; [intros [-> H2]|by left].
  rewrite large_bit, H2, mask_2M, mask_4K. change kPage2M with (2 ^ 21).
  rewrite (low_bits va 21), frame_offset by auto with lia.
  destruct (Z.testbit _ 7); [by right|].
  eapply shown_bind; [apply page_entry_shown|]. intros [e1|]; [intros [-> H1]|by left].
  rewrite H1, (mask_4K _ : _ = frame _ (2 ^ 12)). change kPage4K with (2 ^ 12).
  rewrite (low_bits va 12), (frame_offset _ 12) by auto with lia.
  by right.
Qed.
End Shown.

Lemma choose_dmap_nonzero g v p : choose_dmap g v p <> 0.
Proof.
  unfold choose_dmap. destruct (g =? 0) eqn:Eg; [|by apply Z.eqb_neq]. cbn [negb].
  match goal with |- context [if ?b then kFixedDmapBase else _] => destruct b eqn:E end;
    [done|by apply Z.eqb_neq].
Qed.

Lemma choose_dmap_fixed g v p v' p' : choose_dmap (choose_dmap g v p) v' p' = choose_dmap g v p.
Proof.
  unfold choose_dmap at 1. pose proof (choose_dmap_nonzero g v p) as H.
  by rewrite (proj2 (Z.eqb_neq _ _) H).
Qed.

Lemma dmap_base_chosen g v p : dmap_base (choose_dmap g v p) = choose_dmap g v p.
Proof.
  unfold dmap_base. pose proof (choose_dmap_nonzero g v p) as H. by rewrite (proj2 (Z.eqb_neq _ _) H).
Qed.

(** One page of the process, as [translate] finds it. *)
Definition translated (mem : memory) (kdata pid va g : Z) (r : Z * Z * Z) : Prop :=
  let '(pa, s, g') := r in
  s = 0 \/ exists v p, page_root mem kdata (u32 pid) = Some (v, p) /\ g' = choose_dmap g v p /\
    hw_translate mem g' v va = Some (pa, s).

Lemma translate_shown mem kdata pid va g :
  wp (view_step mem) (translate kdata pid va g) Shown (shown (translated mem kdata pid va g)).
Proof.
  unfold translate. eapply shown_bind; [apply find_proc_shown|].
  intros proc Hproc. destruct (proc =? 0) eqn:Ep; [by left|].
  destruct Hproc as [->|Hproc]; [done|].
  eapply shown_bind; [apply read_value_shown|]. intros [vm|]; [intros ->|by left]. cbn [from_option id].
  destruct (le_decode _ =? 0); [by left|].
  eapply shown_bind; [apply read_value_shown|]. intros [pm|]; [intros ->|by left]. cbn [from_option id].
  destruct (le_decode _ =? 0); [by left|].
  eapply shown_bind; [apply read_value_shown|]. intros [v|]; [intros ->|by left]. cbn [from_option id].
  destruct (le_decode _ =? 0); [by left|].
  eapply shown_bind; [apply read_value_shown|]. intros [p|]; [intros ->|by left]. cbn [from_option id].
  destruct (le_decode _ =? 0); [by left|].
  destruct (choose_dmap _ _ _ =? 0); [by left|].
  eapply shown_bind; [apply walk_shown|]. intros [pa s] [->|H]; [by left|right].
  do 2 eexists. unfold page_root. rewrite Hproc. by split_and!.
Qed.

(** The bytes of the process from [va] on. *)
Definition reads (mem : memory) (dmap pml4 va : Z) (l : list Z) : Prop :=
  forall i b, l !! i = Some b -> process_byte mem dmap pml4 (u64 (va + Z.of_nat i)) = Some b.

(** The final result of the loop. *)
Definition read_result (mem : memory) (kdata pid va n : Z) (output : list Z) (g : Z)
    (r : option (bool * list Z) * Z) : Prop :=
  match r with
  | (Some (true, out), g') => n = 0 /\ out = output /\ g' = g \/
      exists v p l, page_root mem kdata (u32 pid) = Some (v, p) /\ g' = choose_dmap g v p /\
        out = output ++ l /\ Z.of_nat (length l) = n /\ reads mem g' v va l
  | _ => True
  end.

Lemma page_size_divides s : page_size_ok s -> 0 < s /\ (s | 2 ^ 64) /\ s - 1 = s - 1 /\
  forall a, Z.land a (s - 1) = a mod s.
Proof.
  intros [->|[->| ->]]; (split; [lia|]); (split; [|split; [done|intros a; by apply low_bits]]).
  - by exists (2 ^ 52).
  - by exists (2 ^ 43).
  - by exists (2 ^ 34).
Qed.

(** A chunk of one page is what the process has there. *)
Lemma chunk_reads mem g v va pa s n :
  in_u 64 va -> hw_translate mem g v va = Some (pa, s) -> 0 <= n -> va mod s + n <= s ->
  reads mem g v va (read_mem mem (u64 (g + pa)) (Z.to_nat n)).
Proof.
  intros Hva H Hn Hs i b Hi.
  assert (Hlt : (i < Z.to_nat n)%nat).
  { apply lookup_lt_Some in Hi. by rewrite length_read_mem in Hi. }
  rewrite lookup_read_mem in Hi by done. injection Hi as <-.
  pose proof (hw_translate_page _ _ _ _ _ _ H) as [Hps _].
  destruct (page_size_divides s Hps) as (Hpos & [q Hq] & _ & _).
  pose proof (Z.div_mod va s ltac:(lia)) as Hd. pose proof (Z.mod_pos_bound va s ltac:(lia)).
  assert (va + n <= 2 ^ 64).
  { rewrite Hq. destruct Hva as [Hv0 Hv1]. rewrite Hq in Hv1.
    assert (va / s < q) by (apply Z.div_lt_upper_bound; lia). nia. }
  rewrite (wrap_small 64 (va + Z.of_nat i)) by (unfold in_u in *; lia).
  rewrite (page_bytes mem g v va pa s (Z.of_nat i) H) by lia.
  do 2 f_equal. unfold wrap. by rewrite Zplus_mod_idemp_l.
Qed.

Lemma reads_app mem g v va l1 l2 :
  reads mem g v va l1 -> reads mem g v (u64 (va + Z.of_nat (length l1))) l2 ->
  reads mem g v va (l1 ++ l2).
Proof.
  intros H1 H2 i b Hi. apply lookup_app_Some in Hi as [Hi|[Hl Hi]]; [by apply H1|].
  apply H2 in Hi. rewrite <- Hi. f_equal. unfold wrap. rewrite Zplus_mod_idemp_l. f_equal. lia.
Qed.

Lemma proc_read_loop_shown mem kdata fuel pid va n output g :
  in_u 64 va -> 0 <= n ->
  wp (view_step mem) (proc_read_loop kdata fuel pid va n output g) Shown
    (shown (read_result mem kdata pid va n output g)).
Proof.
  revert va n output g; induction fuel as [|f IH]; intros va n output g Hva Hn;
    cbn [proc_read_loop]; (destruct (n =? 0) eqn:En; [apply Z.eqb_eq in En; by left|]); [done|].
  eapply shown_bind; [apply translate_shown|]. intros [[pa s] g'] Ht.
  destruct ((pa =? 0) || (s =? 0)) eqn:Ez; [done|]. apply orb_false_iff in Ez as [_ Es].
  destruct Ht as [->|(v & p & Hroot & -> & Hw)]; [done|]. clear Es.
  pose proof (hw_translate_page _ _ _ _ _ _ Hw) as [Hps _].
  destruct (page_size_divides s Hps) as (Hpos & _ & _ & Hland). rewrite Hland.
  pose proof (Z.mod_pos_bound va s Hpos) as Hm. apply Z.eqb_neq in En.
  set (chunk := Z.min n (s - va mod s)).
  apply shown_call. intros [rc d] Htr. cbn [truthful] in Htr. cbn [bindp].
  destruct (rc =? 0); [|done]. cbn [negb orb] in *. apply bool_decide_eq_true in Htr.
  rewrite Htr, dmap_base_chosen. clear Htr d.
  eapply wp_mono; [|apply IH; [apply wrap_range; lia|lia]].
  intros [[[[] out]|] g''] [|]; try done. cbn [shown read_result].
  set (l1 := read_mem mem (u64 (choose_dmap g v p + pa)) (Z.to_nat chunk)).
  assert (Hl1 : Z.of_nat (length l1) = chunk) by (unfold l1; rewrite length_read_mem; lia).
  assert (Hr1 : reads mem (choose_dmap g v p) v va l1) by (eapply chunk_reads; [done|exact Hw|lia|lia]).
  intros [(Hz & -> & ->)|(v' & p' & l & Hroot' & -> & -> & Hl & Hr)]; right.
  - exists v, p, l1. split_and!; try done. lia.
  - rewrite Hroot' in Hroot. injection Hroot as -> ->. rewrite choose_dmap_fixed in *.
    exists v, p, (l1 ++ l). rewrite length_app, app_assoc. split_and!; try done; [lia|].
    apply reads_app; [done|]. by rewrite Hl1.
Qed.

(** ** Termination *)

Lemma walk_sizes dmap pml4 va : returns (walk dmap pml4 va) (fun '(_, s) => s = 0 \/ page_size_ok s).
Proof.
  assert (H0 : forall p, returns (Ret (p, 0) : kprog (Z * Z)) (fun '(_, s) => s = 0 \/ page_size_ok s)).
  { intros p. apply returns_ret. by left. }
  unfold walk. eapply returns_bind; [apply returns_any|]. intros [e4|] _; [|apply H0].
  eapply returns_bind; [apply returns_any|]. intros [e3|] _; [|apply H0].
  destruct (negb _); [apply returns_ret; right; by right; right|].
  eapply returns_bind; [apply returns_any|]. intros [e2|] _; [|apply H0].
  destruct (negb _); [apply returns_ret; right; by right; left|].
  eapply returns_bind; [apply returns_any|]. intros [e1|] _; [|apply H0].
  apply returns_ret. right. by left.
Qed.

Lemma translate_sizes kdata pid va g :
  returns (translate kdata pid va g) (fun '(_, s, _) => s = 0 \/ page_size_ok s).
Proof.
  assert (H0 : forall g, returns (Ret (0, 0, g) : kprog (Z * Z * Z))
                           (fun '(_, s, _) => s = 0 \/ page_size_ok s)).
  { intros g'. apply returns_ret. by left. }
  unfold translate.
  repeat (eapply returns_bind; [apply returns_any|]; intros ? _; destruct (_ =? 0); [apply H0|]).
  destruct (_ =? 0); [apply H0|].
  eapply returns_bind; [apply walk_sizes|]. intros [p s] H. by apply returns_ret.
Qed.

Lemma proc_read_loop_returns kdata fuel pid va n output g :
  0 <= n <= Z.of_nat fuel ->
  returns (proc_read_loop kdata fuel pid va n output g) (fun r => r.1 <> None).
Proof.
  revert va n output g; induction fuel as [|f IH]; intros va n output g Hn; cbn [proc_read_loop].
  { replace n with 0 by lia. by apply returns_ret. }
  destruct (n =? 0) eqn:En; [by apply returns_ret|]. apply Z.eqb_neq in En.
  eapply returns_bind; [apply translate_sizes|]. intros [[pa s] g'] Hs.
  destruct ((pa =? 0) || (s =? 0)) eqn:Ez; [by apply returns_ret|].
  apply orb_false_iff in Ez as [_ Es]. destruct Hs as [->|Hs]; [done|].
  destruct (page_size_divides s Hs) as (Hpos & _ & _ & ->).
  pose proof (Z.mod_pos_bound va s Hpos).
  apply returns_call. intros [rc d]. cbn [bindp].
  destruct (negb (rc =? 0)); [by apply returns_ret|]. apply IH. lia.
Qed.

(** ** Theorems *)

Lemma proc_read_bytes mem kdata pid va size g t out g' :
  in_u 64 va -> (0 < size)%nat -> truthful_trace mem t ->
  exec (proc_read kdata pid va size g) t (Some (true, out), g') ->
  length out = size /\
  exists pml4 physical, page_root mem kdata (u32 pid) = Some (pml4, physical) /\
    g' = choose_dmap g pml4 physical /\
    forall i b, out !! i = Some b -> process_byte mem g' pml4 (u64 (va + Z.of_nat i)) = Some b.
Proof.
  intros Hva Hsize Ht He. unfold proc_read in He.
  destruct (size =? 0)%nat eqn:E0; [apply Nat.eqb_eq in E0; lia|].
  destruct (_ || _); [by destruct He|].
  assert (H : read_result mem kdata pid va (Z.of_nat size) [] g (Some (true, out), g')).
  { eapply view_sound; [apply proc_read_loop_shown; [done|lia]|exact He|done]. }
  destruct H as [(Hz & _)|(v & p & l & Hroot & -> & -> & Hl & Hr)]; [lia|].
  split; [simpl; lia|]. by exists v, p.
Qed.

(** C18: a read of another process refines the processor's page walk: whenever the kernel
    reads show one memory and the read succeeds, every byte it delivers is the byte the
    page tables of that process map at that address - across pages of 4 KiB, 2 MiB and
    1 GiB, none missing and none from a neighbouring page. *)
Theorem proc_read_refines mem kdata pid va size g t out g' :
  in_u 64 va -> (0 < size)%nat -> truthful_trace mem t ->
  exec (proc_read kdata pid va size g) t (Some (true, out), g') ->
  length out = size /\
  exists pml4 physical, page_root mem kdata (u32 pid) = Some (pml4, physical) /\
    g' = choose_dmap g pml4 physical /\
    forall i b, out !! i = Some b -> process_byte mem g' pml4 (u64 (va + Z.of_nat i)) = Some b.
Proof. apply proc_read_bytes. Qed.

(** C33: [proc_read] always returns: whatever the kernel answers, every round moves at
    least one byte, so as many rounds as bytes are enough. *)
Theorem proc_read_terminates kdata pid va size g t r g' :
  exec (proc_read kdata pid va size g) t (r, g') -> exists ok out, r = Some (ok, out).
Proof.
  assert (H : returns (proc_read kdata pid va size g) (fun r => r.1 <> None)).
  { unfold proc_read. destruct (size =? 0)%nat; [by apply returns_ret|].
    destruct (_ || _); [by apply returns_ret|]. apply proc_read_loop_returns. lia. }
  intros He. apply H in He. simpl in He. destruct r as [[ok out]|]; [by exists ok, out|done].
Qed.

(** *** A memory with one process *)

Fixpoint regions_byte (l : list (Z * list Z)) (a : Z) : Z :=
  match l with
  | [] => 0
  | (base, bytes) :: l' =>
      if (base <=? a) && (a <? base + Z.of_nat (length bytes))
      then nth (Z.to_nat (a - base)) bytes 0 else regions_byte l' a
  end.

Definition sample_kdata : Z := 0xFFFF900000000000.
Definition sample_dmap : Z := 0xFFFF800000000000.
(** Process 7 with its page tables; the two pages around [0x401000] lie apart. *)
Definition sample_mem : memory := regions_byte [
  (sample_kdata + kAllprocFromKdata, le_encode 8 0x5000);
  (0x5000, le_encode 8 0x6000); (0x5000 + kProcPid, le_encode 4 3);
  (0x6000 + kProcPid, le_encode 4 7); (0x6000 + kProcVmspace, le_encode 8 0x7000);
  (0x7000 + kVmspacePmap, le_encode 8 0x8000);
  (0x8000 + kPmapPml4Virtual, le_encode 8 (sample_dmap + 0x10000));
  (0x8000 + kPmapPml4Physical, le_encode 8 0x10000);
  (sample_dmap + 0x10000, le_encode 8 0x11001);
  (sample_dmap + 0x11000, le_encode 8 0x12001);
  (sample_dmap + 0x12010, le_encode 8 0x13001);
  (sample_dmap + 0x13000, le_encode 8 0x20001 ++ le_encode 8 0x30001);
  (sample_dmap + 0x20FFE, [1; 2]); (sample_dmap + 0x30000, [3; 4])].

Definition sample_kernel (s : unit) (c : kcall) : kret c * unit :=
  (match c return kret c with
   | KCopyout a n => (0, read_mem sample_mem a n)
   | FwVersion => 0x09600000
   | MdbgCopy _ _ _ => (0, [])
   | SysctlSdk | ClockGettime => (0, 0, 0)
   | DlCount _ | SysctlProcSize => (0, 0)
   | DlList _ _ | SysctlProc _ => (0, 0, [])
   | DlInfo _ _ => {| di_rc := 0; di_bytes := [] |}
   | Calloc _ => true
   | KCopyin _ _ | Getpid | ProcUcred _ | Usleep _ => 0
   end, s).

Definition sample_read := run sample_kernel (proc_read sample_kdata 7 0x400FFE 4 0) tt.

Lemma sample_read_result : sample_read.1.1 = (Some (true, [1; 2; 3; 4]), sample_dmap).
Proof. vm_compute. reflexivity. Qed.

Lemma truthful_check mem t : forallb (truthful mem) t = true -> truthful_trace mem t.
Proof.
  intros H. apply List.Forall_forall. intros e He. rewrite forallb_forall in H. by apply H.
Qed.

Lemma proc_read_refines_witness :
  length [1; 2; 3; 4] = 4%nat /\
  exists pml4 physical, page_root sample_mem sample_kdata (u32 7) = Some (pml4, physical) /\
    sample_dmap = choose_dmap 0 pml4 physical /\
    forall i b, [1; 2; 3; 4] !! i = Some b ->
      process_byte sample_mem sample_dmap pml4 (u64 (0x400FFE + Z.of_nat i)) = Some b.
Proof.
  apply (proc_read_refines sample_mem sample_kdata 7 0x400FFE 4 0 sample_read.2).
  - split; [discriminate|reflexivity].
  - apply Nat.ltb_lt. reflexivity.
  - apply truthful_check. vm_compute. reflexivity.
  - rewrite <- sample_read_result. apply run_exec.
Defined.

Lemma proc_read_terminates_witness : exists ok out, sample_read.1.1.1 = Some (ok, out).
Proof.
  apply (proc_read_terminates sample_kdata 7 0x400FFE 4 0 sample_read.2 _ sample_dmap).
  replace (sample_read.1.1.1, sample_dmap) with sample_read.1.1
    by (rewrite sample_read_result; reflexivity).
  apply run_exec.
Defined.
