(* ===== verification/ProcRecords.v ===== *)
(** Finding a process in the kernel's list of records.  Three loops of the controller walk
    the same buffer: [find_game_process_sysctl]
    ([src/ps5/stable_sampler/process_sysctl.cpp]), [observe_shellui_once]
    ([src/ps5/commonfps_ps5_main.cpp]) and [find_shellui_pid]
    ([src/ps5/shellui_injector.cpp]); [preflight_process_view]
    ([include/common_fps/preflight_process_view.hpp]) reads one record for the report.
    Reads are checked: a read outside of the buffer is the result [None], and the theorems
    show that it does not happen. *)
From S2P Require Import Prelude Effects Debugger KernelCalls.

Definition kPidOffset : nat := 72.
Definition kTdnameOffset : nat := 447.
Definition ENOMEM : Z := 12.
Definition EOVERFLOW : Z := 84.

Definition codes (s : string) : list Z := map code (str s).
(** The names with their terminating zero. *)
Definition kGameName : list Z := codes "eboot.bin" ++ [0].
Definition kShellUiName : list Z := codes "SceShellUI" ++ [0].

(** ** Checked reads *)

(** [memcpy] of [n] bytes at [off]; [None] outside of the buffer. *)
Definition read_at (off n : nat) (l : list Z) : option (list Z) :=
  if (off + n <=? length l)%nat then Some (slice off n l) else None.
Definition read_i32 (off : nat) (l : list Z) : option Z :=
  match read_at off 4 l with Some b => Some (i32 (le_decode b)) | None => None end.
(** [memcmp(at off, name, sizeof name) == 0] *)
Definition equal_at (off : nat) (name l : list Z) : option bool :=
  match read_at off (length name) l with
  | Some b => Some (bool_decide (b = name))
  | None => None
  end.

(** ** The record loops *)

Record Walk := { wk_pid : Z; wk_records : Z; wk_malformed : Z }.
Definition Walk_init : Walk := {| wk_pid := -1; wk_records := 0; wk_malformed := 0 |}.
Definition count_record (w : Walk) : Walk :=
  {| wk_pid := wk_pid w; wk_records := wk_records w + 1; wk_malformed := wk_malformed w |}.
Definition count_malformed (w : Walk) : Walk :=
  {| wk_pid := wk_pid w; wk_records := wk_records w; wk_malformed := wk_malformed w + 1 |}.
Definition with_pid (pid : Z) (w : Walk) : Walk :=
  {| wk_pid := pid; wk_records := wk_records w; wk_malformed := wk_malformed w |}.

(** The head of one round: the size of the record at the cursor, [Some None] when the rest
    is malformed. *)
Definition record_head (l : list Z) : option (option nat) :=
  if (length l <? 4)%nat then Some None
  else match read_i32 0 l with
       | None => None
       | Some n => if (n <=? 0) || (Z.of_nat (length l) <? n) then Some None
                   else Some (Some (Z.to_nat n))
       end.

(** [record_name_equals] for the game. *)
Definition record_name_equals (record : list Z) (size : nat) : option bool :=
  if (size <=? kTdnameOffset)%nat then Some false
  else if (size - kTdnameOffset <? length kGameName)%nat then Some false
  else equal_at kTdnameOffset kGameName record.

(** One record of the game loop: the candidate it names. *)
Definition game_candidate (self : Z) (size : nat) (l : list Z) : option (option Z) :=
  if (kPidOffset + 4 <=? size)%nat then
    match record_name_equals l size with
    | None => None
    | Some false => Some None
    | Some true =>
        match read_i32 kPidOffset l with
        | None => None
        | Some c => Some (if (0 <? c) && negb (c =? self) then Some c else None)
        end
    end
  else Some None.

(** The game loop keeps the last candidate.  [fuel]: every record has at least a byte. *)
Fixpoint walk_game (fuel : nat) (self : Z) (l : list Z) (w : Walk) : option Walk :=
  match l, fuel with
  | [], _ => Some w
  | _, O => None
  | _, S f =>
      match record_head l with
      | None => None
      | Some None => Some (count_malformed w)
      | Some (Some n) =>
          match game_candidate self n l with
          | None => None
          | Some c =>
              let w1 := count_record w in
              walk_game f self (drop n l) (match c with Some p => with_pid p w1 | None => w1 end)
          end
      end
  end.

(** [record_is_shellui] and the candidate of [observe_shellui_once]. *)
Definition record_is_shellui (record : list Z) (size : nat) : option bool :=
  if (size <? kTdnameOffset + length kShellUiName)%nat then Some false
  else equal_at kTdnameOffset kShellUiName record.

Definition shellui_candidate (self : Z) (size : nat) (l : list Z) : option (option Z) :=
  if (kPidOffset + 4 <=? size)%nat then
    match record_is_shellui l size with
    | None => None
    | Some false => Some None
    | Some true =>
        match read_i32 kPidOffset l with
        | None => None
        | Some c => Some (if (0 <? c) && negb (c =? self) then Some c else None)
        end
    end
  else Some None.

(** [exact_process_name] and the candidate of [find_shellui_pid]. *)
Definition exact_process_name (l : list Z) (size : nat) : option bool :=
  let name_size := length (codes "SceShellUI") in
  if (size - kTdnameOffset <=? name_size)%nat then Some false
  else match equal_at kTdnameOffset (codes "SceShellUI") l with
       | None => None
       | Some false => Some false
       | Some true => match read_at (kTdnameOffset + name_size) 1 l with
                      | None => None
                      | Some b => Some (bool_decide (b = [0]))
                      end
       end.

Definition injector_candidate (self : Z) (size : nat) (l : list Z) : option (option Z) :=
  match (if (kTdnameOffset + length kShellUiName <=? size)%nat then read_i32 kPidOffset l
         else Some (-1)) with
  | None => None
  | Some c =>
      if (0 <? c) && negb (c =? self) then
        match exact_process_name l size with
        | None => None
        | Some ok => Some (if ok then Some c else None)
        end
      else Some None
  end.

(** The two ShellUI loops stop at the first candidate. *)
Fixpoint walk_first (candidate : nat -> list Z -> option (option Z)) (fuel : nat) (l : list Z)
    (w : Walk) : option Walk :=
  match l, fuel with
  | [], _ => Some w
  | _, O => None
  | _, S f =>
      match record_head l with
      | None => None
      | Some None => Some (count_malformed w)
      | Some (Some n) =>
          match candidate n l with
          | None => None
          | Some (Some p) => Some (with_pid p (count_record w))
          | Some None => walk_first candidate f (drop n l) (count_record w)
          end
      end
  end.

Definition walk_shellui (self : Z) (l : list Z) : option Walk :=
  walk_first (shellui_candidate self) (length l) l Walk_init.
Definition walk_injector (self : Z) (l : list Z) : option Walk :=
  walk_first (injector_candidate self) (length l) l Walk_init.

(** ** preflight_process_view.hpp *)

(** The loop over the start positions [i .. size - count]. *)
Fixpoint name_offset_loop (n i : nat) (name bytes : list Z) : option Z :=
  match n with
  | O => Some (-1)
  | S n' =>
      match (if (i =? 0)%nat then Some true
             else match read_at (i - 1) 1 bytes with
                  | Some b => Some (bool_decide (b = [0])) | None => None end) with
      | None => None
      | Some start =>
          match (if start : bool then equal_at i name bytes else Some false) with
          | None => None
          | Some true => Some (Z.of_nat i)
          | Some false => name_offset_loop n' (S i) name bytes
          end
      end
  end.

(** [name] with its terminating zero. *)
Definition preflight_name_offset (bytes : list Z) (size : nat) (name : list Z) : option Z :=
  if (size <? length name)%nat then Some (-1)
  else name_offset_loop (size - length name + 1) 0 name bytes.

Record PreflightProcessView := {
  pv_size : nat; pv_pid : Z; pv_ppid : Z; pv_legacy_name : list Z;
  pv_game_name_offset : Z; pv_shellui_name_offset : Z
}.

(** The copied name: up to a zero, other characters shown as dots. *)
Fixpoint legacy_name (l : list Z) : list Z :=
  match l with
  | [] => []
  | c :: l' => if c =? 0 then [] else (if (32 <=? c) && (c <=? 126) then c else 46) :: legacy_name l'
  end.

(** [None]: a read outside; [Some None]: the function returned [false]. *)
Definition preflight_process_view (bytes : list Z) : option (option PreflightProcessView) :=
  if (length bytes <? 4)%nat then Some None
  else match read_i32 0 bytes with
  | None => None
  | Some len =>
      if (len <? 80) || (Z.of_nat (length bytes) <? len) || (65536 <? len) then Some None
      else
        let size := Z.to_nat len in
        match read_i32 72 bytes, read_i32 76 bytes,
              (if (447 <? size)%nat then read_at 447 (min (size - 447) 32) bytes else Some []),
              preflight_name_offset bytes size kGameName,
              preflight_name_offset bytes size kShellUiName with
        | Some pid, Some ppid, Some name, Some g, Some s =>
            Some (Some {| pv_size := size; pv_pid := pid; pv_ppid := ppid;
                          pv_legacy_name := legacy_name name;
                          pv_game_name_offset := g; pv_shellui_name_offset := s |})
        | _, _, _, _, _ => None
        end
  end.

(** ** What the loops mean *)

(** The process number of a record that carries the name and is not this process. *)
Definition named_pid (self : Z) (name record : list Z) : option Z :=
  if (kTdnameOffset + length name <=? length record)%nat &&
     bool_decide (slice kTdnameOffset (length name) record = name)
  then let p := i32 (field kPidOffset 4 record) in
       if (0 <? p) && negb (p =? self) then Some p else None
  else None.

(** The buffer as a list of records and a rest: empty, or too short, or with an
    impossible size. *)
Inductive record_list : list (list Z) -> bool -> list Z -> Prop :=
| rl_end : record_list [] false []
| rl_short l : l <> [] -> (length l < 4)%nat -> record_list [] true l
| rl_bad l : (4 <= length l)%nat ->
    i32 (field 0 4 l) <= 0 \/ Z.of_nat (length l) < i32 (field 0 4 l) -> record_list [] true l
| rl_cons n l rs bad : (4 <= length l)%nat -> i32 (field 0 4 l) = Z.of_nat n ->
    (0 < n <= length l)%nat -> record_list rs bad (drop n l) ->
    record_list (take n l :: rs) bad l.

Definition walked (pid : Z) (rs : Z) (bad : bool) : Walk :=
  {| wk_pid := pid; wk_records := rs; wk_malformed := if bad then 1 else 0 |}.

Lemma slice_take off k n l : (off + k <= n)%nat -> slice off k (take n l) = slice off k l.
Proof.
  intros H. unfold slice. rewrite skipn_firstn_comm, take_take. f_equal. lia.
Qed.

Lemma read_at_in off n l : (off + n <= length l)%nat -> read_at off n l = Some (slice off n l).
Proof. intros H. unfold read_at. by rewrite (proj2 (Nat.leb_le _ _) H). Qed.

Lemma read_i32_in off l : (off + 4 <= length l)%nat -> read_i32 off l = Some (i32 (field off 4 l)).
Proof. intros H. unfold read_i32. by rewrite read_at_in. Qed.

Lemma equal_at_in off name l :
  (off + length name <= length l)%nat ->
  equal_at off name l = Some (bool_decide (slice off (length name) l = name)).
Proof. intros H. unfold equal_at. by rewrite read_at_in. Qed.

(** Every record is either refused by its size or splits off the buffer. *)
Lemma record_head_spec l : l <> [] ->
  (record_head l = Some None /\ record_list [] true l) \/
  exists n, record_head l = Some (Some n) /\ (0 < n <= length l)%nat /\
    forall rs bad, record_list rs bad (drop n l) -> record_list (take n l :: rs) bad l.
Proof.
  intros Hl. unfold record_head. destruct (length l <? 4)%nat eqn:E4.
  { left. split; [done|]. apply Nat.ltb_lt in E4. by apply rl_short. }
  apply Nat.ltb_ge in E4. rewrite read_i32_in by lia.
  destruct ((i32 (field 0 4 l) <=? 0) || _) eqn:E; breflect.
  - left. split; [done|]. by apply rl_bad.
  - right. exists (Z.to_nat (i32 (field 0 4 l))). split; [done|]. split; [lia|].
    intros rs bad. apply rl_cons; lia.
Qed.

(** The candidates depend on the record alone, and are read inside of it. *)
Lemma named_pid_take self name n l :
  (n <= length l)%nat ->
  named_pid self name (take n l) =
    if (kTdnameOffset + length name <=? n)%nat &&
       bool_decide (slice kTdnameOffset (length name) l = name)
    then let p := i32 (field kPidOffset 4 l) in
         if (0 <? p) && negb (p =? self) then Some p else None
    else None.
Proof.
  intros Hn. unfold named_pid. rewrite length_take, Nat.min_l by done.
  destruct (kTdnameOffset + length name <=? n)%nat eqn:E; [|done]. apply Nat.leb_le in E.
  unfold field. rewrite !slice_take by (unfold kTdnameOffset, kPidOffset in *; lia). done.
Qed.

Lemma game_candidate_spec self n l :
  (n <= length l)%nat -> game_candidate self n l = Some (named_pid self kGameName (take n l)).
Proof.
  intros Hn. rewrite named_pid_take by done. unfold game_candidate, record_name_equals.
  change (length kGameName) with 10%nat.
  destruct (kTdnameOffset + 10 <=? n)%nat eqn:E; breflect; unfold kTdnameOffset, kPidOffset in *.
  - apply Nat.leb_le in E. rewrite (proj2 (Nat.leb_le (72 + 4) n)) by lia.
    rewrite (proj2 (Nat.leb_gt _ _)), (proj2 (Nat.ltb_ge _ _)), equal_at_in by (simpl; lia).
    rewrite read_i32_in by lia. change (length kGameName) with 10%nat.
    by destruct (bool_decide _).
  - apply Nat.leb_gt in E. destruct (72 + 4 <=? n)%nat; [|done].
    destruct (n <=? 447)%nat eqn:E2; [done|]. apply Nat.leb_gt in E2.
    by rewrite (proj2 (Nat.ltb_lt _ _)) by lia.
Qed.

Lemma shellui_candidate_spec self n l :
  (n <= length l)%nat -> shellui_candidate self n l = Some (named_pid self kShellUiName (take n l)).
Proof.
  intros Hn. rewrite named_pid_take by done. unfold shellui_candidate, record_is_shellui.
  change (length kShellUiName) with 11%nat.
  destruct (kTdnameOffset + 11 <=? n)%nat eqn:E; unfold kTdnameOffset, kPidOffset in *.
  - apply Nat.leb_le in E. rewrite (proj2 (Nat.leb_le (72 + 4) n)) by lia.
    rewrite (proj2 (Nat.ltb_ge _ _)), equal_at_in by (simpl; lia).
    rewrite read_i32_in by lia. change (length kShellUiName) with 11%nat.
    by destruct (bool_decide _).
  - apply Nat.leb_gt in E. destruct (72 + 4 <=? n)%nat; [|done].
    by rewrite (proj2 (Nat.ltb_lt _ _)) by lia.
Qed.

(** [exact_process_name] compares the name and its terminator separately. *)
Lemma exact_name_spec n l :
  (kTdnameOffset + 11 <= n <= length l)%nat ->
  exact_process_name l n = Some (bool_decide (slice kTdnameOffset 11 l = kShellUiName)).
Proof.
  intros Hn. unfold exact_process_name. change (length (codes "SceShellUI")) with 10%nat.
  rewrite (proj2 (Nat.leb_gt _ _)) by (unfold kTdnameOffset in *; lia).
  rewrite equal_at_in by (change (length (codes "SceShellUI")) with 10%nat; unfold kTdnameOffset in *; lia).
  rewrite read_at_in by (unfold kTdnameOffset in *; lia).
  change (length (codes "SceShellUI")) with 10%nat.
  rewrite <- (slice_join kTdnameOffset 10 1 l : _ = slice kTdnameOffset 11 l). unfold kShellUiName.
  assert (H : forall a b : list Z, length a = 10%nat ->
    (a ++ b = codes "SceShellUI" ++ [0]) <-> (a = codes "SceShellUI" /\ b = [0])).
  { intros a b Ha. split; [intros E; by apply app_inj_1 in E|by intros [-> ->]]. }
  assert (Hl : length (slice kTdnameOffset 10 l) = 10%nat).
  { apply length_slice. unfold kTdnameOffset in *. lia. }
  specialize (H (slice kTdnameOffset 10 l) (slice (kTdnameOffset + 10) 1 l) Hl).
  case_bool_decide as H1; [case_bool_decide as H2|]; f_equal; symmetry.
  - by apply bool_decide_eq_true, H.
  - apply bool_decide_eq_false. rewrite H. tauto.
  - apply bool_decide_eq_false. rewrite H. tauto.
Qed.

Lemma injector_candidate_spec self n l :
  (n <= length l)%nat -> injector_candidate self n l = Some (named_pid self kShellUiName (take n l)).
Proof.
  intros Hn. rewrite named_pid_take by done. unfold injector_candidate.
  change (length kShellUiName) with 11%nat.
  destruct (kTdnameOffset + 11 <=? n)%nat eqn:E; [|done].
  apply Nat.leb_le in E. rewrite read_i32_in by (unfold kTdnameOffset, kPidOffset in *; lia).
  rewrite exact_name_spec by done. cbn [andb].
  destruct (0 <? _); cbn [andb]; [|by destruct (bool_decide _)].
  destruct (negb _); by destruct (bool_decide _).
Qed.

(** *** The walks *)

Lemma walk_first_spec name candidate self l w fuel :
  (forall n l, (n <= length l)%nat -> candidate n l = Some (named_pid self name (take n l))) ->
  (length l <= fuel)%nat ->
  exists rs bad, record_list rs bad l /\
    exists seen, walk_first candidate fuel l w = Some
      {| wk_pid := default (wk_pid w) (head (omap (named_pid self name) rs));
         wk_records := wk_records w + seen;
         wk_malformed := wk_malformed w +
           (if bad && negb (bool_decide (is_Some (head (omap (named_pid self name) rs)))) then 1 else 0) |}.
Proof.
  intros Hc. revert l w. induction fuel as [|f IH]; intros l w Hf.
  { destruct l; [|simpl in Hf; lia]. exists [], false. split; [constructor|]. exists 0.
    simpl. rewrite !Z.add_0_r. by destruct w. }
  destruct l as [|x l]; [exists [], false; split; [constructor|]; exists 0; simpl;
    rewrite !Z.add_0_r; by destruct w|].
  cbn [walk_first]. set (L := x :: l) in *.
  destruct (record_head_spec L ltac:(done)) as [[-> Hr]|(n & -> & Hn & Hr)].
  { exists [], true. split; [done|]. exists 0. simpl. unfold count_malformed. by rewrite Z.add_0_r. }
  rewrite Hc by lia. destruct (named_pid self name (take n L)) as [p|] eqn:Ep.
  - destruct (IH (drop n L) w) as (rs & bad & Hrs & _); [rewrite length_drop; lia|].
    exists (take n L :: rs), bad. split; [by apply Hr|]. exists 1. simpl. rewrite Ep. simpl.
    rewrite andb_false_r, Z.add_0_r. done.
  - destruct (IH (drop n L) (count_record w)) as (rs & bad & Hrs & seen & E);
      [rewrite length_drop; lia|].
    exists (take n L :: rs), bad. split; [by apply Hr|]. exists (1 + seen). rewrite E. simpl.
    rewrite Ep. do 2 f_equal. lia.
Qed.

Lemma walk_game_spec self l w fuel :
  (length l <= fuel)%nat ->
  exists rs bad, record_list rs bad l /\
    walk_game fuel self l w = Some
      {| wk_pid := default (wk_pid w) (last (omap (named_pid self kGameName) rs));
         wk_records := wk_records w + Z.of_nat (length rs);
         wk_malformed := wk_malformed w + (if bad then 1 else 0) |}.
Proof.
  revert l w. induction fuel as [|f IH]; intros l w Hf.
  { destruct l; [|simpl in Hf; lia]. exists [], false. split; [constructor|].
    simpl. rewrite !Z.add_0_r. by destruct w. }
  destruct l as [|x l]; [exists [], false; split; [constructor|]; simpl;
    rewrite !Z.add_0_r; by destruct w|].
  cbn [walk_game]. set (L := x :: l) in *.
  destruct (record_head_spec L ltac:(done)) as [[-> Hr]|(n & -> & Hn & Hr)].
  { exists [], true. split; [done|]. simpl. by rewrite Z.add_0_r. }
  rewrite game_candidate_spec by lia.
  set (w' := match named_pid self kGameName (take n L) with Some p => _ | None => _ end).
  destruct (IH (drop n L) w') as (rs & bad & Hrs & ->); [rewrite length_drop; lia|].
  exists (take n L :: rs), bad. split; [by apply Hr|].
  cbn [omap list_omap length]. unfold w'. destruct (named_pid self kGameName (take n L)) as [p|].
  - rewrite last_cons. destruct (last _); simpl; do 2 f_equal; lia.
  - simpl. do 2 f_equal; lia.
Qed.

(** The records of a buffer are determined by it. *)
Lemma record_list_unique rs bad l : record_list rs bad l ->
  forall rs' bad', record_list rs' bad' l -> rs' = rs /\ bad' = bad.
Proof.
  induction 1 as [|l H1 H2|l H1 H2|n l rs bad H1 H2 H3 _ IH]; intros rs' bad' H;
    inversion H; subst; simpl in *; try done; try lia.
  assert (n0 = n) as -> by lia. destruct (IH _ _ ltac:(eassumption)) as [-> ->]. done.
Qed.

Lemma walk_first_ext c1 c2 fuel l w :
  (forall n l, (n <= length l)%nat -> c1 n l = c2 n l) ->
  walk_first c1 fuel l w = walk_first c2 fuel l w.
Proof.
  intros Hc. revert l w. induction fuel as [|f IH]; intros [|x l] w; try done.
  cbn [walk_first]. destruct (record_head_spec (x :: l) ltac:(done)) as [[-> _]|(n & -> & Hn & _)]; [done|].
  rewrite Hc by lia. destruct (c2 n (x :: l)) as [[p|]|]; [done| |done]. apply IH.
Qed.

(** *** The position of a name in a record *)

(** The name starts at [i], at the beginning or behind a zero byte. *)
Definition name_starts (bytes name : list Z) (i : nat) : Prop :=
  (i = 0%nat \/ slice (i - 1) 1 bytes = [0]) /\ slice i (length name) bytes = name.

#[export] Instance name_starts_dec bytes name i : Decision (name_starts bytes name i).
Proof. unfold name_starts. apply _. Defined.

Lemma name_offset_loop_spec n i name bytes :
  (1 <= length name)%nat -> (i + n + length name <= length bytes + 1)%nat ->
  exists r, name_offset_loop n i name bytes = Some r /\
    ((r = -1 /\ forall j, (i <= j < i + n)%nat -> ~ name_starts bytes name j) \/
     exists j, r = Z.of_nat j /\ (i <= j < i + n)%nat /\ name_starts bytes name j /\
       forall k, (i <= k < j)%nat -> ~ name_starts bytes name k).
Proof.
  intros Hname. revert i. induction n as [|n IH]; intros i Hi; cbn [name_offset_loop].
  { exists (-1). split; [done|]. left. split; [done|]. lia. }
  assert (Hstart : (if (i =? 0)%nat then Some true else match read_at (i - 1) 1 bytes with
             | Some b => Some (bool_decide (b = [0])) | None => None end)
          = Some (bool_decide (i = 0%nat \/ slice (i - 1) 1 bytes = [0]))).
  { destruct (i =? 0)%nat eqn:E0.
    - apply Nat.eqb_eq in E0. f_equal. symmetry. apply bool_decide_eq_true. by left.
    - apply Nat.eqb_neq in E0. rewrite read_at_in by lia. f_equal. apply bool_decide_ext. tauto. }
  rewrite Hstart, equal_at_in by lia.
  destruct (decide (name_starts bytes name i)) as [Hs|Hs].
  - destruct Hs as [Hs1 Hs2]. rewrite !bool_decide_true by done.
    exists (Z.of_nat i). split; [done|]. right. exists i. repeat split; try lia; try done.
  - destruct (IH (S i) ltac:(lia)) as (r & -> & Hr). exists r. split.
    + destruct (decide (i = 0%nat \/ slice (i - 1) 1 bytes = [0])) as [H1|H1].
      * rewrite (bool_decide_true (_ \/ _)), bool_decide_false; [done| |done].
        intros H2. by apply Hs.
      * by rewrite bool_decide_false.
    + destruct Hr as [[-> Hr]|(j & -> & Hj & Hjs & Hr)]; [left|right].
      * split; [done|]. intros j Hj. destruct (decide (j = i)) as [->|]; [done|]. apply Hr. lia.
      * exists j. repeat split; try lia; try apply Hjs. intros k Hk.
        destruct (decide (k = i)) as [->|]; [done|]. apply Hr. lia.
Qed.

Lemma preflight_total bytes : exists r, preflight_process_view bytes = Some r.
Proof.
  unfold preflight_process_view. destruct (length bytes <? 4)%nat eqn:E4; [by eexists|].
  apply Nat.ltb_ge in E4. rewrite read_i32_in by lia.
  destruct (_ || _ || _) eqn:E; [by eexists|]. breflect. destruct E as [[E1 E2] E3].
  set (len := i32 (field 0 4 bytes)) in *. rewrite !read_i32_in by lia.
  assert (Hoff : forall name, (1 <= length name)%nat ->
    exists g, preflight_name_offset bytes (Z.to_nat len) name = Some g).
  { intros name Hn. unfold preflight_name_offset.
    destruct (Z.to_nat len <? length name)%nat eqn:El; [by eexists|]. apply Nat.ltb_ge in El.
    destruct (name_offset_loop_spec (Z.to_nat len - length name + 1) 0 name bytes Hn ltac:(lia))
      as (r & -> & _). by eexists. }
  destruct (Hoff kGameName ltac:(simpl; lia)) as [g ->].
  destruct (Hoff kShellUiName ltac:(simpl; lia)) as [s ->].
  destruct (447 <? Z.to_nat len)%nat eqn:E5; [|by eexists].
  apply Nat.ltb_lt in E5. rewrite read_at_in by lia. by eexists.
Qed.

(** ** The lookups *)

Record Lookup := {
  lk_pid : Z; lk_size_query_rc : Z; lk_data_query_rc : Z; lk_errno : option Z;
  lk_bytes : Z; lk_records : Z; lk_malformed : Z
}.
Definition Lookup_init : Lookup :=
  {| lk_pid := -1; lk_size_query_rc := -1; lk_data_query_rc := -1; lk_errno := Some 0;
     lk_bytes := 0; lk_records := 0; lk_malformed := 0 |}.

(** The capacity leaves room for the list to grow between the two calls. *)
Definition lookup_capacity (required : Z) : Z := u64 (required + required / 4 + 4096).

Section Lookups.
Local Open Scope prog_scope.

(** [errno] itself is left to the environment ([lk_errno = None]). *)
Definition lookup_failed (size_rc data_rc bytes : Z) (err : option Z) : Lookup :=
  {| lk_pid := -1; lk_size_query_rc := size_rc; lk_data_query_rc := data_rc; lk_errno := err;
     lk_bytes := bytes; lk_records := 0; lk_malformed := 0 |}.
Definition lookup_done (bytes : Z) (w : Walk) : Lookup :=
  {| lk_pid := wk_pid w; lk_size_query_rc := 0; lk_data_query_rc := 0; lk_errno := Some 0;
     lk_bytes := bytes; lk_records := wk_records w; lk_malformed := wk_malformed w |}.

(** The two queries and the walk of [find_game_process_sysctl] and [observe_shellui_once],
    which differ in the walk and in the error of an impossible size.  [None]: a read
    outside of the buffer. *)
Definition sysctl_lookup (walk : Z -> list Z -> option Walk) (too_large : option Z)
    : kprog (option Lookup) :=
  let* (size_rc, required) := kc SysctlProcSize in
  if negb (size_rc =? 0) || (required =? 0) then Ret (Some (lookup_failed size_rc (-1) 0 None))
  else
    let capacity := lookup_capacity required in
    let* allocated := kc (Calloc capacity) in
    if negb allocated then Ret (Some (lookup_failed size_rc (-1) 0 (Some ENOMEM)))
    else
      let* (data_rc, bytes, data) := kc (SysctlProc capacity) in
      if negb (data_rc =? 0) || (capacity <? bytes) then
        Ret (Some (lookup_failed size_rc data_rc bytes
                     (if capacity <? bytes then too_large else None)))
      else
        let* self := kc Getpid in
        Ret (match walk self (buffer (Z.to_nat bytes) data) with
             | Some w => Some (lookup_done bytes w)
             | None => None
             end).

Definition find_game_process_sysctl : kprog (option Lookup) :=
  sysctl_lookup (fun self l => walk_game (length l) self l Walk_init) None.
Definition observe_shellui_once : kprog (option Lookup) :=
  sysctl_lookup walk_shellui (Some EOVERFLOW).
End Lookups.

(** ** Theorems *)

(** The three loops over the kernel's process list never read outside of the buffer,
    for any contents of it.  The buffer splits into records in exactly one way; the game
    lookup gives the last record named eboot.bin, and both ShellUI lookups give the same
    result: the first record named SceShellUI, always with a positive number that is not
    this process. *)
Theorem process_lookup_exact self l :
  exists rs bad, record_list rs bad l /\
    (forall rs' bad', record_list rs' bad' l -> rs' = rs /\ bad' = bad) /\
    walk_game (length l) self l Walk_init =
      Some (walked (default (-1) (last (omap (named_pid self kGameName) rs)))
              (Z.of_nat (length rs)) bad) /\
    exists w, walk_shellui self l = Some w /\ walk_injector self l = Some w /\
      wk_pid w = default (-1) (head (omap (named_pid self kShellUiName) rs)).
Proof.
  destruct (walk_game_spec self l Walk_init (length l) ltac:(done)) as (rs & bad & Hrs & Hg).
  exists rs, bad. split; [done|]. split; [by apply record_list_unique|].
  split; [rewrite Hg; reflexivity|].
  destruct (walk_first_spec kShellUiName (shellui_candidate self) self l Walk_init (length l)
    (shellui_candidate_spec self) ltac:(done)) as (rs' & bad' & Hrs' & seen & Hs).
  destruct (record_list_unique _ _ _ Hrs _ _ Hrs') as [-> ->].
  eexists. split; [exact Hs|]. split; [|reflexivity].
  unfold walk_injector. rewrite <- Hs. apply walk_first_ext. intros n l' Hn.
  by rewrite injector_candidate_spec, shellui_candidate_spec.
Qed.

(** The report never reads outside of the record it shows, and the name position it
    gives is the first place where the name starts. *)
Theorem preflight_view_bounds bytes :
  exists r, preflight_process_view bytes = Some r /\
    forall v, r = Some v -> (80 <= pv_size v <= length bytes)%nat /\
      (pv_game_name_offset v = -1 \/
       exists j, pv_game_name_offset v = Z.of_nat j /\ (j + 10 <= pv_size v)%nat /\
         name_starts bytes kGameName j /\
         forall k, (k < j)%nat -> ~ name_starts bytes kGameName k).
Proof.
  destruct (preflight_total bytes) as [r Hr]. exists r. split; [done|]. intros v ->.
  unfold preflight_process_view in Hr. destruct (length bytes <? 4)%nat; [done|].
  destruct (read_i32 0 bytes) as [len|]; [|done]. destruct (_ || _ || _) eqn:E; [done|]. breflect.
  destruct (read_i32 72 bytes); [|done]. destruct (read_i32 76 bytes); [|done].
  destruct (if (447 <? _)%nat then _ else _); [|done].
  destruct (preflight_name_offset _ _ kGameName) as [g|] eqn:Eg; [|done].
  destruct (preflight_name_offset _ _ kShellUiName); [|done]. injection Hr as <-. simpl.
  split; [lia|]. unfold preflight_name_offset in Eg. change (length kGameName) with 10%nat in Eg.
  destruct (_ <? 10)%nat eqn:E10; [left; congruence|]. apply Nat.ltb_ge in E10.
  destruct (name_offset_loop_spec (Z.to_nat len - 10 + 1) 0 kGameName bytes) as (r' & Hr' & Hcase);
    [simpl; lia|simpl; lia|].
  rewrite Hr' in Eg. injection Eg as <-. destruct Hcase as [[-> _]|(j & -> & Hj & Hs & Hmin)]; [by left|right].
  exists j. repeat split; try lia; try apply Hs. intros k Hk. apply Hmin. lia.
Qed.

Definition sample_record (size : nat) (pid : Z) (name : list Z) : list Z :=
  le_encode 4 (Z.of_nat size) ++ repeat 0 68 ++ le_encode 4 pid ++ repeat 0 371 ++ name ++
  repeat 0 (size - 447 - length name).

Example sample_lookup :
  walk_game 2000 5 (sample_record 460 5 kGameName ++ sample_record 470 9 kGameName ++
    sample_record 500 12 kShellUiName ++ sample_record 480 8 kGameName ++ [1; 2]) Walk_init
  = Some (walked 8 4 true).
Proof. vm_compute. reflexivity. Qed.
