(* ===== verification/Preflight.v ===== *)
(** The diagnostic preflight program, [src/ps5/fw1160_preflight_main.cpp]: it names itself,
    asks for the firmware and, on 11.60 only, looks at the process list once a second for
    two minutes.  Every operation is announced by a durable log line and its result is
    logged; [watch_step] checks this on every execution.

    A log line is a [Checkpoint]; how it is formatted and written is [FileIo]'s
    [log_message_v]. *)
From S2P Require Import Prelude Effects Debugger KernelCalls ProcRecords.

(** ** Log lines and system calls *)

Record Stats := { st_records : Z; st_malformed : Z; st_games : Z; st_shells : Z }.
Definition Stats_init : Stats := {| st_records := 0; st_malformed := 0; st_games := 0; st_shells := 0 |}.

Inductive Checkpoint :=
| Started
| IdentityBefore (pid ppid : Z) | IdentityAfter (rc : Z)
| FirmwareBefore | FirmwareAfter (sdk : Z) | WrongFirmware
| SizeBefore (tick : Z) | SizeAfter (tick rc errno bytes : Z)
| AllocationFailed (tick : Z)
| DataBefore (tick capacity : Z) | DataAfter (tick rc errno bytes : Z)
| ProcessSeen (tick : Z) (v : PreflightProcessView)
| ParseComplete (tick : Z) (st : Stats)
| ObservationComplete.

#[export] Instance view_eq_dec : EqDecision PreflightProcessView.
Proof. solve_decision. Defined.
#[export] Instance stats_eq_dec : EqDecision Stats.
Proof. solve_decision. Defined.
#[export] Instance checkpoint_eq_dec : EqDecision Checkpoint.
Proof. solve_decision. Defined.

Inductive pcall :=
| PReset                                   (** the log is emptied *)
| PLog (line : Checkpoint)                 (** appended, and on disk when the call returns *)
| PGetpid | PGetppid
| PSetProcessName                          (** [sceKernelSetProcessName] *)
| PFwVersion                               (** [kernel_get_fw_version] *)
| PSysctlSize                              (** result, [errno], required size *)
| PMalloc (capacity : Z)
| PSysctlData (capacity : Z)               (** result, [errno], size, bytes *)
| PFree
| PUsleep (us : Z).

Definition pret (c : pcall) : Type :=
  match c with
  | PReset | PLog _ | PFree | PUsleep _ => unit
  | PMalloc _ => bool
  | PSysctlSize => Z * Z * Z
  | PSysctlData _ => Z * Z * Z * list Z
  | _ => Z
  end.
Abbreviation pprog := (prog pret).
Definition pf (c : pcall) : pprog (pret c) := call (R := pret) c.

Definition kObserveSeconds : Z := 120.
Definition kMaxProcessBytes : Z := 4 * 1024 * 1024.

(** ** The program *)

Section Programs.
Local Open Scope prog_scope.

Definition named_view (v : PreflightProcessView) : bool :=
  (0 <=? pv_game_name_offset v) || (0 <=? pv_shellui_name_offset v).

Definition counted (v : PreflightProcessView) (st : Stats) : Stats := {|
  st_records := u32 (st_records st + 1); st_malformed := st_malformed st;
  st_games := if 0 <=? pv_game_name_offset v then u32 (st_games st + 1) else st_games st;
  st_shells := if 0 <=? pv_shellui_name_offset v then u32 (st_shells st + 1) else st_shells st |}.
Definition malformed (st : Stats) : Stats := {|
  st_records := st_records st; st_malformed := u32 (st_malformed st + 1);
  st_games := st_games st; st_shells := st_shells st |}.

(** One record in ten ticks; the process number is asked for only when no name matched. *)
Definition report_view (tick : Z) (v : PreflightProcessView) : pprog unit :=
  if tick mod 10 =? 0 then
    let* mine := (if named_view v then Ret true
                  else let* self := pf PGetpid in Ret (pv_pid v =? self)) in
    if mine : bool then pf (PLog (ProcessSeen tick v)) else Ret tt
  else Ret tt.

(** [None]: a read outside of the buffer. *)
Fixpoint parse_loop (fuel : nat) (tick : Z) (bytes : list Z) (st : Stats) : pprog (option Stats) :=
  match bytes, fuel with
  | [], _ => Ret (Some st)
  | _, O => Ret None
  | _, S fuel' =>
      match preflight_process_view bytes with
      | None => Ret None
      | Some None => Ret (Some (malformed st))
      | Some (Some v) =>
          report_view tick v ;;;
          parse_loop fuel' tick (drop (pv_size v) bytes) (counted v st)
      end
  end.

Definition error_of (rc errno : Z) : Z := if rc =? 0 then 0 else errno.

(** The part with the buffer. *)
Definition query_list (tick capacity : Z) : pprog (option unit) :=
  pf (PLog (DataBefore tick capacity)) ;;;
  let* (rc, errno, count, data) := pf (PSysctlData capacity) in
  pf (PLog (DataAfter tick rc (error_of rc errno) count)) ;;;
  let* r := (if (rc =? 0) && (count <=? capacity) then
               let l := buffer (Z.to_nat count) data in
               let* st := parse_loop (length l) tick l Stats_init in
               match st with
               | Some st => pf (PLog (ParseComplete tick st)) ;;; Ret (Some tt)
               | None => Ret None
               end
             else Ret (Some tt)) in
  match r with
  | Some _ => pf PFree ;;; Ret (Some tt)
  | None => Ret None
  end.

Definition preflight_capacity (required : Z) : Z :=
  Z.min (required + required / 4 + 4096) kMaxProcessBytes.

Definition snapshot (tick : Z) : pprog (option unit) :=
  pf (PLog (SizeBefore tick)) ;;;
  let* (rc, errno, required) := pf PSysctlSize in
  pf (PLog (SizeAfter tick rc (error_of rc errno) required)) ;;;
  if negb (rc =? 0) || (required =? 0) || (kMaxProcessBytes <? required) then Ret (Some tt)
  else
    let capacity := preflight_capacity required in
    let* allocated := pf (PMalloc capacity) in
    if negb allocated then pf (PLog (AllocationFailed tick)) ;;; Ret (Some tt)
    else query_list tick capacity.

(** [n] snapshots from [tick] on, a second apart. *)
Fixpoint observe (n : nat) (tick : Z) : pprog (option unit) :=
  match n with
  | O => Ret (Some tt)
  | S n' =>
      let* r := snapshot tick in
      match r with
      | Some _ => pf (PUsleep 1000000) ;;; observe n' (tick + 1)
      | None => Ret None
      end
  end.

(** The endless sleep at the end, for [n] rounds. *)
Fixpoint park (n : nat) : pprog unit :=
  match n with O => Ret tt | S n' => pf (PUsleep 5000000) ;;; park n' end.

Definition fw1160 (sdk : Z) : bool := Z.land sdk 0xffff0000 =? 0x11600000.

Definition preflight_main (rounds : nat) : pprog (option unit) :=
  pf PReset ;;;
  pf (PLog Started) ;;;
  let* pid := pf PGetpid in
  let* ppid := pf PGetppid in
  pf (PLog (IdentityBefore pid ppid)) ;;;
  let* name_rc := pf PSetProcessName in
  pf (PLog (IdentityAfter name_rc)) ;;;
  pf (PLog FirmwareBefore) ;;;
  let* sdk := pf PFwVersion in
  pf (PLog (FirmwareAfter sdk)) ;;;
  let* r := (if negb (fw1160 sdk) then pf (PLog WrongFirmware) ;;; Ret (Some tt)
             else
               let* r := observe (Z.to_nat kObserveSeconds) 0 in
               match r with
               | Some _ => pf (PLog ObservationComplete) ;;; Ret (Some tt)
               | None => Ret None
               end) in
  match r with
  | Some _ => park rounds ;;; Ret (Some tt)
  | None => Ret None
  end.
End Programs.

(** ** What the log proves *)

(** The line that is on disk and followed by nothing yet, the line that has to report the
    last operation, the buffer, the firmware once it was asked, and the snapshots begun. *)
Record Watch := {
  w_armed : option Checkpoint; w_owed : option Checkpoint; w_heap : option Z; w_fw : option Z;
  w_ticks : Z
}.
Definition Watch_init : Watch :=
  {| w_armed := None; w_owed := None; w_heap := None; w_fw := None; w_ticks := 0 |}.

Definition performed (w : Watch) (owed : Checkpoint) : Watch :=
  {| w_armed := None; w_owed := Some owed; w_heap := w_heap w; w_fw := w_fw w; w_ticks := w_ticks w |}.
Definition lined (w : Watch) (armed : option Checkpoint) : Watch :=
  {| w_armed := armed; w_owed := None; w_heap := w_heap w; w_fw := w_fw w; w_ticks := w_ticks w |}.
Definition with_heap (w : Watch) (h : option Z) : Watch :=
  {| w_armed := w_armed w; w_owed := w_owed w; w_heap := h; w_fw := w_fw w; w_ticks := w_ticks w |}.
Definition with_fw (w : Watch) (sdk : Z) : Watch :=
  {| w_armed := w_armed w; w_owed := w_owed w; w_heap := w_heap w; w_fw := Some sdk; w_ticks := w_ticks w |}.
Definition next_tick (w : Watch) : Watch :=
  {| w_armed := w_armed w; w_owed := w_owed w; w_heap := w_heap w; w_fw := w_fw w;
     w_ticks := w_ticks w + 1 |}.

Definition require (b : bool) (w : Watch) : option Watch := if b then Some w else None.

(** An operation needs its announcement in front of it, and nothing happens before its
    report; the process list is asked for only on firmware 11.60, tick after tick, into a
    buffer of the announced size, which is at most 4 MB. *)
Definition watch_step (w : Watch) (e : event pret) : option Watch :=
  match e with
  | Ev (PLog line) _ =>
      match w_owed w with
      | Some owed => require (bool_decide (line = owed)) (lined w None)
      | None => Some (lined w (Some line))
      end
  | Ev PSetProcessName rc =>
      match w_armed w with
      | Some (IdentityBefore _ _) => Some (performed w (IdentityAfter rc))
      | _ => None
      end
  | Ev PFwVersion sdk =>
      require (bool_decide (w_armed w = Some FirmwareBefore)) (with_fw (performed w (FirmwareAfter sdk)) sdk)
  | Ev PSysctlSize (rc, errno, required) =>
      require (bool_decide (w_armed w = Some (SizeBefore (w_ticks w))) &&
               match w_fw w with Some sdk => fw1160 sdk | None => false end)
        (next_tick (performed w (SizeAfter (w_ticks w) rc (error_of rc errno) required)))
  | Ev (PSysctlData capacity) (rc, errno, count, _) =>
      require (bool_decide (w_armed w = Some (DataBefore (w_ticks w - 1) capacity)) &&
               bool_decide (w_heap w = Some capacity))
        (performed w (DataAfter (w_ticks w - 1) rc (error_of rc errno) count))
  | Ev (PMalloc capacity) ok =>
      require (bool_decide (w_owed w = None /\ w_heap w = None) && (capacity <=? kMaxProcessBytes))
        (with_heap w (if ok then Some capacity else None))
  | Ev PFree _ => require (bool_decide (w_owed w = None /\ is_Some (w_heap w))) (with_heap w None)
  | Ev _ _ => require (bool_decide (w_owed w = None)) w
  end.

(** Between two operations. *)
Definition settled (heap fw : option Z) (ticks : Z) (w : Watch) : Prop :=
  w_owed w = None /\ w_heap w = heap /\ w_fw w = fw /\ w_ticks w = ticks.

Definition pwp {A} (p : pprog A) (w : Watch) (Q : A -> Watch -> Prop) : Prop := wp watch_step p w Q.

Lemma pwp_bind {A B} (p : pprog A) (f : A -> pprog B) w R Q :
  pwp p w R -> (forall a w', R a w' -> pwp (f a) w' Q) -> pwp (bindp p f) w Q.
Proof. intros Hp Hf. apply wp_bind. eapply wp_mono; [|exact Hp]. apply Hf. Qed.

(** A line that reports nothing in particular. *)
Lemma pwp_log {B} line (f : unit -> pprog B) w Q :
  w_owed w = None -> pwp (f tt) (lined w (Some line)) Q -> pwp (bindp (pf (PLog line)) f) w Q.
Proof. intros Hw Hf []. cbn [watch_step]. by rewrite Hw. Qed.

(** The report of the last operation. *)
Lemma pwp_report {B} line (f : unit -> pprog B) w Q :
  w_owed w = Some line -> pwp (f tt) (lined w None) Q -> pwp (bindp (pf (PLog line)) f) w Q.
Proof. intros Hw Hf []. cbn [watch_step]. rewrite Hw, bool_decide_true by done. exact Hf. Qed.

Lemma pwp_quiet {B} c (f : pret c -> pprog B) w Q :
  (forall r, watch_step w (Ev c r) = require (bool_decide (w_owed w = None)) w) -> w_owed w = None ->
  (forall r, pwp (f r) w Q) -> pwp (bindp (pf c) f) w Q.
Proof. intros Hc Hw Hf r. cbn [pf call bindp wp]. rewrite Hc, bool_decide_true by done. apply Hf. Qed.

Lemma report_view_pwp tick v w heap fw ticks :
  settled heap fw ticks w -> pwp (report_view tick v) w (fun _ => settled heap fw ticks).
Proof.
  intros Hw. unfold report_view. destruct (tick mod 10 =? 0); [|exact Hw].
  eapply pwp_bind with (R := fun _ => settled heap fw ticks).
  - destruct (named_view v); [exact Hw|]. apply pwp_quiet; [done|apply Hw|]. intros self. exact Hw.
  - intros [|] w' Hw'; [|exact Hw']. intros []. cbn [watch_step]. destruct Hw' as (E & ?). by rewrite E.
Qed.

(** The loop never reads outside of the buffer. *)
Lemma parse_loop_pwp fuel tick l st w heap fw ticks :
  (length l <= fuel)%nat -> settled heap fw ticks w ->
  pwp (parse_loop fuel tick l st) w (fun r w' => is_Some r /\ settled heap fw ticks w').
Proof.
  revert l st w. induction fuel as [|fuel IH]; intros [|x l] st w Hl Hw; cbn [parse_loop];
    try (by split; [eexists|]); [cbn in Hl; lia|].
  destruct (preflight_view_bounds (x :: l)) as (r & Hr & Hv). rewrite Hr. destruct r as [v|]; [|by split; [eexists|]].
  eapply pwp_bind; [by apply report_view_pwp|]. intros ? w' Hw'. apply IH; [|exact Hw'].
  destruct (Hv v eq_refl) as [Hsize _]. rewrite length_drop. cbn in *. lia.
Qed.

Lemma query_list_pwp tick capacity w fw :
  settled (Some capacity) fw (tick + 1) w ->
  pwp (query_list tick capacity) w (fun r w' => is_Some r /\ settled None fw (tick + 1) w').
Proof.
  intros (Ho & Hh & Hf & Ht). unfold query_list. apply pwp_log; [done|].
  intros [[[rc errno] count] data]. cbn [watch_step lined w_armed w_ticks w_heap]. rewrite Ht, Hh.
  replace (tick + 1 - 1) with tick by lia. rewrite !bool_decide_true by done. cbn [andb require].
  apply pwp_report; [done|]. set (w1 := lined _ None).
  assert (settled (Some capacity) fw (tick + 1) w1) as H1 by done. clearbody w1.
  eapply pwp_bind with (R := fun r w' => is_Some r /\ settled (Some capacity) fw (tick + 1) w').
  - destruct (_ && _); [|by split; [eexists|]].
    eapply pwp_bind; [by apply parse_loop_pwp|]. intros ? w2 [[st ->] H2].
    destruct H2 as (Ho2 & ?). apply pwp_log; [done|]. by split; [eexists|].
  - intros ? w2 [[[] ->] (Ho2 & Hh2 & Hf2 & Ht2)]. intros []. cbn [watch_step].
    rewrite bool_decide_true by (rewrite Ho2, Hh2; by split; [|eexists]). by split; [eexists|].
Qed.

Lemma snapshot_pwp tick w sdk :
  fw1160 sdk = true -> settled None (Some sdk) tick w ->
  pwp (snapshot tick) w (fun r w' => is_Some r /\ settled None (Some sdk) (tick + 1) w').
Proof.
  intros Hfw (Ho & Hh & Hf & Ht). unfold snapshot. apply pwp_log; [done|].
  intros [[rc errno] required]. cbn [watch_step lined w_armed w_ticks w_fw]. rewrite Ht, Hf, Hfw.
  rewrite bool_decide_true by done. cbn [andb require]. apply pwp_report; [done|].
  set (w1 := lined _ None).
  assert (settled None (Some sdk) (tick + 1) w1) as H1 by (unfold settled; cbn; rewrite ?Ht; done). clearbody w1.
  destruct (_ || _ || _) eqn:E; [by split; [eexists|]|]. breflect. destruct E as [[E1 E2] E3].
  intros ok. cbn [watch_step]. destruct H1 as (Ho1 & Hh1 & Hf1 & Ht1).
  rewrite bool_decide_true by done. cbn [andb].
  assert (preflight_capacity required <= kMaxProcessBytes) as Hcap by apply Z.le_min_r.
  apply Z.leb_le in Hcap. rewrite Hcap. cbn [require].
  destruct ok; cbn [negb].
  - by apply query_list_pwp.
  - apply pwp_log; [done|]. by split; [eexists|].
Qed.

Lemma observe_pwp n tick w sdk :
  fw1160 sdk = true -> settled None (Some sdk) tick w ->
  pwp (observe n tick) w (fun r w' => is_Some r /\ settled None (Some sdk) (tick + Z.of_nat n) w').
Proof.
  intros Hfw. revert tick w. induction n as [|n IH]; intros tick w Hw; cbn [observe].
  - split; [by eexists|]. by rewrite Z.add_0_r.
  - eapply pwp_bind; [by apply snapshot_pwp|]. intros ? w1 [[[] ->] H1].
    apply pwp_quiet; [done|apply H1|]. intros _. eapply wp_mono; [|apply IH, H1].
    intros r w2 [Hr H2]. split; [done|]. by replace (tick + Z.of_nat (S n)) with (tick + 1 + Z.of_nat n) by lia.
Qed.

Lemma park_pwp n w (Q : unit -> Watch -> Prop) : w_owed w = None -> Q tt w -> pwp (park n) w Q.
Proof.
  intros Hw HQ. induction n as [|n IH]; [exact HQ|]. cbn [park]. by apply pwp_quiet.
Qed.

(** C30: the preflight log can be trusted.  On every execution, whatever the system answers:
    setting the name, asking for the firmware and each query of the process list come
    directly after the durable line that announces them and are followed, before anything
    else, by the line that reports their result; the process list is asked for only on
    firmware 11.60, and then in exactly 120 numbered ticks; the buffer never exceeds 4 MB,
    is never read outside of what the kernel filled, and is given back once. *)
Theorem preflight_evidence rounds t r :
  exec (preflight_main rounds) t r ->
  r = Some tt /\
  exists w sdk, monitor watch_step Watch_init t = Some w /\ w_owed w = None /\ w_heap w = None /\
    w_fw w = Some sdk /\ w_ticks w = if fw1160 sdk then kObserveSeconds else 0.
Proof.
  set (Q := fun (r : option unit) w => r = Some tt /\ exists sdk, w_owed w = None /\ w_heap w = None /\
    w_fw w = Some sdk /\ w_ticks w = if fw1160 sdk then kObserveSeconds else 0).
  assert (pwp (preflight_main rounds) Watch_init Q) as Hw.
  { unfold preflight_main. apply pwp_quiet; [done|done|]. intros _. apply pwp_log; [done|].
    apply pwp_quiet; [done|done|]. intros pid. apply pwp_quiet; [done|done|]. intros ppid.
    apply pwp_log; [done|]. intros rc. cbn [watch_step lined w_armed]. apply pwp_report; [done|].
    apply pwp_log; [done|]. intros sdk. cbn [watch_step lined w_armed].
    rewrite bool_decide_true by done. cbn [require]. apply pwp_report; [done|]. set (w1 := lined _ None).
    assert (settled None (Some sdk) 0 w1) as H1 by done. clearbody w1.
    eapply pwp_bind with (R := fun r w => is_Some r /\
      settled None (Some sdk) (if fw1160 sdk then kObserveSeconds else 0) w).
    - destruct (fw1160 sdk) eqn:Hfw; cbn [negb].
      + eapply pwp_bind; [by apply observe_pwp|]. intros ? w2 [[[] ->] (Ho2 & ?)].
        apply pwp_log; [done|]. by split; [eexists|].
      + destruct H1 as (Ho1 & ?). apply pwp_log; [done|]. by split; [eexists|].
    - intros ? w2 [[[] ->] (Ho2 & Hh2 & Hf2 & Ht2)].
      eapply pwp_bind; [apply park_pwp with (Q := fun _ w => w = w2); done|].
      intros ? ? ->. split; [done|]. by exists sdk. }
  intros He. destruct (wp_sound _ _ _ _ Hw t r He) as (w & Hm & Hr & sdk & ?). split; [done|]. by exists w, sdk.
Qed.


(** ** What the log reports *)

(** The records that start at the front of the buffer, and the rest that is malformed. *)
Inductive listed : list Z -> list PreflightProcessView -> list Z -> Prop :=
| listed_end : listed [] [] []
| listed_malformed l : l <> [] -> preflight_process_view l = Some None -> listed l [] l
| listed_record l v vs rest :
    preflight_process_view l = Some (Some v) -> listed (drop (pv_size v) l) vs rest ->
    listed l (v :: vs) rest.

(** The counters of the report, as plain numbers. *)
Definition tally (vs : list PreflightProcessView) (rest : list Z) : Stats := {|
  st_records := Z.of_nat (length vs);
  st_malformed := if bool_decide (rest = []) then 0 else 1;
  st_games := Z.of_nat (length (filter (fun v => 0 <= pv_game_name_offset v) vs));
  st_shells := Z.of_nat (length (filter (fun v => 0 <= pv_shellui_name_offset v) vs)) |}.

(** The records shown in a trace. *)
Definition seen (t : list (event pret)) : list PreflightProcessView :=
  omap (fun e => match e with Ev (PLog (ProcessSeen _ v)) _ => Some v | _ => None end) t.

(** Which records a tick shows: none, or the named ones and possibly others. *)
Definition shown_of (tick : Z) (vs shown : list PreflightProcessView) : Prop :=
  if tick mod 10 =? 0 then
    sublist (filter (fun v => named_view v = true) vs) shown /\ sublist shown vs
  else shown = [].

Lemma seen_app t1 t2 : seen (t1 ++ t2) = seen t1 ++ seen t2.
Proof. apply omap_app. Qed.

Lemma report_view_shown tick v vs shown t r :
  exec (report_view tick v) t r -> shown_of tick vs shown -> shown_of tick (v :: vs) (seen t ++ shown).
Proof.
  unfold report_view, shown_of. destruct (tick mod 10 =? 0).
  - intros (t1 & t2 & mine & -> & H1 & H2)%exec_bind [Hl Hu]. rewrite seen_app.
    assert (seen t1 = [] /\ (named_view v = true -> mine = true)) as [-> Hmine].
    { destruct (named_view v); [by destruct H1 as [-> ->]|]. by destruct H1 as (self & ? & -> & -> & ->). }
    rewrite filter_cons. destruct mine.
    + destruct H2 as (? & ? & -> & -> & _). cbn. split.
      * case_decide; by constructor.
      * by constructor.
    + destruct H2 as [-> _]. cbn. split.
      * case_decide as E; [by apply Hmine in E|done].
      * by constructor.
  - intros [-> _] ->. done.
Qed.

(** [tally] on top of counters that have been started. *)
Definition tally_from (st : Stats) (vs : list PreflightProcessView) (rest : list Z) : Stats := {|
  st_records := st_records st + st_records (tally vs rest);
  st_malformed := st_malformed st + st_malformed (tally vs rest);
  st_games := st_games st + st_games (tally vs rest);
  st_shells := st_shells st + st_shells (tally vs rest) |}.

(** The counters have room for [n] more bytes of records. *)
Definition roomy (st : Stats) (n : nat) : Prop :=
  0 <= st_games st <= st_records st /\ 0 <= st_shells st <= st_records st /\
  st_records st + Z.of_nat n < 2 ^ 32 /\ st_malformed st = 0.

Lemma counted_plain v st n :
  roomy st (S n) ->
  counted v st = {|
    st_records := st_records st + 1; st_malformed := 0;
    st_games := st_games st + (if bool_decide (0 <= pv_game_name_offset v) then 1 else 0);
    st_shells := st_shells st + (if bool_decide (0 <= pv_shellui_name_offset v) then 1 else 0) |}.
Proof.
  intros (Hg & Hs & Hr & Hm). unfold counted. rewrite Hm.
  assert (u32 (st_records st + 1) = st_records st + 1) as -> by (apply Z.mod_small; lia).
  assert (forall x, x <= st_records st -> 0 <= x -> u32 (x + 1) = x + 1) as E
    by (intros; apply Z.mod_small; lia).
  rewrite !E by lia.
  f_equal; case_bool_decide as H; [apply Z.leb_le in H|apply Z.leb_nle in H|apply Z.leb_le in H|apply Z.leb_nle in H];
    rewrite H; lia.
Qed.

Lemma tally_from_counted v st vs rest n :
  roomy st (S n) -> tally_from (counted v st) vs rest = tally_from st (v :: vs) rest.
Proof.
  intros H. rewrite (counted_plain v st n H). destruct H as (_ & _ & _ & Hm).
  unfold tally_from, tally. cbn [st_records st_malformed st_games st_shells length]. rewrite Hm, !filter_cons.
  f_equal; try lia; repeat case_decide; rewrite ?bool_decide_true, ?bool_decide_false by done; cbn [length]; lia.
Qed.

Lemma roomy_counted v st n m : roomy st (S n) -> (m <= n)%nat -> roomy (counted v st) m.
Proof.
  intros H Hm. rewrite (counted_plain v st n H). destruct H as (? & ? & ? & ?). unfold roomy. cbn.
  repeat case_bool_decide; lia.
Qed.

Lemma parse_loop_exact fuel tick l st t r :
  (length l <= fuel)%nat -> roomy st (length l) -> exec (parse_loop fuel tick l st) t r ->
  exists vs rest, listed l vs rest /\ r = Some (tally_from st vs rest) /\ shown_of tick vs (seen t).
Proof.
  assert (forall vs, vs = [] -> shown_of tick vs (seen [])) as Hnone.
  { intros ? ->. unfold shown_of. by destruct (tick mod 10 =? 0). }
  revert l st t r. induction fuel as [|fuel IH]; intros [|x l] st t r Hl Hst; cbn [parse_loop]; [..|].
  1,3: intros [-> ->]; exists [], []; repeat split; [constructor| |by apply Hnone];
    unfold tally_from, tally; destruct st; cbn; f_equal; f_equal; lia.
  { cbn in Hl. lia. }
  destruct (preflight_view_bounds (x :: l)) as (v & Hv & Hb). rewrite Hv. destruct v as [v|].
  - intros (t1 & t2 & ? & -> & H1 & H2)%exec_bind. destruct (Hb v eq_refl) as [Hsize _].
    assert (length (drop (pv_size v) (x :: l)) <= length l)%nat as Hd.
    { rewrite length_drop. cbn. lia. }
    cbn [length] in Hl, Hst.
    apply IH in H2 as (vs & rest & Hls & -> & Hshown); [|lia|by eapply roomy_counted].
    exists (v :: vs), rest. split; [by econstructor|]. split; [by erewrite tally_from_counted|].
    rewrite seen_app. by eapply report_view_shown.
  - intros [-> ->]. exists [], (x :: l). split; [by constructor|]. split; [|by apply Hnone].
    destruct Hst as (? & ? & ? & Hm). unfold malformed, tally_from, tally. cbn. rewrite Hm. f_equal. f_equal; lia.
Qed.

(** The report of a tick is exact.  Whatever list the kernel hands over, a query of the
    process list that fits the buffer logs one [parse-complete] line, and its counters are
    the numbers of well-formed records at the front of the list, of malformed tails, of
    records that carry the game's name and of records that carry ShellUI's, without
    wrap-around.  In every tenth tick the lines in front of it are records of the list in
    its order, with every named one among them; in the other ticks there are none.  A query
    that failed reports nothing. *)
Theorem report_exact tick capacity t r :
  capacity <= kMaxProcessBytes -> exec (query_list tick capacity) t r ->
  exists rc errno count data t',
    t = [Ev (PLog (DataBefore tick capacity) : pcall) tt; Ev (PSysctlData capacity) (rc, errno, count, data);
         Ev (PLog (DataAfter tick rc (error_of rc errno) count)) tt] ++ t' ++ [Ev PFree tt] /\
    if (rc =? 0) && (count <=? capacity) then
      exists vs rest t1, listed (buffer (Z.to_nat count) data) vs rest /\
        t' = t1 ++ [Ev (PLog (ParseComplete tick (tally vs rest)) : pcall) tt] /\ shown_of tick vs (seen t1)
    else t' = [].
Proof.
  intros Hcap ([] & ? & -> & [[[rc errno] count] data] & ? & -> & [] & ? & -> & H).
  exists rc, errno, count, data. cbn [bindp] in H. apply exec_bind in H as (t1 & t2 & o & -> & H1 & H2).
  assert (is_Some o -> t2 = [Ev PFree tt]) as Hfree.
  { intros [[] ->]. by destruct H2 as ([] & ? & -> & -> & _). }
  exists t1. destruct (_ && _) eqn:E.
  - breflect. destruct E as [_ Hc].
    apply exec_bind in H1 as (ta & tb & st & -> & Ha & Hb).
    apply parse_loop_exact in Ha as (vs & rest & Hl & -> & Hs); [|done|].
    + destruct Hb as ([] & ? & -> & -> & ->). rewrite Hfree by by eexists. split; [done|].
      exists vs, rest, ta. repeat split; [done|].
      unfold tally_from. by destruct (tally vs rest).
    + rewrite length_buffer. unfold roomy, kMaxProcessBytes in *. cbn. lia.
  - destruct H1 as [-> ->]. rewrite Hfree by by eexists. done.
Qed.

(** ** Runs *)

(** A console with ShellUI, a game and a truncated record in its list; the size query of
    tick 1 fails and there is no memory in tick 2. *)
Definition small_record (pid : Z) (name : list Z) : list Z :=
  le_encode 4 100 ++ repeat 0 68 ++ le_encode 4 pid ++ le_encode 4 1 ++ name ++ repeat 0 (20 - length name).
Definition sample_list : list Z :=
  small_record 12 kShellUiName ++ small_record 30 kGameName ++ small_record 31 [] ++ [1; 2].

Definition sample_console (sdk : Z) (tick : nat) (c : pcall) : pret c * nat :=
  match c as c return pret c * nat with
  | PSysctlSize => ((if (tick =? 1)%nat then -1 else 0, 12, Z.of_nat (length sample_list)), S tick)
  | PMalloc _ => (negb (tick =? 3)%nat, tick)
  | PSysctlData _ => ((0, 0, Z.of_nat (length sample_list), sample_list), tick)
  | PFwVersion => (sdk, tick)
  | PGetpid => (31, tick)
  | PGetppid => (1, tick)
  | PSetProcessName => (0, tick)
  | PReset | PLog _ | PFree | PUsleep _ => (tt, tick)
  end.

Definition sample_run (sdk : Z) : option unit * nat * list (event pret) :=
  run (sample_console sdk) (preflight_main 2) 0%nat.

Definition queries (t : list (event pret)) : nat :=
  length (omap (fun e => match e with Ev (PSysctlData _) _ => Some tt | _ => None end) t).

Lemma preflight_evidence_witness :
  (sample_run 0x11600123).1.1 = Some tt /\ queries (sample_run 0x11600123).2 = 118%nat /\
  (exists w sdk, monitor watch_step Watch_init (sample_run 0x11600123).2 = Some w /\
    w_owed w = None /\ w_heap w = None /\ w_fw w = Some sdk /\
    w_ticks w = if fw1160 sdk then kObserveSeconds else 0) /\
  queries (sample_run 0x11600123).2 <> queries (sample_run 0x10000000).2.
Proof.
  pose proof (preflight_evidence 2 (sample_run 0x11600123).2 (sample_run 0x11600123).1.1
    (run_exec (sample_console 0x11600123) (preflight_main 2) 0%nat)) as [H1 H2].
  split; [exact H1|]. split; [vm_compute; reflexivity|]. split; [exact H2|]. vm_compute. discriminate.
Defined.

Definition sample_query : option unit * nat * list (event pret) :=
  run (sample_console 0x11600123) (query_list 10 kMaxProcessBytes) 1%nat.

Definition answered (t : list (event pret)) : option (Z * Z * Z * list Z) :=
  match t with _ :: Ev (PSysctlData _) r :: _ => Some r | _ => None end.

Lemma report_exact_witness :
  kMaxProcessBytes <= kMaxProcessBytes /\
  map pv_pid (seen sample_query.2) = [12; 30; 31] /\
  exists vs rest t0 t1 t2,
    sample_query.2 = t0 ++ t1 ++ Ev (PLog (ParseComplete 10 (tally vs rest)) : pcall) tt :: t2 /\
    listed (buffer (length sample_list) sample_list) vs rest /\
    shown_of 10 vs (seen t1).
Proof.
  assert (kMaxProcessBytes <= kMaxProcessBytes) as Hc by lia. split; [exact Hc|]. split; [vm_compute; reflexivity|].
  destruct (report_exact 10 kMaxProcessBytes _ _ Hc
    (run_exec (sample_console 0x11600123) (query_list 10 kMaxProcessBytes) 1%nat))
    as (rc & errno & count & data & t' & Ht & H).
  assert (Some (0, 0, Z.of_nat (length sample_list), sample_list) = Some (rc, errno, count, data)) as E
    by exact (f_equal answered Ht).
  injection E as <- <- <- <-.
  rewrite Z.eqb_refl in H. replace (Z.of_nat (length sample_list) <=? kMaxProcessBytes) with true in H by reflexivity.
  cbn [andb] in H. rewrite Nat2Z.id in H. destruct H as (vs & rest & t1 & Hl & -> & Hs).
  eexists vs, rest, [_; _; _], t1, _. split; [|split; [exact Hl|exact Hs]].
  unfold sample_query. rewrite Ht. by rewrite <- !app_assoc.
Defined.
