(* ===== verification/ConsolePlatform.v ===== *)
(** The console's implementation of the platform interface:
    [src/ps5/stable_sampler/videoout_module.cpp] (the module list inside an authority
    window) and [src/ps5/ps5_platform.cpp].  [console_platform] makes it an instance of the
    class [Platform] over any environment, [console_laws] discharges the laws the samplers
    rely on. *)
From S2P Require Import Prelude Effects Text Platform Debugger KernelCalls ProcRw ProcRecords.

(** ** videoout_module.cpp *)

Definition kVideoOutModule : text := str "libSceVideoOut.sprx".
Definition kDebuggerAuthId : Z := 0x4800000000000006.
Definition kAuthIdOffset : Z := 0x58.
Definition kExpectedSizeQueryRc : Z := 12.

Record VideoOutModuleResult := {
  vm_base : Z; vm_auth_read : bool; vm_auth_changed : bool; vm_auth_restore_attempted : bool;
  vm_auth_restored : bool; vm_size_query_rc : Z; vm_fill_query_rc : Z; vm_last_info_rc : Z;
  vm_requested_count : Z; vm_returned_count : Z; vm_info_successes : Z
}.

(** What the loop over the handles changes. *)
Record ModuleScan := { ms_base : Z; ms_last_info_rc : Z; ms_info_successes : Z }.

(** A C string in a 128-byte field whose last byte was set to zero. *)
Definition filename_of (l : list Z) : text :=
  take_while (fun c => negb (code c =? 0)) (map chr (take 127 (buffer 128 l))).

Section Programs.
Local Open Scope prog_scope.

Fixpoint scan_modules (pid : Z) (handles : list Z) (m : ModuleScan) : kprog ModuleScan :=
  match handles with
  | [] => Ret m
  | h :: rest =>
      let* info := kc (DlInfo pid h) in
      if negb (di_rc info =? 0) then
        scan_modules pid rest {| ms_base := ms_base m; ms_last_info_rc := di_rc info;
                                 ms_info_successes := ms_info_successes m |}
      else
        let m1 := {| ms_base := ms_base m; ms_last_info_rc := 0;
                     ms_info_successes := ms_info_successes m + 1 |} in
        if teq (filename_of (di_filename info)) kVideoOutModule && negb (di_vaddr info =? 0) then
          Ret {| ms_base := di_vaddr info; ms_last_info_rc := 0;
                 ms_info_successes := ms_info_successes m1 |}
        else scan_modules pid rest m1
  end.

(** The handles of a zeroed array of [count] entries. *)
Definition handle_array (count : Z) (l : list Z) : list Z :=
  take (Z.to_nat count) (l ++ repeat 0 (Z.to_nat count)).

(** Inside the authority window: sizes, the list, the modules. *)
Definition query_modules (pid : Z) : kprog (Z * Z * Z * Z * ModuleScan) :=
  let none := {| ms_base := 0; ms_last_info_rc := -1; ms_info_successes := 0 |} in
  let* (size_rc, requested) := kc (DlCount pid) in
  if ((size_rc =? 0) || (size_rc =? kExpectedSizeQueryRc)) && (0 <? requested) && (requested <? 1024)
  then
    let* allocated := kc (Calloc requested) in
    if negb allocated then Ret (size_rc, -1, requested, 0, none)
    else
      let* (fill_rc, returned, handles) := kc (DlList pid requested) in
      if (fill_rc =? 0) && (returned <=? requested) then
        let* m := scan_modules pid (take (Z.to_nat returned) (handle_array requested handles)) none in
        Ret (size_rc, fill_rc, requested, returned, m)
      else Ret (size_rc, fill_rc, requested, returned, none)
  else Ret (size_rc, -1, requested, 0, none).

Definition module_failed (auth_read : bool) : VideoOutModuleResult :=
  {| vm_base := 0; vm_auth_read := auth_read; vm_auth_changed := false;
     vm_auth_restore_attempted := false; vm_auth_restored := false; vm_size_query_rc := -1;
     vm_fill_query_rc := -1; vm_last_info_rc := -1; vm_requested_count := 0;
     vm_returned_count := 0; vm_info_successes := 0 |}.

Definition find_videoout_module (pid : Z) : kprog VideoOutModuleResult :=
  if pid <=? 0 then Ret (module_failed false)
  else
    let* self := kc Getpid in
    let* self_ucred := kc (ProcUcred self) in
    if self_ucred =? 0 then Ret (module_failed false)
    else
      let auth := u64 (self_ucred + kAuthIdOffset) in
      let* (rc, d) := kc (KCopyout auth 8) in
      if negb (rc =? 0) then Ret (module_failed false)
      else
        let saved_auth := le_decode (buffer 8 d) in
        let* rc := kc (KCopyin auth (le_encode 8 kDebuggerAuthId)) in
        if negb (rc =? 0) then Ret (module_failed true)
        else
          let* (size_rc, fill_rc, requested, returned, m) := query_modules pid in
          let* rc := kc (KCopyin auth (le_encode 8 saved_auth)) in
          let restored := rc =? 0 in
          Ret {| vm_base := if restored then ms_base m else 0; vm_auth_read := true;
                 vm_auth_changed := true; vm_auth_restore_attempted := true;
                 vm_auth_restored := restored; vm_size_query_rc := size_rc;
                 vm_fill_query_rc := fill_rc; vm_last_info_rc := ms_last_info_rc m;
                 vm_requested_count := requested; vm_returned_count := returned;
                 vm_info_successes := ms_info_successes m |}.

(** ** ps5_platform.cpp

    The fields of [Ps5Platform] decide which lines are logged. *)

Record Ps5Platform := {
  observed_game_pid_ : Z; module_attempt_pid_ : Z; videoout_base_ : Z;
  empty_lookup_count_ : Z; module_attempt_count_ : Z; read_failure_count_ : Z;
  table_read_logged_ : bool; root_read_logged_ : bool; counter_read_logged_ : bool;
  read_backend_logged_ : bool;
  g_dmap_base : Z                       (** the global of [proc_rw_v960.cpp] *)
}.
Definition Ps5Platform_init : Ps5Platform := {|
  observed_game_pid_ := -1; module_attempt_pid_ := -1; videoout_base_ := 0;
  empty_lookup_count_ := 0; module_attempt_count_ := 0; read_failure_count_ := 0;
  table_read_logged_ := false; root_read_logged_ := false; counter_read_logged_ := false;
  read_backend_logged_ := false; g_dmap_base := 0 |}.

(** The state after the log flags were cleared for a new process or module. *)
Definition observe (pid attempt_pid base empty attempts failures : Z) (p : Ps5Platform)
    : Ps5Platform := {|
  observed_game_pid_ := pid; module_attempt_pid_ := attempt_pid; videoout_base_ := base;
  empty_lookup_count_ := empty; module_attempt_count_ := attempts; read_failure_count_ := failures;
  table_read_logged_ := false; root_read_logged_ := false; counter_read_logged_ := false;
  read_backend_logged_ := false; g_dmap_base := g_dmap_base p |}.
Definition set_observed (pid empty : Z) (p : Ps5Platform) : Ps5Platform := {|
  observed_game_pid_ := pid; module_attempt_pid_ := module_attempt_pid_ p;
  videoout_base_ := videoout_base_ p; empty_lookup_count_ := empty;
  module_attempt_count_ := module_attempt_count_ p; read_failure_count_ := read_failure_count_ p;
  table_read_logged_ := table_read_logged_ p; root_read_logged_ := root_read_logged_ p;
  counter_read_logged_ := counter_read_logged_ p; read_backend_logged_ := read_backend_logged_ p;
  g_dmap_base := g_dmap_base p |}.
Definition set_attempt (pid attempts : Z) (p : Ps5Platform) : Ps5Platform := {|
  observed_game_pid_ := observed_game_pid_ p; module_attempt_pid_ := pid;
  videoout_base_ := videoout_base_ p; empty_lookup_count_ := empty_lookup_count_ p;
  module_attempt_count_ := attempts; read_failure_count_ := read_failure_count_ p;
  table_read_logged_ := table_read_logged_ p; root_read_logged_ := root_read_logged_ p;
  counter_read_logged_ := counter_read_logged_ p; read_backend_logged_ := read_backend_logged_ p;
  g_dmap_base := g_dmap_base p |}.
Definition set_read (failures g : Z) (table root counter backend : bool) (p : Ps5Platform)
    : Ps5Platform := {|
  observed_game_pid_ := observed_game_pid_ p; module_attempt_pid_ := module_attempt_pid_ p;
  videoout_base_ := videoout_base_ p; empty_lookup_count_ := empty_lookup_count_ p;
  module_attempt_count_ := module_attempt_count_ p; read_failure_count_ := failures;
  table_read_logged_ := table; root_read_logged_ := root; counter_read_logged_ := counter;
  read_backend_logged_ := backend; g_dmap_base := g |}.

(** A lookup that would read outside of its buffer has no result; it does not happen
    ([game_lookup_total]). *)
Definition game_lookup : kprog Z :=
  let* r := find_game_process_sysctl in
  Ret (match r with Some l => lk_pid l | None => -1 end).

Definition ps5_find_game_process (p : Ps5Platform) : kprog (option ProcessId * Ps5Platform) :=
  let* pid := game_lookup in
  Ret (if 0 <? pid then
         (Some pid,
          if negb (observed_game_pid_ p =? pid) then observe pid (-1) 0 0 0 0 p
          else set_observed (observed_game_pid_ p) 0 p)
       else (None, set_observed (-1) (u32 (empty_lookup_count_ p + 1)) p)).

Definition ps5_process_alive (pid : Z) (p : Ps5Platform) : kprog (bool * Ps5Platform) :=
  let* current := game_lookup in
  Ret (if current =? pid then (true, p)
       else (false, observe current (-1) 0 (empty_lookup_count_ p) (module_attempt_count_ p)
                      (read_failure_count_ p) p)).

Definition ps5_find_module (pid : Z) (name : string) (p : Ps5Platform)
    : kprog (option ModuleInfo * Ps5Platform) :=
  if negb (teq (str name) kVideoOutModule) then Ret (None, p)
  else
    let p1 := if negb (module_attempt_pid_ p =? pid) then set_attempt pid 0 p else p in
    let p2 := set_attempt (module_attempt_pid_ p1) (u32 (module_attempt_count_ p1 + 1)) p1 in
    let* result := find_videoout_module pid in
    let success := negb (vm_base result =? 0) && vm_auth_restored result in
    Ret (if negb success then (None, p2)
         else (Some {| mod_base := vm_base result; mod_name := name |},
               if negb (videoout_base_ p2 =? vm_base result) then
                 observe (observed_game_pid_ p2) (module_attempt_pid_ p2) (vm_base result)
                   (empty_lookup_count_ p2) (module_attempt_count_ p2) 0 p2
               else p2)).

(** Which of the three "logged" flags a successful read sets. *)
Definition read_flags (p : Ps5Platform) (address : Z) (size : nat) (out : list Z)
    : bool * bool * bool :=
  let t := table_read_logged_ p in let r := root_read_logged_ p in let c := counter_read_logged_ p in
  if (size =? 168)%nat && (address =? u64 (videoout_base_ p + 0x34980)) && negb t then (true, r, c)
  else if (size =? 8)%nat && negb r then (t, negb (le_decode out =? 0), c)
  else if (size =? 4)%nat && negb c then (t, r, true)
  else (t, r, c).

(** [read_memory] into a non-null buffer. *)
Definition ps5_read_memory (kdata pid address : Z) (size : nat) (p : Ps5Platform)
    : kprog (option (list Z) * Ps5Platform) :=
  if (size =? 0)%nat then Ret (None, p)
  else
    let* sdk := firmware_sdk_version in
    let* (mdbg_rc, d) := kc (MdbgCopy pid address size) in
    let* (out, g) :=
      (if mdbg_rc =? 0 then Ret (Some (buffer size d), g_dmap_base p)
       else if is_960 sdk then
         let* (r, g) := proc_read kdata pid address size (g_dmap_base p) in
         Ret (match r with Some (true, out) => Some out | _ => None end, g)
       else Ret (None, g_dmap_base p)) in
    Ret (match out with
         | None => (None, set_read (u32 (read_failure_count_ p + 1)) g (table_read_logged_ p)
                            (root_read_logged_ p) (counter_read_logged_ p) (read_backend_logged_ p) p)
         | Some out =>
             let '(t, r, c) := read_flags p address size out in
             (Some out, set_read 0 g t r c true p)
         end).

Definition ps5_monotonic_us : kprog Z :=
  let* (rc, tv_sec, tv_nsec) := kc ClockGettime in
  Ret (if negb (rc =? 0) then 0 else u64 (u64 tv_sec * 1000000 + tv_nsec / 1000)).

Definition ps5_sleep_ms (milliseconds : Z) : kprog unit :=
  let* _ := kc (Usleep (u32 (milliseconds * 1000))) in Ret tt.
End Programs.

(** ** The instance

    [h] is the console: it answers every call from its own state. *)

Section Console.
Context {S : Type} (h : S -> forall c, kret c * S) (kdata : Z).

Record Console := { co_platform : Ps5Platform; co_state : S }.

(** Run an operation on the platform object. *)
Definition on_console {A} (op : Ps5Platform -> kprog (A * Ps5Platform)) (w : Console) : A * Console :=
  let '((a, p), s, _) := run h (op (co_platform w)) (co_state w) in
  (a, {| co_platform := p; co_state := s |}).
Definition on_kernel {A} (op : kprog A) : Console -> A * Console :=
  on_console (fun p => bindp op (fun a => Ret (a, p))).

Definition console_platform : Platform Console := {|
  Platform.find_game_process := on_console ps5_find_game_process;
  Platform.process_alive pid := on_console (ps5_process_alive pid);
  Platform.find_module pid name := on_console (ps5_find_module pid name);
  Platform.read_memory pid address size := on_console (ps5_read_memory kdata pid address size);
  Platform.firmware_sdk_version := on_kernel firmware_sdk_version;
  Platform.monotonic_us := on_kernel ps5_monotonic_us;
  Platform.sleep_ms ms w := (on_kernel (ps5_sleep_ms ms) w).2
|}.

(** What every execution of an operation returns, the instance returns. *)
Lemma on_console_returns {A} (op : Ps5Platform -> kprog (A * Ps5Platform)) w P :
  returns (op (co_platform w)) (fun r => P r.1) -> P (on_console op w).1.
Proof.
  intros H. unfold on_console. pose proof (run_exec h (op (co_platform w)) (co_state w)) as He.
  apply H in He. destruct (run h _ _) as [[[a p] s] t]. exact He.
Qed.
End Console.

(** ** Lemmas *)

Lemma game_lookup_total : returns find_game_process_sysctl (fun r => exists l, r = Some l).
Proof.
  unfold find_game_process_sysctl, sysctl_lookup.
  apply returns_call. intros [rc req]. cbn [bindp].
  destruct (_ || _); [apply returns_ret; eauto|].
  apply returns_call. intros allocated. cbn [bindp]. destruct (negb allocated); [apply returns_ret; eauto|].
  apply returns_call. intros [[drc bytes] data]. cbn [bindp].
  destruct (_ || _); [apply returns_ret; eauto|].
  apply returns_call. intros self. cbn [bindp]. apply returns_ret.
  destruct (walk_game_spec self (buffer (Z.to_nat bytes) data) Walk_init _ (le_n _))
    as (rs & bad & _ & ->). eauto.
Qed.

(** A successful direct-map read fills the buffer with bytes, whatever the kernel answers. *)
Lemma proc_read_loop_fills kdata fuel pid va n output g :
  0 <= n -> bytes_ok output ->
  returns (proc_read_loop kdata fuel pid va n output g) (fun r =>
    forall out, r.1 = Some (true, out) ->
      Z.of_nat (length out) = Z.of_nat (length output) + n /\ bytes_ok out).
Proof.
  revert va n output g; induction fuel as [|f IH]; intros va n output g Hn Hb;
    cbn [proc_read_loop]; (destruct (n =? 0) eqn:En;
    [apply Z.eqb_eq in En as ->; apply returns_ret; intros out [= <-]; split; [lia|done]|]);
    [by apply returns_ret|]. apply Z.eqb_neq in En.
  eapply returns_bind; [apply translate_sizes|]. intros [[pa s] g'] Hs.
  destruct ((pa =? 0) || (s =? 0)) eqn:Ez; [by apply returns_ret|].
  apply orb_false_iff in Ez as [_ Es]. destruct Hs as [->|Hs]; [done|].
  destruct (page_size_divides s Hs) as (Hpos & _ & _ & ->).
  pose proof (Z.mod_pos_bound va s Hpos). set (chunk := Z.min n (s - va mod s)).
  apply returns_call. intros [rc d]. cbn [bindp].
  destruct (negb (rc =? 0)); [by apply returns_ret|].
  intros t r He out Hr. destruct (IH (u64 (va + chunk)) (n - chunk) (output ++ buffer (Z.to_nat chunk) d)
    g' ltac:(lia) ltac:(apply Forall_app; split; [done|apply buffer_bytes]) t r He out Hr) as [Hl Ho].
  split; [|done]. rewrite length_app, length_buffer in Hl. lia.
Qed.

Lemma ps5_read_fills kdata pid address size p :
  returns (ps5_read_memory kdata pid address size p) (fun r =>
    forall out, r.1 = Some out -> length out = size /\ bytes_ok out).
Proof.
  unfold ps5_read_memory. destruct (size =? 0)%nat eqn:E0; [by apply returns_ret|].
  eapply returns_bind; [apply returns_any|]. intros sdk _.
  apply returns_call. intros [rc d]. cbn [bindp].
  eapply (returns_bind _ _ (fun r => forall out, r.1 = Some out -> length out = size /\ bytes_ok out)).
  - destruct (rc =? 0).
    { apply returns_ret. intros out [= <-]. split; [apply length_buffer|apply buffer_bytes]. }
    destruct (is_960 sdk); [|by apply returns_ret].
    unfold proc_read. rewrite E0. destruct (_ || _); [by apply returns_ret|].
    eapply returns_bind; [apply proc_read_loop_fills; [lia|constructor]|].
    intros [[[[] out]|] g] H; apply returns_ret; try done.
    intros out' [= <-]. destruct (H out eq_refl) as [Hl Hb]. split; [simpl in Hl; lia|done].
  - intros [[out|] g] H; [|by apply returns_ret]. destruct (read_flags _ _ _ _) as [[t r] c].
    apply returns_ret. intros out' [= <-]. by apply H.
Qed.

Lemma ps5_clock_range : returns ps5_monotonic_us (in_u 64).
Proof.
  apply returns_call. intros [[rc s] n]. apply returns_ret.
  destruct (negb (rc =? 0)); [done|]. apply wrap_range. lia.
Qed.

Lemma console_laws {S} (h : S -> forall c, kret c * S) kdata :
  @PlatformLaws (@Console S) (console_platform h kdata).
Proof.
  split.
  - intros pid addr size w bytes. simpl.
    apply (on_console_returns h _ w (fun r => r = Some bytes -> length bytes = size /\ bytes_ok bytes)).
    intros t r He. apply ps5_read_fills in He. exact (He bytes).
  - intros w. simpl. apply (on_console_returns h (fun p => bindp ps5_monotonic_us (fun a => Ret (a, p))) w (in_u 64)).
    eapply returns_bind; [apply ps5_clock_range|]. intros a Ha. by apply returns_ret.
Qed.

(** ** The authority window *)

(** What the module query has done to its own authority: [AWindow a v found] - the value
    [v] at [a] was replaced, [found] is the section of the last matching module. *)
Inductive Auth :=
| AStart
| ASaved (a v : Z)
| AKept
| AWindow (a v found : Z)
| AClosed (ok : bool) (found : Z).

Definition found_module (info : DlInfoReply) (found : Z) : Z :=
  if (di_rc info =? 0) && teq (filename_of (di_filename info)) kVideoOutModule &&
     negb (di_vaddr info =? 0) then di_vaddr info else found.

(** The documented discipline: save, replace, query, write exactly the saved value back. *)
Definition auth_step (m : Auth) (e : event kret) : option Auth :=
  match e, m with
  | Ev (Getpid) _, AStart | Ev (ProcUcred _) _, AStart => Some AStart
  | Ev (KCopyout a 8) (rc, d), AStart =>
      Some (if rc =? 0 then ASaved a (le_decode (buffer 8 d)) else AKept)
  | Ev (KCopyin a' b) rc, ASaved a v =>
      if bool_decide (a' = a /\ b = le_encode 8 kDebuggerAuthId)
      then Some (if rc =? 0 then AWindow a v 0 else AKept) else None
  | Ev (DlCount _) _, AWindow a v f | Ev (DlList _ _) _, AWindow a v f
  | Ev (Calloc _) _, AWindow a v f => Some (AWindow a v f)
  | Ev (DlInfo _ _) info, AWindow a v f => Some (AWindow a v (found_module info f))
  | Ev (KCopyin a' b) rc, AWindow a v f =>
      if bool_decide (a' = a /\ b = le_encode 8 v) then Some (AClosed (rc =? 0) f) else None
  | _, _ => None
  end.

Lemma scan_modules_window pid handles m a v (Q : ModuleScan -> Auth -> Prop) :
  (forall m', Q m' (AWindow a v (ms_base m'))) ->
  wp auth_step (scan_modules pid handles m) (AWindow a v (ms_base m)) Q.
Proof.
  intros HQ. revert m. induction handles as [|x rest IH]; intros m; cbn [scan_modules]; [apply HQ|].
  cbn [wp bindp kc call auth_step]. intros info. unfold found_module.
  destruct (di_rc info =? 0); cbn [negb andb].
  - destruct (teq _ _ && negb (di_vaddr info =? 0)); [apply HQ|].
    apply (IH {| ms_base := ms_base m; ms_last_info_rc := 0;
                 ms_info_successes := ms_info_successes m + 1 |}).
  - apply (IH {| ms_base := ms_base m; ms_last_info_rc := di_rc info;
                 ms_info_successes := ms_info_successes m |}).
Qed.

Lemma query_modules_window pid a v (Q : Z * Z * Z * Z * ModuleScan -> Auth -> Prop) :
  (forall s f r n m, Q (s, f, r, n, m) (AWindow a v (ms_base m))) ->
  wp auth_step (query_modules pid) (AWindow a v 0) Q.
Proof.
  intros HQ. unfold query_modules. cbn [wp bindp kc call auth_step]. intros [size_rc requested].
  destruct (_ && (requested <? 1024)); [|apply (HQ _ _ _ _ {| ms_base := 0; ms_last_info_rc := -1; ms_info_successes := 0 |})].
  cbn [wp bindp kc call auth_step]. intros allocated.
  destruct (negb allocated); [apply (HQ _ _ _ _ {| ms_base := 0; ms_last_info_rc := -1; ms_info_successes := 0 |})|].
  cbn [wp bindp kc call auth_step]. intros [[fill_rc returned] handles].
  destruct (_ && _); [|apply (HQ _ _ _ _ {| ms_base := 0; ms_last_info_rc := -1; ms_info_successes := 0 |})].
  apply wp_bind, (scan_modules_window _ _ {| ms_base := 0; ms_last_info_rc := -1; ms_info_successes := 0 |}).
  intros m'. apply HQ.
Qed.

(** The result and the discipline agree. *)
Definition module_outcome (r : VideoOutModuleResult) (m : Auth) : Prop :=
  match m with
  | AStart | AKept => vm_auth_changed r = false /\ vm_base r = 0
  | AClosed ok found => vm_auth_changed r = true /\ vm_auth_restored r = ok /\
                        vm_base r = if ok then found else 0
  | ASaved _ _ | AWindow _ _ _ => False
  end.

(** C19: the module query lends itself the debugger's authority for the query alone: on
    every path, also when the list or the modules cannot be read, it writes exactly the
    saved value back before it returns, and a module base is reported only when that
    succeeded - and it is the base of a module of that name. *)
Theorem module_auth_window pid t r :
  exec (find_videoout_module pid) t r ->
  exists m, monitor auth_step AStart t = Some m /\ module_outcome r m.
Proof.
  revert t r. apply wp_sound. unfold find_videoout_module. destruct (pid <=? 0); [done|].
  cbn [wp bindp kc call auth_step]. intros self ucred.
  destruct (ucred =? 0); [done|]. cbn [wp bindp kc call auth_step]. intros [rc d].
  destruct (rc =? 0); cbn [negb]; [|done]. cbn [wp bindp kc call auth_step]. intros rc2.
  rewrite bool_decide_true by done. destruct (rc2 =? 0); cbn [negb]; [|done].
  apply wp_bind, query_modules_window. intros s f rq n m.
  cbn [wp bindp kc call auth_step]. intros rc3. rewrite bool_decide_true by done. done.
Qed.

Definition sample_auth (s : unit) (c : kcall) : kret c * unit :=
  (match c return kret c with
   | KCopyout _ _ => (0, le_encode 8 0x3800000000000010)
   | DlCount _ => (12, 2)
   | DlList _ _ => (0, 2, [31; 32])
   | DlInfo _ handle => {| di_rc := 0;
       di_bytes := buffer kVaddrOffset
                     (if handle =? 32 then codes "libSceVideoOut.sprx" else codes "libkernel.sprx") ++
                   le_encode 8 (0x900000 + handle) |}
   | MdbgCopy _ _ _ => (14, [])
   | SysctlProcSize => (0, 0)
   | SysctlSdk | ClockGettime => (0, 0, 0)
   | SysctlProc _ => (0, 0, [])
   | Calloc _ => true
   | ProcUcred _ => 0xFFFF900000001000
   | FwVersion => 0x09600000
   | KCopyin _ _ | Usleep _ => 0
   | Getpid => 40
   end, s).

Definition sample_modules := run sample_auth (find_videoout_module 77) tt.

Lemma module_auth_window_witness :
  vm_base sample_modules.1.1 = 0x900020 /\
  exists m, monitor auth_step AStart sample_modules.2 = Some m /\ module_outcome sample_modules.1.1 m.
Proof.
  split; [vm_compute; reflexivity|].
  exact (module_auth_window 77 _ _ (run_exec sample_auth _ tt)).
Defined.

(** ** Reading memory *)

(** What the console's platform reads is what the process has: the bytes of a
    successful [read_memory] are those of a successful MDBG read, or - only after MDBG
    failed and only on firmware 9.60 - the bytes that the page tables of the process map at
    these addresses. *)
Theorem ps5_read_memory_sound mem kdata pid address size p t out p' :
  in_u 64 address -> truthful_trace mem t ->
  exec (ps5_read_memory kdata pid address size p) t (Some out, p') ->
  length out = size /\
  exists rc d, Ev (MdbgCopy pid address size) (rc, d) ∈ t /\
    (rc = 0 /\ out = buffer size d \/
     rc <> 0 /\ exists sdk t1 t2 pml4 physical,
       t = t1 ++ t2 /\ exec firmware_sdk_version t1 sdk /\ is_960 sdk = true /\
       page_root mem kdata (u32 pid) = Some (pml4, physical) /\
       forall i b, out !! i = Some b ->
         process_byte mem (choose_dmap (g_dmap_base p) pml4 physical) pml4
           (u64 (address + Z.of_nat i)) = Some b).
Proof.
  intros Haddr Ht He. split; [by apply ps5_read_fills in He; apply He|].
  unfold ps5_read_memory in He. destruct (size =? 0)%nat eqn:E0; [by destruct He|].
  apply Nat.eqb_neq in E0.
  apply exec_bind in He as (t1 & t2 & sdk & -> & Hsdk & He).
  destruct He as ([rc d] & t3 & -> & He). cbn [bindp] in He.
  exists rc, d. split; [apply elem_of_app; right; left|].
  apply exec_bind in He as (t4 & t5 & [r g] & -> & Hr & He).
  assert (r = Some out) as ->.
  { destruct r as [o|]; [|by destruct He]. destruct (read_flags p address size o) as [[x y] z].
    destruct He as [_ [= -> _]]. done. }
  destruct (rc =? 0) eqn:Erc; [left; apply Z.eqb_eq in Erc; destruct Hr as [_ [= -> _]]; done|].
  right. apply Z.eqb_neq in Erc. split; [done|].
  destruct (is_960 sdk) eqn:E9; [|by destruct Hr].
  apply exec_bind in Hr as (t6 & t7 & [r' g'] & -> & Hp & Hr).
  destruct Hr as [-> [= Hr ->]]. destruct r' as [[[] out']|]; try done. injection Hr as ->.
  apply (proc_read_bytes mem) in Hp as (_ & v & ph & Hroot & -> & Hb); [|done|lia|].
  - exists sdk, t1, (Ev (MdbgCopy pid address size) (rc, d) :: (t6 ++ []) ++ t5), v, ph. by split_and!.
  - unfold truthful_trace in *. rewrite !Forall_app, Forall_cons, !Forall_app in Ht. tauto.
Qed.

(** The console of [ProcRw.sample_mem] where MDBG refuses: the fallback reads. *)
Definition sample_fallback (s : unit) (c : kcall) : kret c * unit :=
  match c with
  | MdbgCopy p a n => ((14, []) : kret (MdbgCopy p a n), s)
  | c => sample_kernel s c
  end.

Definition sample_fallback_read :=
  run sample_fallback (ps5_read_memory sample_kdata 7 0x400FFE 4 Ps5Platform_init) tt.

Lemma sample_fallback_result :
  sample_fallback_read.1.1 =
    (Some [1; 2; 3; 4], set_read 0 sample_dmap false false true true Ps5Platform_init).
Proof. vm_compute. reflexivity. Qed.

Lemma ps5_read_memory_sound_witness :
  length [1; 2; 3; 4] = 4%nat /\
  exists rc d, Ev (MdbgCopy 7 0x400FFE 4) (rc, d) ∈ sample_fallback_read.2 /\
    (rc = 0 /\ [1; 2; 3; 4] = buffer 4 d \/
     rc <> 0 /\ exists sdk t1 t2 pml4 physical,
       sample_fallback_read.2 = t1 ++ t2 /\ exec firmware_sdk_version t1 sdk /\
       is_960 sdk = true /\ page_root sample_mem sample_kdata (u32 7) = Some (pml4, physical) /\
       forall i b, [1; 2; 3; 4] !! i = Some b ->
         process_byte sample_mem (choose_dmap (g_dmap_base Ps5Platform_init) pml4 physical) pml4
           (u64 (0x400FFE + Z.of_nat i)) = Some b).
Proof.
  apply (ps5_read_memory_sound sample_mem sample_kdata 7 0x400FFE 4 Ps5Platform_init
    sample_fallback_read.2 _ (set_read 0 sample_dmap false false true true Ps5Platform_init)).
  - split; [discriminate|reflexivity].
  - apply truthful_check. vm_compute. reflexivity.
  - rewrite <- sample_fallback_result. apply run_exec.
Defined.
