(* ===== verification/Remote.v ===== *)
(** A stopped process under a debugger: the ptrace and loader calls that the renderer
    injection uses (shsrv's [pt_*], the kernel's library queries), the remote call of
    [src/ps5/remote_call.cpp], and the monitor [target_step], which follows the authority of
    the controller and the state of the target. *)
From S2P Require Import Prelude Effects Debugger.

(** ** Calls *)

(** The general registers of FreeBSD's [struct reg]: those that the remote call changes or
    reads, and the others. *)
Record Regs := {
  r_rip : Z; r_rdi : Z; r_rsi : Z; r_rdx : Z; r_rcx : Z; r_r8 : Z; r_r9 : Z; r_rax : Z;
  r_others : list Z
}.
#[export] Instance Regs_eq_dec : EqDecision Regs.
Proof. solve_decision. Defined.

(** A program header ([Elf64_Phdr]). *)
Record Phdr := {
  p_type : Z; p_flags : Z; p_offset : Z; p_vaddr : Z; p_filesz : Z; p_memsz : Z
}.

Inductive pcall :=
| GetAuthid | SetAuthid (v : Z)               (** [kernel_(get|set)_ucred_authid(getpid())] *)
| Attach (pid : Z)
| Detach (pid : Z)                            (** [pt_detach(pid, 0)] *)
| SigCont (pid : Z) | SigStop (pid : Z)       (** [kill] *)
| Continue (pid : Z)                          (** [pt_continue(pid, SIGCONT)] *)
| Waitpid (pid : Z)
| Getregs (pid : Z) | Setregs (pid : Z) (r : Regs)
| NidEncode (symbol : string) | PtResolve (pid : Z) (nid : list Z)
| Mmap (pid size prot : Z) | Munmap (pid address size : Z)
| PtMprotect (pid address size prot : Z) | KernelMprotect (pid address size prot : Z)
| Msync (pid address size : Z)
| Copyin (pid : Z) (bytes : list Z) (address : Z)
| Copyout (pid address : Z) (size : nat)
| PayloadArgs (pid : Z)                       (** [elfldr_payload_args] *)
| DynlibHandle (pid : Z) (library : string)   (** code, handle *)
| DynlibSym (pid handle : Z) (name : list Z)
| LocalMmap (size : Z) | LocalMunmap (size : Z)
| PtLoad (segment : Phdr) (mirror : list Z).  (** shsrv's [pt_load]: code, the new mirror *)

Definition pret (c : pcall) : Type :=
  match c with
  | Getregs _ => Z * Regs
  | NidEncode _ => option (list Z)
  | Copyout _ _ _ | PtLoad _ _ => Z * list Z
  | DynlibHandle _ _ => Z * Z
  | LocalMmap _ => bool
  | LocalMunmap _ => unit
  | _ => Z
  end.

Abbreviation pprog := (prog pret).
Definition pc (c : pcall) : pprog (pret c) := call c.

(** ** remote_call.cpp *)

Definition remote_regs (original : Regs) (address : Z) (args : list Z) : Regs := {|
  r_rip := address;
  r_rdi := nth 0 args 0; r_rsi := nth 1 args 0; r_rdx := nth 2 args 0; r_rcx := nth 3 args 0;
  r_r8 := nth 4 args 0; r_r9 := nth 5 args 0; r_rax := r_rax original;
  r_others := r_others original |}.

Section Programs.
Local Open Scope prog_scope.

Definition call_until_breakpoint_on_target_stack (pid address : Z) (args : list Z) : pprog Z :=
  if (pid <=? 0) || (address =? 0) then Ret (-1)
  else
    let* (rc, original) := pc (Getregs pid) in
    if negb (rc =? 0) then Ret (-1)
    else
      let* rc := pc (Setregs pid (remote_regs original address args)) in
      if negb (rc =? 0) then Ret (-1)
      else
        let* rc := pc (Continue pid) in
        if negb (rc =? 0) then let* _ := pc (Setregs pid original) in Ret (-1)
        else
          let* rc := pc (Waitpid pid) in
          if rc <? 0 then let* _ := pc (Setregs pid original) in Ret (-1)
          else
            let* (rc, stopped) := pc (Getregs pid) in
            if negb (rc =? 0) then let* _ := pc (Setregs pid original) in Ret (-1)
            else
              let* rc := pc (Setregs pid original) in
              if negb (rc =? 0) then Ret (-1) else Ret (r_rax stopped).
End Programs.

(** ** The monitor *)

Definition kPtraceAuthId : Z := 0x4800000000010003.

Inductive Authority := Own | DebuggerAuth | Returned.
Inductive Session := NotAttached | Attached | Detached | Resumed.
#[export] Instance Authority_eq_dec : EqDecision Authority.
Proof. solve_decision. Defined.
#[export] Instance Session_eq_dec : EqDecision Session.
Proof. solve_decision. Defined.

(** [tg_original]: the authority read first; [tg_stopped]: the target is known to be
    stopped; [tg_saved]: the registers read while they were the target's own;
    [tg_changed]: they were replaced and no restore was tried since; [tg_maps]: the mappings
    made in the target and not removed. *)
Record Target := {
  tg_original : option Z; tg_auth : Authority; tg_session : Session; tg_stopped : bool;
  tg_saved : option Regs; tg_changed : bool; tg_maps : list (Z * Z)
}.
Definition Target_init : Target := {|
  tg_original := None; tg_auth := Own; tg_session := NotAttached; tg_stopped := false;
  tg_saved := None; tg_changed := false; tg_maps := [] |}.

Definition with_original (o : Z) (m : Target) : Target := {|
  tg_original := match tg_original m with Some o' => Some o' | None => Some o end;
  tg_auth := tg_auth m; tg_session := tg_session m; tg_stopped := tg_stopped m;
  tg_saved := tg_saved m; tg_changed := tg_changed m; tg_maps := tg_maps m |}.
Definition with_auth (a : Authority) (m : Target) : Target := {|
  tg_original := tg_original m; tg_auth := a; tg_session := tg_session m;
  tg_stopped := tg_stopped m; tg_saved := tg_saved m; tg_changed := tg_changed m;
  tg_maps := tg_maps m |}.
Definition with_session (s : Session) (stopped : bool) (m : Target) : Target := {|
  tg_original := tg_original m; tg_auth := tg_auth m; tg_session := s; tg_stopped := stopped;
  tg_saved := tg_saved m; tg_changed := tg_changed m; tg_maps := tg_maps m |}.
Definition with_regs (saved : option Regs) (changed : bool) (m : Target) : Target := {|
  tg_original := tg_original m; tg_auth := tg_auth m; tg_session := tg_session m;
  tg_stopped := tg_stopped m; tg_saved := saved; tg_changed := changed; tg_maps := tg_maps m |}.
Definition with_maps (maps : list (Z * Z)) (m : Target) : Target := {|
  tg_original := tg_original m; tg_auth := tg_auth m; tg_session := tg_session m;
  tg_stopped := tg_stopped m; tg_saved := tg_saved m; tg_changed := tg_changed m;
  tg_maps := maps |}.

(** The call is made to the attached target; and while it is known to be stopped. *)
Definition in_session (pid p : Z) (m : Target) : bool :=
  (p =? pid) && bool_decide (tg_session m = Attached).
Definition in_stop (pid p : Z) (m : Target) : bool := in_session pid p m && tg_stopped m.

Definition mapped (address size : Z) (m : Target) : bool :=
  existsb (fun r => (fst r <=? address) && (address + size <=? fst r + snd r)) (tg_maps m).

(** [remote_regs] changes the program counter and the argument registers only. *)
Definition same_stack (saved r : Regs) : bool :=
  bool_decide (r_rax r = r_rax saved /\ r_others r = r_others saved).

Definition accept (ok : bool) (m : Target) : option Target := if ok then Some m else None.

Definition target_step (pid : Z) (m : Target) (e : event pret) : option Target :=
  match e with
  | Ev GetAuthid v => Some (with_original v m)
  | Ev (SetAuthid v) rc =>
      match tg_original m, tg_auth m with
      | Some o, Own =>
          accept (negb (o =? 0) && (v =? kPtraceAuthId) && bool_decide (tg_session m = NotAttached))
            (if rc =? 0 then with_auth DebuggerAuth m else m)
      | Some o, DebuggerAuth =>
          accept ((v =? o) && bool_decide (tg_session m = NotAttached \/ tg_session m = Resumed))
            (with_auth Returned m)
      | _, _ => None
      end
  | Ev (Attach p) rc =>
      accept ((p =? pid) && bool_decide (tg_session m = NotAttached) &&
              bool_decide (tg_auth m = DebuggerAuth))
        (if rc =? 0 then with_session Attached true m else m)
  | Ev (Detach p) _ => accept (in_session pid p m && negb (tg_changed m)) (with_session Detached false m)
  | Ev (SigCont p) _ =>
      accept ((p =? pid) && bool_decide (tg_session m = Detached)) (with_session Resumed false m)
  | Ev (SigStop p) _ => accept (in_session pid p m) m
  | Ev (Continue p) rc =>
      accept (in_stop pid p m) (if rc =? 0 then with_session Attached false m else m)
  | Ev (Waitpid p) rc =>
      accept (in_session pid p m) (if rc <? 0 then m else with_session Attached true m)
  | Ev (Getregs p) (rc, r) =>
      accept (in_stop pid p m)
        (if (rc =? 0) && negb (tg_changed m) then with_regs (Some r) false m else m)
  | Ev (Setregs p r) rc =>
      match tg_saved m with
      | Some saved =>
          if tg_changed m then
            accept (in_session pid p m && bool_decide (r = saved)) (with_regs (Some saved) false m)
          else accept (in_stop pid p m && same_stack saved r)
                 (if rc =? 0 then with_regs (Some saved) true m else m)
      | None => None
      end
  | Ev (PtResolve p _) _ | Ev (DynlibHandle p _) _ | Ev (DynlibSym p _ _) _
  | Ev (Copyout p _ _) _ => accept (in_session pid p m) m
  | Ev (Mmap p size _) a =>
      accept (in_stop pid p m) (if a =? -1 then m else with_maps ((a, size) :: tg_maps m) m)
  | Ev (Munmap p a size) _ =>
      accept (in_session pid p m) (with_maps (filter (fun r => r <> (a, size)) (tg_maps m)) m)
  | Ev (PtMprotect p _ _ _) _ | Ev (KernelMprotect p _ _ _) _ | Ev (Msync p _ _) _
  | Ev (PayloadArgs p) _ => accept (in_stop pid p m) m
  | Ev (Copyin p bytes a) _ =>
      accept (in_stop pid p m && mapped a (Z.of_nat (length bytes)) m) m
  | Ev (NidEncode _) _ | Ev (LocalMmap _) _ | Ev (LocalMunmap _) _ | Ev (PtLoad _ _) _ => Some m
  end.

(** The attached target with its own registers. *)
Definition held (o : Z) (stopped : bool) (saved : option Regs) (maps : list (Z * Z)) : Target := {|
  tg_original := Some o; tg_auth := DebuggerAuth; tg_session := Attached; tg_stopped := stopped;
  tg_saved := saved; tg_changed := false; tg_maps := maps |}.

Lemma held_session pid o st sv maps : in_session pid pid (held o st sv maps) = true.
Proof. unfold in_session. by rewrite Z.eqb_refl. Qed.
Lemma held_stop pid o st sv maps : in_stop pid pid (held o st sv maps) = st.
Proof. unfold in_stop. by rewrite held_session. Qed.
Lemma mapped_head o st sv a n maps : mapped a n (held o st sv ((a, n) :: maps)) = true.
Proof. unfold mapped. cbn. by rewrite !Z.leb_refl. Qed.

(** The remote call keeps the session and leaves the target its own registers, or was
    refused to restore them. *)
Lemma wp_remote_call pid address args o sv maps (Q : Z -> Target -> Prop) :
  (forall a st sv', Q a (held o st sv' maps)) ->
  wp (target_step pid) (call_until_breakpoint_on_target_stack pid address args)
    (held o true sv maps) Q.
Proof.
  intros HQ. unfold call_until_breakpoint_on_target_stack. destruct (_ || _); [apply HQ|].
  intros [rc original]. cbn [target_step bindp]. rewrite held_stop. cbn [accept tg_changed held negb].
  destruct (rc =? 0); cbn [andb negb]; [|apply HQ].
  change (with_regs (Some original) false _) with (held o true (Some original) maps).
  intros rc2. cbn [target_step bindp]. rewrite held_stop. cbn [tg_saved tg_changed held].
  unfold same_stack. cbn [r_rax r_others remote_regs]. rewrite bool_decide_true by done. cbn [andb accept].
  destruct (rc2 =? 0); cbn [negb]; [|apply HQ].
  set (m1 := with_regs (Some original) true (held o true (Some original) maps)).
  assert (Hs : in_stop pid pid m1 = true) by apply (held_stop pid o true sv maps).
  assert (Hrestore : forall st m (f : Z -> pprog Z),
    m = with_regs (Some original) true (held o st (Some original) maps) ->
    (forall a, exists b, f a = Ret b) ->
    wp (target_step pid) (bindp (pc (Setregs pid original)) f) m Q).
  { intros st m f -> Hf rc3. cbn [target_step bindp tg_saved tg_changed with_regs].
    change (in_session pid pid _) with (in_session pid pid (held o st sv maps)).
    rewrite held_session, bool_decide_true by done. cbn [andb accept].
    destruct (Hf rc3) as [b ->]. cbn [wp]. apply (HQ b st). }
  intros rc3. cbn [target_step bindp]. rewrite Hs. cbn [accept].
  destruct (rc3 =? 0); cbn [negb]; [|by apply (Hrestore true); [|eauto]].
  intros rc4. cbn [target_step bindp].
  change (in_session pid pid _) with (in_session pid pid (held o false sv maps)).
  rewrite held_session. cbn [accept]. destruct (rc4 <? 0); [by apply (Hrestore false); [|eauto]|].
  intros [rc5 stopped]. cbn [target_step bindp].
  change (in_stop pid pid _) with (in_stop pid pid (held o true sv maps)).
  rewrite held_stop. cbn [accept]. rewrite andb_false_r.
  destruct (rc5 =? 0); cbn [negb]; apply (Hrestore true); try done.
  - intros a. destruct (negb (a =? 0)); eauto.
  - intros a. eauto.
Qed.

(** Mappings are what the target's [mmap] answered. *)
Definition user_mapping (e : event pret) : bool :=
  match e with Ev (Mmap _ _ _) a => (a =? -1) || ((0 <? a) && (a <? 2 ^ 47)) | _ => true end.
Definition user_maps (m : Target) : Prop := Forall (fun r => 0 < fst r < 2 ^ 47) (tg_maps m).

Lemma accept_maps ok m m1 m2 :
  accept ok m1 = Some m2 -> user_maps m -> (user_maps m -> user_maps m1) -> user_maps m2.
Proof. destruct ok; [|done]. intros [= <-] H Hi. by apply Hi. Qed.

Lemma target_step_maps pid m e m' :
  target_step pid m e = Some m' -> user_mapping e = true -> user_maps m -> user_maps m'.
Proof.
  destruct e as [c r]. intros Hs He Hm.
  destruct c; cbn [target_step] in Hs; cbn [user_mapping] in He;
    repeat match type of Hs with
    | match ?x with _ => _ end = _ => destruct x; try discriminate Hs
    end;
    first [ injection Hs as <-; exact Hm
          | refine (accept_maps _ m _ _ Hs Hm _); intros _ ].
  all: try (repeat match goal with |- user_maps (if ?b then _ else _) => destruct b end; exact Hm).
  - destruct (r =? -1); [done|]. cbn [orb] in He. apply andb_true_iff in He as [H1%Z.ltb_lt H2%Z.ltb_lt].
    constructor; [cbn [fst]; lia|done].
  - apply Forall_forall. intros r' [_ Hr]%list_elem_of_filter. revert r' Hr. by apply Forall_forall.
Qed.

Lemma monitor_maps pid t m m' :
  monitor (target_step pid) m t = Some m' -> forallb user_mapping t = true -> user_maps m -> user_maps m'.
Proof.
  revert m. induction t as [|e t IH]; intros m; cbn [monitor forallb]; [by intros [= <-]|].
  destruct (target_step pid m e) as [m1|] eqn:E; [|done]. intros H [He Ht]%andb_true_iff Hm.
  apply (IH m1); [done..|]. by eapply target_step_maps.
Qed.
