(* ===== verification/ElfBridge.v ===== *)
(** The loader of the renderer image: [src/ps5/stable_elfldr_bridge.c].  The image is a list
    of bytes; a read outside of it, or a relocation outside of the local copy, is the
    result [None].  The page macros, [PFLAGS] and [pt_load] belong to shsrv's elfldr.c,
    which is not in the repository: parameters and a call. *)
From S2P Require Import Prelude Effects Debugger ProcRecords Remote.

Definition ELFCLASS64 : Z := 2.
Definition ELFDATA2LSB : Z := 1.
Definition ET_DYN : Z := 3.
Definition EM_X86_64 : Z := 62.
Definition PT_LOAD : Z := 1.
Definition PT_DYNAMIC : Z := 2.
Definition PT_INTERP : Z := 3.
Definition PF_X : Z := 1.
Definition SHT_SYMTAB : Z := 2.
Definition SHT_STRTAB : Z := 3.
Definition SHT_RELA : Z := 4.
Definition SHT_DYNSYM : Z := 11.
Definition SHN_UNDEF : Z := 0.
Definition SHN_ABS : Z := 0xfff1.
Definition DT_NULL : Z := 0.
Definition DT_FLAGS_1 : Z := 0x6ffffffb.
Definition DF_1_PIE : Z := 0x08000000.
Definition R_X86_64_NONE : Z := 0.
Definition R_X86_64_64 : Z := 1.
Definition R_X86_64_GLOB_DAT : Z := 6.
Definition R_X86_64_RELATIVE : Z := 8.

(** ** The structures of the image *)

Definition rd (elf : list Z) (off : Z) (n : nat) : option Z :=
  if off <? 0 then None else le_decode <$> read_at (Z.to_nat off) n elf.

Record Ehdr := {
  e_ident : list Z; e_type : Z; e_machine : Z; e_entry : Z; e_phoff : Z; e_shoff : Z;
  e_phentsize : Z; e_phnum : Z; e_shnum : Z
}.
Record Shdr := {
  sh_type : Z; sh_offset : Z; sh_size : Z; sh_link : Z; sh_entsize : Z
}.
Record Sym := { st_name : Z; st_shndx : Z; st_value : Z }.
Record Rela := { r_offset : Z; r_info : Z; r_addend : Z }.

Definition read_ehdr (elf : list Z) : option Ehdr :=
  if (length elf <? 64)%nat then None
  else Some {|
    e_ident := slice 0 16 elf; e_type := field 16 2 elf; e_machine := field 18 2 elf;
    e_entry := field 24 8 elf; e_phoff := field 32 8 elf; e_shoff := field 40 8 elf;
    e_phentsize := field 54 2 elf; e_phnum := field 56 2 elf; e_shnum := field 60 2 elf |}.

Definition read_phdr (elf : list Z) (off : Z) : option Phdr :=
  if off <? 0 then None
  else b ← read_at (Z.to_nat off) 56 elf;
       Some {| p_type := field 0 4 b; p_flags := field 4 4 b; p_offset := field 8 8 b;
               p_vaddr := field 16 8 b; p_filesz := field 32 8 b; p_memsz := field 40 8 b |}.

Definition read_shdr (elf : list Z) (off : Z) : option Shdr :=
  if off <? 0 then None
  else b ← read_at (Z.to_nat off) 64 elf;
       Some {| sh_type := field 4 4 b; sh_offset := field 24 8 b; sh_size := field 32 8 b;
               sh_link := field 40 4 b; sh_entsize := field 56 8 b |}.

Definition read_sym (elf : list Z) (off : Z) : option Sym :=
  if off <? 0 then None
  else b ← read_at (Z.to_nat off) 24 elf;
       Some {| st_name := field 0 4 b; st_shndx := field 6 2 b; st_value := field 8 8 b |}.

Definition read_rela (elf : list Z) (off : Z) : option Rela :=
  if off <? 0 then None
  else b ← read_at (Z.to_nat off) 24 elf;
       Some {| r_offset := field 0 8 b; r_info := field 8 8 b; r_addend := field 16 8 b |}.

(** [n] structures of [size] bytes from [off]. *)
Definition read_table {A} (read : list Z -> Z -> option A) (elf : list Z) (off size : Z) (n : Z)
    : option (list A) :=
  mapM (fun i => read elf (off + size * Z.of_nat i)) (seq 0 (Z.to_nat n)).

Definition phdrs (elf : list Z) (ehdr : Ehdr) : option (list Phdr) :=
  read_table read_phdr elf (e_phoff ehdr) 56 (e_phnum ehdr).
Definition shdrs (elf : list Z) (ehdr : Ehdr) : option (list Shdr) :=
  read_table read_shdr elf (e_shoff ehdr) 64 (e_shnum ehdr).

(** The bytes of a C string at [off], without its zero. *)
Fixpoint cstring (l : list Z) : option (list Z) :=
  match l with
  | [] => None
  | c :: l' => if c =? 0 then Some [] else cons c <$> cstring l'
  end.
Definition cstring_at (elf : list Z) (off : Z) : option (list Z) :=
  if off <? 0 then None else cstring (drop (Z.to_nat off) elf).

(** ** commonfps_validate_shared_renderer *)

(** The dynamic section: is it marked as a position-independent executable?  [n] entries
    from [off]. *)
Fixpoint dynamic_pie (n : nat) (elf : list Z) (off : Z) : option bool :=
  match n with
  | O => Some false
  | S n' =>
      d_tag ← rd elf off 8;
      if d_tag =? DT_NULL then Some false
      else
        d_val ← rd elf (off + 8) 8;
        if (d_tag =? DT_FLAGS_1) && negb (Z.land d_val DF_1_PIE =? 0) then Some true
        else dynamic_pie n' elf (off + 16)
  end.

Definition entry_in (ehdr : Ehdr) (segment : Phdr) : bool :=
  negb (Z.land (p_flags segment) PF_X =? 0) && (p_vaddr segment <=? e_entry ehdr) &&
  (e_entry ehdr - p_vaddr segment <? p_memsz segment).

(** The loop over the segments. *)
Fixpoint validate_loop (elf : list Z) (ehdr : Ehdr) (have_load entry_is_executable : bool)
    (l : list Phdr) : option bool :=
  match l with
  | [] => Some (have_load && entry_is_executable)
  | segment :: l' =>
      if p_type segment =? PT_INTERP then Some false
      else if p_type segment =? PT_LOAD then
        validate_loop elf ehdr true (entry_is_executable || entry_in ehdr segment) l'
      else if negb (p_type segment =? PT_DYNAMIC) then
        validate_loop elf ehdr have_load entry_is_executable l'
      else
        pie ← dynamic_pie (Z.to_nat (p_filesz segment / 16)) elf (p_offset segment);
        if pie : bool then Some false else validate_loop elf ehdr have_load entry_is_executable l'
  end.

Definition validate_shared_renderer (elf : list Z) (ehdr : Ehdr) (l : list Phdr) : option bool :=
  if negb (e_type ehdr =? ET_DYN) || negb (e_machine ehdr =? EM_X86_64) ||
     negb (e_phentsize ehdr =? 56) || (e_phnum ehdr =? 0)
  then Some false
  else validate_loop elf ehdr false false l.

(** The magic number, the class and the byte order. *)
Definition elf_ident_ok (ehdr : Ehdr) : bool :=
  bool_decide (take 6 (e_ident ehdr) = [0x7f; 69; 76; 70; ELFCLASS64; ELFDATA2LSB]).

(** ** The trace and the import counters (the file's static variables) *)

Record Trace := {
  g_trace_continued : bool; g_trace_stopped : bool; g_import_resolved : Z;
  g_import_unresolved : Z; g_first_unresolved : list Z
}.
Definition Trace_init : Trace := {|
  g_trace_continued := false; g_trace_stopped := false; g_import_resolved := 0;
  g_import_unresolved := 0; g_first_unresolved := [] |}.

Definition set_trace (continued stopped : bool) (g : Trace) : Trace := {|
  g_trace_continued := continued; g_trace_stopped := stopped;
  g_import_resolved := g_import_resolved g; g_import_unresolved := g_import_unresolved g;
  g_first_unresolved := g_first_unresolved g |}.
Definition count_resolved (g : Trace) : Trace := {|
  g_trace_continued := g_trace_continued g; g_trace_stopped := g_trace_stopped g;
  g_import_resolved := u32 (g_import_resolved g + 1);
  g_import_unresolved := g_import_unresolved g; g_first_unresolved := g_first_unresolved g |}.
(** [strncpy] into 127 bytes, when no name was recorded before. *)
Definition count_unresolved (name : list Z) (g : Trace) : Trace := {|
  g_trace_continued := g_trace_continued g; g_trace_stopped := g_trace_stopped g;
  g_import_resolved := g_import_resolved g;
  g_import_unresolved := u32 (g_import_unresolved g + 1);
  g_first_unresolved := if bool_decide (g_first_unresolved g = []) then take 127 name
                        else g_first_unresolved g |}.

Definition g_resolve_libraries : list string := [
  "libkernel_sys.sprx"; "libkernel.sprx"; "libSceLibcInternal.sprx"; "libmonosgen-2.0.sprx";
  "libmonosgen-2.0.0.sprx"; "libSceNet.sprx"; "libSceSystemService.sprx";
  "libSceSysmodule.sprx"; "libSceUserService.sprx" ]%string.

Section Programs.
Local Open Scope prog_scope.

Definition commonfps_trace_continue (pid : Z) (g : Trace) : pprog (Z * Trace) :=
  let* rc := pc (Continue pid) in
  Ret (if rc =? 0 then (0, set_trace true (g_trace_stopped g) g) else (-1, g)).

Definition commonfps_trace_stop (pid : Z) (g : Trace) : pprog (Z * Trace) :=
  if negb (g_trace_continued g) || g_trace_stopped g then Ret (0, g)
  else
    let* rc := pc (SigStop pid) in
    if negb (rc =? 0) then Ret (-1, g)
    else
      let* rc := pc (Waitpid pid) in
      Ret (if rc <? 0 then (-1, g) else (0, set_trace (g_trace_continued g) true g)).

Fixpoint resolve_loop (pid : Z) (name : list Z) (libraries : list string) : pprog Z :=
  match libraries with
  | [] => Ret 0
  | library :: rest =>
      let* (rc, handle) := pc (DynlibHandle pid library) in
      if (rc <? 0) || (handle =? 0) then resolve_loop pid name rest
      else
        let* address := pc (DynlibSym pid handle name) in
        if negb (address =? 0) then Ret address else resolve_loop pid name rest
  end.
Definition commonfps_resolve_external (pid : Z) (name : list Z) : pprog Z :=
  if bool_decide (name = []) then Ret 0 else resolve_loop pid name g_resolve_libraries.

(** ** commonfps_apply_relocations *)

(** The symbol and string tables of a relocation section. *)
Record SymTab := { dynsym : Z; dynsym_count : Z; dynstr : Z; dynstr_size : Z }.

Definition symbol_table (shdr : list Shdr) (section : Shdr) : option SymTab :=
  match shdr !! Z.to_nat (sh_link section) with
  | Some symsec =>
      if ((sh_type symsec =? SHT_DYNSYM) || (sh_type symsec =? SHT_SYMTAB)) &&
         (sh_entsize symsec =? 24)
      then match shdr !! Z.to_nat (sh_link symsec) with
           | Some strsec =>
               if sh_type strsec =? SHT_STRTAB then
                 Some {| dynsym := sh_offset symsec; dynsym_count := sh_size symsec / 24;
                         dynstr := sh_offset strsec; dynstr_size := sh_size strsec |}
               else None
           | None => None
           end
      else None
  | None => None
  end.

(** The context of the loader. *)
Record Ctx := { ctx_elf : list Z; ctx_pid : Z; ctx_base_addr : Z }.

(** The value a relocation refers to: [None] outside of the image, [Some (inl g)] an
    error. *)
Definition symbol_value (ctx : Ctx) (tab : option SymTab) (rela : Rela) (g : Trace)
    : pprog (option (Trace + Z * Trace)) :=
  let sym_index := Z.shiftr (r_info rela) 32 in
  match tab with
  | None => Ret (Some (inl g))
  | Some t =>
      if dynsym_count t <=? sym_index then Ret (Some (inl g))
      else match read_sym (ctx_elf ctx) (dynsym t + 24 * sym_index) with
      | None => Ret None
      | Some symbol =>
          if dynstr_size t <=? st_name symbol then Ret (Some (inl g))
          else if st_shndx symbol =? SHN_ABS then Ret (Some (inr (st_value symbol, g)))
          else if negb (st_shndx symbol =? SHN_UNDEF) then
            Ret (Some (inr (u64 (ctx_base_addr ctx + st_value symbol), g)))
          else match cstring_at (ctx_elf ctx) (dynstr t + st_name symbol) with
          | None => Ret None
          | Some name =>
              let* resolved := commonfps_resolve_external (ctx_pid ctx) name in
              Ret (Some (if resolved =? 0 then inl (count_unresolved name g)
                         else inr (resolved, count_resolved g)))
          end
      end
  end.

(** [*location = v] in the local copy. *)
Definition store64 (off v : Z) (mirror : list Z) : option (list Z) :=
  let o := Z.to_nat off in
  if (off + 8 <=? Z.of_nat (length mirror)) && (0 <=? off) then
    Some (take o mirror ++ le_encode 8 (u64 v) ++ drop (o + 8) mirror)
  else None.

(** One relocation: the code (0 or -1), the copy and the counters. *)
Definition apply_rela (ctx : Ctx) (tab : option SymTab) (rela : Rela) (mirror : list Z) (g : Trace)
    : pprog (option (Z * list Z * Trace)) :=
  let type := u32 (r_info rela) in
  if type =? R_X86_64_RELATIVE then
    Ret (mirror' ← store64 (r_offset rela) (ctx_base_addr ctx + r_addend rela) mirror;
         Some (0, mirror', g))
  else if type =? R_X86_64_NONE then Ret (Some (0, mirror, g))
  else if negb (type =? R_X86_64_64) && negb (type =? R_X86_64_GLOB_DAT) then
    Ret (Some (-1, mirror, g))
  else
    let* v := symbol_value ctx tab rela g in
    Ret (match v with
         | None => None
         | Some (inl g') => Some (-1, mirror, g')
         | Some (inr (resolved, g')) =>
             mirror' ← store64 (r_offset rela) (resolved + r_addend rela) mirror;
             Some (0, mirror', g')
         end).

Fixpoint rela_loop (ctx : Ctx) (tab : option SymTab) (relas : list Rela) (mirror : list Z)
    (g : Trace) : pprog (option (Z * list Z * Trace)) :=
  match relas with
  | [] => Ret (Some (0, mirror, g))
  | rela :: rest =>
      let* r := apply_rela ctx tab rela mirror g in
      match r with
      | Some (0, mirror', g') => rela_loop ctx tab rest mirror' g'
      | _ => Ret r
      end
  end.

Fixpoint section_loop (ctx : Ctx) (shdr : list Shdr) (l : list Shdr) (mirror : list Z) (g : Trace)
    : pprog (option (Z * list Z * Trace)) :=
  match l with
  | [] => Ret (Some (0, mirror, g))
  | section :: rest =>
      if negb (sh_type section =? SHT_RELA) || (sh_entsize section =? 0) then
        section_loop ctx shdr rest mirror g
      else match read_table read_rela (ctx_elf ctx) (sh_offset section) 24 (sh_size section / 24) with
           | None => Ret None
           | Some relas =>
               let* r := rela_loop ctx (symbol_table shdr section) relas mirror g in
               match r with
               | Some (0, mirror', g') => section_loop ctx shdr rest mirror' g'
               | _ => Ret r
               end
           end
  end.

Definition commonfps_apply_relocations (ctx : Ctx) (ehdr : Ehdr) (mirror : list Z) (g : Trace)
    : pprog (option (Z * list Z * Trace)) :=
  match shdrs (ctx_elf ctx) ehdr with
  | None => Ret None
  | Some shdr => section_loop ctx shdr shdr mirror g
  end.

(** ** commonfps_stable_elfldr_load *)

Section Load.
(** shsrv's page macros and [PFLAGS]. *)
Variables trunc_pg round_pg pflags : Z -> Z.

Definition vaddr_step (r : Z * Z) (segment : Phdr) : Z * Z :=
  if negb (p_type segment =? PT_LOAD) then r
  else
    let top := u64 (p_vaddr segment + p_memsz segment) in
    (if p_vaddr segment <? fst r then p_vaddr segment else fst r,
     if snd r <? top then top else snd r).
Definition base_size (l : list Phdr) : Z :=
  let '(min_vaddr, max_vaddr) := fold_left vaddr_step l (2 ^ 64 - 1, 0) in
  u64 (round_pg max_vaddr - trunc_pg min_vaddr).

(** The three loops stop at the first error. *)
Fixpoint load_loop (l : list Phdr) (mirror : list Z) : pprog (Z * list Z) :=
  match l with
  | [] => Ret (0, mirror)
  | segment :: rest =>
      if p_type segment =? PT_LOAD then
        let* (error, bytes) := pc (PtLoad segment mirror) in
        let mirror' := buffer (length mirror) bytes in
        if negb (error =? 0) then Ret (error, mirror') else load_loop rest mirror'
      else load_loop rest mirror
  end.

Fixpoint protect_loop (pid base_addr : Z) (l : list Phdr) : pprog Z :=
  match l with
  | [] => Ret 0
  | segment :: rest =>
      if negb (p_type segment =? PT_LOAD) || (p_memsz segment =? 0) then
        protect_loop pid base_addr rest
      else
        let address := base_addr + p_vaddr segment in
        let size := round_pg (p_memsz segment) in
        let prot := pflags (p_flags segment) in
        let* rc := (if negb (Z.land (p_flags segment) PF_X =? 0)
                    then pc (KernelMprotect pid address size prot)
                    else pc (PtMprotect pid address size prot)) in
        if negb (rc =? 0) then Ret (-1) else protect_loop pid base_addr rest
  end.

(** The local copy and its relocation while the target runs. *)
Definition prepare_mirror (ctx : Ctx) (ehdr : Ehdr) (l : list Phdr) (error : Z) (mirror : list Z)
    (g : Trace) : pprog (option (Z * list Z * Trace)) :=
  if negb (error =? 0) then Ret (Some (error, mirror, g))
  else
    let* (error, mirror) := load_loop l mirror in
    if negb (error =? 0) then Ret (Some (error, mirror, g))
    else commonfps_apply_relocations ctx ehdr mirror g.

(** The copy into the stopped target, the protections and the flush. *)
Definition commit_image (pid base_addr size : Z) (l : list Phdr) (error : Z) (mirror : list Z)
    : pprog Z :=
  if negb (error =? 0) then Ret error
  else
    let* rc := pc (Copyin pid mirror base_addr) in
    if negb (rc =? 0) then Ret (-1)
    else
      let* error := protect_loop pid base_addr l in
      if negb (error =? 0) then Ret error
      else
        let* rc := pc (Msync pid base_addr size) in
        Ret (if rc =? 0 then 0 else -1).

(** From the stop on. *)
Definition finish_load (pid base_addr size : Z) (ehdr : Ehdr) (l : list Phdr) (have_mirror : bool)
    (error : Z) (mirror : list Z) (g : Trace) : pprog (option (Z * Trace)) :=
  let* (rc, g) := commonfps_trace_stop pid g in
  let error := if rc =? 0 then error else -1 in
  let* error := commit_image pid base_addr size l error mirror in
  let* _ := (if have_mirror then pc (LocalMunmap size) else Ret tt) in
  if negb (error =? 0) then
    let* (_, g) := (if g_trace_continued g && negb (g_trace_stopped g)
                    then commonfps_trace_stop pid g else Ret (0, g)) in
    let* _ := pc (Munmap pid base_addr size) in
    Ret (Some (0, g))
  else Ret (Some (swrap 64 (base_addr + e_entry ehdr), g)).

(** From the mapping on. *)
Definition load_mapped (pid base_addr size : Z) (elf : list Z) (ehdr : Ehdr) (l : list Phdr)
    (g : Trace) : pprog (option (Z * Trace)) :=
  let* (rc, g) := commonfps_trace_continue pid g in
  let error := if rc =? 0 then 0 else -1 in
  let* have_mirror := pc (LocalMmap size) in
  let error := if have_mirror : bool then error else -1 in
  let ctx := {| ctx_elf := elf; ctx_pid := pid; ctx_base_addr := base_addr |} in
  let* prepared := prepare_mirror ctx ehdr l error (repeat 0 (Z.to_nat size)) g in
  match prepared with
  | None => Ret None
  | Some (error, mirror, g) => finish_load pid base_addr size ehdr l have_mirror error mirror g
  end.

Definition commonfps_stable_elfldr_load (pid : Z) (elf : list Z) : pprog (option (Z * Trace)) :=
  let g := Trace_init in
  match read_ehdr elf with
  | None => Ret None
  | Some ehdr =>
      if negb (elf_ident_ok ehdr) then Ret (Some (0, g))
      else match phdrs elf ehdr with
      | None => Ret None
      | Some l =>
          match validate_shared_renderer elf ehdr l with
          | None => Ret None
          | Some false => Ret (Some (0, g))
          | Some true =>
              let size := base_size l in
              let* base_addr := pc (Mmap pid size (Z.lor PROT_READ PROT_WRITE)) in
              if base_addr =? -1 then Ret (Some (0, g))
              else load_mapped pid base_addr size elf ehdr l g
          end
      end
  end.
End Load.
End Programs.

(** ** A small renderer

    One executable segment with the entry point at 64, a symbol table with the undefined
    symbol [f], and two relocations: a relative one at 424 and an import at 432. *)
Definition sample_shdr (type offset size link entsize : Z) : list Z :=
  le_encode 4 0 ++ le_encode 4 type ++ le_encode 8 0 ++ le_encode 8 0 ++ le_encode 8 offset ++
  le_encode 8 size ++ le_encode 4 link ++ le_encode 4 0 ++ le_encode 8 0 ++ le_encode 8 entsize.
Definition sample_rela (offset sym type addend : Z) : list Z :=
  le_encode 8 offset ++ le_encode 8 (sym * 2 ^ 32 + type) ++ le_encode 8 addend.
Definition sample_ehdr : list Z :=
  [0x7f; 69; 76; 70; 2; 1] ++ repeat 0 10 ++ le_encode 2 ET_DYN ++ le_encode 2 EM_X86_64 ++
  le_encode 4 1 ++ le_encode 8 64 ++ le_encode 8 64 ++ le_encode 8 120 ++ le_encode 4 0 ++
  le_encode 2 64 ++ le_encode 2 56 ++ le_encode 2 1 ++ le_encode 2 64 ++ le_encode 2 3 ++
  le_encode 2 0.
Definition sample_phdr : list Z :=
  le_encode 4 PT_LOAD ++ le_encode 4 5 ++ le_encode 8 0 ++ le_encode 8 0 ++ le_encode 8 0 ++
  le_encode 8 416 ++ le_encode 8 512 ++ le_encode 8 16.
Definition sample_elf : list Z :=
  sample_ehdr ++ sample_phdr ++
  sample_shdr SHT_RELA 368 48 1 24 ++ sample_shdr SHT_DYNSYM 312 48 2 24 ++
  sample_shdr SHT_STRTAB 360 8 0 0 ++
  repeat 0 24 ++ (le_encode 4 1 ++ repeat 0 20) ++
  [0; 102; 0; 0; 0; 0; 0; 0] ++
  sample_rela 424 0 R_X86_64_RELATIVE 64 ++ sample_rela 432 1 R_X86_64_GLOB_DAT 4.

(** Pages of 256 bytes. *)
Definition sample_trunc (z : Z) : Z := z - z mod 256.
Definition sample_round (z : Z) : Z := sample_trunc (z + 255).

(** A console on which every call succeeds; the library answers with [0x5000]. *)
Definition sample_target (u : unit) (c : pcall) : pret c * unit :=
  (match c return pret c with
   | GetAuthid => 0x10
   | Mmap _ _ _ => 0x10000000
   | NidEncode _ => Some [110; 105; 100]
   | PtResolve _ _ => 0x7000
   | Getregs _ => (0, {| r_rip := 1; r_rdi := 2; r_rsi := 3; r_rdx := 4; r_rcx := 5; r_r8 := 6;
                         r_r9 := 7; r_rax := 0; r_others := [8; 9] |})
   | Copyout _ _ n => (0, repeat 0 n)
   | PayloadArgs _ => 0x20000000
   | PtLoad _ mirror => (0, mirror)
   | DynlibHandle _ _ => (0, 1)
   | DynlibSym _ _ _ => 0x5000
   | LocalMmap _ => true
   | LocalMunmap _ => tt
   | _ => 0
   end, u).

Definition sample_load :=
  run sample_target (commonfps_stable_elfldr_load sample_trunc sample_round id 9 sample_elf) tt.

Example sample_load_entry : fst <$> sample_load.1.1 = Some (0x10000000 + 64).
Proof. vm_compute. reflexivity. Qed.
