(* ===== verification/ElfLoad.v ===== *)
(** The loader of the renderer image ([ElfBridge]) against the state of the target
    ([Remote]): what the header check accepts, and loading as a whole. *)
From S2P Require Import Prelude Effects Debugger ProcRecords Remote ElfBridge.

(** ** What the checks accept *)

(** A segment that the check refuses: an interpreter, or a dynamic section of a PIE. *)
Definition refused (elf : list Z) (s : Phdr) : option bool :=
  if p_type s =? PT_INTERP then Some true
  else if p_type s =? PT_DYNAMIC then dynamic_pie (Z.to_nat (p_filesz s / 16)) elf (p_offset s)
  else Some false.
Definition is_load (s : Phdr) : bool := p_type s =? PT_LOAD.

Lemma validate_loop_true elf ehdr h x l :
  validate_loop elf ehdr h x l = Some true <->
  Forall (fun s => refused elf s = Some false) l /\
  (h || existsb is_load l) && (x || existsb (fun s => is_load s && entry_in ehdr s) l) = true.
Proof.
  revert h x. induction l as [|s l IH]; intros h x; cbn [validate_loop existsb].
  { rewrite !orb_false_r. split; [by intros [= ->]|by intros [_ ->]]. }
  rewrite Forall_cons. unfold refused at 1, is_load at 1 3.
  destruct (Z.eqb_spec (p_type s) PT_INTERP) as [Ei|Ei]; [by split; [|intros [[? _] _]]|].
  destruct (Z.eqb_spec (p_type s) PT_LOAD) as [El|El]; cbn [orb andb].
  - rewrite IH, El, orb_true_r, orb_assoc. cbn. tauto.
  - destruct (Z.eqb_spec (p_type s) PT_DYNAMIC) as [Ed|Ed]; cbn [negb].
    + destruct (dynamic_pie _ _ _) as [[|]|]; simpl;
        [by split; [|intros [[? _] _]]|rewrite IH; tauto|by split; [|intros [[? _] _]]].
    + rewrite IH. tauto.
Qed.

(** ** What the local preparation leaves alone *)

Lemma length_store64 off v m m' : store64 off v m = Some m' -> length m' = length m.
Proof.
  unfold store64. destruct (_ && _) eqn:E; [|done]. intros H. apply (inj Some) in H as <-.
  apply andb_true_iff in E as [E1%Z.leb_le E2%Z.leb_le].
  rewrite !length_app, length_take, length_drop, (length_le_encode 8). lia.
Qed.

Definition flags (g : Trace) : bool * bool := (g_trace_continued g, g_trace_stopped g).
(** The copy keeps its size and the trace its flags. *)
Definition kept (mirror : list Z) (g : Trace) (r : option (Z * list Z * Trace)) : Prop :=
  match r with Some (_, m', g') => length m' = length mirror /\ flags g' = flags g | None => True end.

Lemma symbol_value_flags ctx tab rela g :
  returns (symbol_value ctx tab rela g)
    (fun r => match r with
              | Some (inl g') | Some (inr (_, g')) => flags g' = flags g
              | None => True
              end).
Proof.
  unfold symbol_value. destruct tab as [t|]; [|by apply returns_ret].
  destruct (_ <=? _); [by apply returns_ret|]. destruct (read_sym _ _) as [y|]; [|by apply returns_ret].
  destruct (_ <=? _); [by apply returns_ret|]. destruct (_ =? SHN_ABS); [by apply returns_ret|].
  destruct (negb _); [by apply returns_ret|].
  destruct (cstring_at _ _) as [name|]; [|by apply returns_ret].
  eapply returns_bind; [apply returns_any|]. intros a _. apply returns_ret. by destruct (a =? 0).
Qed.

Lemma apply_rela_kept ctx tab rela mirror g :
  returns (apply_rela ctx tab rela mirror g) (kept mirror g).
Proof.
  assert (Hs : forall v g', flags g' = flags g ->
    kept mirror g (m' ← store64 (r_offset rela) v mirror; Some (0, m', g'))).
  { intros v g' Hg. destruct (store64 _ _ _) as [m'|] eqn:E; simpl; [|done].
    split; [by eapply length_store64|done]. }
  unfold apply_rela. destruct (_ =? R_X86_64_RELATIVE); [by apply returns_ret, Hs|].
  destruct (_ =? R_X86_64_NONE); [by apply returns_ret|].
  destruct (_ && _); [by apply returns_ret|].
  eapply returns_bind; [apply symbol_value_flags|].
  intros [[g'|[v g']]|] Hg; apply returns_ret; [done|by apply Hs|done].
Qed.

Lemma rela_loop_kept ctx tab relas mirror g :
  returns (rela_loop ctx tab relas mirror g) (kept mirror g).
Proof.
  revert mirror g. induction relas as [|rela relas IH]; intros mirror g; cbn [rela_loop].
  { by apply returns_ret. }
  eapply returns_bind; [apply apply_rela_kept|]. intros [[[[|e|e] m'] g']|] Hk; try by apply returns_ret.
  destruct Hk as [Hl Hf]. intros t r He. specialize (IH m' g' t r He).
  destruct r as [[[e m2] g2]|]; [|done]. destruct IH as [H1 H2]. split; congruence.
Qed.

Lemma section_loop_kept ctx shdr l mirror g :
  returns (section_loop ctx shdr l mirror g) (kept mirror g).
Proof.
  revert mirror g. induction l as [|section l IH]; intros mirror g; cbn [section_loop].
  { by apply returns_ret. }
  destruct (_ || _); [apply IH|]. destruct (read_table _ _ _ _ _) as [relas|]; [|by apply returns_ret].
  eapply returns_bind; [apply rela_loop_kept|].
  intros [[[[|e|e] m'] g']|] Hk; try by apply returns_ret.
  destruct Hk as [Hl Hf]. intros t r He. specialize (IH m' g' t r He).
  destruct r as [[[e m2] g2]|]; [|done]. destruct IH as [H1 H2]. split; congruence.
Qed.

Lemma load_loop_length l mirror :
  returns (load_loop l mirror) (fun r => length (snd r) = length mirror).
Proof.
  revert mirror. induction l as [|s l IH]; intros mirror; cbn [load_loop]; [by apply returns_ret|].
  destruct (_ =? PT_LOAD); [|apply IH]. apply returns_call. intros [e bytes]. cbn [bindp].
  destruct (negb (e =? 0)); [apply returns_ret; apply length_buffer|].
  intros t r He. rewrite (IH _ t r He). apply length_buffer.
Qed.

Lemma prepare_mirror_kept ctx ehdr l error mirror g :
  returns (prepare_mirror ctx ehdr l error mirror g) (kept mirror g).
Proof.
  unfold prepare_mirror. destruct (negb (error =? 0)); [by apply returns_ret|].
  eapply returns_bind; [apply load_loop_length|]. intros [e m'] Hl. cbn [snd] in Hl.
  destruct (negb (e =? 0)); [by apply returns_ret|]. unfold commonfps_apply_relocations.
  destruct (shdrs _ _) as [shdr|]; [|by apply returns_ret].
  intros t r He. pose proof (section_loop_kept _ _ _ _ _ t r He) as H.
  destruct r as [[[e2 m2] g2]|]; [|done]. destruct H as [H1 H2]. split; congruence.
Qed.

(** Its calls read the library tables and fill the copy. *)
Definition local_call (pid : Z) (c : pcall) : Prop :=
  match c with
  | PtLoad _ _ => True
  | DynlibHandle p _ | DynlibSym p _ _ => p = pid
  | _ => False
  end.

Lemma resolve_local pid name : calls (local_call pid) (commonfps_resolve_external pid name).
Proof.
  unfold commonfps_resolve_external. destruct (bool_decide _); [done|].
  induction g_resolve_libraries as [|lib libs IH]; cbn [resolve_loop]; [done|].
  split; [done|]. intros [rc h]. cbn [bindp]. destruct (_ || _); [exact IH|].
  split; [done|]. intros a. cbn [bindp]. by destruct (negb (a =? 0)).
Qed.

Lemma apply_rela_local ctx tab rela mirror g :
  calls (local_call (ctx_pid ctx)) (apply_rela ctx tab rela mirror g).
Proof.
  unfold apply_rela. destruct (_ =? R_X86_64_RELATIVE); [done|]. destruct (_ =? R_X86_64_NONE); [done|].
  destruct (_ && _); [done|]. apply calls_bind; [|done]. unfold symbol_value.
  destruct tab as [t|]; [|done]. destruct (_ <=? _); [done|]. destruct (read_sym _ _) as [y|]; [|done].
  destruct (_ <=? _); [done|]. destruct (_ =? SHN_ABS); [done|]. destruct (negb _); [done|].
  destruct (cstring_at _ _) as [name|]; [|done]. apply calls_bind; [apply resolve_local|done].
Qed.

Lemma prepare_mirror_local ctx ehdr l error mirror g :
  calls (local_call (ctx_pid ctx)) (prepare_mirror ctx ehdr l error mirror g).
Proof.
  unfold prepare_mirror. destruct (negb (error =? 0)); [done|]. apply calls_bind.
  { revert mirror. induction l as [|s l IH]; intros mirror; cbn [load_loop]; [done|].
    destruct (_ =? PT_LOAD); [|apply IH]. split; [done|]. intros [e bytes]. cbn [bindp].
    destruct (negb (e =? 0)); [done|apply IH]. }
  intros [e m']. destruct (negb (e =? 0)); [done|]. unfold commonfps_apply_relocations.
  destruct (shdrs _ _) as [shdr|]; [|done].
  assert (Hrela : forall tab relas m0 g0, calls (local_call (ctx_pid ctx)) (rela_loop ctx tab relas m0 g0)).
  { intros tab relas. induction relas as [|rela relas IH]; intros m0 g0; cbn [rela_loop]; [done|].
    apply calls_bind; [apply apply_rela_local|]. by intros [[[[|?|?] ?] ?]|]. }
  generalize shdr at 2. intros sections. revert m' g.
  induction sections as [|s sections IH]; intros m' g; cbn [section_loop]; [done|].
  destruct (_ || _); [apply IH|]. destruct (read_table _ _ _ _ _) as [relas|]; [|done].
  apply calls_bind; [apply Hrela|]. by intros [[[[|?|?] ?] ?]|].
Qed.

(** ** Loading into the stopped target *)
Section Loading.
Context (trunc_pg round_pg pflags : Z -> Z) (pid o : Z) (sv : option Regs).
Abbreviation held_with st maps := (held o st sv maps).

Lemma local_neutral st maps c r :
  local_call pid c -> target_step pid (held_with st maps) (Ev c r) = Some (held_with st maps).
Proof.
  destruct c; cbn [local_call]; try done; intros ->; cbn [target_step]; by rewrite held_session.
Qed.

(** Calls that the stopped target allows and that keep its state. *)
Definition stopped_call (size base : Z) (c : pcall) : Prop :=
  match c with
  | PtMprotect p _ _ _ | KernelMprotect p _ _ _ | Msync p _ _ => p = pid
  | Copyin p bytes a => p = pid /\ a = base /\ Z.of_nat (length bytes) = size
  | _ => False
  end.
Lemma stopped_neutral size base c r :
  stopped_call size base c ->
  target_step pid (held_with true [(base, size)]) (Ev c r) = Some (held_with true [(base, size)]).
Proof.
  destruct c; cbn [stopped_call]; try done;
    [intros ->|intros ->|intros ->|intros (-> & -> & <-)]; cbn [target_step]; rewrite held_stop; [done..|].
  by rewrite mapped_head.
Qed.

Lemma commit_calls base size l error mirror :
  Z.of_nat (length mirror) = size ->
  calls (stopped_call size base) (commit_image round_pg pflags pid base size l error mirror).
Proof.
  intros Hlen. unfold commit_image. destruct (negb (error =? 0)); [done|]. split; [done|].
  intros rc. cbn [bindp]. destruct (negb (rc =? 0)); [done|]. apply calls_bind.
  - induction l as [|s l IH]; cbn [protect_loop]; [done|]. destruct (_ || _); [done|].
    apply calls_bind; [by destruct (negb _)|]. intros r. by destruct (negb (r =? 0)).
  - intros e. by destruct (negb (e =? 0)).
Qed.

Lemma wp_commit base size l error mirror (Q : Z -> Target -> Prop) :
  Z.of_nat (length mirror) = size ->
  (forall e, Q e (held_with true [(base, size)])) ->
  wp (target_step pid) (commit_image round_pg pflags pid base size l error mirror)
    (held_with true [(base, size)]) Q.
Proof.
  intros Hlen HQ. eapply wp_mono; [|apply wp_neutral with (P := stopped_call size base)].
  - intros e m' [-> _]. apply HQ.
  - intros. by apply stopped_neutral.
  - by apply commit_calls.
  - apply returns_any.
Qed.

(** Stopping succeeds exactly when the target is known to be stopped afterwards. *)
Lemma wp_trace_stop st maps g (Q : Z * Trace -> Target -> Prop) :
  flags g = (negb st, false) ->
  (forall rc g' st', (rc = 0 /\ st' = true /\ flags g' = (negb st, negb st)) \/
     (rc = -1 /\ st' = false /\ g' = g) -> Q (rc, g') (held_with st' maps)) ->
  wp (target_step pid) (commonfps_trace_stop pid g) (held_with st maps) Q.
Proof.
  intros [= Hc Hs] HQ. unfold commonfps_trace_stop. rewrite Hc, Hs. destruct st; cbn [negb orb].
  { apply HQ. left. split; [done|]. split; [done|]. unfold flags. by rewrite Hc, Hs. }
  intros rc. cbn [target_step bindp]. rewrite held_session. cbn [accept].
  destruct (negb (rc =? 0)); [apply HQ; by right|].
  intros rc2. cbn [target_step bindp]. rewrite held_session. cbn [accept wp].
  destruct (rc2 <? 0); [apply HQ; by right|]. apply (HQ 0 _ true). left. split; [done|]. split; [done|].
  done.
Qed.

(** The image is mapped in full and stopped, or nothing is left of it. *)
Definition loaded_or_not (elf : list Z) (r : option (Z * Trace)) (m : Target) : Prop :=
  match r with
  | None => True
  | Some (entry, g) =>
      (entry = 0 /\ exists st, m = held_with st []) \/
      exists ehdr l base, read_ehdr elf = Some ehdr /\ phdrs elf ehdr = Some l /\
        elf_ident_ok ehdr = true /\ validate_shared_renderer elf ehdr l = Some true /\
        entry = swrap 64 (base + e_entry ehdr) /\ flags g = (true, true) /\
        m = held_with true [(base, base_size trunc_pg round_pg l)]
  end.

Lemma base_size_range l : 0 <= base_size trunc_pg round_pg l.
Proof.
  unfold base_size. destruct (fold_left _ _ _) as [lo hi]. apply (wrap_range 64). lia.
Qed.

Lemma filter_own (a n : Z) : filter (fun r => r <> (a, n)) [(a, n)] = [].
Proof. rewrite filter_cons. by rewrite decide_False by (intros H; by apply H). Qed.

(** What remains after the local copy was prepared. *)
Lemma wp_finish elf ehdr l base e mirror g st (have_mirror : bool) :
  read_ehdr elf = Some ehdr -> phdrs elf ehdr = Some l -> elf_ident_ok ehdr = true ->
  validate_shared_renderer elf ehdr l = Some true ->
  flags g = (negb st, false) -> (e = 0 -> st = false) ->
  Z.of_nat (length mirror) = base_size trunc_pg round_pg l ->
  wp (target_step pid)
    (finish_load round_pg pflags pid base (base_size trunc_pg round_pg l) ehdr l have_mirror e mirror g)
    (held_with st [(base, base_size trunc_pg round_pg l)]) (loaded_or_not elf).
Proof.
  intros Hh Hl Hi Hv Hf He Hlen. unfold finish_load. apply wp_bind, wp_trace_stop; [done|].
  intros rc g' st' Hcase. apply wp_bind.
  assert (Hfail : forall g2 st2, wp (target_step pid)
     (bindp (pc (Munmap pid base (base_size trunc_pg round_pg l))) (fun _ => Ret (Some (0, g2))))
     (held_with st2 [(base, base_size trunc_pg round_pg l)]) (loaded_or_not elf)).
  { intros g2 st2 r. cbn [target_step]. rewrite held_session. cbn [accept bindp wp]. left.
    split; [done|]. exists st2. cbn [tg_maps held]. by rewrite filter_own. }
  assert (Hmun : forall (Q : unit -> Target -> Prop) m, Q tt m ->
    wp (target_step pid) (if have_mirror then pc (LocalMunmap (base_size trunc_pg round_pg l)) else Ret tt) m Q).
  { intros Q m HQ. destruct have_mirror; [intros []|]; exact HQ. }
  assert (Hbad : forall e0 g0 st0, e0 <> 0 -> flags g0 = (negb st, negb st) \/
      (flags g0 = (negb st, false) /\ st0 = st) ->
    wp (target_step pid)
      (bindp (if have_mirror then pc (LocalMunmap (base_size trunc_pg round_pg l)) else Ret tt) (fun _ =>
         if negb (e0 =? 0) then
           bindp (if g_trace_continued g0 && negb (g_trace_stopped g0)
                  then commonfps_trace_stop pid g0 else Ret (0, g0)) (fun '(_, g) =>
             bindp (pc (Munmap pid base (base_size trunc_pg round_pg l))) (fun _ => Ret (Some (0, g))))
         else Ret (Some (swrap 64 (base + e_entry ehdr), g0))))
      (held_with st0 [(base, base_size trunc_pg round_pg l)]) (loaded_or_not elf)).
  { intros e0 g0 st0 He0 Hg0. apply wp_bind, Hmun. rewrite (proj2 (Z.eqb_neq e0 0)) by done. cbn [negb].
    apply wp_bind. destruct Hg0 as [Hg0|[Hg0 ->]]; injection Hg0 as H1 H2.
    - rewrite H1, H2. rewrite andb_negb_r. apply Hfail.
    - rewrite H1, H2. destruct st; cbn [negb andb]; [apply Hfail|].
      apply wp_trace_stop; [unfold flags; by rewrite H1, H2|]. intros. apply Hfail. }
  destruct Hcase as [(-> & -> & Hg)|(-> & -> & ->)]; cbn [Z.eqb].
  - destruct (Z.eqb_spec e 0) as [->|Hne].
    + apply wp_commit; [done|]. intros error. rewrite (He eq_refl) in Hg. cbn [negb] in Hg.
      destruct (decide (error = 0)) as [->|Hne].
      * apply wp_bind, Hmun. cbn. right. by exists ehdr, l, base.
      * apply Hbad; [done|]. left. by rewrite (He eq_refl).
    + unfold commit_image. rewrite (proj2 (Z.eqb_neq e 0)) by done. cbn [negb wp]. apply Hbad; [done|]. by left.
  - cbn [commit_image negb Z.eqb wp]. destruct st.
    + apply (Hbad (-1) g false); [done|]. by left.
    + apply (Hbad (-1) g false); [done|]. by right.
Qed.

Lemma wp_load_mapped elf ehdr l base :
  read_ehdr elf = Some ehdr -> phdrs elf ehdr = Some l -> elf_ident_ok ehdr = true ->
  validate_shared_renderer elf ehdr l = Some true ->
  let size := base_size trunc_pg round_pg l in
  wp (target_step pid) (load_mapped round_pg pflags pid base size elf ehdr l Trace_init)
    (held_with true [(base, size)]) (loaded_or_not elf).
Proof.
  intros Hh Hl Hi Hv size. unfold load_mapped. apply wp_bind. intros rc. cbn [target_step bindp].
  rewrite held_stop. cbn [accept wp].
  assert (exists st g error, (negb (rc =? 0)) = st /\ flags g = (negb st, false) /\
    (error = 0 -> st = false) /\
    (if rc =? 0 then with_session Attached false (held_with true [(base, size)])
     else held_with true [(base, size)]) = held_with st [(base, size)] /\
    (if rc =? 0 then (0, set_trace true (g_trace_stopped Trace_init) Trace_init) else (-1, Trace_init))
     = (error, g) /\ error = (if error =? 0 then 0 else -1)) as (st & g & error & _ & Hf & He & -> & -> & He2).
  { destruct (rc =? 0); eexists _, _, _; repeat split; done. }
  cbn [bindp]. rewrite <- He2. clear He2. intros have_mirror. cbn [target_step bindp].
  set (error' := if (have_mirror : bool) then error else -1).
  assert (He' : error' = 0 -> st = false) by (unfold error'; destruct have_mirror; [done|discriminate]).
  clearbody error'. clear error He.
  apply wp_bind. eapply wp_mono; [|apply wp_neutral with (P := local_call pid)
    (Q := fun r => kept (repeat 0 (Z.to_nat size)) g r /\
                   match r with Some (e, _, _) => e = 0 -> st = false | None => True end)].
  - intros r m' [-> [Hk He]]. destruct r as [[[e mirror] g']|]; [|done].
    destruct Hk as [Hlen Hfl]. rewrite repeat_length in Hlen.
    apply (wp_finish elf ehdr l base e mirror g' st have_mirror); try done.
    + congruence.
    + fold size. rewrite Hlen. pose proof (base_size_range l). unfold size. lia.
  - intros c r Hc. by apply local_neutral.
  - apply (prepare_mirror_local {| ctx_elf := elf; ctx_pid := pid; ctx_base_addr := base |}).
  - intros t r Hexec. split; [exact (prepare_mirror_kept _ _ _ _ _ _ t r Hexec)|].
    destruct r as [[[e m'] g']|]; [|done]. intros ->.
    apply He'. unfold prepare_mirror in Hexec. destruct (Z.eqb_spec error' 0); [done|].
    cbn [negb] in Hexec. destruct Hexec as [_ [= ->]]. done.
Qed.

(** The loader from a stopped target without mappings. *)
Lemma wp_load elf :
  wp (target_step pid) (commonfps_stable_elfldr_load trunc_pg round_pg pflags pid elf)
    (held_with true []) (loaded_or_not elf).
Proof.
  unfold commonfps_stable_elfldr_load.
  assert (Hno : forall g, loaded_or_not elf (Some (0, g)) (held_with true [])).
  { intros g. left. split; [done|]. by exists true. }
  destruct (read_ehdr elf) as [ehdr|] eqn:Eh; [|done].
  destruct (elf_ident_ok ehdr) eqn:Ei; cbn [negb]; [|apply Hno].
  destruct (phdrs elf ehdr) as [l|] eqn:El; [|done].
  destruct (validate_shared_renderer elf ehdr l) as [[|]|] eqn:Ev; [|apply Hno|done].
  intros base. cbn [target_step bindp]. rewrite held_stop. cbn [accept tg_maps held].
  destruct (base =? -1); [apply Hno|]. by apply wp_load_mapped.
Qed.
End Loading.

(** ** Theorems *)

(** The renderer is accepted exactly as the shared object the loader is meant for: an
    x86-64 image of type ET_DYN with program headers of the usual size, no interpreter, no
    dynamic section marked as a position-independent executable, at least one loadable
    segment, and an entry point inside of an executable one. *)
Theorem shared_renderer_checked elf ehdr l :
  validate_shared_renderer elf ehdr l = Some true <->
  e_type ehdr = ET_DYN /\ e_machine ehdr = EM_X86_64 /\ e_phentsize ehdr = 56 /\ e_phnum ehdr <> 0 /\
  Forall (fun s => refused elf s = Some false) l /\ (exists s, s ∈ l /\ p_type s = PT_LOAD) /\
  exists s, s ∈ l /\ p_type s = PT_LOAD /\ Z.land (p_flags s) PF_X <> 0 /\
    p_vaddr s <= e_entry ehdr < p_vaddr s + p_memsz s.
Proof.
  unfold validate_shared_renderer. destruct (_ || _ || _ || _) eqn:E.
  { split; [done|]. intros (H1 & H2 & H3 & H4 & _). rewrite H1, H2, H3 in E.
    apply Z.eqb_neq in H4. by rewrite H4 in E. }
  apply orb_false_iff in E as [[[E1 E2]%orb_false_iff E3]%orb_false_iff E4].
  apply negb_false_iff, Z.eqb_eq in E1, E2, E3. apply Z.eqb_neq in E4.
  rewrite validate_loop_true, andb_true_iff. cbn [orb]. rewrite !existsb_exists.
  setoid_rewrite andb_true_iff. unfold is_load, entry_in. setoid_rewrite Z.eqb_eq.
  setoid_rewrite andb_true_iff. setoid_rewrite andb_true_iff. setoid_rewrite negb_true_iff.
  setoid_rewrite Z.eqb_neq. setoid_rewrite Z.leb_le. setoid_rewrite Z.ltb_lt.
  setoid_rewrite <- list_elem_of_In. split.
  - intros (H & (s1 & Hs1 & Hl1) & s & Hs & Hl & [Hx Hlo] & Hhi). do 4 (split; [done|]). split; [done|].
    split; [by exists s1|]. exists s. repeat (split; [done|]). lia.
  - intros (_ & _ & _ & _ & H & (s1 & Hs1 & Hl1) & s & Hs & Hl & Hx & Hlo & Hhi). split; [done|].
    split; [by exists s1|]. exists s. repeat (split; [done|]). lia.
Qed.

(** Loading the renderer into the stopped ShellUI is all or nothing, for any image and
    any answers of the console.  The memory of ShellUI is changed only while it is stopped
    by the debugger, the image is copied only into the mapping made for it, and a failed
    load leaves no mapping; a successful load gives the entry point of an accepted image,
    completely copied, with ShellUI stopped again. *)
Theorem renderer_load_all_or_nothing trunc_pg round_pg pflags pid o sv elf t r :
  exec (commonfps_stable_elfldr_load trunc_pg round_pg pflags pid elf) t r ->
  exists m, monitor (target_step pid) (held o true sv []) t = Some m /\
    loaded_or_not trunc_pg round_pg o sv elf r m.
Proof. apply wp_sound, wp_load. Qed.

Lemma renderer_load_all_or_nothing_witness :
  exists m, monitor (target_step 9) (held 0x10 true None []) sample_load.2 = Some m /\
    loaded_or_not sample_trunc sample_round 0x10 None sample_elf sample_load.1.1 m.
Proof.
  apply (renderer_load_all_or_nothing sample_trunc sample_round id 9 0x10 None sample_elf).
  unfold sample_load. apply run_exec.
Defined.
