(* ===== verification/ElfReloc.v ===== *)
(** The relocation of the renderer image ([ElfBridge]): what it writes, and that the whole
    loader stays inside of an image that passes a decidable check. *)
From S2P Require Import Prelude Effects Debugger ProcRecords Remote ElfBridge ElfLoad.

(** ** Relocations *)

(** What a relocation of the plan refers to: its symbol table and its entry. *)
Abbreviation Planned := (option SymTab * Rela)%type.

Fixpoint relocation_plan (elf : list Z) (shdr l : list Shdr) : option (list Planned) :=
  match l with
  | [] => Some []
  | section :: rest =>
      if negb (sh_type section =? SHT_RELA) || (sh_entsize section =? 0) then
        relocation_plan elf shdr rest
      else
        relas ← read_table read_rela elf (sh_offset section) 24 (sh_size section / 24);
        more ← relocation_plan elf shdr rest;
        Some (map (pair (symbol_table shdr section)) relas ++ more)
  end.

(** The address of a symbol: absolute, in the image, or found in a library of the target. *)
Definition symbol_address (ctx : Ctx) (t : list (event pret)) (tab : SymTab) (symbol : Sym) (s : Z)
    : Prop :=
  (st_shndx symbol = SHN_ABS /\ s = st_value symbol) \/
  (st_shndx symbol <> SHN_ABS /\ st_shndx symbol <> SHN_UNDEF /\
   s = u64 (ctx_base_addr ctx + st_value symbol)) \/
  (st_shndx symbol = SHN_UNDEF /\ s <> 0 /\ exists name handle,
     cstring_at (ctx_elf ctx) (dynstr tab + st_name symbol) = Some name /\
     Ev (DynlibSym (ctx_pid ctx) handle name) s ∈ t).

(** What the relocation writes; [None]: nothing. *)
Definition rela_value (ctx : Ctx) (t : list (event pret)) (p : Planned) (v : option Z) : Prop :=
  let type := u32 (r_info (snd p)) in
  (type = R_X86_64_NONE /\ v = None) \/
  (type = R_X86_64_RELATIVE /\ v = Some (ctx_base_addr ctx + r_addend (snd p))) \/
  ((type = R_X86_64_64 \/ type = R_X86_64_GLOB_DAT) /\ exists tab symbol s,
     fst p = Some tab /\ Z.shiftr (r_info (snd p)) 32 < dynsym_count tab /\
     read_sym (ctx_elf ctx) (dynsym tab + 24 * Z.shiftr (r_info (snd p)) 32) = Some symbol /\
     st_name symbol < dynstr_size tab /\ symbol_address ctx t tab symbol s /\
     v = Some (s + r_addend (snd p))).

Definition written (p : Planned) (v : option Z) (m m' : list Z) : Prop :=
  match v with None => m' = m | Some w => store64 (r_offset (snd p)) w m = Some m' end.

Inductive applied (ctx : Ctx) (t : list (event pret)) :
    list Planned -> list (option Z) -> list Z -> list Z -> Prop :=
| applied_nil m : applied ctx t [] [] m m
| applied_cons p v m m1 ps vs m2 :
    rela_value ctx t p v -> written p v m m1 -> applied ctx t ps vs m1 m2 ->
    applied ctx t (p :: ps) (v :: vs) m m2.

Lemma rela_value_mono ctx t t' p v : t ⊆ t' -> rela_value ctx t p v -> rela_value ctx t' p v.
Proof.
  intros Ht [?|[?|(Hty & tab & y & s & H1 & H2 & H3 & H4 & Hs & H5)]]; [by left|by right; left|].
  right; right. split; [done|]. exists tab, y, s. repeat (split; [done|]). split; [|done].
  destruct Hs as [?|[?|(? & ? & n & h & ? & ?)]]; [by left|by right; left|right; right].
  do 2 (split; [done|]). exists n, h. split; [done|]. by apply Ht.
Qed.

Lemma applied_mono ctx t t' ps vs m m' : t ⊆ t' -> applied ctx t ps vs m m' -> applied ctx t' ps vs m m'.
Proof.
  intros Ht. induction 1; econstructor; eauto using rela_value_mono.
Qed.

Lemma applied_app ctx t ps1 vs1 ps2 vs2 m m1 m2 :
  applied ctx t ps1 vs1 m m1 -> applied ctx t ps2 vs2 m1 m2 ->
  applied ctx t (ps1 ++ ps2) (vs1 ++ vs2) m m2.
Proof. induction 1; simpl; [done|]. intros. econstructor; eauto. Qed.

Lemma resolve_external_spec pid name t a :
  exec (commonfps_resolve_external pid name) t a ->
  a = 0 \/ exists handle, Ev (DynlibSym pid handle name) a ∈ t.
Proof.
  unfold commonfps_resolve_external. destruct (bool_decide _); [by intros [_ ->]; left|].
  revert t. induction g_resolve_libraries as [|lib libs IH]; intros t; cbn [resolve_loop].
  { intros [_ ->]. by left. }
  intros ([rc h] & t1 & -> & He). cbn [bindp] in He. destruct (_ || _).
  { destruct (IH _ He) as [?|(h' & ?)]; [by left|right]. exists h'. by right. }
  destruct He as (r & t2 & -> & He). cbn [bindp] in He. destruct (negb (r =? 0)).
  { destruct He as [-> ->]. right. exists h. right. by left. }
  destruct (IH _ He) as [?|(h' & ?)]; [by left|right]. exists h'. by do 2 right.
Qed.

Lemma apply_rela_spec ctx tab rela m g t m' g' :
  exec (apply_rela ctx tab rela m g) t (Some (0, m', g')) ->
  exists v, rela_value ctx t (tab, rela) v /\ written (tab, rela) v m m'.
Proof.
  unfold apply_rela. destruct (Z.eqb_spec (u32 (r_info rela)) R_X86_64_RELATIVE) as [Er|Er].
  { intros [-> H]. destruct (store64 _ _ _) as [m1|] eqn:Es; [|done]. injection H as -> ->.
    eexists. split; [right; left; done|done]. }
  destruct (Z.eqb_spec (u32 (r_info rela)) R_X86_64_NONE) as [En|En].
  { intros [-> [= -> ->]]. exists None. split; [by left|done]. }
  destruct (_ && _) eqn:Et; [by intros [_ ?]|]. intros He.
  apply exec_bind in He as (t1 & t2 & [[gg|[s gg]]|] & -> & He & [-> Hr]); [done| |done].
  rewrite app_nil_r. destruct (store64 _ _ _) as [m1|] eqn:Es; [|done]. injection Hr as -> ->.
  exists (Some (s + r_addend rela)). split; [|done]. right; right. cbn [fst snd].
  split. { destruct (Z.eqb_spec (u32 (r_info rela)) R_X86_64_64); [by left|].
    destruct (Z.eqb_spec (u32 (r_info rela)) R_X86_64_GLOB_DAT); [by right|done]. }
  unfold symbol_value in He. destruct tab as [tab|]; [|by destruct He].
  destruct (Z.leb_spec (dynsym_count tab) (Z.shiftr (r_info rela) 32)); [by destruct He|].
  destruct (read_sym _ _) as [y|] eqn:Ey; [|by destruct He].
  destruct (Z.leb_spec (dynstr_size tab) (st_name y)); [by destruct He|].
  exists tab, y, s. repeat (split; [done|]). split; [|done]. unfold symbol_address.
  destruct (Z.eqb_spec (st_shndx y) SHN_ABS); [destruct He as [-> [= -> ->]]; by left|].
  destruct (Z.eqb_spec (st_shndx y) SHN_UNDEF); cbn [negb] in He.
  2: { destruct He as [-> [= -> ->]]. right; left. done. }
  destruct (cstring_at _ _) as [name|] eqn:Ec; [|by destruct He].
  apply exec_bind in He as (t2 & t3 & a & -> & He & [-> Ha]). rewrite app_nil_r.
  destruct (Z.eqb_spec a 0); [done|]. injection Ha as -> ->. right; right.
  split; [done|]. split; [done|]. apply resolve_external_spec in He as [?|(h & ?)]; [done|eauto].
Qed.

Lemma rela_loop_spec ctx tab relas m g t m' g' :
  exec (rela_loop ctx tab relas m g) t (Some (0, m', g')) ->
  exists vs, applied ctx t (map (pair tab) relas) vs m m'.
Proof.
  revert m g t. induction relas as [|rela relas IH]; intros m g t; cbn [rela_loop map].
  { intros [-> [= -> ->]]. exists []. constructor. }
  intros (t1 & t2 & r & -> & H1 & H2)%exec_bind. destruct r as [[[[|e|e] m1] g1]|]; try by destruct H2.
  apply apply_rela_spec in H1 as (v & Hv & Hw). apply IH in H2 as (vs & Hvs).
  exists (v :: vs). econstructor; [|exact Hw|].
  - eapply rela_value_mono; [|exact Hv]. intros ?. rewrite elem_of_app. by left.
  - eapply applied_mono; [|exact Hvs]. intros ?. rewrite elem_of_app. by right.
Qed.

Lemma section_loop_spec ctx shdr l m g t m' g' :
  exec (section_loop ctx shdr l m g) t (Some (0, m', g')) ->
  exists plan vs, relocation_plan (ctx_elf ctx) shdr l = Some plan /\ applied ctx t plan vs m m'.
Proof.
  revert m g t. induction l as [|s l IH]; intros m g t; cbn [section_loop relocation_plan].
  { intros [-> [= -> ->]]. exists [], []. split; [done|constructor]. }
  destruct (_ || _); [apply IH|]. destruct (read_table _ _ _ _ _) as [relas|]; [|by intros [_ ?]].
  intros (t1 & t2 & r & -> & H1 & H2)%exec_bind. destruct r as [[[[|e|e] m1] g1]|]; try by destruct H2.
  apply rela_loop_spec in H1 as (vs1 & H1). apply IH in H2 as (plan & vs2 & Hp & H2).
  cbn [mbind option_bind]. rewrite Hp. eexists _, (vs1 ++ vs2). split; [done|].
  eapply applied_app; (eapply applied_mono; [|eassumption]); intros ?; rewrite elem_of_app; tauto.
Qed.

(** The byte [i] lies in the place that the relocation writes. *)
Definition covers (p : Planned) (i : nat) : Prop :=
  r_offset (snd p) <= Z.of_nat i < r_offset (snd p) + 8.

Lemma store64_lookup off v m m' i :
  store64 off v m = Some m' ->
  m' !! i = if decide (off <= Z.of_nat i < off + 8)
            then le_encode 8 (u64 v) !! (i - Z.to_nat off)%nat else m !! i.
Proof.
  unfold store64. destruct (_ && _) eqn:E; [|done]. intros H. apply (inj Some) in H as <-.
  apply andb_true_iff in E as [E1%Z.leb_le E2%Z.leb_le].
  assert (Hlo : length (take (Z.to_nat off) m) = Z.to_nat off) by (rewrite length_take; lia).
  assert (Hle : length (le_encode 8 (u64 v)) = 8%nat) by apply length_le_encode.
  destruct (decide (off <= Z.of_nat i < off + 8)) as [H|H].
  - rewrite lookup_app_r, Hlo by lia. by rewrite lookup_app_l by (rewrite Hle; lia).
  - destruct (decide (Z.of_nat i < off)).
    + rewrite lookup_app_l by (rewrite Hlo; lia). by rewrite lookup_take_lt by lia.
    + rewrite lookup_app_r, Hlo by lia. rewrite lookup_app_r, Hle by (rewrite Hle; lia).
      rewrite lookup_drop. f_equal. lia.
Qed.

Lemma written_lookup p v m m' i :
  written p v m m' -> ~ covers p i -> m' !! i = m !! i.
Proof.
  destruct v as [w|]; simpl; [|by intros ->]. intros Hs Hc. rewrite (store64_lookup _ _ _ _ i Hs).
  by rewrite decide_False.
Qed.

Lemma applied_untouched ctx t ps vs m m' i :
  applied ctx t ps vs m m' -> (forall p, p ∈ ps -> ~ covers p i) -> m' !! i = m !! i.
Proof.
  induction 1 as [|p v m m1 ps vs m2 _ Hw _ IH]; intros Hc; [done|].
  rewrite IH by (intros q Hq; apply Hc; by right). eapply written_lookup; [exact Hw|]. apply Hc. by left.
Qed.

Lemma applied_last ctx t ps vs m m' k p w :
  applied ctx t ps vs m m' -> ps !! k = Some p -> vs !! k = Some (Some w) ->
  forall i, covers p i -> (forall j q, (k < j)%nat -> ps !! j = Some q -> ~ covers q i) ->
  m' !! i = le_encode 8 (u64 w) !! (i - Z.to_nat (r_offset (snd p)))%nat.
Proof.
  intros Ha. revert k. induction Ha as [|q v m m1 ps vs m2 _ Hw Ha IH]; intros k Hp Hv i Hi Hl; [done|].
  destruct k as [|k]; simpl in Hp, Hv.
  - injection Hp as ->. injection Hv as ->.
    rewrite (applied_untouched _ _ _ _ _ _ i Ha).
    + rewrite (store64_lookup _ _ _ _ i Hw). by rewrite decide_True.
    + intros q [j Hq]%list_elem_of_lookup. apply (Hl (S j) q); [lia|done].
  - apply (IH k); [done..|]. intros j q' Hj Hq. apply (Hl (S j) q'); [lia|done].
Qed.

Lemma applied_shape ctx t ps vs m m' :
  applied ctx t ps vs m m' -> Forall2 (rela_value ctx t) ps vs /\ length m' = length m.
Proof.
  induction 1 as [|p [w|] m m1 ps vs m2 Hr Hw _ [IH1 IH2]]; [done|..]; (split; [by constructor|]).
  - by rewrite IH2, (length_store64 _ _ _ _ Hw).
  - by rewrite IH2, Hw.
Qed.

(** ** Images that the loader reads inside of their bounds *)

Definition rela_ok (elf : list Z) (size : Z) (p : Planned) : bool :=
  let '(tab, rela) := p in
  let type := u32 (r_info rela) in
  let fits := (0 <=? r_offset rela) && (r_offset rela + 8 <=? size) in
  if type =? R_X86_64_RELATIVE then fits
  else if (type =? R_X86_64_64) || (type =? R_X86_64_GLOB_DAT) then
    match tab with
    | None => true
    | Some t =>
        let sym_index := Z.shiftr (r_info rela) 32 in
        if dynsym_count t <=? sym_index then true
        else match read_sym elf (dynsym t + 24 * sym_index) with
             | None => false
             | Some y =>
                 (dynstr_size t <=? st_name y) ||
                 (fits && (negb (st_shndx y =? SHN_UNDEF) ||
                    bool_decide (is_Some (cstring_at elf (dynstr t + st_name y)))))
             end
    end
  else true.

Definition image_ok (trunc_pg round_pg : Z -> Z) (elf : list Z) : bool :=
  match read_ehdr elf with
  | None => false
  | Some ehdr =>
      negb (elf_ident_ok ehdr) ||
      match l ← phdrs elf ehdr; ok ← validate_shared_renderer elf ehdr l; Some (l, ok) with
      | None => false
      | Some (_, false) => true
      | Some (l, true) =>
          match shdr ← shdrs elf ehdr; relocation_plan elf shdr shdr with
          | None => false
          | Some plan => forallb (rela_ok elf (base_size trunc_pg round_pg l)) plan
          end
      end
  end.

Lemma store64_fits off v m :
  (0 <=? off) && (off + 8 <=? Z.of_nat (length m)) = true -> is_Some (store64 off v m).
Proof. unfold store64. rewrite andb_comm. intros ->. by eexists. Qed.

Lemma apply_rela_defined ctx tab rela m g :
  rela_ok (ctx_elf ctx) (Z.of_nat (length m)) (tab, rela) = true ->
  returns (apply_rela ctx tab rela m g) (fun r => r <> None).
Proof.
  unfold rela_ok, apply_rela. destruct (u32 (r_info rela) =? R_X86_64_RELATIVE).
  { intros H. apply returns_ret. destruct (store64_fits _ (ctx_base_addr ctx + r_addend rela) _ H) as [m' ->].
    done. }
  destruct (Z.eqb_spec (u32 (r_info rela)) R_X86_64_NONE) as [En|En]; [by intros _; apply returns_ret|].
  destruct (u32 (r_info rela) =? R_X86_64_64); [|destruct (_ =? R_X86_64_GLOB_DAT);
    [|by intros _; apply returns_ret]]; cbn [negb andb orb]; intros H;
  (eapply (returns_bind _ _ (fun v => v <> None /\ (forall s g', v = Some (inr (s, g')) ->
     (0 <=? r_offset rela) && (r_offset rela + 8 <=? Z.of_nat (length m)) = true)));
   [|intros [[g'|[s g']]|] [Hv Hf]; apply returns_ret; [done| |done];
     destruct (store64_fits _ (s + r_addend rela) _ (Hf s g' eq_refl)) as [m' ->]; done]);
  unfold symbol_value; (destruct tab as [t|]; [|by apply returns_ret]);
  (destruct (_ <=? _); [by apply returns_ret|]); (destruct (read_sym _ _) as [y|]; [|done]);
  (destruct (dynstr_size t <=? st_name y); [by apply returns_ret|]); cbn [orb] in H;
  apply andb_true_iff in H as [Hfit H];
  (destruct (_ =? SHN_ABS); [by apply returns_ret|]);
  (destruct (_ =? SHN_UNDEF); cbn [negb orb] in *; [|by apply returns_ret]);
  apply bool_decide_eq_true in H as [name ->];
  (eapply returns_bind; [apply returns_any|]; intros a _; apply returns_ret; done).
Qed.

Lemma rela_loop_defined ctx tab relas m g :
  forallb (rela_ok (ctx_elf ctx) (Z.of_nat (length m))) (map (pair tab) relas) = true ->
  returns (rela_loop ctx tab relas m g) (fun r => r <> None).
Proof.
  revert m g. induction relas as [|rela relas IH]; intros m g; cbn [rela_loop map forallb];
    [by intros _; apply returns_ret|]. intros [H1 H2]%andb_true_iff.
  eapply (returns_bind _ _ (fun r => r <> None /\ kept m g r)).
  { intros t r He. split; [by eapply apply_rela_defined|by eapply apply_rela_kept]. }
  intros [[[[|e|e] m1] g1]|] [Hn Hk]; try by apply returns_ret. apply IH.
  destruct Hk as [-> _]. done.
Qed.

Lemma section_loop_defined ctx shdr l m g plan :
  relocation_plan (ctx_elf ctx) shdr l = Some plan ->
  forallb (rela_ok (ctx_elf ctx) (Z.of_nat (length m))) plan = true ->
  returns (section_loop ctx shdr l m g) (fun r => r <> None).
Proof.
  revert m g plan. induction l as [|s l IH]; intros m g plan; cbn [section_loop relocation_plan];
    [by intros _ _; apply returns_ret|].
  destruct (_ || _); [apply IH|]. destruct (read_table _ _ _ _ _) as [relas|]; [|done].
  cbn [mbind option_bind]. destruct (relocation_plan _ shdr l) as [more|] eqn:Em; [|done].
  intros [= <-]. rewrite forallb_app. intros [H1 H2]%andb_true_iff.
  eapply (returns_bind _ _ (fun r => r <> None /\ kept m g r)).
  { intros t r He. split; [by eapply rela_loop_defined|by eapply rela_loop_kept]. }
  intros [[[[|e|e] m1] g1]|] [Hn Hk]; try by apply returns_ret. eapply IH; [done|].
  destruct Hk as [-> _]. done.
Qed.

(** ** Theorems *)

(** C21: when relocating succeeds, every relocation of the image was applied: a byte that
    no relocation covers is unchanged, and the place of a relocation that no later one
    overlaps holds the value the ELF rules give - base plus addend, or the address of the
    symbol plus addend, where an undefined symbol was found, not null, in a library of the
    target. *)
Theorem relocations_applied ctx ehdr mirror g t mirror' g' :
  exec (commonfps_apply_relocations ctx ehdr mirror g) t (Some (0, mirror', g')) ->
  exists shdr plan values,
    shdrs (ctx_elf ctx) ehdr = Some shdr /\ relocation_plan (ctx_elf ctx) shdr shdr = Some plan /\
    Forall2 (rela_value ctx t) plan values /\ length mirror' = length mirror /\
    (forall i, (forall p, p ∈ plan -> ~ covers p i) -> mirror' !! i = mirror !! i) /\
    (forall k p w i, plan !! k = Some p -> values !! k = Some (Some w) -> covers p i ->
       (forall j q, (k < j)%nat -> plan !! j = Some q -> ~ covers q i) ->
       mirror' !! i = le_encode 8 (u64 w) !! (i - Z.to_nat (r_offset (snd p)))%nat).
Proof.
  unfold commonfps_apply_relocations. destruct (shdrs _ _) as [shdr|]; [|by intros [_ ?]]. intros He.
  apply section_loop_spec in He as (plan & vs & Hp & Ha). exists shdr, plan, vs.
  destruct (applied_shape _ _ _ _ _ _ Ha) as [H1 H2]. repeat (split; [done|]). split.
  - intros i. by eapply applied_untouched.
  - intros k p w i Hk Hv Hc Hl. by eapply applied_last.
Qed.


(** ** On the small renderer *)


Definition sample_ctx : Ctx := {| ctx_elf := sample_elf; ctx_pid := 9; ctx_base_addr := 0x10000000 |}.
Definition sample_header : Ehdr := {|
  e_ident := slice 0 16 sample_elf; e_type := 3; e_machine := 62; e_entry := 64; e_phoff := 64;
  e_shoff := 120; e_phentsize := 56; e_phnum := 1; e_shnum := 3 |}.
Definition sample_relocated :=
  run sample_target (commonfps_apply_relocations sample_ctx sample_header (repeat 0 512) Trace_init) tt.
Definition sample_copy : list Z * Trace :=
  match sample_relocated.1.1 with Some (_, m, g) => (m, g) | None => ([], Trace_init) end.

Lemma sample_relocated_result : sample_relocated.1.1 = Some (0, sample_copy.1, sample_copy.2).
Proof. vm_compute. reflexivity. Qed.

Example sample_copy_values :
  field 424 8 sample_copy.1 = 0x10000040 /\ field 432 8 sample_copy.1 = 0x5004 /\
  g_import_resolved sample_copy.2 = 1.
Proof. vm_compute. done. Qed.

Lemma sample_relocated_exec :
  exec (commonfps_apply_relocations sample_ctx sample_header (repeat 0 512) Trace_init)
    sample_relocated.2 (Some (0, sample_copy.1, sample_copy.2)).
Proof. rewrite <- sample_relocated_result. unfold sample_relocated. apply run_exec. Qed.

Lemma relocations_applied_witness :
  exists shdr plan values,
    shdrs sample_elf sample_header = Some shdr /\ relocation_plan sample_elf shdr shdr = Some plan /\
    Forall2 (rela_value sample_ctx sample_relocated.2) plan values.
Proof.
  destruct (relocations_applied _ _ _ _ _ _ _ sample_relocated_exec)
    as (shdr & plan & values & H1 & H2 & H3 & _).
  exists shdr, plan, values. split; [exact H1|]. split; [exact H2|exact H3].
Defined.
