(* ===== verification/Injection.v ===== *)
(** The injection of the renderer into ShellUI: [inject_shellui_stable] of
    [src/ps5/stable_shellui_injector.cpp], with the loader ([ElfBridge]) and the remote call
    ([Remote]).  The bytes of the stager, which the compiler produces, are a parameter; what
    they do is [commonfps_stable_stager]. *)
From S2P Require Import Prelude Effects Debugger Remote ElfBridge ElfLoad.

Definition kPthreadCreateSkippedRc : Z := -778.

(** [src/ps5/stable_shellui_injector.hpp] *)
Inductive StableInjectionMode := StartRendererThread | ExerciseStagerWithoutThread.

Record StableInjectionResult := {
  auth_changed : bool; auth_restored : bool; attached : bool; elf_loaded : bool;
  payload_args_ready : bool; remote_stager_ready : bool; remote_functions_ready : bool;
  target_stack_preserved : bool; bootstrap_started : bool; thread_start_requested : bool;
  pthread_create_ok : bool; detached : bool; trace : Trace; pthread_create_rc : Z
}.

(** What the body between attach and detach has set when it breaks off. *)
Record Body := {
  b_loaded : bool; b_args : bool; b_stager : bool; b_functions : bool; b_stack : bool;
  b_started : bool; b_created : bool; b_rc : Z; b_trace : Trace
}.
Definition body_at (loaded args stager functions : bool) (g : Trace) : Body := {|
  b_loaded := loaded; b_args := args; b_stager := stager; b_functions := functions;
  b_stack := false; b_started := false; b_created := false; b_rc := -1; b_trace := g |}.

(** ** The bootstrap structure, [sizeof] 0x28 *)

Definition kNotRun : Z := -777.
Definition bootstrap_bytes (elf_main payload_args pthread_create_fn start_thread : Z) : list Z :=
  le_encode 8 0 ++ le_encode 8 (u64 elf_main) ++ le_encode 8 (u64 payload_args) ++
  le_encode 8 (u64 pthread_create_fn) ++ le_encode 4 (u32 kNotRun) ++ le_encode 4 (u32 start_thread).
Definition bootstrap_rc (functions : list Z) : Z := i32 (field 32 4 functions).

(** [commonfps_stable_stager] on the structure in the target; [create fn entry args] is the
    target's [pthread_create]. *)
Definition commonfps_stable_stager (create : Z -> Z -> Z -> Z) (functions : list Z) : list Z :=
  let rc := if negb (field 36 4 functions =? 0)
            then create (field 24 8 functions) (field 8 8 functions) (field 16 8 functions)
            else kPthreadCreateSkippedRc in
  take 32 functions ++ le_encode 4 (u32 rc) ++ drop 36 functions.

Section Programs.
Local Open Scope prog_scope.
Variables trunc_pg round_pg pflags : Z -> Z.
(** The code between [commonfps_stable_stager] and [commonfps_stable_stager_end]. *)
Variable stager : list Z.

Definition stager_size : Z := Z.of_nat (length stager).

Definition resolve_remote (pid : Z) (symbol : string) : pprog Z :=
  let* nid := pc (NidEncode symbol) in
  match nid with
  | None => Ret 0
  | Some nid => let* address := pc (PtResolve pid nid) in Ret (u64 address)
  end.

(** The call of the stager and what it left in the structure. *)
Definition run_stager (pid remote_stager remote_functions : Z) (start : bool) (g : Trace)
    : pprog (option Body) :=
  let* _ := call_until_breakpoint_on_target_stack pid remote_stager [remote_functions] in
  let* (rc, bytes) := pc (Copyout pid remote_functions 40) in
  let readback := bootstrap_rc (buffer 40 bytes) in
  let ran := (rc =? 0) && negb (readback =? kNotRun) in
  Ret (Some {| b_loaded := true; b_args := true; b_stager := true; b_functions := true;
               b_stack := true; b_started := ran; b_created := ran && start && (readback =? 0);
               b_rc := if ran then readback else -1; b_trace := g |}).

(** From the loaded image on. *)
Definition bootstrap_body (pid pthread_create entry : Z) (start : bool) (g : Trace)
    : pprog (option Body) :=
  let* payload_args := pc (PayloadArgs pid) in
  if payload_args <=? 0 then Ret (Some (body_at true false false false g))
  else if stager_size =? 0 then Ret (Some (body_at true true false false g))
  else
    let* remote_stager := pc (Mmap pid stager_size (Z.lor PROT_READ PROT_WRITE)) in
    if remote_stager <=? 0 then Ret (Some (body_at true true false false g))
    else
      let* rc := pc (KernelMprotect pid remote_stager stager_size
                       (Z.lor (Z.lor PROT_READ PROT_WRITE) PROT_EXEC)) in
      if negb (rc =? 0) then Ret (Some (body_at true true false false g))
      else
        let* rc := pc (Copyin pid stager remote_stager) in
        if negb (rc =? 0) then Ret (Some (body_at true true false false g))
        else
          let functions := bootstrap_bytes entry payload_args pthread_create (if start then 1 else 0) in
          let* remote_functions := pc (Mmap pid 40 (Z.lor PROT_READ PROT_WRITE)) in
          if remote_functions <=? 0 then Ret (Some (body_at true true true false g))
          else
            let* rc := pc (Copyin pid functions remote_functions) in
            if negb (rc =? 0) then Ret (Some (body_at true true true false g))
            else run_stager pid remote_stager remote_functions start g.

(** The [do { } while (false)] of the attached session. *)
Definition attached_body (pid : Z) (elf : list Z) (start : bool) (g0 : Trace) : pprog (option Body) :=
  let* pthread_create := resolve_remote pid "pthread_create" in
  if pthread_create =? 0 then Ret (Some (body_at false false false false g0))
  else
    let* loaded := commonfps_stable_elfldr_load trunc_pg round_pg pflags pid elf in
    match loaded with
    | None => Ret None
    | Some (entry, g) =>
        if entry <=? 0 then Ret (Some (body_at false false false false g))
        else bootstrap_body pid pthread_create entry start g
    end.

Definition result_of (changed restored attach start detach : bool) (b : Body)
    : StableInjectionResult := {|
  auth_changed := changed; auth_restored := restored; attached := attach;
  elf_loaded := b_loaded b; payload_args_ready := b_args b; remote_stager_ready := b_stager b;
  remote_functions_ready := b_functions b; target_stack_preserved := b_stack b;
  bootstrap_started := b_started b; thread_start_requested := start;
  pthread_create_ok := b_created b; detached := detach; trace := b_trace b;
  pthread_create_rc := b_rc b |}.

(** [None]: the loader read outside of the image. *)
Definition inject_shellui_stable (pid : Z) (elf : list Z) (mode : StableInjectionMode)
    : pprog (option StableInjectionResult) :=
  let start := match mode with StartRendererThread => true | _ => false end in
  let none := body_at false false false false Trace_init in
  if (pid <=? 0) || (length elf <? 64)%nat then
    Ret (Some (result_of false false false start false none))
  else
    let* original := pc GetAuthid in
    if original =? 0 then Ret (Some (result_of false false false start false none))
    else
      let* rc := pc (SetAuthid kPtraceAuthId) in
      if negb (rc =? 0) then Ret (Some (result_of false false false start false none))
      else
        let* rc := pc (Attach pid) in
        let* session := (if rc =? 0 then
            let* body := attached_body pid elf start Trace_init in
            match body with
            | None => Ret None
            | Some b =>
                let* rc := pc (Detach pid) in
                let* _ := pc (SigCont pid) in
                Ret (Some (true, rc =? 0, b))
            end
          else Ret (Some (false, false, none))) in
        match session with
        | None => Ret None
        | Some (attach, detach, b) =>
            let* rc := pc (SetAuthid original) in
            let* restored := (if rc =? 0 then
                                let* now := pc GetAuthid in Ret (now =? original)
                              else Ret false) in
            Ret (Some (result_of true restored attach start detach b))
        end.
End Programs.

(** ** The structure *)

Lemma bootstrap_fields l0 l1 l2 l3 l4 l5 :
  length l0 = 8%nat -> length l1 = 8%nat -> length l2 = 8%nat -> length l3 = 8%nat ->
  length l4 = 4%nat -> length l5 = 4%nat ->
  let l := l0 ++ l1 ++ l2 ++ l3 ++ l4 ++ l5 in
  field 8 8 l = le_decode l1 /\ field 16 8 l = le_decode l2 /\ field 24 8 l = le_decode l3 /\
  field 32 4 l = le_decode l4 /\ field 36 4 l = le_decode l5 /\
  take 32 l = l0 ++ l1 ++ l2 ++ l3 /\ drop 36 l = l5.
Proof.
  intros H0 H1 H2 H3 H4 H5 l. unfold l. clear l. split; [by apply field_at|].
  split. { rewrite (app_assoc l0 l1). apply field_at; [rewrite length_app; lia|done]. }
  split. { rewrite (app_assoc l0 l1), (app_assoc _ l2).
    apply field_at; [rewrite !length_app; lia|done]. }
  split. { rewrite (app_assoc l0 l1), (app_assoc _ l2), (app_assoc _ l3).
    apply field_at; [rewrite !length_app; lia|done]. }
  split. { rewrite (app_assoc l0 l1), (app_assoc _ l2), (app_assoc _ l3), (app_assoc _ l4),
             <- (app_nil_r l5) at 1. apply field_at; [rewrite !length_app; lia|done]. }
  rewrite (app_assoc l2 l3), (app_assoc l1), (app_assoc l0). split.
  - rewrite take_app_length'; [done|]. rewrite !length_app. lia.
  - rewrite (app_assoc _ l4). rewrite drop_app_length'; [done|]. rewrite !length_app. lia.
Qed.

Lemma u64_decode z : in_u 64 z -> le_decode (le_encode 8 (u64 z)) = z.
Proof. intros H. rewrite wrap_small by done. by apply le_decode_encode. Qed.

(** The structure written for the stager carries the entry point, the arguments and
    the thread function to it, and the code that the stager leaves in it is the answer of
    the target's [pthread_create] to exactly these, or the code for a skipped thread. *)
Theorem bootstrap_handshake create entry args fn (start : bool) :
  in_u 64 entry -> in_u 64 args -> in_u 64 fn -> in_i 32 (create fn entry args) ->
  bootstrap_rc (commonfps_stable_stager create (bootstrap_bytes entry args fn (if start then 1 else 0)))
  = if start then create fn entry args else kPthreadCreateSkippedRc.
Proof.
  intros He Ha Hf Hc. unfold commonfps_stable_stager, bootstrap_bytes, bootstrap_rc.
  destruct (bootstrap_fields (le_encode 8 0) (le_encode 8 (u64 entry)) (le_encode 8 (u64 args))
    (le_encode 8 (u64 fn)) (le_encode 4 (u32 kNotRun)) (le_encode 4 (u32 (if start then 1 else 0)))
    (length_le_encode _ _) (length_le_encode _ _) (length_le_encode _ _) (length_le_encode _ _)
    (length_le_encode _ _) (length_le_encode _ _)) as (F1 & F2 & F3 & _ & F5 & Ft & Fd).
  rewrite F1, F2, F3, F5, Ft, Fd, !u64_decode by done. rewrite <- !app_assoc.
  set (rc := if negb (le_decode (le_encode 4 (u32 (if start then 1 else 0))) =? 0)
             then create fn entry args else kPthreadCreateSkippedRc).
  destruct (bootstrap_fields (le_encode 8 0) (le_encode 8 (u64 entry)) (le_encode 8 (u64 args))
    (le_encode 8 (u64 fn)) (le_encode 4 (u32 rc)) (le_encode 4 (u32 (if start then 1 else 0)))
    (length_le_encode _ _) (length_le_encode _ _) (length_le_encode _ _) (length_le_encode _ _)
    (length_le_encode _ _) (length_le_encode _ _)) as (_ & _ & _ & -> & _).
  rewrite le_decode_encode by (apply (wrap_range 32); lia).
  assert (Hrc : rc = if start then create fn entry args else kPthreadCreateSkippedRc).
  { unfold rc. by destruct start. }
  rewrite Hrc. apply swrap_wrap_id. by destruct start.
Qed.

(** ** The session *)
Section Session.
Context (trunc_pg round_pg pflags : Z -> Z) (stager : list Z) (pid o : Z).

Lemma held_keep c (k : pret c -> pprog (option Body)) st sv maps Q :
  (forall r, target_step pid (held o st sv maps) (Ev c r) = Some (held o st sv maps)) ->
  (forall r, wp (target_step pid) (k r) (held o st sv maps) Q) ->
  wp (target_step pid) (Call c k) (held o st sv maps) Q.
Proof. intros Hs Hk r. rewrite Hs. apply Hk. Qed.

(** The session ends attached, with the target's own registers. *)
Definition session_end (Q : option Body -> list (Z * Z) -> Prop) (r : option Body) (m : Target) : Prop :=
  r = None \/ exists st sv maps, m = held o st sv maps /\ Q r maps.

Lemma wp_bootstrap pthread_create entry start g sv maps (Q : option Body -> list (Z * Z) -> Prop) :
  (forall b maps', b_loaded b = true -> b_trace b = g ->
     (b_created b = true -> start = true /\ b_rc b = 0 /\ b_started b = true /\ b_args b = true /\
        b_stager b = true /\ b_functions b = true) ->
     Q (Some b) maps') ->
  wp (target_step pid) (bootstrap_body stager pid pthread_create entry start g)
    (held o true sv maps) (session_end Q).
Proof.
  intros HQ. unfold bootstrap_body.
  assert (Hend : forall a s f st sv' maps', session_end Q (Some (body_at true a s f g)) (held o st sv' maps')).
  { intros a s f st sv' maps'. right. exists st, sv', maps'. split; [done|]. by apply HQ. }
  intros args. cbn [target_step bindp]. rewrite held_stop. cbn [accept].
  destruct (args <=? 0); [apply Hend|]. destruct (stager_size stager =? 0); [apply Hend|].
  intros a. cbn [target_step bindp]. rewrite held_stop. cbn [accept tg_maps held].
  destruct (Z.leb_spec a 0) as [Ha|Ha].
  { destruct (a =? -1); apply Hend. }
  rewrite (proj2 (Z.eqb_neq a (-1))) by lia.
  change (with_maps _ _) with (held o true sv ((a, stager_size stager) :: maps)).
  intros rc. cbn [target_step bindp]. rewrite held_stop. cbn [accept].
  destruct (negb (rc =? 0)); [apply Hend|].
  intros rc2. cbn [target_step bindp]. rewrite held_stop. unfold stager_size. rewrite mapped_head.
  cbn [accept andb]. destruct (negb (rc2 =? 0)); [apply Hend|].
  intros f. cbn [target_step bindp]. rewrite held_stop. cbn [accept tg_maps held].
  destruct (Z.leb_spec f 0) as [Hf|Hf].
  { destruct (f =? -1); apply Hend. }
  rewrite (proj2 (Z.eqb_neq f (-1))) by lia.
  change (with_maps _ _) with (held o true sv ((f, 40) :: (a, Z.of_nat (length stager)) :: maps)).
  intros rc3. cbn [target_step bindp]. rewrite held_stop.
  change (Z.of_nat (length (bootstrap_bytes entry args pthread_create (if start then 1 else 0)))) with 40.
  rewrite mapped_head. cbn [accept andb]. destruct (negb (rc3 =? 0)); [apply Hend|].
  unfold run_stager. apply wp_bind, wp_remote_call. intros r st sv'.
  intros [rc4 bytes]. cbn [target_step bindp]. rewrite held_session. cbn [accept wp].
  right. eexists st, sv', _. split; [reflexivity|]. apply HQ; [done|done|]. cbn.
  destruct (rc4 =? 0); cbn [andb]; [|done].
  destruct (bootstrap_rc (buffer 40 bytes) =? kNotRun); cbn [negb andb]; [done|].
  destruct start; cbn [andb]; [|done]. intros ->%Z.eqb_eq. done.
Qed.

(** What the result says of the loaded image. *)
Definition body_ok (elf : list Z) (start : bool) (r : option Body) (maps : list (Z * Z)) : Prop :=
  match r with
  | None => True
  | Some b =>
      (b_loaded b = false -> maps = [] \/ exists ehdr base size, read_ehdr elf = Some ehdr /\
         maps = [(base, size)] /\ swrap 64 (base + e_entry ehdr) <= 0) /\
      (b_loaded b = true -> flags (b_trace b) = (true, true) /\ exists ehdr l,
         read_ehdr elf = Some ehdr /\ phdrs elf ehdr = Some l /\
         validate_shared_renderer elf ehdr l = Some true) /\
      (b_created b = true -> start = true /\ b_rc b = 0 /\ b_loaded b = true /\ b_started b = true /\
         b_args b = true /\ b_stager b = true /\ b_functions b = true)
  end.

Lemma wp_attached_body elf start g :
  wp (target_step pid) (attached_body trunc_pg round_pg pflags stager pid elf start g)
    (held o true None []) (session_end (body_ok elf start)).
Proof.
  unfold attached_body, resolve_remote.
  assert (Hno : forall g', session_end (body_ok elf start) (Some (body_at false false false false g'))
    (held o true None [])).
  { intros g'. right. exists true, None, []. split; [done|]. split; [by left|done]. }
  assert (Hload : forall fn, wp (target_step pid)
    (if fn =? 0 then Ret (Some (body_at false false false false g))
     else bindp (commonfps_stable_elfldr_load trunc_pg round_pg pflags pid elf) (fun loaded =>
       match loaded with
       | None => Ret None
       | Some (entry, g) =>
           if entry <=? 0 then Ret (Some (body_at false false false false g))
           else bootstrap_body stager pid fn entry start g
       end)) (held o true None []) (session_end (body_ok elf start))).
  { intros fn. destruct (fn =? 0); [apply Hno|]. apply wp_bind.
    eapply wp_mono; [|apply wp_load]. intros [[entry g']|] m Hr; cbn [loaded_or_not] in Hr.
    2: { by left. }
    destruct Hr as [(-> & st & ->)|(ehdr & l & base & Hh & Hl & Hi & Hv & -> & Hg & ->)].
    - cbn. right. exists st, None, []. split; [done|]. split; [by left|done].
    - destruct (Z.leb_spec (swrap 64 (base + e_entry ehdr)) 0) as [Hle|Hgt].
      + right. eexists true, None, _. split; [done|]. split; [|done]. intros _. right.
        exists ehdr, base, (base_size trunc_pg round_pg l). done.
      + apply wp_bootstrap. intros b maps' Hb Ht Hc. split; [by rewrite Hb|]. rewrite Hb, Ht.
        split; [|by intros (? & ? & ? & ? & ? & ?)%Hc]. intros _. split; [done|]. by exists ehdr, l. }
  intros [nid|]; cbn [target_step bindp]; [|apply (Hload 0)].
  intros a. cbn [target_step bindp]. rewrite held_session. cbn [accept]. apply Hload.
Qed.

(** The state of the target after the function has returned. *)
Definition injection_end (elf : list Z) (r : option StableInjectionResult) (m : Target) : Prop :=
  match r with
  | None => True
  | Some r =>
      tg_auth m = (if auth_changed r then Returned else Own) /\
      tg_session m = (if attached r then Resumed else NotAttached) /\ tg_changed m = false /\
      (auth_restored r = true -> auth_changed r = true) /\
      exists b start, body_ok elf start (Some b) (tg_maps m) /\
        elf_loaded r = b_loaded b /\ payload_args_ready r = b_args b /\
        remote_stager_ready r = b_stager b /\ remote_functions_ready r = b_functions b /\
        bootstrap_started r = b_started b /\ pthread_create_ok r = b_created b /\
        pthread_create_rc r = b_rc b /\ trace r = b_trace b /\ thread_start_requested r = start
  end.
End Session.

Lemma wp_inject trunc_pg round_pg pflags stager pid elf mode :
  wp (target_step pid) (inject_shellui_stable trunc_pg round_pg pflags stager pid elf mode)
    Target_init (injection_end elf).
Proof.
  unfold inject_shellui_stable.
  set (start := match mode with StartRendererThread => true | ExerciseStagerWithoutThread => false end).
  assert (Hend : forall m (a restored attach detach : bool) b,
    tg_auth m = (if a then Returned else Own) -> (restored = true -> a = true) ->
    tg_session m = (if attach then Resumed else NotAttached) -> tg_changed m = false ->
    body_ok elf start (Some b) (tg_maps m) ->
    injection_end elf (Some (result_of a restored attach start detach b)) m).
  { intros m a restored attach detach b H1 H2 H3 H4 H5. repeat (split; [done|]). exists b, start. done. }
  assert (Hnone : body_ok elf start (Some (body_at false false false false Trace_init)) [])
    by (split; [by left|done]).
  destruct (_ || _); [by apply Hend|].
  intros original. cbn [target_step bindp]. destruct (Z.eqb_spec original 0) as [|Ho]; [by apply Hend|].
  intros rc. cbn [target_step bindp]. cbn [with_original tg_original tg_auth tg_session Target_init].
  rewrite (proj2 (Z.eqb_neq original 0)) by done. rewrite Z.eqb_refl, bool_decide_true by done.
  cbn [negb andb accept]. destruct (rc =? 0); cbn [negb]; [|by apply Hend].
  intros rc2. cbn [target_step bindp]. cbn [with_auth with_original tg_original tg_auth tg_session Target_init].
  rewrite Z.eqb_refl, !bool_decide_true by done. cbn [andb accept].
  (* the way back to the original authority *)
  assert (Hback : forall m (attach detach : bool) b,
    tg_original m = Some original -> tg_auth m = DebuggerAuth ->
    tg_session m = (if attach then Resumed else NotAttached) -> tg_changed m = false ->
    body_ok elf start (Some b) (tg_maps m) ->
    wp (target_step pid)
      (bindp (pc (SetAuthid original)) (fun rc =>
         bindp (if rc =? 0 then bindp (pc GetAuthid) (fun now => Ret (now =? original)) else Ret false)
           (fun restored => Ret (Some (result_of true restored attach start detach b)))))
      m (injection_end elf)).
  { intros m attach detach b H1 H2 H3 H4 H5 rc3. cbn [target_step bindp]. rewrite H1, H2, Z.eqb_refl.
    rewrite bool_decide_true by (rewrite H3; destruct attach; [by right|by left]). cbn [andb accept].
    destruct (rc3 =? 0); cbn [bindp].
    - intros now. cbn [target_step bindp wp]. by apply Hend.
    - by apply Hend. }
  destruct (rc2 =? 0).
  2: { cbn [bindp]. by apply (Hback (with_auth DebuggerAuth _) false). }
  apply wp_bind, wp_bind. change (with_session Attached true _) with (held original true None []).
  eapply wp_mono; [|apply wp_attached_body]. intros body m [->|(st & sv & maps & -> & Hb)]; [done|].
  destruct body as [b|]; [|done].
  intros rc3. cbn [target_step bindp]. rewrite held_session. cbn [tg_changed held negb andb accept].
  intros rc4. cbn [target_step bindp tg_session with_session]. rewrite Z.eqb_refl, bool_decide_true by done.
  cbn [andb accept wp]. by apply (Hback _ true).
Qed.

(** ** Theorems *)


(** ** Injecting the small renderer *)

Definition sample_stager : list Z := [0xcc; 0xc3].
Definition sample_injection :=
  run sample_target
    (inject_shellui_stable sample_trunc sample_round id sample_stager 9 sample_elf StartRendererThread) tt.
Definition sample_outcome : StableInjectionResult :=
  match sample_injection.1.1 with
  | Some r => r
  | None => result_of false false false false false (body_at false false false false Trace_init)
  end.

Lemma sample_outcome_eq : sample_injection.1.1 = Some sample_outcome.
Proof. vm_compute. reflexivity. Qed.

Example sample_outcome_created : pthread_create_ok sample_outcome = true.
Proof. vm_compute. reflexivity. Qed.

Lemma sample_injection_exec :
  exec (inject_shellui_stable sample_trunc sample_round id sample_stager 9 sample_elf StartRendererThread)
    sample_injection.2 (Some sample_outcome).
Proof. rewrite <- sample_outcome_eq. unfold sample_injection. apply run_exec. Qed.

Lemma sample_elf_bytes : bytes_ok sample_elf.
Proof. vm_compute. repeat constructor; discriminate. Qed.

Lemma sample_injection_maps : forallb user_mapping sample_injection.2 = true.
Proof. vm_compute. reflexivity. Qed.

Lemma sample_elf_entry ehdr : read_ehdr sample_elf = Some ehdr -> e_entry ehdr < 2 ^ 47.
Proof.
  intros H.
  assert (Hb : match read_ehdr sample_elf with Some h => e_entry h <? 2 ^ 47 | None => true end = true)
    by (vm_compute; reflexivity).
  rewrite H in Hb. by apply Z.ltb_lt.
Qed.


Lemma bootstrap_handshake_witness :
  bootstrap_rc (commonfps_stable_stager (fun fn entry args => fn - entry - args)
    (bootstrap_bytes 0x100 0x200 0x400 1)) = 0x100.
Proof.
  apply (bootstrap_handshake (fun fn entry args => fn - entry - args) 0x100 0x200 0x400 true);
    unfold in_u, in_i; vm_compute; split; (discriminate || reflexivity).
Defined.
