(* ===== verification/Injector.v ===== *)
(** Starting the renderer: [ensure_shellui_renderer] of [src/ps5/shellui_injector.cpp] as
    it is built for release (no diagnostic macro defined).  The function is called once per
    round of the main loop and keeps its state in static variables; the injection itself
    ([Injection]), the hook controller's poll ([HookController]) and the process lookup
    ([ProcRecords]) are calls here.  Log lines are left out. *)
From S2P Require Import Prelude Effects Text Debugger KernelCalls ProcRecords ElfBridge Injection.

Inductive ecall :=
| EKernel (c : kcall)            (** the calls of the record walk *)
| EFindByName                    (** [find_proc_by_name("SceShellUI")] *)
| EReadMarker                    (** the contents of the marker file, when it can be opened *)
| EClearFiles                    (** the hook protocol files and the stage file *)
| EInject (pid : Z)
| EPollHook (pid : Z)
| EUsleep (us : Z).

Definition eret (c : ecall) : Type :=
  match c with
  | EKernel c => kret c
  | EFindByName => option Z
  | EReadMarker => option text
  | EInject _ => StableInjectionResult
  | _ => unit
  end.

Abbreviation eprog := (prog eret).
Definition ec (c : ecall) : eprog (eret c) := call c.
Definition ek (c : kcall) : eprog (kret c) := ec (EKernel c).

(** [fscanf("%d")]: blanks, a sign, digits; [None] when there is no number. *)
Definition scan_int (s : text) : option Z :=
  let s0 := drop_while isspace s in
  let '(neg, s1) := match s0 with
                    | c :: r => if code c =? 45 then (true, r)
                                else if code c =? 43 then (false, r) else (false, s0)
                    | [] => (false, s0)
                    end in
  match take_while isdigit s1 with
  | [] => None
  | ds => let v := digits_val 10 ds 0 in Some (i32 (if neg then - v else v))
  end.

(** The static variables. *)
Record Ensure := {
  attempted_pid : Z; attempted_result : bool; retry_allowed : bool; retry_delay_ticks : Z;
  discovery_failures : Z; renderer_quarantined : bool; g_last_shellui_pid : Z
}.
Definition Ensure_init : Ensure := {|
  attempted_pid := -1; attempted_result := false; retry_allowed := true; retry_delay_ticks := 0;
  discovery_failures := 0; renderer_quarantined := false; g_last_shellui_pid := -1 |}.

Definition set_try (pid : Z) (result allowed : bool) (ticks : Z) (quarantined : bool) (s : Ensure)
    : Ensure := {|
  attempted_pid := pid; attempted_result := result; retry_allowed := allowed;
  retry_delay_ticks := ticks; discovery_failures := discovery_failures s;
  renderer_quarantined := quarantined; g_last_shellui_pid := g_last_shellui_pid s |}.
Definition set_found (pid failures : Z) (s : Ensure) : Ensure := {|
  attempted_pid := attempted_pid s; attempted_result := attempted_result s;
  retry_allowed := retry_allowed s; retry_delay_ticks := retry_delay_ticks s;
  discovery_failures := failures; renderer_quarantined := renderer_quarantined s;
  g_last_shellui_pid := pid |}.

Definition kMarkerAttempts : nat := 3500.

Section Programs.
Local Open Scope prog_scope.

(** The record walk of [find_shellui_pid]; [None]: a read outside of the buffer. *)
Definition find_by_records : eprog (option Z) :=
  let* (size_query_rc, required) := ek SysctlProcSize in
  if (size_query_rc =? 0) && negb (required =? 0) then
    let capacity := lookup_capacity required in
    let* allocated := ek (Calloc capacity) in
    if allocated : bool then
      let* (data_query_rc, bytes, data) := ek (SysctlProc capacity) in
      if data_query_rc =? 0 then
        let* self := ek Getpid in
        Ret (wk_pid <$> walk_injector self (buffer (Z.to_nat bytes) data))
      else Ret (Some (-1))
    else Ret (Some (-1))
  else Ret (Some (-1)).

(** [find_shellui_pid().pid]: the record walk, then the kernel's list as a fallback. *)
Definition find_shellui_pid : eprog Z :=
  let* walked_pid := find_by_records in
  let pid := default (-1) walked_pid in
  if 0 <? pid then Ret pid
  else let* p := ec EFindByName in Ret (match p with Some q => q | None => pid end).

Definition marker_matches (pid : Z) : eprog bool :=
  let* contents := ec EReadMarker in
  Ret (match contents with
       | None => false
       | Some s => match scan_int s with Some marked_pid => marked_pid =? pid | None => false end
       end).

(** Waiting for the marker: [inl] the renderer is online, [inr] quarantine.  Round [i] of
    [kMarkerAttempts]. *)
Fixpoint marker_loop (n : nat) (i pid : Z) : eprog bool :=
  match n with
  | O => Ret false
  | S n' =>
      let* online := marker_matches pid in
      if online then Ret true
      else
        let* changed := (if negb (i =? 0) && (i mod 50 =? 0) then
                           let* observed_pid := find_shellui_pid in
                           Ret ((0 <? observed_pid) && negb (observed_pid =? pid))
                         else Ret false) in
        if changed : bool then Ret false
        else
          let* _ := ec (EPollHook pid) in
          let* _ := ec (EUsleep 20000) in
          marker_loop n' (i + 1) pid
  end.

(** One injection into [pid] and the wait for the renderer. *)
Definition start_renderer (pid : Z) (s : Ensure) : eprog (bool * Ensure) :=
  let* _ := ec EClearFiles in
  let* injected := ec (EInject pid) in
  if negb (pthread_create_ok injected) || negb (auth_restored injected) then
    let allowed := negb (elf_loaded injected) in
    Ret (false, set_try pid false allowed (if allowed then 5 else 0) false s)
  else
    let* online := marker_loop kMarkerAttempts 0 pid in
    Ret (if online : bool then (true, set_try pid true (retry_allowed s) (retry_delay_ticks s) false s)
         else (false, set_try pid false false (retry_delay_ticks s) true s)).

Definition ensure_shellui_renderer (s : Ensure) : eprog (bool * Ensure) :=
  if renderer_quarantined s then Ret (false, s)
  else
    let* found := find_shellui_pid in
    if found <=? 0 then
      Ret (false, set_found (g_last_shellui_pid s) (u32 (discovery_failures s + 1)) s)
    else
      let s := set_found found 0 s in
      let* online := marker_matches found in
      if online : bool then Ret (true, s)
      else if negb (attempted_pid s =? found) then
        start_renderer found (set_try found false true 0 false s)
      else if attempted_result s then Ret (true, s)
      else if negb (retry_allowed s) then Ret (false, s)
      else if negb (retry_delay_ticks s =? 0) then
        Ret (false, set_try (attempted_pid s) (attempted_result s) (retry_allowed s)
                      (retry_delay_ticks s - 1) false s)
      else start_renderer found (set_try found false (retry_allowed s) 0 false s).

(** The calls of the main loop, [n] of them. *)
Fixpoint ensure_rounds (n : nat) (s : Ensure) : eprog (list bool * Ensure) :=
  match n with
  | O => Ret ([], s)
  | S n' =>
      let* (ok, s1) := ensure_shellui_renderer s in
      let* (oks, s2) := ensure_rounds n' s1 in
      Ret (ok :: oks, s2)
  end.
End Programs.

(** ** What may be injected

    The monitor follows the images.  [im_data]: the records read last; [im_pid]: the
    process that was looked up last; [im_loaded]: an image was committed to it; [im_wait]:
    a started renderer has not reported yet, and for how many waits; [im_dead]: a started
    renderer did not report, or its ShellUI was replaced - nothing is injected any more. *)
Record Images := {
  im_data : list Z; im_pid : Z; im_loaded : bool; im_wait : option nat; im_dead : bool
}.
Definition Images_init : Images :=
  {| im_data := []; im_pid := -1; im_loaded := false; im_wait := None; im_dead := false |}.

Definition with_data (l : list Z) (m : Images) : Images :=
  {| im_data := l; im_pid := im_pid m; im_loaded := im_loaded m; im_wait := im_wait m;
     im_dead := im_dead m |}.
Definition with_wait (w : option nat) (dead : bool) (m : Images) : Images :=
  {| im_data := im_data m; im_pid := im_pid m; im_loaded := im_loaded m; im_wait := w;
     im_dead := dead |}.

(** A ShellUI was observed under the number [p]. *)
Definition observe_image (p : Z) (m : Images) : Images :=
  if (0 <? p) && negb (p =? im_pid m) then
    match im_wait m with
    | Some _ => with_wait None true m
    | None => {| im_data := im_data m; im_pid := p; im_loaded := false; im_wait := None;
                 im_dead := im_dead m |}
    end
  else m.

Definition image_step (m : Images) (e : event eret) : option Images :=
  match e with
  | Ev (EKernel (SysctlProc _)) (_, bytes, data) =>
      Some (with_data (buffer (Z.to_nat bytes) data) m)
  | Ev (EKernel Getpid) self =>
      Some (observe_image (default (-1) (wk_pid <$> walk_injector self (im_data m))) m)
  | Ev (EKernel _) _ => Some m
  | Ev EFindByName p => Some (match p with Some q => observe_image q m | None => m end)
  | Ev EReadMarker contents =>
      Some (if bool_decide ((contents ≫= scan_int) = Some (im_pid m))
            then with_wait None (im_dead m) m else m)
  | Ev (EInject p) r =>
      if im_dead m || im_loaded m || bool_decide (im_wait m <> None) || negb (p =? im_pid m) ||
         negb (0 <? p) then None
      else Some {| im_data := im_data m; im_pid := p; im_loaded := elf_loaded r;
                   im_wait := if pthread_create_ok r && auth_restored r then Some 0%nat else None;
                   im_dead := false |}
  | Ev (EPollHook p) _ =>
      if (p =? im_pid m) && bool_decide (im_wait m <> None) then Some m else None
  | Ev (EUsleep _) _ =>
      Some (match im_wait m with
            | Some n => if (S n =? kMarkerAttempts)%nat then with_wait None true m
                        else with_wait (Some (S n)) (im_dead m) m
            | None => m
            end)
  | Ev EClearFiles _ => Some m
  end.
Opaque kMarkerAttempts.

(** A lookup changes the images as an observation of its result. *)
Lemma wp_find_shellui_pid m (Q : Z -> Images -> Prop) :
  (forall p l, Q p (observe_image p (with_data l m))) -> wp image_step find_shellui_pid m Q.
Proof.
  intros HQ.
  assert (Hsame : with_data (im_data m) m = m) by (by destruct m).
  assert (Hno : forall p l, (0 <? p) = false -> Q p (with_data l m)).
  { intros p l Hp. specialize (HQ p l). unfold observe_image in HQ. by rewrite Hp in HQ. }
  assert (Htail : forall pid l, (0 <? pid) = false ->
    wp image_step (bindp (ec EFindByName)
      (fun p => Ret (match p with Some q => q | None => pid end))) (with_data l m) Q).
  { intros pid l Hp r. simpl. destruct r as [q|]; [apply HQ|by apply Hno]. }
  assert (Hend : wp image_step (let pid := default (-1) (Some (-1)) in
     if 0 <? pid then Ret pid
     else bindp (ec EFindByName) (fun p => Ret (match p with Some q => q | None => pid end))) m Q).
  { rewrite <- Hsame. by apply Htail. }
  unfold find_shellui_pid, find_by_records. apply wp_bind. intros [rc required].
  cbn [image_step bindp].
  destruct ((rc =? 0) && negb (required =? 0)); [|exact Hend].
  intros [|]; cbn [image_step bindp]; [|exact Hend].
  intros [[rc' bytes] data]. cbn [image_step bindp]. destruct (rc' =? 0).
  - intros self. cbn [image_step im_data with_data bindp wp].
    set (p := default (-1) _). destruct (0 <? p) eqn:Ep; [apply HQ|].
    unfold observe_image. rewrite Ep. cbn [andb]. by apply Htail.
  - cbn [bindp wp]. by apply Htail.
Qed.

(** The images while a renderer started in [pid] may still report. *)
Definition waiting (pid : Z) (n : nat) (m : Images) : Prop :=
  im_pid m = pid /\ im_wait m = Some n /\ im_dead m = false.
(** A lookup or a marker decided: online, or nothing more is injected. *)
Definition settled (dead : bool) (m : Images) : Prop := im_wait m = None /\ im_dead m = dead.

Lemma marker_matches_eq pid contents :
  match contents with
  | None => false
  | Some s => match scan_int s with Some marked => marked =? pid | None => false end
  end = bool_decide ((contents ≫= scan_int) = Some pid).
Proof.
  destruct contents as [s|]; simpl; [|done]. destruct (scan_int s) as [q|]; [|done].
  destruct (Z.eqb_spec q pid) as [->|H]; symmetry;
    [by apply bool_decide_eq_true|apply bool_decide_eq_false; congruence].
Qed.

Lemma wp_marker_matches pid m (Q : bool -> Images -> Prop) :
  im_pid m = pid ->
  Q true (with_wait None (im_dead m) m) -> Q false m -> wp image_step (marker_matches pid) m Q.
Proof.
  intros Hp HT HF r. cbn [image_step bindp wp]. rewrite marker_matches_eq, Hp.
  by destruct (bool_decide _).
Qed.

(** The wait ends with the renderer online and everything settled, or with no more
    injections. *)
Lemma wp_marker_loop n i pid k m (Q : bool -> Images -> Prop) :
  0 < pid -> waiting pid k m -> (k + n = kMarkerAttempts)%nat -> n <> 0%nat ->
  (forall b m', im_pid m' = pid -> im_loaded m' = im_loaded m -> settled (negb b) m' -> Q b m') ->
  wp image_step (marker_loop n i pid) m Q.
Proof.
  revert i k m. induction n as [|n IH]; intros i k m Hpid (Hp & Hw & Hd) Hk Hn HQ; [done|].
  cbn [marker_loop]. apply wp_bind, wp_marker_matches; [done|by apply HQ|].
  apply wp_bind.
  assert (Hgo : forall m0, waiting pid k m0 -> im_loaded m0 = im_loaded m ->
    wp image_step (bindp (ec (EPollHook pid)) (fun _ => bindp (ec (EUsleep 20000))
      (fun _ => marker_loop n (i + 1) pid))) m0 Q).
  { intros m0 (Hp0 & Hw0 & Hd0) Hl0 []. cbn [image_step]. rewrite Hp0, Z.eqb_refl, Hw0.
    rewrite bool_decide_true by done. intros []. cbn [image_step bindp]. rewrite Hw0.
    destruct (S k =? kMarkerAttempts)%nat eqn:E.
    - apply Nat.eqb_eq in E. assert (n = 0%nat) as -> by lia. by apply HQ.
    - apply Nat.eqb_neq in E. apply (IH _ (S k)); try done; [lia|lia|].
      intros b m' H1 H2. apply HQ; [done|by rewrite H2]. }
  destruct (negb (i =? 0) && (i mod 50 =? 0)).
  - apply wp_bind, wp_find_shellui_pid. intros p l. cbn [wp].
    unfold observe_image. cbn [im_wait im_pid with_data]. rewrite Hp, Hw.
    destruct ((0 <? p) && negb (p =? pid)); [by apply HQ|]. by apply Hgo.
  - cbn [wp]. by apply Hgo.
Qed.

(** Between the rounds: the quarantine is the monitor's, and a process with an image is
    one that the code does not inject again. *)
Definition ensure_inv (s : Ensure) (m : Images) : Prop :=
  settled (renderer_quarantined s) m /\
  (im_loaded m = true -> renderer_quarantined s = true \/
     attempted_pid s = im_pid m /\ (attempted_result s = true \/ retry_allowed s = false)).

Lemma wp_start_renderer pid s m :
  0 < pid -> im_pid m = pid -> im_loaded m = false -> settled false m ->
  attempted_pid s = pid ->
  wp image_step (start_renderer pid s) m (fun r m' => ensure_inv r.2 m').
Proof.
  intros Hpid Hp Hl [Hw Hd] Ha. unfold start_renderer. apply wp_bind. intros []. cbn [image_step wp].
  apply wp_bind. intros r. cbn [image_step]. rewrite Hd, Hl, Hp, Hw, Z.eqb_refl.
  rewrite (proj2 (Z.ltb_lt 0 pid)) by done. rewrite bool_decide_false by auto.
  cbn [orb negb wp]. destruct (pthread_create_ok r), (auth_restored r); cbn [negb orb andb].
  2-4: split; [done|]; cbn; intros ->; right; split; [done|by right].
  apply wp_bind. refine (wp_marker_loop kMarkerAttempts 0 pid 0 _ _ Hpid _ _ _ _);
    [done|done|by rewrite <- (Nat.eqb_neq kMarkerAttempts 0)|].
  intros b m' H1 H2 H3. cbn [wp]. destruct b; (split; [done|]); cbn; [right|by left].
  split; [done|by left].
Qed.

Lemma wp_ensure s m :
  ensure_inv s m ->
  wp image_step (ensure_shellui_renderer s) m (fun r m' => ensure_inv r.2 m').
Proof.
  intros Hinv. unfold ensure_shellui_renderer. destruct (renderer_quarantined s) eqn:Eq; [done|].
  destruct Hinv as [[Hw Hd] Hl]. rewrite Eq in Hd, Hl. apply wp_bind, wp_find_shellui_pid.
  intros p l. cbn [wp].
  destruct (Z.leb_spec p 0) as [Hp|Hp].
  { unfold observe_image. rewrite (proj2 (Z.ltb_ge 0 p)) by done. cbn [andb].
    split; [split; cbn; [done|by rewrite Eq]|]. cbn. intros H. destruct (Hl H) as [?|?]; [done|by right]. }
  set (m1 := observe_image p (with_data l m)).
  assert (H1 : im_pid m1 = p /\ settled false m1 /\
    (im_loaded m1 = true -> attempted_pid s = p /\
       (attempted_result s = true \/ retry_allowed s = false))).
  { unfold m1, observe_image. rewrite (proj2 (Z.ltb_lt 0 p)) by done. cbn [andb im_pid with_data im_wait].
    rewrite Hw. destruct (Z.eqb_spec p (im_pid m)) as [->|Hne]; cbn; [|done].
    split; [done|]. split; [done|]. intros H. by destruct (Hl H) as [?|?]. }
  clearbody m1. destruct H1 as (Hp1 & [Hw1 Hd1] & Hl1).
  assert (Hkeep : forall m' s', im_pid m' = p -> im_loaded m' = im_loaded m1 -> settled false m' ->
    attempted_pid s' = attempted_pid s -> attempted_result s' = attempted_result s ->
    retry_allowed s' = retry_allowed s -> renderer_quarantined s' = false -> ensure_inv s' m').
  { intros m' s' E1 E2 E3 E4 E5 E6 E7. split; [by rewrite E7|]. rewrite E1, E2, E4, E5, E6.
    intros H. right. destruct (Hl1 H) as [-> ?]. done. }
  apply wp_bind, wp_marker_matches; [done|..]; cbn [wp].
  { by apply Hkeep. }
  cbn [attempted_pid attempted_result retry_allowed retry_delay_ticks set_found].
  destruct (Z.eqb_spec (attempted_pid s) p) as [Ea|Ea]; cbn [negb].
  2: { apply wp_start_renderer; try done. destruct (im_loaded m1); [|done].
       destruct Hl1 as [? _]; [done|]. congruence. }
  destruct (attempted_result s) eqn:Er; [by apply Hkeep|].
  destruct (retry_allowed s) eqn:Et; cbn [negb]; [|by apply Hkeep].
  destruct (retry_delay_ticks s =? 0); cbn [negb]; [|by apply Hkeep].
  apply wp_start_renderer; try done. destruct (im_loaded m1); [|done].
  by destruct Hl1 as [_ [?|?]].
Qed.

(** C9: the renderer is never started twice in one ShellUI.  Over any number of rounds and
    for all answers of the console, an image is written only into the process that was
    looked up last, only when no image was committed to that process before, and never
    while a started renderer may still report; once a started renderer did not report
    within 3500 waits, or its ShellUI was replaced before it did, nothing is injected any
    more and every later round reports failure.  Hook requests are served only while a
    started renderer is waited for. *)
Theorem renderer_started_once n t oks s :
  exec (ensure_rounds n Ensure_init) t (oks, s) ->
  exists m, monitor image_step Images_init t = Some m /\
    im_dead m = renderer_quarantined s /\ im_wait m = None /\ length oks = n /\
    (im_dead m = true -> forall k t' oks' s', exec (ensure_rounds k s) t' (oks', s') ->
       t' = [] /\ oks' = replicate k false).
Proof.
  intros He.
  assert (Hwp : forall s0 m0, ensure_inv s0 m0 ->
    wp image_step (ensure_rounds n s0) m0 (fun r m' => ensure_inv r.2 m' /\ length r.1 = n)).
  { clear. induction n as [|n IH]; intros s0 m0 Hi; cbn [ensure_rounds]; [done|].
    apply wp_bind. eapply wp_mono; [|by apply wp_ensure]. intros [ok s1] m1 H1. cbn [snd] in H1.
    apply wp_bind. eapply wp_mono; [|by apply IH]. intros [oks s2] m2 [H2 H3]. cbn in *.
    split; [done|]. by rewrite H3. }
  destruct (wp_sound image_step _ _ _ (Hwp Ensure_init Images_init ltac:(by split; [|intros ?])) _ _ He)
    as (m & Hm & [[Hw Hd] _] & Hlen). cbn [fst snd] in *.
  exists m. split; [done|]. split; [done|]. split; [done|]. split; [done|]. intros Hdead. rewrite Hdead in Hd. symmetry in Hd.
  clear -Hd. induction k as [|k IH]; intros t' oks' s' He; cbn [ensure_rounds] in He.
  { by destruct He as [-> [= -> ->]]. }
  unfold ensure_shellui_renderer in He. rewrite Hd in He. cbn [bindp] in He.
  apply exec_bind in He as (t1 & t2 & [oks1 s1] & -> & H1 & [-> [= -> ->]]).
  destruct (IH _ _ _ H1) as [-> ->]. done.
Qed.

(** ** A console whose renderer never reports

    The record list shows SceShellUI as process 9; the first injection fails before an
    image is committed, the second one starts the renderer, which never writes its
    marker. *)
Definition sample_result (ok : bool) : StableInjectionResult := {|
  auth_changed := true; auth_restored := true; attached := true; elf_loaded := ok;
  payload_args_ready := ok; remote_stager_ready := ok; remote_functions_ready := ok;
  target_stack_preserved := ok; bootstrap_started := ok; thread_start_requested := ok;
  pthread_create_ok := ok; detached := true; trace := Trace_init;
  pthread_create_rc := if ok then 0 else -1 |}.

Definition sample_kernel_answer (c : kcall) : kret c :=
  match c return kret c with
  | SysctlProcSize => (0, 500)
  | Calloc _ => true
  | SysctlProc _ => (0, 500, sample_record 500 9 kShellUiName)
  | Getpid => 77
  | KCopyout _ _ | MdbgCopy _ _ _ => (-1, [])
  | SysctlSdk | ClockGettime => (-1, 0, 0)
  | DlCount _ => (-1, 0)
  | DlList _ _ => (-1, 0, [])
  | DlInfo _ _ => {| di_rc := -1; di_bytes := [] |}
  | _ => 0
  end.

(** The state counts the injections. *)
Definition sample_shellui (injections : Z) (c : ecall) : eret c * Z :=
  match c return eret c * Z with
  | EKernel k => (sample_kernel_answer k, injections)
  | EFindByName => (None, injections)
  | EReadMarker => (Some (str "7"), injections)
  | EInject _ => (sample_result (0 <? injections), injections + 1)
  | EClearFiles | EPollHook _ | EUsleep _ => (tt, injections)
  end.

Transparent kMarkerAttempts.
Definition sample_start := run sample_shellui (ensure_rounds 8 Ensure_init) 0.

Example sample_start_parts :
  let '((oks, s), injections, _) := sample_start in
  (oks, renderer_quarantined s, injections) = (replicate 8 false, true, 2).
Proof. vm_compute. reflexivity. Qed.

Lemma sample_start_exec : exec (ensure_rounds 8 Ensure_init) sample_start.2 sample_start.1.1.
Proof. unfold sample_start. apply run_exec. Qed.

Lemma renderer_started_once_witness :
  exists m, monitor image_step Images_init sample_start.2 = Some m /\
    im_dead m = renderer_quarantined sample_start.1.1.2 /\ im_wait m = None /\
    length sample_start.1.1.1 = 8%nat /\
    (im_dead m = true -> forall k t' oks' s', exec (ensure_rounds k sample_start.1.1.2) t' (oks', s') ->
       t' = [] /\ oks' = replicate k false).
Proof.
  apply (renderer_started_once 8 sample_start.2 sample_start.1.1.1 sample_start.1.1.2).
  rewrite <- surjective_pairing. exact sample_start_exec.
Defined.
