(* ===== verification/RendererEntry.v ===== *)
(** The entry of the injected renderer: [elf_main] of
    [src/ps5/shellui_payload/commonfps_shellui_entry.cpp] as built for release, and
    [initialize_receiver] of [commonfps_shellui.cpp].  [initialize_runtime] is modelled in
    [RendererHook] and [run_receiver_loop] in [RenderLoop]; here the first is a call and the
    second the end of the program.  Log lines are left out. *)
From S2P Require Import Prelude Effects Types Text Wire Injector.

Inductive ncall :=
| NStage (stage : string)                (** [record_stage] *)
| NInitRuntime                           (** [initialize_runtime()] *)
| NUsleep (us : Z)
| NSocket | NReuseAddr (fd : Z) | NTimeout (fd seconds : Z) | NBind (fd port : Z) | NClose (fd : Z)
| NGetpid
| NMarker (contents : text).             (** [fopen(kMarker, "w")], [fprintf], [fclose] *)

Definition nret (c : ncall) : Type :=
  match c with
  | NInitRuntime => bool
  | NStage _ | NUsleep _ | NMarker _ | NClose _ => unit
  | _ => Z
  end.

Abbreviation nprog := (prog nret).
Definition nc (c : ncall) : nprog (nret c) := call c.

(** The thread never returns: it is parked for ever, or receives for ever. *)
Inductive Fate := Parked (stage : string) | ReceivingOn (fd : Z).

(** What [write_online_marker] writes: ["%d\n"]. *)
Definition marker_text (pid : Z) : text := dec pid ++ [nl].

Section Programs.
Local Open Scope prog_scope.

(** [initialize_receiver] with [g_receiver_fd]; the result and the new descriptor. *)
Definition initialize_receiver (receiver_fd : Z) : nprog (bool * Z) :=
  if 0 <=? receiver_fd then Ret (true, receiver_fd)
  else
    let* fd := nc NSocket in
    if fd <? 0 then Ret (false, receiver_fd)
    else
      let* _ := nc (NReuseAddr fd) in
      let* rc := nc (NTimeout fd 2) in
      if rc <? 0 then let* _ := nc (NClose fd) in Ret (false, receiver_fd)
      else
        let* rc := nc (NBind fd kDefaultIpcPort) in
        if rc <? 0 then let* _ := nc (NClose fd) in Ret (false, receiver_fd)
        else Ret (true, fd).

Fixpoint runtime_attempts (n : nat) : nprog bool :=
  match n with
  | O => Ret false
  | S n' =>
      let* ok := nc NInitRuntime in
      if ok : bool then Ret true
      else let* _ := nc (NUsleep 1000000) in runtime_attempts n'
  end.

Definition write_online_marker : nprog unit :=
  let* pid := nc NGetpid in nc (NMarker (marker_text pid)).

Definition elf_main : nprog Fate :=
  let* _ := nc (NStage "entry") in
  let* runtime_ready := runtime_attempts 60 in
  if negb runtime_ready then Ret (Parked "runtime")
  else
    let* _ := nc (NStage "runtime_ready") in
    let* (ok, fd) := initialize_receiver (-1) in
    if negb ok then Ret (Parked "receiver")
    else
      let* _ := nc (NStage "receiver_ready") in
      let* _ := write_online_marker in
      Ret (ReceivingOn fd).
End Programs.

(** ** The monitor *)

(** [en_fd]: the open socket and whether its timeout and its address are set. *)
Record Entry := {
  en_attempts : nat; en_slept : Z; en_ready : bool; en_fd : option (Z * bool * bool);
  en_self : option Z; en_marked : bool
}.
Definition Entry_init : Entry := {|
  en_attempts := 0; en_slept := 0; en_ready := false; en_fd := None; en_self := None;
  en_marked := false |}.

Definition entry_step (m : Entry) (e : event nret) : option Entry :=
  let socket fd := {|
    en_attempts := en_attempts m; en_slept := en_slept m; en_ready := en_ready m;
    en_fd := fd; en_self := en_self m; en_marked := en_marked m |} in
  match e with
  | Ev (NStage _) _ => Some m
  | Ev NInitRuntime ok =>
      if en_ready m || en_marked m then None
      else Some {| en_attempts := S (en_attempts m); en_slept := en_slept m; en_ready := ok;
                   en_fd := en_fd m; en_self := en_self m; en_marked := en_marked m |}
  | Ev (NUsleep us) _ =>
      Some {| en_attempts := en_attempts m; en_slept := en_slept m + us; en_ready := en_ready m;
              en_fd := en_fd m; en_self := en_self m; en_marked := en_marked m |}
  | Ev NSocket fd =>
      match en_fd m with
      | Some _ => None
      | None => if en_ready m then Some (socket (if fd <? 0 then None else Some (fd, false, false)))
                else None
      end
  | Ev (NReuseAddr fd) _ =>
      match en_fd m with Some (f, _, _) => if f =? fd then Some m else None | None => None end
  | Ev (NTimeout fd seconds) rc =>
      match en_fd m with
      | Some (f, _, b) => if (f =? fd) && (seconds =? 2)
                          then Some (socket (Some (f, negb (rc <? 0), b))) else None
      | None => None
      end
  | Ev (NBind fd port) rc =>
      match en_fd m with
      | Some (f, t, _) => if (f =? fd) && (port =? kDefaultIpcPort) && t
                          then Some (socket (Some (f, t, negb (rc <? 0)))) else None
      | None => None
      end
  | Ev (NClose fd) _ =>
      match en_fd m with
      | Some (f, _, _) => if f =? fd then Some (socket None) else None
      | None => None
      end
  | Ev NGetpid p =>
      Some {| en_attempts := en_attempts m; en_slept := en_slept m; en_ready := en_ready m;
              en_fd := en_fd m; en_self := Some p; en_marked := en_marked m |}
  | Ev (NMarker contents) _ =>
      match en_fd m, en_self m with
      | Some (_, true, true), Some p =>
          if en_ready m && negb (en_marked m) && bool_decide (contents = marker_text p)
          then Some {| en_attempts := en_attempts m; en_slept := en_slept m; en_ready := en_ready m;
                       en_fd := en_fd m; en_self := en_self m; en_marked := true |}
          else None
      | _, _ => None
      end
  end.

(** ** Facts *)

(** [k] attempts, [sl] microseconds of sleep. *)
Definition tried (k : nat) (sl : Z) (ready : bool) (m : Entry) : Prop :=
  (en_attempts m <= k)%nat /\ en_slept m <= sl /\ en_ready m = ready /\ en_fd m = None /\
  en_self m = None /\ en_marked m = false.

Lemma wp_attempts n k sl m (Q : bool -> Entry -> Prop) :
  tried k sl false m ->
  (forall ok m', tried (k + n) (sl + 1000000 * Z.of_nat n) ok m' -> Q ok m') ->
  wp entry_step (runtime_attempts n) m Q.
Proof.
  revert k sl m. induction n as [|n IH]; intros k sl m Hm HQ; cbn [runtime_attempts].
  { apply HQ. rewrite Nat.add_0_r, Z.add_0_r. exact Hm. }
  destruct Hm as (H1 & H2 & H3 & H4 & H5 & H6).
  intros ok. cbn [entry_step bindp]. rewrite H3, H6. cbn [orb]. destruct ok.
  { apply HQ. unfold tried. cbn. repeat split; try done; lia. }
  intros []. cbn [entry_step bindp]. apply (IH (S k) (sl + 1000000)).
  - unfold tried. cbn. repeat split; try done; lia.
  - intros ok m' (G1 & G2 & G). apply HQ. split; [lia|]. split; [lia|exact G].
Qed.

(** The fate agrees with the descriptor and the marker. *)
Definition entry_end (r : Fate) (m : Entry) : Prop :=
  (en_attempts m <= 60)%nat /\ en_slept m <= 60000000 /\
  match r with
  | Parked _ => en_fd m = None /\ en_marked m = false
  | ReceivingOn fd => en_ready m = true /\ en_fd m = Some (fd, true, true) /\ en_marked m = true
  end.

Lemma wp_elf_main : wp entry_step elf_main Entry_init entry_end.
Proof.
  unfold elf_main. intros []. cbn [entry_step bindp]. apply wp_bind, (wp_attempts 60 0 0); [done|].
  intros ok m (H1 & H2 & H3 & H4 & H5 & H6). destruct ok; cbn [negb]; [|done].
  intros []. cbn [entry_step bindp]. unfold initialize_receiver. cbn [Z.leb Z.compare].
  intros fd. cbn [entry_step bindp]. rewrite H4, H3.
  destruct (fd <? 0); cbn [bindp negb]; [done|].
  intros r1. cbn [entry_step bindp en_fd]. rewrite Z.eqb_refl.
  intros r2. cbn [entry_step bindp en_fd]. rewrite !Z.eqb_refl. cbn [andb].
  destruct (r2 <? 0); cbn [negb].
  { intros []. cbn [entry_step bindp en_fd]. rewrite Z.eqb_refl. cbn [wp bindp negb]. done. }
  intros r3. cbn [entry_step bindp en_fd]. rewrite !Z.eqb_refl. cbn [andb].
  destruct (r3 <? 0); cbn [negb bindp].
  { intros []. cbn [entry_step bindp en_fd]. rewrite Z.eqb_refl. cbn [wp bindp negb]. done. }
  intros []. cbn [entry_step bindp]. intros p. cbn [entry_step bindp].
  intros []. cbn [entry_step bindp en_fd en_self en_ready en_marked]. rewrite ?H3, ?H6.
  rewrite bool_decide_true by done. cbn [andb negb wp]. done.
Qed.

Lemma digits_of_isdigit n z : 0 <= z -> Forall (fun c => isdigit c = true) (digits_of 10 n z).
Proof.
  intros Hz. revert z Hz. induction n as [|n IH]; intros z Hz; cbn [digits_of]; [constructor|].
  apply Forall_app. split; [apply IH, Z.div_pos; lia|]. constructor; [|done].
  pose proof (Z.mod_pos_bound z 10 ltac:(lia)) as Hb. revert Hb. generalize (z mod 10).
  apply (forallbZ_spec 0 10 (fun d => isdigit (digit_char d))). reflexivity.
Qed.

Lemma take_while_stop (f : ascii -> bool) l c r :
  Forall (fun d => f d = true) l -> f c = false -> take_while f (l ++ c :: r) = l.
Proof. induction 1 as [|d l Hd _ IH]; simpl; intros Hc; [by rewrite Hc|]. by rewrite Hd, IH. Qed.

Lemma scan_marker pid : 0 < pid < 2 ^ 31 -> scan_int (marker_text pid) = Some pid.
Proof.
  intros Hp. unfold marker_text, dec. rewrite (proj2 (Z.ltb_ge pid 0)) by lia.
  set (n := ndigits 20 10 pid).
  assert (Hd : Forall (fun c => isdigit c = true) (digits_of 10 n pid)) by (apply digits_of_isdigit; lia).
  assert (Hub : pid < 10 ^ Z.of_nat n).
  { apply ndigits_ub; [lia|]. change (10 ^ Z.of_nat 21) with (10 ^ 21). lia. }
  assert (Hval : digits_val 10 (digits_of 10 n pid) 0 = pid).
  { rewrite digits_of_val; [lia|lia|lia]. }
  clearbody n.
  assert (Hne : digits_of 10 n pid <> []).
  { intros E. apply (f_equal length) in E. rewrite length_digits_of in E. cbn [length] in E. rewrite E in Hub.
    change (10 ^ Z.of_nat 0) with 1 in Hub. lia. }
  destruct (digits_of 10 n pid) as [|c ds] eqn:E; [done|]. pose proof Hd as Hd'.
  inversion_clear Hd' as [|? ? Hc _]. unfold scan_int. cbn [app drop_while].
  unfold isdigit in Hc. apply andb_true_iff in Hc as [Hc1%Z.leb_le Hc2%Z.leb_le].
  assert (isspace c = false) as -> by (unfold isspace; lia).
  rewrite (proj2 (Z.eqb_neq (code c) 45)), (proj2 (Z.eqb_neq (code c) 43)) by lia.
  rewrite app_comm_cons, (take_while_stop isdigit (c :: ds) nl []) by done.
  rewrite Hval, swrap_small; [done|lia|]. unfold in_i. change (2 ^ (32 - 1)) with (2 ^ 31). lia.
Qed.

(** ** Theorems *)

(** C25: the renderer reports itself online only when it is.  For all answers of the system
    the marker is written at most once, carries the number of the writing process, and is
    written only after the runtime was initialised, in at most 60 attempts and 60 seconds
    of waiting, and the socket is open with the two-second timeout and bound to the
    datagram port; a renderer that fails at any of these keeps no socket, writes no marker
    and is parked instead of returning into ShellUI. *)
Theorem renderer_reports_online t r :
  exec elf_main t r ->
  exists m, monitor entry_step Entry_init t = Some m /\ (en_attempts m <= 60)%nat /\
    en_slept m <= 60000000 /\
    match r with
    | Parked _ => en_fd m = None /\ en_marked m = false
    | ReceivingOn fd => en_ready m = true /\ en_fd m = Some (fd, true, true) /\ en_marked m = true
    end.
Proof. intros He. exact (wp_sound _ _ _ _ wp_elf_main t r He). Qed.

Definition read_marker (e : event eret) : option text :=
  match e with Ev EReadMarker contents => contents | _ => None end.

(** The marker of one process is recognised for exactly that process: what the
    renderer of process [pid] writes makes the controller's check for process [q] succeed
    just when [q] is [pid]. *)
Theorem marker_handshake pid q r :
  0 < pid < 2 ^ 31 -> exec (marker_matches q) [Ev EReadMarker (Some (marker_text pid))] r ->
  r = true <-> q = pid.
Proof.
  intros Hp (r0 & t' & He & [_ ->]).
  apply (f_equal (fun t => read_marker <$> head t)) in He. injection He as <-. rewrite scan_marker by done. rewrite Z.eqb_eq. split; congruence.
Qed.

(** A ShellUI, process 9, in which the runtime is ready at the third attempt. *)
Definition sample_shell (attempts : Z) (c : ncall) : nret c * Z :=
  match c return nret c * Z with
  | NInitRuntime => (2 <=? attempts, attempts + 1)
  | NSocket => (5, attempts)
  | NGetpid => (9, attempts)
  | NReuseAddr _ | NTimeout _ _ | NBind _ _ => (0, attempts)
  | NStage _ | NUsleep _ | NMarker _ | NClose _ => (tt, attempts)
  end.
Definition sample_entry := run sample_shell elf_main 0.

Example sample_entry_online : sample_entry.1.1 = ReceivingOn 5.
Proof. vm_compute. reflexivity. Qed.

Lemma renderer_reports_online_witness :
  exists m, monitor entry_step Entry_init sample_entry.2 = Some m /\ (en_attempts m <= 60)%nat /\
    en_slept m <= 60000000 /\
    match sample_entry.1.1 with
    | Parked _ => en_fd m = None /\ en_marked m = false
    | ReceivingOn fd => en_ready m = true /\ en_fd m = Some (fd, true, true) /\ en_marked m = true
    end.
Proof. apply renderer_reports_online. unfold sample_entry. apply run_exec. Defined.

Lemma marker_handshake_witness : 0 < 9 < 2 ^ 31 /\ (true = true <-> 9 = 9).
Proof.
  split; [split; reflexivity|]. apply (marker_handshake 9 9 true); [split; reflexivity|].
  exists (Some (marker_text 9)), []. split; [reflexivity|]. split; [reflexivity|]. vm_compute. reflexivity.
Defined.
