(* ===== verification/DiagnosticBuilds.v ===== *)
(** The diagnostic builds of [src/ps5/shellui_injector.cpp] (TEST25 to TEST29): instead of
    starting the renderer, [ensure_shellui_renderer] exercises one step of it - the load
    without a thread, attach and detach, the change of the authority, or nothing at all.
    The lookup and the static variables are those of the release build ([Injector]); the
    probes, whose code is not in the repository, are calls.  At the end, the build of the
    renderer that parks before its runtime (TEST23, [commonfps_shellui_entry.cpp]). *)
From S2P Require Import Prelude Effects Debugger KernelCalls ProcRecords ElfBridge Injection Injector.
From S2P Require Import RendererEntry.

Inductive Diagnostic := LoadOnly | AttachDetachOnly | AuthOnly | AuthDirectOnly | NoAuthOnly.

(** What the probes report. *)
Record AttachProbe := {
  ap_auth_changed : bool; ap_auth_restored : bool; ap_attached : bool; ap_detached : bool;
  ap_sigcont_sent : bool
}.
Record AuthProbe := {
  au_original_read : bool; au_changed : bool; au_verified : bool; au_restored : bool
}.
Record AuthDirectProbe := {
  ad_ucred_found : bool; ad_original_read : bool; ad_changed : bool; ad_verified : bool;
  ad_restored : bool
}.

Inductive gcall :=
| GLookup (c : ecall)
| GLoad (pid : Z)            (** [inject_shellui_stable] with [ExerciseStagerWithoutThread] *)
| GAttachDetach (pid : Z)    (** [probe_shellui_attach_detach] *)
| GAuth                      (** [probe_shellui_ptrace_auth_transition] *)
| GAuthDirect.               (** [probe_shellui_direct_auth_transition] *)

Definition gret (c : gcall) : Type :=
  match c with
  | GLookup c => eret c
  | GLoad _ => StableInjectionResult
  | GAttachDetach _ => AttachProbe
  | GAuth => AuthProbe
  | GAuthDirect => AuthDirectProbe
  end.
Abbreviation gprog := (prog gret).
Definition gc (c : gcall) : gprog (gret c) := call c.

(** A program over the calls of the release build. *)
Fixpoint lookup_calls {A} (p : eprog A) : gprog A :=
  match p with
  | Ret a => Ret a
  | Call c k => Call (GLookup c) (fun r => lookup_calls (k r))
  end.

Definition load_only_complete (i : StableInjectionResult) : bool :=
  auth_changed i && auth_restored i && attached i && elf_loaded i && payload_args_ready i &&
  remote_stager_ready i && remote_functions_ready i && target_stack_preserved i &&
  bootstrap_started i && negb (thread_start_requested i) && negb (pthread_create_ok i) &&
  (pthread_create_rc i =? kPthreadCreateSkippedRc) && detached i &&
  g_trace_continued (trace i) && g_trace_stopped (trace i) && (g_import_unresolved (trace i) =? 0).
Definition attach_complete (a : AttachProbe) : bool :=
  ap_auth_changed a && ap_auth_restored a && ap_attached a && ap_detached a && ap_sigcont_sent a.
Definition auth_complete (a : AuthProbe) : bool :=
  au_original_read a && au_changed a && au_verified a && au_restored a.
Definition auth_direct_complete (a : AuthDirectProbe) : bool :=
  ad_ucred_found a && ad_original_read a && ad_changed a && ad_verified a && ad_restored a.

Section Programs.
Local Open Scope prog_scope.

(** How an attempt ends: a complete one is never repeated; an incomplete one may be
    retried after five rounds when [untouched]. *)
Definition finish (pid : Z) (complete untouched : bool) (s : Ensure) : bool * Ensure :=
  if complete then (true, set_try pid true false (retry_delay_ticks s) false s)
  else (false, set_try pid false untouched (if untouched then 5 else 0) false s).
(** The authority probes leave the delay alone and are not retried. *)
Definition finish_once (pid : Z) (complete : bool) (s : Ensure) : bool * Ensure :=
  (complete, set_try pid complete false (retry_delay_ticks s) false s).

Definition attempt (d : Diagnostic) (pid : Z) (s : Ensure) : gprog (bool * Ensure) :=
  match d with
  | NoAuthOnly => Ret (finish_once pid true s)
  | AuthDirectOnly => let* probe := gc GAuthDirect in Ret (finish_once pid (auth_direct_complete probe) s)
  | AuthOnly => let* probe := gc GAuth in Ret (finish_once pid (auth_complete probe) s)
  | AttachDetachOnly =>
      let* probe := gc (GAttachDetach pid) in
      Ret (finish pid (attach_complete probe) (negb (ap_attached probe)) s)
  | LoadOnly =>
      let* _ := gc (GLookup EClearFiles) in
      let* injected := gc (GLoad pid) in
      Ret (finish pid (load_only_complete injected) (negb (elf_loaded injected)) s)
  end.

(** [ensure_shellui_renderer] without marker and quarantine. *)
Definition ensure_diagnostic (d : Diagnostic) (s : Ensure) : gprog (bool * Ensure) :=
  let* found := lookup_calls find_shellui_pid in
  if found <=? 0 then
    Ret (false, set_found (g_last_shellui_pid s) (u32 (discovery_failures s + 1)) s)
  else
    let s := set_found found 0 s in
    if negb (attempted_pid s =? found) then attempt d found (set_try found false true 0 false s)
    else if attempted_result s then Ret (true, s)
    else if negb (retry_allowed s) then Ret (false, s)
    else if negb (retry_delay_ticks s =? 0) then
      Ret (false, set_try (attempted_pid s) (attempted_result s) (retry_allowed s)
                    (retry_delay_ticks s - 1) false s)
    else attempt d found (set_try found false (retry_allowed s) 0 false s).

Fixpoint diagnostic_rounds (n : nat) (d : Diagnostic) (s : Ensure) : gprog (list bool * Ensure) :=
  match n with
  | O => Ret ([], s)
  | S n' =>
      let* (ok, s1) := ensure_diagnostic d s in
      let* (oks, s2) := diagnostic_rounds n' d s1 in
      Ret (ok :: oks, s2)
  end.
End Programs.

(** ** What may be touched

    The processes are followed as for the release build ([Injector.image_step]):
    [im_pid] is the process looked up last, [im_loaded] says that a probe has touched it.
    [tm_done]: the process in which the last probe did all of its step. *)
Record Touch := { tm_images : Images; tm_done : option Z }.
Definition Touch_init : Touch := {| tm_images := Images_init; tm_done := None |}.

(** A probe, once per process that it touches. *)
Definition probed (touched complete : bool) (m : Touch) : option Touch :=
  let i := tm_images m in
  if (im_pid i <=? 0) || im_loaded i then None
  else Some {| tm_images := {| im_data := im_data i; im_pid := im_pid i; im_loaded := touched;
                               im_wait := im_wait i; im_dead := im_dead i |};
               tm_done := if complete then Some (im_pid i) else None |}.

Definition starts_renderer (c : ecall) : bool :=
  match c with EInject _ | EPollHook _ => true | _ => false end.

Definition touch_step (d : Diagnostic) (m : Touch) (e : event gret) : option Touch :=
  match e with
  | Ev (GLookup c) r =>
      if starts_renderer c then None
      else match image_step (tm_images m) (Ev c r) with
           | Some i => Some {| tm_images := i; tm_done := tm_done m |}
           | None => None
           end
  | Ev (GLoad pid) r =>
      match d with
      | LoadOnly => if pid =? im_pid (tm_images m) then probed (elf_loaded r) (load_only_complete r) m else None
      | _ => None
      end
  | Ev (GAttachDetach pid) r =>
      match d with
      | AttachDetachOnly =>
          if pid =? im_pid (tm_images m) then probed (ap_attached r) (attach_complete r) m else None
      | _ => None
      end
  | Ev GAuth r => match d with AuthOnly => probed true (auth_complete r) m | _ => None end
  | Ev GAuthDirect r => match d with AuthDirectOnly => probed true (auth_direct_complete r) m | _ => None end
  end.

Section Proofs.
Context (d : Diagnostic).

Lemma wp_lookup_calls {A} (p : eprog A) m (Q : A -> Touch -> Prop) :
  calls (fun c => starts_renderer c = false) p ->
  wp image_step p (tm_images m) (fun a i => Q a {| tm_images := i; tm_done := tm_done m |}) ->
  wp (touch_step d) (lookup_calls p) m Q.
Proof.
  revert m. induction p as [a|c k IH]; intros m; cbn [calls wp lookup_calls].
  - intros _. by destruct m.
  - intros [Hc Hk] H r. cbn [touch_step]. rewrite Hc. specialize (H r).
    destruct (image_step (tm_images m) (Ev c r)) as [i|]; [|done]. by apply IH.
Qed.

Lemma find_looks : calls (fun c => starts_renderer c = false) find_shellui_pid.
Proof.
  unfold find_shellui_pid, find_by_records. apply calls_bind.
  - split; [done|]. intros [rc required]. cbn [bindp]. destruct (_ && _); [|done].
    split; [done|]. intros [|]; [|done]. split; [done|]. intros [[rc' bytes] data]. cbn [bindp].
    by destruct (rc' =? 0).
  - intros w. by destruct (0 <? _).
Qed.

(** A process with traces is one the code does not probe again; success is a complete
    step in it. *)
Definition diag_inv (s : Ensure) (m : Touch) : Prop :=
  im_wait (tm_images m) = None /\
  (im_loaded (tm_images m) = true -> attempted_pid s = im_pid (tm_images m) /\
     (attempted_result s = true \/ retry_allowed s = false)) /\
  (attempted_result s = true -> d <> NoAuthOnly -> tm_done m = Some (attempted_pid s)).

Lemma wp_attempt pid s m :
  0 < pid -> im_pid (tm_images m) = pid -> im_wait (tm_images m) = None -> im_loaded (tm_images m) = false ->
  wp (touch_step d) (attempt d pid s) m (fun r m' => diag_inv r.2 m' /\ im_pid (tm_images m') = pid /\
    (r.1 = true -> d <> NoAuthOnly -> tm_done m' = Some pid)).
Proof.
  intros Hpos Hp Hw Hl.
  assert (forall touched complete, probed touched complete m =
    Some {| tm_images := {| im_data := im_data (tm_images m); im_pid := pid; im_loaded := touched;
                            im_wait := None; im_dead := im_dead (tm_images m) |};
            tm_done := if complete then Some pid else None |}) as Hprobed.
  { intros t c. unfold probed. rewrite Hp, Hl, Hw. by rewrite (proj2 (Z.leb_gt pid 0)) by done. }
  assert (forall i, tm_images m = i -> image_step i (Ev EClearFiles tt) = Some i) as Hclear by done.
  unfold attempt, diag_inv. destruct d eqn:Ed.
  - intros []. cbn [touch_step starts_renderer]. rewrite (Hclear _ eq_refl). intros r.
    cbn [touch_step tm_images bindp wp]. rewrite Hp, Z.eqb_refl.
    replace {| tm_images := tm_images m; tm_done := tm_done m |} with m by (by destruct m).
    rewrite Hprobed. unfold finish. destruct (load_only_complete r); cbn; repeat split; auto; try done.
    destruct (elf_loaded r); auto.
  - intros r. cbn [touch_step bindp wp]. rewrite Hp, Z.eqb_refl, Hprobed.
    unfold finish. destruct (attach_complete r); cbn; repeat split; auto; try done.
    destruct (ap_attached r); auto.
  - intros r. cbn [touch_step bindp wp]. rewrite Hprobed. unfold finish_once. cbn.
    destruct (auth_complete r); repeat split; auto; done.
  - intros r. cbn [touch_step bindp wp]. rewrite Hprobed. unfold finish_once. cbn.
    destruct (auth_direct_complete r); repeat split; auto; done.
  - cbn. rewrite Hl. repeat split; auto; done.
Qed.

Lemma wp_diagnostic s m :
  diag_inv s m ->
  wp (touch_step d) (ensure_diagnostic d s) m (fun r m' => diag_inv r.2 m' /\
    (r.1 = true -> d <> NoAuthOnly -> tm_done m' = Some (im_pid (tm_images m')))).
Proof.
  intros (Hw & Hl & Hd). unfold ensure_diagnostic. apply wp_bind, wp_lookup_calls; [exact find_looks|].
  apply wp_find_shellui_pid. intros p l. cbn [wp].
  destruct (Z.leb_spec p 0) as [Hp|Hp].
  { unfold observe_image. rewrite (proj2 (Z.ltb_ge 0 p)) by done. cbn [andb].
    split; [|done]. split; [exact Hw|]. split; [exact Hl|exact Hd]. }
  set (i := observe_image p (with_data l (tm_images m))).
  assert (im_pid i = p /\ im_wait i = None /\ (im_loaded i = true -> attempted_pid s = p /\
    (attempted_result s = true \/ retry_allowed s = false))) as (Hip & Hiw & Hil).
  { unfold i, observe_image. rewrite (proj2 (Z.ltb_lt 0 p)) by done. cbn [andb im_pid im_wait with_data].
    rewrite Hw. destruct (Z.eqb_spec p (im_pid (tm_images m))) as [->|Hne]; cbn; [|done].
    split; [done|]. split; [done|]. intros H. by destruct (Hl H). }
  clearbody i. set (m1 := {| tm_images := i; tm_done := tm_done m |}).
  assert (forall s', attempted_pid s' = attempted_pid s -> attempted_result s' = attempted_result s ->
    retry_allowed s' = retry_allowed s -> diag_inv s' m1) as Hkeep.
  { intros s' E1 E2 E3. unfold diag_inv. rewrite E1, E2, E3. cbn [tm_images tm_done m1]. split; [done|].
    split; [|exact Hd]. intros H. destruct (Hil H) as [-> Ho]. split; [done|exact Ho]. }
  assert (forall s', attempted_pid s <> p \/ (attempted_result s = false /\ retry_allowed s = true) ->
    wp (touch_step d) (attempt d p s') m1 (fun r m' => diag_inv r.2 m' /\
      (r.1 = true -> d <> NoAuthOnly -> tm_done m' = Some (im_pid (tm_images m'))))) as Hattempt.
  { intros s' Hs. eapply wp_mono; [|apply (wp_attempt p s' m1); [done|done|done|]].
    - intros r m' (H1 & H2 & H3). split; [exact H1|]. rewrite H2. exact H3.
    - cbn [tm_images m1]. destruct (im_loaded i); [|done]. destruct (Hil eq_refl) as [E1 E2].
      destruct Hs as [Hs|[Hs1 Hs2]]; [congruence|destruct E2; congruence]. }
  cbn [attempted_pid attempted_result retry_allowed retry_delay_ticks set_found].
  destruct (Z.eqb_spec (attempted_pid s) p) as [Ea|Ea]; cbn [negb]; [|apply Hattempt; by left].
  destruct (attempted_result s) eqn:Er.
  { cbn [wp fst snd]. split; [by apply Hkeep|]. intros _ Hn. cbn. rewrite Hip, <- Ea. by apply Hd. }
  destruct (retry_allowed s) eqn:Et; cbn [negb].
  2:{ cbn [wp fst snd]. split; [by apply Hkeep|done]. }
  destruct (retry_delay_ticks s =? 0); cbn [negb].
  - apply Hattempt. by right.
  - cbn [wp fst snd]. split; [by apply Hkeep|done].
Qed.
End Proofs.

(** A diagnostic build never repeats itself in a process it has touched.  Over any
    number of rounds and for all answers: only the probe of the build is performed, on the
    process looked up last, and not a second time in a process once the image was
    committed, the attach succeeded or the authority was changed; no renderer is injected
    and no hook request is served; the build that changes nothing makes no probe.  When the
    last round reports success, the last probe did every part of its step in the process
    that is ShellUI now. *)
Theorem diagnostic_once n d t oks s :
  exec (diagnostic_rounds n d Ensure_init) t (oks, s) ->
  exists m, monitor (touch_step d) Touch_init t = Some m /\ length oks = n /\
    (last oks = Some true -> d <> NoAuthOnly -> tm_done m = Some (im_pid (tm_images m))).
Proof.
  assert (forall s0 m0, diag_inv d s0 m0 -> wp (touch_step d) (diagnostic_rounds n d s0) m0
    (fun r m => length r.1 = n /\ (last r.1 = Some true -> d <> NoAuthOnly ->
       tm_done m = Some (im_pid (tm_images m))))) as Hwp.
  { induction n as [|k IH]; intros s0 m0 Hi; cbn [diagnostic_rounds]; [done|].
    apply wp_bind. eapply wp_mono; [|by apply wp_diagnostic]. intros [ok s1] m1 [H1 H2]. cbn [fst snd] in *.
    apply wp_bind. destruct k as [|k].
    - cbn. split; [done|]. intros [= ->]. by apply H2.
    - eapply wp_mono; [|by apply IH]. intros [oks2 s2] m2 [H3 H4]. cbn [fst snd wp] in *.
      split; [by rewrite <- H3|]. destruct oks2 as [|o oks2]; [done|]. exact H4. }
  intros He. destruct (wp_sound _ _ _ _ (Hwp Ensure_init Touch_init ltac:(done)) _ _ He) as (m & Hm & Hlen & Hlast).
  by exists m.
Qed.

(** ** A run: the first attach fails, the second one completes *)

Definition sample_probes (attempts : Z) (c : gcall) : gret c * Z :=
  match c as c return gret c * Z with
  | GLookup c => ((sample_shellui 0 c).1, attempts)
  | GLoad _ => (sample_result false, attempts)
  | GAttachDetach _ =>
      ({| ap_auth_changed := true; ap_auth_restored := true; ap_attached := 0 <? attempts;
          ap_detached := 0 <? attempts; ap_sigcont_sent := 0 <? attempts |}, attempts + 1)
  | GAuth => ({| au_original_read := true; au_changed := true; au_verified := true; au_restored := true |},
              attempts)
  | GAuthDirect => ({| ad_ucred_found := false; ad_original_read := false; ad_changed := false;
                       ad_verified := false; ad_restored := false |}, attempts)
  end.
Definition sample_diagnostic := run sample_probes (diagnostic_rounds 8 AttachDetachOnly Ensure_init) 0.

Lemma diagnostic_once_witness :
  sample_diagnostic.1.1.1 = [false; false; false; false; false; false; true; true] /\
  exists m, monitor (touch_step AttachDetachOnly) Touch_init sample_diagnostic.2 = Some m /\
    tm_done m = Some (im_pid (tm_images m)).
Proof.
  assert (sample_diagnostic.1.1.1 = [false; false; false; false; false; false; true; true]) as E
    by (vm_compute; reflexivity).
  split; [exact E|].
  pose proof (run_exec sample_probes (diagnostic_rounds 8 AttachDetachOnly Ensure_init) 0) as He.
  change (run sample_probes _ _) with sample_diagnostic in He.
  destruct (diagnostic_once 8 AttachDetachOnly sample_diagnostic.2 sample_diagnostic.1.1.1
    sample_diagnostic.1.1.2) as (m & Hm & _ & Hl).
  - rewrite <- surjective_pairing. exact He.
  - exists m. split; [exact Hm|]. apply Hl; [by rewrite E|discriminate].
Defined.

(** ** TEST23: the renderer that does nothing *)

(** [elf_main] with [common_fps_test23_runtime_gate] at its initial value. *)
Definition elf_main_parked : nprog Fate :=
  (let* _ := nc (NStage "entry") in
   let* _ := write_online_marker in
   Ret (Parked "test23_pre_runtime"))%prog.

(** It reports itself and is parked: no runtime, no socket. *)
Theorem parked_build_inert t r :
  exec elf_main_parked t r ->
  r = Parked "test23_pre_runtime" /\
  exists pid, t = [Ev (NStage "entry" : ncall) tt; Ev NGetpid pid; Ev (NMarker (marker_text pid)) tt].
Proof. intros ([] & ? & -> & pid & ? & -> & [] & ? & -> & [-> ->]). split; [done|]. by exists pid. Qed.
