(* ===== verification/StageRecord.v ===== *)
(** The stage record: the renderer notes how far it got ([record_stage] of
    [src/ps5/shellui_payload/commonfps_shellui_entry.cpp]) and the controller quotes it when
    the renderer does not report ([last_stage_for] of [src/ps5/shellui_injector.cpp]).  The
    file is truncated and rewritten while the controller may read it. *)
From S2P Require Import Prelude Text Injector RendererEntry.

Definition space : ascii := chr 32.
Definition unavailable : text := str "unavailable".

(** [fprintf("%d %.47s\n")] *)
Definition stage_text (pid : Z) (stage : text) : text := dec pid ++ [space] ++ take 47 stage ++ [nl].

(** [fscanf("%d")] with what it leaves unread. *)
Definition scan_int_then (s : text) : option (Z * text) :=
  let s0 := drop_while isspace s in
  let '(neg, s1) := match s0 with
                    | c :: r => if code c =? 45 then (true, r)
                                else if code c =? 43 then (false, r) else (false, s0)
                    | [] => (false, s0)
                    end in
  match take_while isdigit s1 with
  | [] => None
  | ds => let v := digits_val 10 ds 0 in
          Some (i32 (if neg then - v else v), drop (length ds) s1)
  end.
(** [" %<n>s"]: blanks, then up to [n] other characters; [None] when there are none. *)
Definition scan_word (n : nat) (s : text) : option text :=
  match take n (take_while (fun c => negb (isspace c)) (drop_while isspace s)) with
  | [] => None
  | w => Some w
  end.

(** The C string in the 48 bytes of [stage]; [None]: the file could not be opened. *)
Definition last_stage_for (pid : Z) (contents : option text) : text :=
  match contents with
  | None => unavailable
  | Some s =>
      match scan_int_then s with
      | None => unavailable
      | Some (recorded_pid, rest) =>
          match scan_word 47 rest with
          | Some recorded_stage => if recorded_pid =? pid then c_str recorded_stage else unavailable
          | None => unavailable
          end
      end
  end.

(** A stage name as the renderer uses them: visible characters, not too many. *)
Definition stage_char (c : ascii) : bool := negb (isspace c) && negb (code c =? 0).
Definition stage_name (s : text) : Prop :=
  s <> [] /\ (length s <= 47)%nat /\ Forall (fun c => stage_char c = true) s.

(** The names the renderer records. *)
Example stages_named : Forall (fun s => stage_name (str s))
  ["entry"; "runtime_ready"; "receiver_ready"; "hook_probe_request"; "hook_probe_ack_wait";
   "legacy_guard_lookup"; "legacy_guard_compile"; "legacy_guard_probe"; "legacy_guard_ready";
   "legacy_guard_request"; "legacy_guard_ack_wait"; "ui_scene_lookup"; "ui_style_begin";
   "ui_style_failed"; "ui_style_ready"; "hook_lookup"; "hook_compile"; "hook_read_start";
   "hook_read_ok"; "hook_prepare"; "hook_trampoline"; "hook_request"; "hook_ack_wait";
   "hook_confirmed"; "mono_root_call"; "mono_attached"; "managed_images_ready"; "scene_ready";
   "hook_setup"]%string.
Proof. repeat constructor; try discriminate; cbn; lia. Qed.

Lemma scan_int_value s : scan_int s = fst <$> scan_int_then s.
Proof.
  unfold scan_int, scan_int_then. destruct (match drop_while isspace s with [] => _ | _ => _ end) as [neg s1].
  by destruct (take_while isdigit s1).
Qed.

Lemma take_while_all (f : ascii -> bool) l : Forall (fun c => f c = true) l -> take_while f l = l.
Proof. induction 1 as [|c l Hc _ IH]; cbn; [done|]. by rewrite Hc, IH. Qed.

Lemma drop_while_digits l r : Forall (fun c => isdigit c = true) l -> l <> [] -> drop_while isspace (l ++ r) = l ++ r.
Proof.
  intros Hl Hne. destruct l as [|c l]; [done|]. inversion_clear Hl as [|? ? Hc _]. cbn.
  unfold isdigit in Hc. apply andb_true_iff in Hc as [Hc1%Z.leb_le Hc2%Z.leb_le].
  assert (isspace c = false) as -> by (unfold isspace; lia). done.
Qed.

(** A number is read up to the first character that is no digit. *)
Lemma scan_digits ds r :
  Forall (fun c => isdigit c = true) ds -> ds <> [] -> (forall c r', r = c :: r' -> isdigit c = false) ->
  scan_int_then (ds ++ r) = Some (i32 (digits_val 10 ds 0), r).
Proof.
  intros Hds Hne Hr. unfold scan_int_then. rewrite drop_while_digits by done.
  assert (take_while isdigit (ds ++ r) = ds) as Htake.
  { destruct r as [|c r]; [rewrite app_nil_r; by apply take_while_all|].
    apply take_while_stop; [done|by eapply Hr]. }
  destruct ds as [|c ds]; [done|]. inversion_clear Hds as [|? ? Hc _]. cbn [app] in *.
  unfold isdigit in Hc. apply andb_true_iff in Hc as [Hc1%Z.leb_le Hc2%Z.leb_le].
  rewrite (proj2 (Z.eqb_neq (code c) 45)), (proj2 (Z.eqb_neq (code c) 43)) by lia.
  rewrite Htake. do 2 f_equal. change (c :: ds ++ r) with ((c :: ds) ++ r). apply drop_app_length.
Qed.

(** The decimal digits of a process number. *)
Lemma dec_digits pid : 0 < pid < 2 ^ 31 ->
  Forall (fun c => isdigit c = true) (dec pid) /\ dec pid <> [] /\ i32 (digits_val 10 (dec pid) 0) = pid.
Proof.
  intros Hp. unfold dec. rewrite (proj2 (Z.ltb_ge pid 0)) by lia. set (n := ndigits 20 10 pid).
  assert (Hub : pid < 10 ^ Z.of_nat n).
  { apply ndigits_ub; [lia|]. change (10 ^ Z.of_nat 21) with (10 ^ 21). lia. }
  clearbody n. split; [apply digits_of_isdigit; lia|]. split.
  - intros E. apply (f_equal length) in E. rewrite length_digits_of in E. cbn [length] in E. rewrite E in Hub.
    change (10 ^ Z.of_nat 0) with 1 in Hub. lia.
  - rewrite digits_of_val by lia. rewrite swrap_small; [lia|lia|]. unfold in_i. change (2 ^ (32 - 1)) with (2 ^ 31). lia.
Qed.

(** The word of a stage, or of a beginning of it. *)
Lemma scan_stage w r :
  w <> [] -> (length w <= 47)%nat -> Forall (fun c => stage_char c = true) w -> r = [] \/ r = [nl] ->
  scan_word 47 (space :: w ++ r) = Some w /\ c_str w = w.
Proof.
  intros Hne Hlen Hw Hr.
  assert (Forall (fun c => negb (isspace c) = true) w /\ Forall (fun c => negb (code c =? 0) = true) w) as [H1 H2].
  { split; eapply Forall_impl; try exact Hw; intros c [? ?]%andb_true_iff; done. }
  split; [|by apply take_while_all]. unfold scan_word. cbn [drop_while]. change (isspace space) with true. cbn match.
  assert (drop_while isspace (w ++ r) = w ++ r) as ->.
  { destruct w as [|c w]; [done|]. inversion_clear H1 as [|? ? Hc _]. apply negb_true_iff in Hc. cbn. by rewrite Hc. }
  assert (take_while (fun c => negb (isspace c)) (w ++ r) = w) as ->.
  { destruct Hr as [-> | ->]; [rewrite app_nil_r; by apply take_while_all|by apply take_while_stop]. }
  rewrite take_ge by done. by destruct w.
Qed.

(** A record of [pid] with a beginning of a stage, quoted. *)
Lemma quoted_word pid q w r :
  0 < pid < 2 ^ 31 -> w <> [] -> (length w <= 47)%nat -> Forall (fun c => stage_char c = true) w ->
  r = [] \/ r = [nl] ->
  last_stage_for q (Some (dec pid ++ space :: w ++ r)) = if pid =? q then w else unavailable.
Proof.
  intros Hp Hne Hlen Hw Hr. destruct (dec_digits pid Hp) as (Hd & Hdne & Hval).
  destruct (scan_stage w r Hne Hlen Hw Hr) as [Hscan Hc]. unfold last_stage_for.
  rewrite scan_digits, Hval, Hscan, Hc by (try done; by intros c r' [= <- _]). done.
Qed.

Lemma quoted_digits pid q n : 0 < pid < 2 ^ 31 -> last_stage_for q (Some (take n (dec pid))) = unavailable.
Proof.
  intros Hp. destruct (dec_digits pid Hp) as (Hd & _). unfold last_stage_for.
  destruct (take n (dec pid)) as [|c l] eqn:E; [done|].
  assert (Forall (fun c => isdigit c = true) (c :: l)) as Hl by (rewrite <- E; by apply Forall_take).
  rewrite <- (app_nil_r (c :: l)), scan_digits by done. done.
Qed.

Lemma length_take_while (f : ascii -> bool) l : (length (take_while f l) <= length l)%nat.
Proof. induction l as [|c l IH]; cbn; [done|]. destruct (f c); cbn; lia. Qed.

Lemma quoted_fits q contents : (length (last_stage_for q contents) < 48)%nat.
Proof.
  assert (length unavailable < 48)%nat as Hu by (cbn; lia). unfold last_stage_for.
  destruct contents as [s|]; [|done]. destruct (scan_int_then s) as [[p rest]|]; [|done].
  destruct (scan_word 47 rest) as [w|] eqn:E; [|done]. destruct (p =? q); [|done].
  assert (length w <= 47)%nat as Hw.
  { unfold scan_word in E. destruct (take 47 _) as [|c l] eqn:Et; [done|]. injection E as <-.
    rewrite <- Et, length_take. lia. }
  pose proof (length_take_while (fun c => negb (code c =? 0)) w) as Hc. fold (c_str w) in Hc. lia.
Qed.

(** The stage the controller quotes is one the renderer of this very process has
    reached.  What the renderer of [pid] records is quoted in full for [pid] and not at all
    for another process; while the record is being written - any beginning of it - the
    quoted text is a beginning of the stage or "unavailable"; and for any contents of the
    file the quoted text fits the 48 bytes of the buffer. *)
Theorem stage_quoted pid stage :
  0 < pid < 2 ^ 31 -> stage_name stage ->
  (forall q, last_stage_for q (Some (stage_text pid stage)) = if pid =? q then stage else unavailable) /\
  (forall q k, let quoted := last_stage_for q (Some (take k (stage_text pid stage))) in
     quoted = unavailable \/ pid = q /\ exists rest, stage = quoted ++ rest) /\
  forall q contents, (length (last_stage_for q contents) < 48)%nat.
Proof.
  intros Hp (Hne & Hlen & Hst). unfold stage_text. rewrite take_ge by lia. cbn [app].
  split; [|split; [|exact quoted_fits]].
  - intros q. apply quoted_word; auto.
  - intros q k. rewrite take_app. destruct (k - length (dec pid))%nat as [|j] eqn:Ej; [rewrite take_0, app_nil_r; left; by apply quoted_digits|].
    rewrite (take_ge (dec pid)) by lia. cbn [take]. rewrite take_app.
    destruct (take j stage) as [|c w] eqn:Ew.
    { assert (j = 0%nat) as -> by (destruct j, stage; done). cbn [take app]. left.
      destruct (dec_digits pid Hp) as (Hd & Hdne & Hval). unfold last_stage_for.
      rewrite scan_digits by (try done; by intros c r' [= <- _]). done. }
    rewrite quoted_word; [|done|done| | |].
    + destruct (Z.eqb_spec pid q) as [->|?]; [|by left]. right. split; [done|].
      exists (drop j stage). rewrite <- Ew. symmetry. apply take_drop.
    + rewrite <- Ew, length_take. lia.
    + rewrite <- Ew. by apply Forall_take.
    + destruct (j - length stage)%nat as [|[|n]]; cbn; auto.
Qed.

Lemma stage_quoted_witness :
  0 < 71 < 2 ^ 31 /\ stage_name (str "hook_request") /\
  last_stage_for 71 (Some (stage_text 71 (str "hook_request"))) = str "hook_request" /\
  last_stage_for 72 (Some (stage_text 71 (str "hook_request"))) = unavailable.
Proof.
  assert (0 < 71 < 2 ^ 31) as Hp by (split; reflexivity).
  assert (stage_name (str "hook_request")) as Hs by (repeat split; [discriminate|cbn; lia|repeat constructor]).
  destruct (stage_quoted 71 (str "hook_request") Hp Hs) as (H & _).
  split; [exact Hp|]. split; [exact Hs|]. split; [exact (H 71)|exact (H 72)].
Defined.
