(* ===== verification/GuardWrite.v ===== *)
(** The guarded one-byte write: [src/ps5/shellui_guard_write.hpp] and
    [src/ps5/shellui_guard_write.cpp]. *)
From S2P Require Import Prelude Effects HookProtocol Debugger.

Record ShellUiGuardWriteState := {
  g_pid : Z; g_address : Z; original_protection : Z;
  protect_rc : Z; ptrace_write_rc : Z; mdbg_write_rc : Z;
  restore_protection_rc : Z; protection_restored : bool
}.

Definition ShellUiGuardWriteState_init : ShellUiGuardWriteState := {|
  g_pid := -1; g_address := 0; original_protection := -1;
  protect_rc := -1; ptrace_write_rc := -1; mdbg_write_rc := -1;
  restore_protection_rc := -1; protection_restored := false |}.

(** The results of this attempt are cleared, the snapshot is kept. *)
Definition clear_attempt (s : ShellUiGuardWriteState) : ShellUiGuardWriteState := {|
  g_pid := g_pid s; g_address := g_address s; original_protection := original_protection s;
  protect_rc := -1; ptrace_write_rc := -1; mdbg_write_rc := -1;
  restore_protection_rc := -1; protection_restored := false |}.

Definition with_snapshot (s : ShellUiGuardWriteState) (pid address prot : Z) : ShellUiGuardWriteState := {|
  g_pid := pid; g_address := address; original_protection := prot;
  protect_rc := protect_rc s; ptrace_write_rc := ptrace_write_rc s; mdbg_write_rc := mdbg_write_rc s;
  restore_protection_rc := restore_protection_rc s; protection_restored := protection_restored s |}.

Definition with_restore (s : ShellUiGuardWriteState) (rc : Z) (ok : bool) : ShellUiGuardWriteState := {|
  g_pid := g_pid s; g_address := g_address s; original_protection := original_protection s;
  protect_rc := protect_rc s; ptrace_write_rc := ptrace_write_rc s; mdbg_write_rc := mdbg_write_rc s;
  restore_protection_rc := rc; protection_restored := ok |}.

Definition with_write (s : ShellUiGuardWriteState) (protect ptrace mdbg : Z) : ShellUiGuardWriteState := {|
  g_pid := g_pid s; g_address := g_address s; original_protection := original_protection s;
  protect_rc := protect; ptrace_write_rc := ptrace; mdbg_write_rc := mdbg;
  restore_protection_rc := restore_protection_rc s; protection_restored := protection_restored s |}.

Section Program.
Local Open Scope prog_scope.

(** [kernel_mprotect] to the saved protection, confirmed by a query. *)
Definition restore_protection (pid address : Z) (s : ShellUiGuardWriteState)
    : sprog ShellUiGuardWriteState :=
  let* rc := sysc (Mprotect pid address 1 (original_protection s)) in
  if rc =? 0 then
    let* now := sysc (GetProt pid address) in
    Ret (with_restore s rc (now =? original_protection s))
  else Ret (with_restore s rc false).

(** The write proper, while the entry is writable: ptrace first, MDBG for two errors. *)
Definition write_byte (pid address byte protect : Z) (s : ShellUiGuardWriteState)
    : sprog (Z * ShellUiGuardWriteState) :=
  let* (rc, err) := sysc (PtCopyin pid address [byte]) in
  let ptrace := errno_of rc err in
  if (ptrace =? EFAULT) || (ptrace =? EPERM) then
    let* mdbg := shellui_mdbg_write_byte pid address byte in
    Ret (mdbg, with_write s protect ptrace mdbg)
  else Ret (ptrace, with_write s protect ptrace (mdbg_write_rc s)).

(** With the original saved: make writable, write, restore. *)
Definition write_protected (pid address byte current : Z) (s1 : ShellUiGuardWriteState)
    : sprog (Z * ShellUiGuardWriteState) :=
  let writable := Z.lor (Z.lor (original_protection s1) PROT_READ) PROT_WRITE in
  if negb (current =? original_protection s1) && negb (current =? writable) then Ret (EIO, s1)
  else
    let* protect := (if current =? writable then Ret 0
                     else sysc (Mprotect pid address 1 writable)) in
    let s2 := with_write s1 protect (ptrace_write_rc s1) (mdbg_write_rc s1) in
    let* (write_rc, s3) :=
      (if protect =? 0 then
         let* now := sysc (GetProt pid address) in
         if now =? writable then write_byte pid address byte protect s2 else Ret (EIO, s2)
       else Ret (EIO, s2)) in
    let* s4 := restore_protection pid address s3 in
    Ret (if negb (protection_restored s4) then -1001
         else if negb (protect_rc s4 =? 0) then -1000 else write_rc, s4).

(** From a known current protection. *)
Definition write_at (pid address byte current : Z) (s : ShellUiGuardWriteState)
    : sprog (Z * ShellUiGuardWriteState) :=
  if (0xff <? current) || (Z.land current PROT_EXEC =? 0) then Ret (EIO, s)
  else write_protected pid address byte current
         (if original_protection s <? 0 then with_snapshot s pid address current else s).

Definition shellui_write_guard_byte (pid address byte : Z) (s : ShellUiGuardWriteState)
    : sprog (Z * ShellUiGuardWriteState) :=
  if (pid <=? 0) || negb (shellui_user_address address) ||
     ((0 <=? original_protection s) && (negb (g_pid s =? pid) || negb (g_address s =? address)))
  then Ret (EINVAL, s)
  else
    let s0 := clear_attempt s in
    let* current := sysc (GetProt pid address) in
    if current <? 0 then
      let* s1 := (if 0 <=? original_protection s0 then restore_protection pid address s0
                  else Ret s0) in
      if negb (protection_restored s1) then Ret (EIO, s1)
      else write_at pid address byte (original_protection s1) s1
    else write_at pid address byte current s0.
End Program.

(** ** The protection contract *)

Section Contract.
Context (pid address byte : Z).

(** The saved protection ([< 0]: none), whether the entry may have been changed since it
    was last confirmed original, and the last protection read (-1: stale). *)
Record Prot := { p_orig : Z; p_changed : bool; p_seen : Z; p_wrote : bool }.

Definition executable (v : Z) : bool := (0 <=? v) && (v <=? 0xff) && negb (Z.land v PROT_EXEC =? 0).
Definition rw (v : Z) : Z := Z.lor (Z.lor v PROT_READ) PROT_WRITE.

(** Queries and changes are for the one byte.  The first executable protection seen is
    the saved one, for good.  The entry is only ever given the saved protection or that
    one made readable and writable; a byte is written only while the latter is confirmed. *)
Definition prot_step (m : Prot) (e : event sys_ret) : option Prot :=
  match e with
  | Ev (GetProt p a) r =>
      if (p =? pid) && (a =? address) then
        Some (if p_orig m <? 0 then {| p_orig := if executable r then r else -1; p_changed := false;
                                       p_seen := r; p_wrote := p_wrote m |}
              else {| p_orig := p_orig m; p_changed := p_changed m && negb (r =? p_orig m);
                      p_seen := r; p_wrote := p_wrote m |})
      else None
  | Ev (Mprotect p a n v) rc =>
      if (p =? pid) && (a =? address) && (n =? 1) && (0 <=? p_orig m) &&
         ((v =? p_orig m) || (v =? rw (p_orig m)))
      then Some {| p_orig := p_orig m; p_changed := true; p_seen := -1; p_wrote := p_wrote m |}
      else None
  | Ev (PtCopyin p a b) _ =>
      if (p =? pid) && (a =? address) && bytes_eqb b [byte] && (0 <=? p_orig m) &&
         (p_seen m =? rw (p_orig m))
      then Some {| p_orig := p_orig m; p_changed := p_changed m; p_seen := p_seen m; p_wrote := true |}
      else None
  | Ev (MdbgWrite p a b) _ =>
      if (p =? pid) && (a =? u64 address) && bytes_eqb b [byte] && (0 <=? p_orig m) &&
         (p_seen m =? rw (p_orig m))
      then Some {| p_orig := p_orig m; p_changed := p_changed m; p_seen := p_seen m; p_wrote := true |}
      else None
  | Ev GetAuth _ | Ev (SetAuth _) _ | Ev GetCaps _ | Ev (SetCaps _) _ => Some m
  | _ => None
  end.

(** The saved protection is the one of the state. *)
Definition prot_inv (s : ShellUiGuardWriteState) (m : Prot) : Prop :=
  (original_protection s < 0 -> p_orig m < 0 /\ p_changed m = false) /\
  (0 <= original_protection s -> p_orig m = original_protection s /\ executable (p_orig m) = true /\
                                 g_pid s = pid /\ g_address s = address).

Abbreviation pwp := (wp prot_step).

Lemma restore_protection_wp s m Q :
  0 <= original_protection s -> prot_inv s m ->
  (forall rc ok m', prot_inv (with_restore s rc ok) m' -> (ok = true -> p_changed m' = false) ->
     p_wrote m' = p_wrote m -> Q (with_restore s rc ok) m') ->
  pwp (restore_protection pid address s) m Q.
Proof.
  intros H0 [_ Hi] HQ. destruct (Hi H0) as (Ho & Hx & Hp & Ha). intros rc. cbn [prot_step].
  rewrite !Z.eqb_refl, Ho, Z.eqb_refl. replace (0 <=? original_protection s) with true by (symmetry; breflect; lia).
  cbn [andb orb bindp sysc call]. destruct (rc =? 0); cbn [wp].
  - intros now. cbn [prot_step p_orig]. rewrite !Z.eqb_refl. cbn [andb].
    replace (original_protection s <? 0) with false by (symmetry; breflect; lia).
    cbn [bindp wp]. apply HQ; [split; cbn; [lia|by rewrite <- Ho]| |done]. cbn. by intros ->.
  - apply HQ; [split; cbn; [lia|by rewrite <- Ho]|done|done].
Qed.

(** Bytes go out only while the writable protection is confirmed; the state of the
    entry does not change. *)
Lemma write_byte_wp protect s m Q :
  0 <= p_orig m -> p_seen m = rw (p_orig m) ->
  (forall rc ptrace mdbg m', p_orig m' = p_orig m -> p_changed m' = p_changed m -> p_wrote m' = true ->
     Q (rc, with_write s protect ptrace mdbg) m') ->
  pwp (write_byte pid address byte protect s) m Q.
Proof.
  intros Ho Hs HQ. unfold write_byte. intros [rc err]. cbn [prot_step].
  rewrite !Z.eqb_refl, bytes_eqb_refl, Hs, Z.eqb_refl.
  replace (0 <=? p_orig m) with true by (symmetry; breflect; lia). cbn [andb bindp sysc call].
  destruct (_ || _); [|by apply HQ].
  unfold shellui_mdbg_write_byte. apply wp_bind, wp_bind.
  apply (transfer_exact_frame prot_step (Some byte) pid address 1 (fun _ _ => True)
    (fun m' => p_orig m' = p_orig m /\ p_changed m' = p_changed m /\ p_seen m' = p_seen m /\ p_wrote m' = true));
    try done.
  - intros m0 e He HK. exists m0. split; [|done]. destruct e as [[] r]; try done.
  - intros d m0 x (H1 & H2 & H3 & H4) _ Hlt. unfold chunk_event.
    replace (Z.of_nat (length d)) with 0 by lia. rewrite Z.add_0_r. cbn [prot_step].
    rewrite !Z.eqb_refl, bytes_eqb_refl, H1, H3, Hs, Z.eqb_refl.
    replace (0 <=? p_orig m) with true by (symmetry; breflect; lia). cbn [andb].
    eexists. split; [done|]. split; [|done]. cbn. by rewrite Hs in H3.
  - intros rc' d m' (H1 & H2 & H3 & H4) _. cbn [bindp wp]. by apply HQ.
Qed.
(** How an attempt ends. *)
Definition write_end (s0 : ShellUiGuardWriteState) (r : Z * ShellUiGuardWriteState) (m : Prot) : Prop :=
  prot_inv r.2 m /\
  (protection_restored r.2 = true -> p_changed m = false) /\
  (r.1 = 0 -> protection_restored r.2 = true /\ p_wrote m = true) /\
  (0 <= original_protection s0 -> original_protection r.2 = original_protection s0).

(** The tail shared by every outcome of the write. *)
Lemma restore_tail_wp s0 write_rc s m :
  0 <= original_protection s -> prot_inv s m ->
  (0 <= original_protection s0 -> original_protection s = original_protection s0) ->
  (write_rc = 0 -> p_wrote m = true) ->
  pwp (bindp (restore_protection pid address s) (fun s4 =>
         Ret (if negb (protection_restored s4) then -1001
              else if negb (protect_rc s4 =? 0) then -1000 else write_rc, s4))) m (write_end s0).
Proof.
  intros H0 Hi H1 Hw. apply wp_bind, restore_protection_wp; [done|done|].
  intros rc ok m' Hi' Hok Hwr. cbn [wp]. unfold write_end. cbn [fst snd].
  split; [done|]. split; [exact Hok|]. split; [|exact H1]. rewrite Hwr.
  destruct (protection_restored _) eqn:E; cbn [negb]; [|done]. destruct (_ =? 0); cbn [negb]; [|done]. auto.
Qed.

Lemma executable_rw v : executable v = true -> 0 <= v -> 0 <= rw v.
Proof. intros _ Hv. unfold rw. rewrite !Z.lor_nonneg. done. Qed.

Lemma write_protected_wp s0 current s m :
  0 <= original_protection s -> prot_inv s m ->
  (protection_restored s = true -> p_changed m = false) ->
  (0 <= original_protection s0 -> original_protection s = original_protection s0) ->
  pwp (write_protected pid address byte current s) m (write_end s0).
Proof.
  intros H0 Hi Hr Hs. pose proof Hi as [_ Hi']. destruct (Hi' H0) as (Ho & Hx & Hp & Ha).
  unfold write_protected. destruct (_ && _); [unfold write_end; cbn [wp fst snd]; by split_and!|].
  fold (rw (original_protection s)). apply wp_bind.
  (* after the entry was made writable *)
  assert (forall protect m1, prot_inv s m1 ->
    pwp (bindp (if protect =? 0 then
           bindp (sysc (GetProt pid address)) (fun now =>
             if now =? rw (original_protection s)
             then write_byte pid address byte protect (with_write s protect (ptrace_write_rc s) (mdbg_write_rc s))
             else Ret (EIO, with_write s protect (ptrace_write_rc s) (mdbg_write_rc s)))
         else Ret (EIO, with_write s protect (ptrace_write_rc s) (mdbg_write_rc s)))
      (fun '(write_rc, s3) => bindp (restore_protection pid address s3) (fun s4 =>
         Ret (if negb (protection_restored s4) then -1001
              else if negb (protect_rc s4 =? 0) then -1000 else write_rc, s4)))) m1 (write_end s0)) as Htail.
  { intros protect m1 Hi1. pose proof Hi1 as [_ Hi1']. destruct (Hi1' H0) as (Ho1 & Hx1 & _).
    apply wp_bind. destruct (protect =? 0); [|by apply restore_tail_wp].
    intros now. cbn [prot_step]. rewrite !Z.eqb_refl, Ho1. cbn [andb].
    replace (original_protection s <? 0) with false by (symmetry; breflect; lia).
    assert (forall ch wr, prot_inv s {| p_orig := original_protection s; p_changed := ch; p_seen := now; p_wrote := wr |}) as Hany.
    { intros ch wr. split; cbn; [lia|]. intros _. by rewrite <- Ho1. }
    cbn [bindp sysc call]. destruct (now =? rw (original_protection s)) eqn:E.
    - apply Z.eqb_eq in E. apply write_byte_wp; cbn [p_orig p_seen]; [done|done|].
      intros rc ptrace mdbg m' E1 E2 E3. apply restore_tail_wp; try done.
      split; cbn; [lia|]. intros _. rewrite E1. by rewrite <- Ho1.
    - apply restore_tail_wp; try done. apply Hany. }
  destruct (current =? rw (original_protection s)); [by apply Htail|].
  intros rc. cbn [prot_step]. rewrite !Z.eqb_refl, Ho, Z.eqb_refl, orb_true_r.
  replace (0 <=? original_protection s) with true by (symmetry; breflect; lia). cbn [andb].
  apply Htail. split; cbn; [lia|]. intros _. by rewrite <- Ho.
Qed.

(** The state between the first query and the snapshot: what was seen is what is saved. *)
Definition seen_inv (s : ShellUiGuardWriteState) (current : Z) (m : Prot) : Prop :=
  if original_protection s <? 0
  then p_orig m = (if executable current then current else -1) /\ p_changed m = false
  else prot_inv s m.

Lemma write_at_wp s0 current s m :
  0 <= current -> seen_inv s current m ->
  (protection_restored s = true -> p_changed m = false) ->
  (0 <= original_protection s0 -> original_protection s = original_protection s0) ->
  pwp (write_at pid address byte current s) m (write_end s0).
Proof.
  intros Hc Hi Hr Hs. unfold write_at, seen_inv in *.
  destruct (original_protection s <? 0) eqn:E; breflect.
  - destruct Hi as [Ho Hch]. destruct (_ || _) eqn:Ex.
    + assert (executable current = false) as Hx.
      { unfold executable. apply orb_true_iff in Ex as [Ex|Ex].
        - replace (current <=? 0xff) with false by (symmetry; breflect; lia). by rewrite andb_false_r.
        - rewrite Ex. by rewrite andb_false_r. }
      rewrite Hx in Ho. unfold write_end; cbn [wp fst snd]. split_and!; try done.
      split; [intros _; by rewrite Ho|]. lia.
    + assert (executable current = true) as Hx.
      { unfold executable. apply orb_false_iff in Ex as [Ex1 Ex2]. rewrite Ex2.
        replace (0 <=? current) with true by (symmetry; breflect; lia).
        by replace (current <=? 0xff) with true by (symmetry; breflect; lia). }
      rewrite Hx in Ho. apply write_protected_wp; cbn [with_snapshot original_protection protection_restored]; try done.
      * split; cbn; [lia|]. intros _. by rewrite Ho.
      * lia.
  - destruct (_ || _).
    + unfold write_end; cbn [wp fst snd]. by split_and!.
    + by apply write_protected_wp.
Qed.

(** The state the caller starts from. *)
Definition start_ok (s : ShellUiGuardWriteState) (m : Prot) : Prop :=
  prot_inv s m /\ (original_protection s < 0 -> protection_restored s = false) /\
  (protection_restored s = true -> p_changed m = false).

Lemma shellui_write_guard_byte_wp s m :
  (0 <= original_protection s -> p_orig m = original_protection s /\ executable (p_orig m) = true) ->
  (original_protection s < 0 -> p_orig m < 0 /\ p_changed m = false) ->
  (protection_restored s = true -> p_changed m = false) ->
  pwp (shellui_write_guard_byte pid address byte s) m (fun r m' =>
    (r.1 = EINVAL /\ r.2 = s /\ m' = m) \/ write_end s r m').
Proof.
  intros Hpos Hneg Hr. unfold shellui_write_guard_byte. destruct (_ || _) eqn:E; [by left|].
  apply orb_false_iff in E as [_ E].
  intros current. cbn [prot_step]. rewrite !Z.eqb_refl. cbn [andb bindp sysc call].
  destruct (original_protection s <? 0) eqn:Eo; breflect.
  - destruct (Hneg Eo) as [Ho Hch]. replace (p_orig m <? 0) with true by (symmetry; breflect; lia).
    destruct (current <? 0) eqn:Ec; breflect.
    + cbn [clear_attempt original_protection].
      replace (0 <=? original_protection s) with false by (symmetry; breflect; lia).
      cbn [bindp wp protection_restored negb]. right. unfold write_end; cbn [fst snd].
      split_and!; try done. split; cbn; [|lia]. intros _. unfold executable.
      by replace (0 <=? current) with false by (symmetry; breflect; lia).
    + eapply wp_mono; [intros r m' H; right; exact H|]. apply write_at_wp; try done. unfold seen_inv. cbn.
      by replace (original_protection s <? 0) with true by (symmetry; breflect; lia).
  - destruct (Hpos Eo) as [Ho Hx]. rewrite Ho.
    replace (original_protection s <? 0) with false by (symmetry; breflect; lia).
    destruct E as [E|[E1 E2]]; [lia|].
    set (m1 := {| p_orig := original_protection s; p_changed := _; p_seen := current; p_wrote := _ |}).
    assert (prot_inv (clear_attempt s) m1) as Hi1.
    { split; cbn; [lia|]. intros _. by rewrite <- Ho. }
    destruct (current <? 0) eqn:Ec; breflect.
    + cbn [clear_attempt original_protection].
      replace (0 <=? original_protection s) with true by (symmetry; breflect; lia).
      apply wp_bind. apply (restore_protection_wp (clear_attempt s)); [done|done|].
      intros rc ok m2 Hi2 Hok Hwr. destruct ok; cbn [protection_restored with_restore negb].
      * eapply wp_mono; [intros r m' H; right; exact H|].
        apply write_at_wp; cbn [with_restore original_protection protection_restored clear_attempt]; try done; auto.
        unfold seen_inv. cbn.
        by replace (original_protection s <? 0) with false by (symmetry; breflect; lia).
      * cbn [wp]. right. unfold write_end. cbn [fst snd]. split_and!; try done.
    + eapply wp_mono; [intros r m' H; right; exact H|]. apply write_at_wp; try done. unfold seen_inv. cbn.
      by replace (original_protection s <? 0) with false by (symmetry; breflect; lia).
Qed.
End Contract.

(** ** The write under another contract

    For a client whose monitor accepts the calls that the write makes, with an invariant. *)
Section Frame.
Context {M : Type} (step : M -> event sys_ret -> option M) (pid address byte : Z) (K : M -> Prop).

(** The calls of the write. *)
Definition guard_event (e : event sys_ret) : Prop :=
  match e with
  | Ev GetAuth _ | Ev (SetAuth _) _ | Ev GetCaps _ | Ev (SetCaps _) _ => True
  | Ev (GetProt p a) _ => p = pid /\ a = address
  | Ev (Mprotect p a n v) _ => p = pid /\ a = address /\ n = 1
  | Ev (PtCopyin p a b) _ => p = pid /\ a = address /\ b = [byte]
  | Ev (MdbgWrite p a b) _ => p = pid /\ a = u64 address /\ b = [byte]
  | _ => False
  end.
Hypothesis K_step : forall m e, guard_event e -> K m -> exists m', step m e = Some m' /\ K m'.

Lemma guard_call c m Q :
  (forall r, guard_event (Ev c r)) -> K m -> (forall r m', K m' -> Q r m') -> wp step (sysc c) m Q.
Proof. intros Hc HK HQ r. destruct (K_step m (Ev c r) (Hc r) HK) as (m' & -> & HK'). by apply HQ. Qed.

Lemma restore_protection_frame s m Q :
  K m -> (forall s' m', K m' -> Q s' m') -> wp step (restore_protection pid address s) m Q.
Proof.
  intros HK HQ. apply wp_bind, guard_call; [done..|]. intros rc m1 H1. destruct (rc =? 0); [|by apply HQ].
  apply wp_bind, guard_call; [done..|]. intros now m2 H2. by apply HQ.
Qed.

Lemma write_byte_frame protect s m Q :
  K m -> (forall r m', K m' -> Q r m') -> wp step (write_byte pid address byte protect s) m Q.
Proof.
  intros HK HQ. apply wp_bind, guard_call; [done..|]. intros [rc err] m1 H1. cbv beta iota zeta.
  destruct (_ || _); [|by apply HQ]. apply wp_bind, wp_bind.
  apply (transfer_exact_frame step (Some byte) pid address 1 (fun _ _ => True) K); try done.
  - intros m0 [c r] He H0. destruct (K_step m0 (Ev c r)) as (m' & Hm & Hk); [by destruct c|done|]. by exists m'.
  - intros d m0 x H0 _ Hlt. unfold chunk_event. replace (Z.of_nat (length d)) with 0 by lia.
    rewrite Z.add_0_r. edestruct K_step as (m' & Hm & Hk); [|exact H0|by exists m']. done.
  - intros rc' d m' H' _. cbn [bindp wp]. by apply HQ.
Qed.

Lemma write_at_frame current s m Q :
  K m -> (forall r m', K m' -> Q r m') -> wp step (write_at pid address byte current s) m Q.
Proof.
  intros HK HQ. unfold write_at. destruct (_ || _); [by apply HQ|].
  unfold write_protected. destruct (_ && _); [by apply HQ|].
  set (s1 := if original_protection s <? 0 then _ else _). apply wp_bind.
  assert (forall protect m1, K m1 -> wp step
    (bindp (if protect =? 0 then
         bindp (sysc (GetProt pid address)) (fun now =>
         if now =? Z.lor (Z.lor (original_protection s1) PROT_READ) PROT_WRITE
         then write_byte pid address byte protect (with_write s1 protect (ptrace_write_rc s1) (mdbg_write_rc s1))
         else Ret (EIO, with_write s1 protect (ptrace_write_rc s1) (mdbg_write_rc s1)))
       else Ret (EIO, with_write s1 protect (ptrace_write_rc s1) (mdbg_write_rc s1)))
     (fun '(write_rc, s3) => bindp (restore_protection pid address s3) (fun s4 =>
      Ret (if negb (protection_restored s4) then -1001
           else if negb (protect_rc s4 =? 0) then -1000 else write_rc, s4)))) m1 Q) as Htail.
  { intros protect m1 H1. apply wp_bind.
    assert (forall r m2, K m2 -> wp step (let '(write_rc, s3) := r in
      bindp (restore_protection pid address s3) (fun s4 =>
      Ret (if negb (protection_restored s4) then -1001
           else if negb (protect_rc s4 =? 0) then -1000 else write_rc, s4))) m2 Q) as Hend.
    { intros [wrc s3] m2 H2. apply wp_bind, restore_protection_frame; [done|]. intros s4 m3 H3. by apply HQ. }
    destruct (protect =? 0); [|by apply Hend]. apply wp_bind, guard_call; [done..|]. intros now m2 H2.
    destruct (now =? _); [by apply write_byte_frame|by apply Hend]. }
  destruct (current =? _); [by apply Htail|]. apply guard_call; [done..|]. intros rc m1 H1. by apply Htail.
Qed.

Lemma shellui_write_guard_byte_frame s m Q :
  K m -> (forall r m', K m' -> Q r m') -> wp step (shellui_write_guard_byte pid address byte s) m Q.
Proof.
  intros HK HQ. unfold shellui_write_guard_byte. destruct (_ || _); [by apply HQ|].
  apply wp_bind, guard_call; [done..|]. intros current m1 H1.
  destruct (current <? 0); [|by apply write_at_frame]. apply wp_bind.
  assert (forall s1 m2, K m2 -> wp step (if negb (protection_restored s1) then Ret (EIO, s1)
      else write_at pid address byte (original_protection s1) s1) m2 Q) as Hend.
  { intros s1 m2 H2. destruct (negb _); [by apply HQ|by apply write_at_frame]. }
  destruct (0 <=? _); [|by apply Hend]. by apply restore_protection_frame.
Qed.
End Frame.

Definition Prot_init : Prot := {| p_orig := -1; p_changed := false; p_seen := -1; p_wrote := false |}.

(** What an attempt hands to the next one. *)
Definition handed (pid address : Z) (s : ShellUiGuardWriteState) (m : Prot) : Prop :=
  (0 <= original_protection s -> p_orig m = original_protection s /\ executable (p_orig m) = true) /\
  (original_protection s < 0 -> p_orig m < 0 /\ p_changed m = false) /\
  (protection_restored s = true -> p_changed m = false).

Lemma write_end_handed pid address s0 r m : write_end pid address s0 r m -> handed pid address r.2 m.
Proof. intros ((Hneg & Hpos) & Hr & _). split_and!; [|done|done]. intros H. by destruct (Hpos H) as (? & ? & _). Qed.

Lemma guard_write_sound pid address byte s m t r :
  handed pid address s m -> exec (shellui_write_guard_byte pid address byte s) t r ->
  exists m', monitor (prot_step pid address byte) m t = Some m' /\ handed pid address r.2 m' /\
    (r.1 = 0 -> protection_restored r.2 = true /\ p_changed m' = false /\ p_wrote m' = true) /\
    (0 <= original_protection s -> original_protection r.2 = original_protection s).
Proof.
  intros Hh He. pose proof Hh as (H1 & H2 & H3).
  destruct (wp_sound _ _ m _ (shellui_write_guard_byte_wp pid address byte s m H1 H2 H3) t r He)
    as (m' & Hm & Hend). exists m'. split; [done|]. destruct Hend as [(E1 & E2 & ->)|Hend].
  - rewrite E1, E2. split_and!; try done; apply Hh.
  - split; [by eapply write_end_handed|]. destruct Hend as (_ & E1 & E2 & E3).
    split; [|done]. intros H0. destruct (E2 H0). auto.
Qed.


(** A kernel with one entry of protection [RX]; ptrace writes fail with EFAULT while MDBG works. *)
Definition sim_entry (prot : Z) (c : sys) : sys_ret c * Z :=
  match c with
  | GetAuth => (42, prot)
  | SetAuth _ => (0, prot)
  | GetCaps => (Some (repeat 1 16), prot)
  | GetProt _ _ => (prot, prot)
  | Mprotect _ _ _ v => (0, v)
  | MdbgRead _ _ _ | MdbgWrite _ _ _ =>
      ({| x_rc := 0; x_errno := 0; x_status := 0; x_length := 1; x_data := [] |}, prot)
  | MdbgCopyout _ _ _ | PtCopyout _ _ _ => ((0, []), prot)
  | PtCopyin _ _ _ => ((-1, EFAULT), prot)
  | FOpen _ _ => (false, prot)
  | FRead _ => ([], prot)
  | FGetc => (None, prot)
  | _ => (0, prot)
  end.

Definition guard_run1 := run sim_entry (shellui_write_guard_byte 9 0x880000010 0xc3 ShellUiGuardWriteState_init) 5.
Definition guard_run2 := run sim_entry (shellui_write_guard_byte 9 0x880000010 0x55 guard_run1.1.1.2) guard_run1.1.2.

