(* ===== verification/HookController.v ===== *)
(** The controller's side of the hook protocol: [src/ps5/shellui_hook_controller.hpp] and
    [src/ps5/shellui_hook_controller.cpp].  One poll takes a request file, checks it,
    stops ShellUI, verifies the code, changes it, verifies again, rolls back what it
    cannot confirm, and publishes an acknowledgement. *)
From S2P Require Import Prelude Effects HookProtocol Debugger GuardWrite.

Definition kPtraceAuthId : Z := 0x4800000000010003.
Definition kPs5CodePageSize : Z := 0x4000.

Inductive ShellUiHookPollResult := NoRequest | Applied | Failed.

(** [ShellUiHookPatchReport], in two parts: what the outcome rests on ... *)
Record Core := {
  status : ShellUiHookStatus; sdk_version : Z; method_address : Z; displaced_size : Z;
  eta_chain : bool; read_rc : Z; write_rc : Z;
  expected_matched : bool; verified : bool; restored : bool;
  detached : bool; auth_restored : bool;
  probe : bool; main_thread_guard : bool; observed : list Z
}.

(** ... and the diagnostics that are only logged. *)
Record Diagnostics := {
  backend : string; read_primary_rc : Z; read_fallback_rc : Z;
  original_protection : Z; protect_rc : Z; ptrace_write_rc : Z; mdbg_write_rc : Z;
  restore_protection_rc : Z; protection_restored : bool
}.

Definition zero16 : list Z := repeat 0 kShellUiHookPatchSize.

Definition Core_init : Core := {|
  status := InvalidRequest; sdk_version := 0; method_address := 0; displaced_size := 0;
  eta_chain := false; read_rc := -1; write_rc := -1;
  expected_matched := false; verified := false; restored := false;
  detached := false; auth_restored := false;
  probe := false; main_thread_guard := false; observed := zero16 |}.

Definition Diagnostics_init : Diagnostics := {|
  backend := "none"; read_primary_rc := -1; read_fallback_rc := -1;
  original_protection := -1; protect_rc := -1; ptrace_write_rc := -1; mdbg_write_rc := -1;
  restore_protection_rc := -1; protection_restored := false |}.

(** What the poll knows before it touches anything. *)
Definition classify (q : ShellUiHookRequest) (sdk : Z) (st : ShellUiHookStatus) (eta : bool) : Core := {|
  status := st; sdk_version := sdk; method_address := q_method_address q;
  displaced_size := q_displaced_size q; eta_chain := eta; read_rc := -1; write_rc := -1;
  expected_matched := false; verified := false; restored := false;
  detached := false; auth_restored := false;
  probe := shellui_hook_request_is_probe q;
  main_thread_guard := shellui_hook_request_is_main_thread_guard q; observed := zero16 |}.

Definition with_status (c : Core) (st : ShellUiHookStatus) : Core := {|
  status := st; sdk_version := sdk_version c; method_address := method_address c;
  displaced_size := displaced_size c; eta_chain := eta_chain c;
  read_rc := read_rc c; write_rc := write_rc c; expected_matched := expected_matched c;
  verified := verified c; restored := restored c; detached := detached c;
  auth_restored := auth_restored c; probe := probe c; main_thread_guard := main_thread_guard c;
  observed := observed c |}.

(** The result of the work on a stopped ShellUI. *)
Definition with_work (c : Core) (st : ShellUiHookStatus) (eta : bool) (rrc wrc : Z)
    (matched ver rest : bool) (obs : list Z) : Core := {|
  status := st; sdk_version := sdk_version c; method_address := method_address c;
  displaced_size := displaced_size c; eta_chain := eta; read_rc := rrc; write_rc := wrc;
  expected_matched := matched; verified := ver; restored := rest;
  detached := detached c; auth_restored := auth_restored c;
  probe := probe c; main_thread_guard := main_thread_guard c; observed := obs |}.

Definition with_finish (c : Core) (st : ShellUiHookStatus) (det auth : bool) : Core := {|
  status := st; sdk_version := sdk_version c; method_address := method_address c;
  displaced_size := displaced_size c; eta_chain := eta_chain c;
  read_rc := read_rc c; write_rc := write_rc c; expected_matched := expected_matched c;
  verified := verified c; restored := restored c; detached := det; auth_restored := auth;
  probe := probe c; main_thread_guard := main_thread_guard c; observed := observed c |}.

Definition flag (b : bool) : Z := if b then 1 else 0.

(** The acknowledgement of [write_ack], without and with its checksum. *)
Definition ack_of (q : ShellUiHookRequest) (c : Core) (checksum : Z) : ShellUiHookAck := {|
  a_magic := kShellUiHookAckMagic; a_version := kShellUiHookProtocolVersion;
  a_pid := q_pid q; a_nonce := q_nonce q; a_status := status_code (status c);
  a_read_rc := read_rc c; a_write_rc := write_rc c;
  a_verified := flag (verified c); a_restored := flag (restored c);
  a_detached := flag (detached c); a_auth_restored := flag (auth_restored c);
  a_phase := phase_code (if probe c then PhaseProbe
                         else if main_thread_guard c then PhaseMainThreadGuard else PhasePatch);
  a_observed := observed c; a_checksum := checksum |}.
Definition make_ack (q : ShellUiHookRequest) (c : Core) : ShellUiHookAck :=
  ack_of q c (shellui_hook_ack_checksum (ack_of q c 0)).

(** The lambdas' captured state. *)
Record Session := {
  s_diag : Diagnostics; s_code_reads : Z; s_attempted : bool; s_guard : ShellUiGuardWriteState
}.

Section Programs.
Local Open Scope prog_scope.

(** [read_exact_file]: exactly [size] bytes and then the end of the file. *)
Definition read_exact_file (path : Path) (size : nat) : sprog (option (list Z)) :=
  let* opened := sysc (FOpen path false) in
  if negb opened then Ret None
  else
    let* raw := sysc (FRead size) in
    let bytes := take size (map u8 raw) in
    let* trailing := sysc FGetc in
    sysc FClose ;;;
    Ret (if (length bytes =? size)%nat && bool_decide (trailing = None) then Some bytes else None).

Definition write_exact_file_atomic (temporary final : Path) (value : list Z) : sprog bool :=
  let* opened := sysc (FOpen temporary true) in
  if negb opened then Ret false
  else
    let* count := sysc (FWrite value) in
    let* complete := (if count =? Z.of_nat (length value)
                      then let* r := sysc FFlush in Ret (r =? 0) else Ret false) in
    let* close_rc := sysc FClose in
    if negb complete || negb (close_rc =? 0) then sysc (Unlink temporary) ;;; Ret false
    else
      let* rename_rc := sysc (Rename temporary final) in
      if negb (rename_rc =? 0) then sysc (Unlink temporary) ;;; Ret false else Ret true.

Definition write_ack (q : ShellUiHookRequest) (c : Core) : sprog unit :=
  write_exact_file_atomic AckTempPath AckPath (ack_bytes (make_ack q c)) ;;; Ret tt.

Definition clear_shellui_hook_protocol_files : sprog unit :=
  sysc (Unlink RequestPath) ;;; sysc (Unlink RequestTempPath) ;;;
  sysc (Unlink AckPath) ;;; sysc (Unlink AckTempPath) ;;; Ret tt.

(** The facts that the lambdas capture. *)
Record Target := {
  t_pid : Z; t_request : ShellUiHookRequest; t_sdk : Z; t_backend : ShellUiHookBackend;
  t_guard : bool; t_eta : bool; t_fw900 : bool; t_fw1160 : bool
}.

Definition after_read (r : ShellUiCodeReadResult) (s : Session) : Session :=
  let d := s_diag s in
  let first := s_code_reads s =? 0 in
  {| s_diag := {|
       backend := if rd_fallback_attempted r && negb (s_attempted s)
                  then "ptrace-io+mdbg-read" else backend d;
       read_primary_rc := if first then rd_primary_rc r else read_primary_rc d;
       read_fallback_rc := if first then rd_fallback_rc r else read_fallback_rc d;
       original_protection := original_protection d; protect_rc := protect_rc d;
       ptrace_write_rc := ptrace_write_rc d; mdbg_write_rc := mdbg_write_rc d;
       restore_protection_rc := restore_protection_rc d;
       protection_restored := protection_restored d |};
     s_code_reads := u32 (s_code_reads s + 1); s_attempted := s_attempted s; s_guard := s_guard s |}.

(** [read_target] into a 16-byte array. *)
Definition read_target (t : Target) (s : Session) : sprog (Z * list Z * Session) :=
  let pid := t_pid t in
  let address := q_method_address (t_request t) in
  let* (r, data) := read_shellui_code (t_sdk t) (t_backend t) kShellUiHookPatchSize
    (fun n => let* (rc, raw) := sysc (PtCopyout pid address n) in Ret (rc, buffer n raw))
    (fun n => if firmware_is_fw1160 (t_sdk t) then shellui_mdbg_read_exact pid address n
              else let* (rc, raw) := sysc (MdbgCopyout pid address n) in Ret (rc, buffer n raw)) in
  Ret (rd_rc r, data, after_read r s).

Definition after_guard_write (g : ShellUiGuardWriteState) (s : Session) : Session :=
  let d := s_diag s in
  let first_write := negb (s_attempted s) in
  {| s_diag := {|
       backend := if first_write
                  then if GuardWrite.mdbg_write_rc g =? -1 then "ptrace-io+vm-protection"
                       else "ptrace-io+mdbg+vm-protection"
                  else backend d;
       read_primary_rc := read_primary_rc d; read_fallback_rc := read_fallback_rc d;
       original_protection := GuardWrite.original_protection g;
       protect_rc := if first_write then GuardWrite.protect_rc g else protect_rc d;
       ptrace_write_rc := if first_write then GuardWrite.ptrace_write_rc g else ptrace_write_rc d;
       mdbg_write_rc := if first_write then GuardWrite.mdbg_write_rc g else mdbg_write_rc d;
       restore_protection_rc := GuardWrite.restore_protection_rc g;
       protection_restored := GuardWrite.protection_restored g |};
     s_code_reads := s_code_reads s; s_attempted := true; s_guard := g |}.

(** The part of the 16 bytes that a write changes: first byte of a guard, jump target of
    an existing chain, or the whole patch. *)
Definition write_window (guard eta : bool) : nat * nat :=
  if guard then (0, 1)%nat else if eta then (6, 8)%nat else (0%nat, kShellUiHookPatchSize).

Definition write_target (t : Target) (bytes : list Z) (s : Session) : sprog (Z * Session) :=
  let pid := t_pid t in
  let q := t_request t in
  if t_fw1160 t then
    let* (rc, g) := shellui_write_guard_byte pid (q_method_address q) (byte_at bytes 0) (s_guard s) in
    Ret (rc, after_guard_write g s)
  else
    let '(offset, size) := write_window (t_guard t) (t_eta t) in
    let address := u64 (q_method_address q + Z.of_nat offset) in
    let part := slice offset size bytes in
    if t_fw900 t then
      let page := Z.land (q_method_address q) (Z.lxor (2 ^ 64 - 1) (kPs5CodePageSize - 1)) in
      let* protect := sysc (Mprotect pid page kPs5CodePageSize
                              (Z.lor (Z.lor PROT_READ PROT_WRITE) PROT_EXEC)) in
      if negb (protect =? 0) then Ret (-1000, s)
      else
        let* first := sysc (MdbgCopyin pid address part) in
        let* rc := (if negb (first =? 0)
                    then let* (r, _) := sysc (PtCopyin pid address part) in Ret r
                    else Ret first) in
        let* restore := sysc (Mprotect pid page kPs5CodePageSize (Z.lor PROT_READ PROT_EXEC)) in
        Ret (if negb (restore =? 0) then -1001 else rc, s)
    else match t_backend t with
         | Mdbg => let* rc := sysc (MdbgCopyin pid address part) in Ret (rc, s)
         | _ => let* (rc, _) := sysc (PtCopyin pid address part) in Ret (rc, s)
         end.

(** Write the desired bytes, verify, and roll back what cannot be confirmed.
    Returns the status, the result codes and flags, and [patch_applied]. *)
Definition apply_patch (t : Target) (c : Core) (rrc : Z) (s : Session)
    : sprog (Core * bool * Session) :=
  let q := t_request t in
  let* (wrc, s1) := write_target t (q_desired q) s in
  let* (verify_rc, now, s2) := read_target t s1 in
  let ver := (verify_rc =? 0) && bytes_eqb now (q_desired q) in
  if ver && (wrc =? 0) then
    Ret (with_work c Success (eta_chain c) rrc wrc true ver false (observed c), true, s2)
  else
    let st := if wrc =? 0 then VerifyFailure else WriteFailure in
    let still_original := (verify_rc =? 0) && bytes_eqb now (q_expected q) in
    if still_original && (negb (t_fw1160 t) || GuardWrite.protection_restored (s_guard s2)) then
      Ret (with_work c st (eta_chain c) rrc wrc true ver true (observed c), false, s2)
    else
      let* (restore_rc, s3) := write_target t (q_expected q) s2 in
      let* (rest, s4) :=
        (if restore_rc =? 0 then
           let* (check_rc, check, s5) := read_target t s3 in
           Ret ((check_rc =? 0) && bytes_eqb check (q_expected q), s5)
         else Ret (false, s3)) in
      Ret (with_work c st (eta_chain c) rrc wrc true ver rest (observed c), false, s4).

(** The work on a stopped ShellUI. *)
Definition work (t : Target) (c : Core) (s : Session) : sprog (Core * bool * Session) :=
  let q := t_request t in
  let* (rrc, now, s1) := read_target t s in
  if probe c then
    if rrc =? 0 then
      Ret (with_work c Success (bytes_eqb (take 6 now) kShellUiAbsoluteJumpPrefix) rrc (write_rc c)
             true true false now, false, s1)
    else Ret (with_work c ExpectedBytesMismatch (eta_chain c) rrc (write_rc c) false false false
                (observed c), false, s1)
  else if negb (rrc =? 0) || negb (bytes_eqb now (q_expected q)) then
    Ret (with_work c ExpectedBytesMismatch (eta_chain c) rrc (write_rc c) false false false
           (observed c), false, s1)
  else apply_patch t c rrc s1.

Definition poll_result (c : Core) : ShellUiHookPollResult :=
  match status c with Success => Applied | _ => Failed end.

(** From the saved authority on. *)
Definition run_request (t : Target) (c : Core) (s : Session)
    : sprog (ShellUiHookPollResult * Core * Diagnostics) :=
  let q := t_request t in
  let* original_auth := sysc GetAuth in
  let* auth_ready := (if original_auth =? 0 then Ret false
                      else let* rc := sysc (SetAuth kPtraceAuthId) in Ret (rc =? 0)) in
  if negb auth_ready then
    let c1 := with_status c AuthFailure in
    write_ack q c1 ;;; Ret (Failed, c1, s_diag s)
  else
    let* attach_rc := sysc (PtAttach (t_pid t)) in
    let* (c1, patch_applied, det, s1) :=
      (if negb (attach_rc =? 0) then Ret (with_status c AttachFailure, false, false, s)
       else
         let* (c0, applied, s0) := work t c s in
         let* detach_rc := sysc (PtDetach (t_pid t)) in
         sysc (KillCont (t_pid t)) ;;;
         Ret (if negb (detach_rc =? 0) && applied then with_status c0 DetachFailure else c0,
              applied, detach_rc =? 0, s0)) in
    let* set_rc := sysc (SetAuth original_auth) in
    let* auth_back := (if set_rc =? 0 then let* a := sysc GetAuth in Ret (a =? original_auth)
                       else Ret false) in
    let c2 := with_finish c1
                (if negb auth_back && patch_applied then AuthRestoreFailure else status c1)
                det auth_back in
    write_ack q c2 ;;; Ret (poll_result c2, c2, s_diag s1).

(** From a complete request file on. *)
Definition serve_request (shellui_pid : Z) (bytes : list Z)
    : sprog (ShellUiHookPollResult * Core * Diagnostics) :=
  let q := request_of_bytes bytes in
  sysc (Unlink RequestPath) ;;;
  let* raw_sdk := sysc FirmwareSdk in
  let sdk := u32 raw_sdk in
  let is_probe := shellui_hook_request_is_probe q in
  let is_guard := shellui_hook_request_is_main_thread_guard q in
  let valid := if is_probe then shellui_hook_probe_request_is_valid q shellui_pid
               else if is_guard then shellui_main_thread_guard_request_is_valid q shellui_pid
               else shellui_hook_request_is_valid q shellui_pid in
  if negb valid then
    let c := classify q sdk InvalidRequest false in
    write_ack q c ;;; Ret (Failed, c, Diagnostics_init)
  else
    let eta := negb is_probe && negb is_guard && shellui_hook_is_eta_chain q in
    let be := if is_probe then shellui_hook_probe_backend sdk
              else if is_guard then shellui_main_thread_guard_backend sdk
              else shellui_hook_backend sdk eta in
    if bool_decide (be = Unsupported) then
      let c := classify q sdk UnsupportedFirmware eta in
      write_ack q c ;;; Ret (Failed, c, Diagnostics_init)
    else
      let fw900 := is_guard && (family_of sdk =? 0x09000000) && bool_decide (be = Mdbg) in
      let fw1160 := is_guard && firmware_is_fw1160 sdk && bool_decide (be = PtraceIo) in
      let d := {| backend := if fw900 then "mdbg-rwx"
                             else if bool_decide (be = Mdbg) then "mdbg" else "ptrace-io";
                  read_primary_rc := -1; read_fallback_rc := -1; original_protection := -1;
                  protect_rc := -1; ptrace_write_rc := -1; mdbg_write_rc := -1;
                  restore_protection_rc := -1; protection_restored := false |} in
      run_request
        {| t_pid := shellui_pid; t_request := q; t_sdk := sdk; t_backend := be;
           t_guard := is_guard; t_eta := eta; t_fw900 := fw900; t_fw1160 := fw1160 |}
        (classify q sdk InvalidRequest eta)
        {| s_diag := d; s_code_reads := 0; s_attempted := false;
           s_guard := ShellUiGuardWriteState_init |}.

Definition poll_and_apply_shellui_hook (shellui_pid : Z)
    : sprog (ShellUiHookPollResult * Core * Diagnostics) :=
  let* file := read_exact_file RequestPath sizeof_request in
  match file with
  | None => Ret (NoRequest, Core_init, Diagnostics_init)
  | Some bytes => serve_request shellui_pid bytes
  end.
End Programs.
