(* ===== verification/HookSafety.v ===== *)
(** What a poll of the hook controller may do to ShellUI, for every answer of the system:
    a monitor over its calls, and the proof that [poll_and_apply_shellui_hook] keeps it. *)
From S2P Require Import Prelude Effects HookProtocol Debugger GuardWrite HookController.

(** ** The monitor *)

(** The code of the method: stopped or not, last content read completely since the last
    write, bytes of an unfinished read, whether the expected bytes were seen, whether
    anything was written. *)
Record Code := { c_attached : bool; c_last : option (list Z); c_buf : list Z;
                 c_match : bool; c_wrote : bool }.

(** A file being read or written. *)
Inductive FileState :=
| FNone | FReading
| FWriting (p : Path) (content : list Z) (stage : Z)   (** 1: written whole, 2: flushed *)
| FClosed (p : Path) (content : list Z) (complete : bool).

(** The request taken, the authority found and the last change of it, the result of
    the detach, the open file and the last file published. *)
Record Env := { c_req : option ShellUiHookRequest; c_saved : option Z; c_auth : option (Z * Z);
                c_detach : option Z; c_file : FileState; c_published : option (Path * list Z) }.

Record Ctl := { code : Code; env : Env }.

Definition Ctl_init : Ctl := {|
  code := {| c_attached := false; c_last := None; c_buf := []; c_match := false; c_wrote := false |};
  env := {| c_req := None; c_saved := None; c_auth := None; c_detach := None;
            c_file := FNone; c_published := None |} |}.

Definition set_attached (b : bool) (m : Code) : Code :=
  {| c_attached := b; c_last := c_last m; c_buf := c_buf m; c_match := c_match m; c_wrote := c_wrote m |}.
Definition set_buf (l : list Z) (m : Code) : Code :=
  {| c_attached := c_attached m; c_last := c_last m; c_buf := l; c_match := c_match m; c_wrote := c_wrote m |}.
(** A complete read of the method. *)
Definition set_last (q : ShellUiHookRequest) (l : list Z) (m : Code) : Code :=
  {| c_attached := c_attached m; c_last := Some l; c_buf := l;
     c_match := c_match m || bytes_eqb l (q_expected q); c_wrote := c_wrote m |}.
Definition set_wrote (m : Code) : Code :=
  {| c_attached := c_attached m; c_last := None; c_buf := c_buf m; c_match := c_match m; c_wrote := true |}.

Definition set_req q (e : Env) : Env := {| c_req := q; c_saved := c_saved e; c_auth := c_auth e;
  c_detach := c_detach e; c_file := c_file e; c_published := c_published e |}.
Definition set_saved v (e : Env) : Env := {| c_req := c_req e; c_saved := v; c_auth := c_auth e;
  c_detach := c_detach e; c_file := c_file e; c_published := c_published e |}.
Definition set_auth v (e : Env) : Env := {| c_req := c_req e; c_saved := c_saved e; c_auth := v;
  c_detach := c_detach e; c_file := c_file e; c_published := c_published e |}.
Definition set_detach v (e : Env) : Env := {| c_req := c_req e; c_saved := c_saved e; c_auth := c_auth e;
  c_detach := v; c_file := c_file e; c_published := c_published e |}.
Definition set_file v (e : Env) : Env := {| c_req := c_req e; c_saved := c_saved e; c_auth := c_auth e;
  c_detach := c_detach e; c_file := v; c_published := c_published e |}.
Definition set_published v (e : Env) : Env := {| c_req := c_req e; c_saved := c_saved e; c_auth := c_auth e;
  c_detach := c_detach e; c_file := FNone; c_published := v |}.

Definition on_code (f : Code -> Code) (m : Ctl) : Ctl := {| code := f (code m); env := env m |}.
Definition on_env (f : Env -> Env) (m : Ctl) : Ctl := {| code := code m; env := f (env m) |}.

(** The write is inside the window of the request, with the desired or the expected bytes. *)
Definition in_window (q : ShellUiHookRequest) (a : Z) (b : list Z) : bool :=
  let guard := shellui_hook_request_is_main_thread_guard q in
  let '(off, size) := write_window guard (negb guard && shellui_hook_is_eta_chain q) in
  (a =? u64 (q_method_address q + Z.of_nat off)) &&
  (bytes_eqb b (slice off size (q_desired q)) || bytes_eqb b (slice off size (q_expected q))).

Section Monitor.
Context (pid : Z).

(** Calls on the process, while it is stopped and for the request at hand. *)
Definition stopped_call (m : Ctl) (p : Z) (need_match : bool)
    (f : ShellUiHookRequest -> option Ctl) : option Ctl :=
  match c_req (env m) with
  | Some q => if c_attached (code m) && (p =? pid) && implb need_match (c_match (code m))
              then f q else None
  | None => None
  end.

Definition read_all (m : Ctl) (p a : Z) (n : nat) (rc : Z) (raw : list Z) : option Ctl :=
  stopped_call m p false (fun q =>
    if (a =? q_method_address q) && (n =? kShellUiHookPatchSize)%nat
    then Some (if rc =? 0 then on_code (set_last q (buffer n raw)) m else m) else None).

(** A chunk of a read through the MDBG system call: the last [n] of the 16 bytes. *)
Definition read_chunk (m : Ctl) (p a n : Z) (x : MdbgReply) : option Ctl :=
  stopped_call m p false (fun q =>
    let got := if n =? 16 then [] else c_buf (code m) in
    if (a =? u64 (q_method_address q + (16 - n))) && (Z.of_nat (length got) =? 16 - n) then
      Some (if chunk_error (reply_chunk x) n =? 0 then
              let got' := got ++ buffer (Z.to_nat (Z.min n (u64 (x_length x)))) (x_data x) in
              if (length got' =? kShellUiHookPatchSize)%nat then on_code (set_last q got') m
              else on_code (set_buf got') m
            else m)
    else None).

Definition write_code (m : Ctl) (p a : Z) (b : list Z) : option Ctl :=
  stopped_call m p true (fun q => if in_window q a b then Some (on_code set_wrote m) else None).

(** ShellUI is attached once, under the ptrace authority; its memory is touched only
    while it is stopped; code is written only inside the window of the request, only with
    the desired or the expected bytes, and only after the expected bytes were read; a file
    is renamed only when it was written, flushed and closed completely. *)
Definition ctl_step (m : Ctl) (e : event sys_ret) : option Ctl :=
  match e with
  | Ev GetAuth r =>
      Some (match c_saved (env m) with None => on_env (set_saved (Some r)) m | Some _ => m end)
  | Ev (SetAuth v) rc => Some (on_env (set_auth (Some (v, rc))) m)
  | Ev GetCaps _ | Ev (SetCaps _) _ | Ev FirmwareSdk _ | Ev FGetc _ => Some m
  | Ev (PtAttach p) rc =>
      match c_auth (env m), c_detach (env m) with
      | Some (v, 0), None =>
          if (p =? pid) && (v =? kPtraceAuthId) && negb (c_attached (code m))
          then Some (if rc =? 0 then on_code (set_attached true) m else m) else None
      | _, _ => None
      end
  | Ev (PtDetach p) rc =>
      if (p =? pid) && c_attached (code m)
      then Some (on_env (set_detach (Some rc)) (on_code (set_attached false) m)) else None
  | Ev (KillCont p) _ =>
      match c_detach (env m) with
      | Some _ => if (p =? pid) && negb (c_attached (code m)) then Some m else None
      | None => None
      end
  | Ev (PtCopyout p a n) r => read_all m p a n r.1 r.2
  | Ev (MdbgCopyout p a n) r => read_all m p a n r.1 r.2
  | Ev (MdbgRead p a n) x => read_chunk m p a n x
  | Ev (PtCopyin p a b) _ => write_code m p a b
  | Ev (MdbgCopyin p a b) _ => write_code m p a b
  | Ev (MdbgWrite p a b) _ => write_code m p a b
  | Ev (GetProt p a) _ => stopped_call m p true (fun q => if a =? q_method_address q then Some m else None)
  | Ev (Mprotect p a n v) _ =>
      stopped_call m p true (fun q =>
        if (a <=? q_method_address q) && (q_method_address q <? a + n) then Some m else None)
  | Ev (FOpen p w) r =>
      Some (if r : bool then on_env (set_file (if w then FWriting p [] 0 else FReading)) m else m)
  | Ev (FRead n) raw =>
      Some (on_env (set_req (Some (request_of_bytes (take n (map u8 raw))))) m)
  | Ev (FWrite b) n =>
      match c_file (env m) with
      | FWriting p _ 0 => Some (on_env (set_file (FWriting p b (if n =? Z.of_nat (length b) then 1 else 0))) m)
      | _ => None
      end
  | Ev FFlush rc =>
      match c_file (env m) with
      | FWriting p b 1 => Some (on_env (set_file (FWriting p b (if rc =? 0 then 2 else 1))) m)
      | _ => None
      end
  | Ev FClose rc =>
      match c_file (env m) with
      | FReading => Some (on_env (set_file FNone) m)
      | FWriting p b stage => Some (on_env (set_file (FClosed p b ((stage =? 2) && (rc =? 0)))) m)
      | _ => None
      end
  | Ev (Rename from to) rc =>
      match c_file (env m) with
      | FClosed p b true =>
          if bool_decide (p = from)
          then Some (if rc =? 0 then on_env (set_published (Some (to, b))) m else m) else None
      | _ => None
      end
  | Ev (Unlink p) _ => Some m
  end.

(** ** A poll, part by part *)

Abbreviation cwp := (wp ctl_step).

(** From one moment of the stopped phase to a later one. *)
Record stopped (q : ShellUiHookRequest) (m m' : Ctl) : Prop := {
  st_attached : c_attached (code m') = true;
  st_req : c_req (env m') = Some q;
  st_saved : c_saved (env m') = c_saved (env m);
  st_is_saved : is_Some (c_saved (env m'));
  st_detach : c_detach (env m') = c_detach (env m);
  st_file : c_file (env m') = c_file (env m);
  st_published : c_published (env m') = c_published (env m);
  st_match : c_match (code m) = true -> c_match (code m') = true
}.

Lemma stopped_trans q m1 m2 m3 : stopped q m1 m2 -> stopped q m2 m3 -> stopped q m1 m3.
Proof. intros [] []. split; try congruence; try done. auto. Qed.

(** Nothing was written in between either. *)
Definition quiet (q : ShellUiHookRequest) (m m' : Ctl) : Prop :=
  stopped q m m' /\ c_wrote (code m') = c_wrote (code m).

Lemma cred_step q m0 m e :
  is_cred e -> quiet q m0 m -> exists m', ctl_step m e = Some m' /\ quiet q m0 m' /\ code m' = code m.
Proof.
  intros He [Hs Hw]. destruct e as [c r]. pose proof (st_is_saved _ _ _ Hs) as [v Hv].
  destruct c; try done; cbn [ctl_step]; rewrite ?Hv; eexists; (split; [done|]); (split; [|done]);
    try done; destruct Hs; by split; [split|].
Qed.

Lemma stopped_call_ok q m0 m need f :
  stopped q m0 m -> (need = true -> c_match (code m) = true) -> stopped_call m pid need f = f q.
Proof.
  intros [Ha Hr _ _ _ _ _ _] Hn. unfold stopped_call. rewrite Hr, Ha, Z.eqb_refl. cbn.
  destruct need; [|done]. by rewrite Hn.
Qed.

Lemma call_quiet q m0 m c Q :
  is_cred_call c = true -> quiet q m0 m ->
  (forall r m', quiet q m0 m' -> code m' = code m -> Q r m') -> cwp (sysc c) m Q.
Proof.
  intros Hc Hq HQ r. destruct (cred_step q m0 m (Ev c r)) as (m' & -> & Hq' & Hm); [by destruct c|done|].
  by apply HQ.
Qed.

(** A complete read. *)
Lemma set_last_quiet q m0 m l :
  quiet q m0 m -> quiet q m0 (on_code (set_last q l) m).
Proof. intros [[] Hw]. split; [split|]; cbn; try done. intros H. by rewrite st_match0. Qed.

Definition read_post (q : ShellUiHookRequest) (m0 : Ctl) (rc : Z) (data : list Z) (m : Ctl) : Prop :=
  quiet q m0 m /\
  (rc = 0 -> c_last (code m) = Some data /\ (data = q_expected q -> c_match (code m) = true)).

(** Both whole-block reads. *)
Lemma read_all_wp q m0 m c rc raw :
  quiet q m0 m -> c = read_all m pid (q_method_address q) kShellUiHookPatchSize rc raw ->
  exists m', c = Some m' /\ read_post q m0 rc (buffer kShellUiHookPatchSize raw) m'.
Proof.
  intros Hq ->. unfold read_all. pose proof Hq as [Hs _].
  rewrite (stopped_call_ok q m0) by done. rewrite Z.eqb_refl, Nat.eqb_refl. cbn [andb].
  eexists. split; [done|]. destruct (rc =? 0) eqn:E.
  - split; [by apply set_last_quiet|]. intros _. cbn. split; [done|]. intros <-.
    by rewrite bytes_eqb_refl, orb_true_r.
  - split; [done|]. intros ->. done.
Qed.

Lemma chunk_read_ok q m0 m d x :
  length d <> 16%nat -> quiet q m0 m -> (d = [] \/ c_buf (code m) = d) -> (length d < 16)%nat ->
  in_u 64 (q_method_address q) ->
  exists m', ctl_step m (chunk_event None pid (q_method_address q) 16 (Z.of_nat (length d)) x) = Some m' /\
    quiet q m0 m' /\
    (chunk_error (reply_chunk x) (16 - Z.of_nat (length d)) = 0 ->
     let d' := d ++ chunk_bytes 16 (Z.of_nat (length d)) x in
     (d' = [] \/ c_buf (code m') = d') /\
     (length d' = 16%nat -> c_last (code m') = Some d' /\
        (d' = q_expected q -> c_match (code m') = true))).
Proof.
  intros _ Hq Hd Hl Hu. unfold chunk_event. cbn [ctl_step]. unfold read_chunk.
  pose proof Hq as [Hs _]. rewrite (stopped_call_ok q m0) by done.
  replace (16 - (16 - Z.of_nat (length d))) with (Z.of_nat (length d)) by lia. rewrite Z.eqb_refl.
  assert ((if 16 - Z.of_nat (length d) =? 16 then [] else c_buf (code m)) = d) as Hgot.
  { destruct (16 - Z.of_nat (length d) =? 16) eqn:E; breflect; [destruct d; [done|cbn in *; lia]|].
    destruct Hd as [->|Hd]; [cbn in *; lia|done]. }
  rewrite Hgot, Z.eqb_refl. cbn [andb]. eexists. split; [done|].
  fold (chunk_bytes 16 (Z.of_nat (length d)) x). set (d' := d ++ _).
  destruct (chunk_error _ _ =? 0) eqn:E.
  2: { split; [done|]. intros H0. rewrite H0 in E. done. }
  destruct (length d' =? kShellUiHookPatchSize)%nat eqn:El.
  - split; [by apply set_last_quiet|]. intros _. cbn. split; [by right|]. intros _. split; [done|].
    intros ->. by rewrite bytes_eqb_refl, orb_true_r.
  - split; [destruct Hq as [[] Hw]; split; [split|]; done|]. intros _. cbn. split; [by right|].
    intros H16. by rewrite H16 in El.
Qed.

Lemma mdbg_read_wp q m0 m Q :
  quiet q m0 m -> in_u 64 (q_method_address q) ->
  (forall rc d m', read_post q m0 rc d m' -> Q (rc, d) m') ->
  cwp (shellui_mdbg_read_exact pid (q_method_address q) kShellUiHookPatchSize) m Q.
Proof.
  intros Hq Hu HQ. unfold shellui_mdbg_read_exact.
  apply (transfer_exact_frame ctl_step None pid (q_method_address q) 16
    (fun d m' => (d = [] \/ c_buf (code m') = d) /\
       (length d = 16%nat -> c_last (code m') = Some d /\ (d = q_expected q -> c_match (code m') = true)))
    (quiet q m0)); [|  |lia|done| |].
  - intros m1 e He H1. destruct (cred_step q m0 m1 e He H1) as (m2 & Hm & H2 & Hc).
    exists m2. split; [done|]. split; [done|]. intros d. by rewrite Hc.
  - intros d m1 x H1 [Hd _] Hlt.
    destruct (chunk_read_ok q m0 m1 d x) as (m2 & Hm & H2 & H3); try done; try lia. by exists m2.
  - split; [by left|done].
  - intros rc d m' H' Hd. apply HQ. split; [done|]. intros ->. destruct (Hd eq_refl) as [[_ H16] Hl].
    by apply H16.
Qed.

(** *** Reading and writing the target *)

Record target_ok (t : Target) (q : ShellUiHookRequest) : Prop := {
  to_request : t_request t = q;
  to_pid : t_pid t = pid;
  to_wf : wf_request q;
  to_guard : t_guard t = shellui_hook_request_is_main_thread_guard q;
  to_eta : shellui_hook_request_is_probe q = false ->
           t_eta t = negb (t_guard t) && shellui_hook_is_eta_chain q;
  to_900 : t_fw900 t = true -> t_guard t = true;
  to_1160 : t_fw1160 t = true -> t_guard t = true
}.

Lemma read_target_wp t q m0 m s Q :
  target_ok t q -> quiet q m0 m ->
  (forall rc data s' m', read_post q m0 rc data m' -> s_guard s' = s_guard s ->
     Q (rc, data, s') m') ->
  cwp (read_target t s) m Q.
Proof.
  intros Ht Hq HQ. destruct Ht as [Hreq Hpid Hwf _ _ _ _]. pose proof (wq_method _ Hwf) as Hu.
  unfold read_target. rewrite Hreq, Hpid. apply wp_bind.
  (* the two ways to read *)
  assert (forall m1 Q', quiet q m0 m1 ->
    (forall rc d m', read_post q m0 rc d m' -> Q' (rc, d) m') ->
    cwp (bindp (sysc (PtCopyout pid (q_method_address q) kShellUiHookPatchSize))
           (fun '(rc, raw) => Ret (rc, buffer kShellUiHookPatchSize raw))) m1 Q') as Hpt.
  { intros m1 Q' H1 HQ'. intros [rc raw]. cbn [ctl_step fst snd].
    destruct (read_all_wp q m0 m1 _ rc raw H1 eq_refl) as (m2 & -> & H2). cbn [bindp wp]. by apply HQ'. }
  assert (forall m1 Q', quiet q m0 m1 ->
    (forall rc d m', read_post q m0 rc d m' -> Q' (rc, d) m') ->
    cwp (if firmware_is_fw1160 (t_sdk t) then shellui_mdbg_read_exact pid (q_method_address q) kShellUiHookPatchSize
         else bindp (sysc (MdbgCopyout pid (q_method_address q) kShellUiHookPatchSize))
           (fun '(rc, raw) => Ret (rc, buffer kShellUiHookPatchSize raw))) m1 Q') as Hmd.
  { intros m1 Q' H1 HQ'. destruct (firmware_is_fw1160 _); [by eapply mdbg_read_wp|].
    intros [rc raw]. cbn [ctl_step fst snd].
    destruct (read_all_wp q m0 m1 _ rc raw H1 eq_refl) as (m2 & -> & H2). cbn [bindp wp]. by apply HQ'. }
  assert (forall r d m', read_post q m0 (rd_rc r) d m' ->
    Q (rd_rc r, if negb (rd_rc r =? 0) then repeat 0 kShellUiHookPatchSize else d, after_read r s) m') as Hend.
  { intros r d m' Hp. apply HQ; [|done]. destruct (rd_rc r =? 0) eqn:E; cbn [negb]; [done|].
    split; [apply Hp|]. intros H0. by rewrite H0 in E. }
  unfold read_shellui_code. change (kShellUiHookPatchSize =? 0)%nat with false. cbn iota.
  assert (forall rc d m1, read_post q m0 rc d m1 -> forall b : bool, 
    cwp (if b && firmware_is_fw1160 (t_sdk t) && (rc =? EFAULT)
         then bindp (if firmware_is_fw1160 (t_sdk t) then shellui_mdbg_read_exact pid (q_method_address q) kShellUiHookPatchSize
                     else bindp (sysc (MdbgCopyout pid (q_method_address q) kShellUiHookPatchSize))
                       (fun '(rc, raw) => Ret (rc, buffer kShellUiHookPatchSize raw)))
           (fun '(fallback, data2) =>
              Ret ({| rd_rc := fallback; rd_primary_rc := rc; rd_fallback_rc := fallback;
                      rd_fallback_attempted := true |},
                   if negb (fallback =? 0) then repeat 0 kShellUiHookPatchSize else data2))
         else Ret ({| rd_rc := rc; rd_primary_rc := rc; rd_fallback_rc := -1; rd_fallback_attempted := false |},
                   if negb (rc =? 0) then repeat 0 kShellUiHookPatchSize else d)) m1
      (fun a m' => cwp (let '(r, data) := a in Ret (rd_rc r, data, after_read r s)) m' Q)) as Hfall.
  { intros rc d m1 Hp b. destruct (_ && _).
    - apply wp_bind, Hmd; [apply Hp|]. intros rc2 d2 m2 Hp2. cbn [wp].
      by apply (Hend {| rd_rc := rc2; rd_primary_rc := rc; rd_fallback_rc := rc2; rd_fallback_attempted := true |}).
    - cbn [wp].
      by apply (Hend {| rd_rc := rc; rd_primary_rc := rc; rd_fallback_rc := -1; rd_fallback_attempted := false |}). }
  destruct (t_backend t).
  - cbn [wp]. apply HQ; [|done]. by split.
  - apply wp_bind, Hmd; [done|]. intros rc d m1 Hp. cbv beta iota. by apply Hfall.
  - apply wp_bind, Hpt; [done|]. intros rc d m1 Hp. cbv beta iota. by apply Hfall.
Qed.

(** A write changes nothing but the code. *)
Lemma wrote_stopped q m0 m : stopped q m0 m -> stopped q m0 (on_code set_wrote m).
Proof. intros []. by split. Qed.

Definition page_of (a : Z) : Z := Z.land a (Z.lxor (2 ^ 64 - 1) (kPs5CodePageSize - 1)).

Lemma page_start a : in_u 64 a -> page_of a = a / kPs5CodePageSize * kPs5CodePageSize.
Proof.
  intros Hu. unfold page_of, kPs5CodePageSize.
  change (Z.lxor (2 ^ 64 - 1) (16384 - 1)) with (Z.shiftl (Z.ones 50) 14). change 16384 with (2 ^ 14).
  rewrite <- Z.shiftr_div_pow2, <- Z.shiftl_mul_pow2 by lia.
  apply Z.bits_inj'. intros n Hn. rewrite Z.land_spec.
  rewrite (Z.shiftl_spec (Z.ones 50)), (Z.shiftl_spec (Z.shiftr a 14)) by lia.
  destruct (decide (n < 14)) as [Hlt|Hge].
  - rewrite !(Z.testbit_neg_r _ (n - 14)) by lia. by rewrite andb_false_r.
  - rewrite Z.shiftr_spec by lia. replace (n - 14 + 14) with n by lia.
    destruct (decide (n - 14 < 50)) as [H50|H50].
    + rewrite Z.ones_spec_low by lia. by rewrite andb_true_r.
    + rewrite Z.ones_spec_high by lia. rewrite andb_false_r. symmetry.
      apply Z.bits_above_log2; [unfold in_u in Hu; lia|].
      destruct (decide (a = 0)) as [->|Ha]; [cbn; lia|]. unfold in_u in Hu.
      assert (Z.log2 a < 64) by (apply Z.log2_lt_pow2; lia). lia.
Qed.

Lemma page_range a : in_u 64 a -> page_of a <= a < page_of a + kPs5CodePageSize.
Proof.
  intros Hu. rewrite (page_start a Hu). unfold kPs5CodePageSize.
  pose proof (Z.div_mod a 16384). pose proof (Z.mod_pos_bound a 16384). lia.
Qed.

Lemma head_slice l : length l = kShellUiHookPatchSize -> [byte_at l 0] = slice 0 1 l.
Proof. by destruct l. Qed.

Lemma write_target_wp t q m0 m bytes s Q :
  target_ok t q -> stopped q m0 m -> c_match (code m) = true ->
  shellui_hook_request_is_probe q = false ->
  bytes = q_desired q \/ bytes = q_expected q ->
  (forall rc s' m', stopped q m0 m' -> c_match (code m') = true -> Q (rc, s') m') ->
  cwp (write_target t bytes s) m Q.
Proof.
  intros Ht Hs Hm Hpr Hb HQ. pose proof Ht as [Hreq Hpid Hwf Hg Heta H900 H1160]. specialize (Heta Hpr).
  pose proof (wq_method _ Hwf) as Hu. destruct (wq_expected _ Hwf) as [Hle _]. destruct (wq_desired _ Hwf) as [Hld _].
  assert (length bytes = kShellUiHookPatchSize) as Hlb by (by destruct Hb as [-> | ->]).
  unfold write_target. rewrite Hreq, Hpid.
  (* inside the window *)
  assert (in_window q (u64 (q_method_address q + Z.of_nat (write_window (t_guard t) (t_eta t)).1))
            (slice (write_window (t_guard t) (t_eta t)).1 (write_window (t_guard t) (t_eta t)).2 bytes) = true) as Hin.
  { unfold in_window. rewrite <- Hg, <- Heta. destruct (write_window _ _) as [off size].
    cbn [fst snd]. rewrite Z.eqb_refl. destruct Hb as [-> | ->]; rewrite bytes_eqb_refl; cbn; by rewrite ?orb_true_r. }
  pose (K := fun m' => stopped q m0 m' /\ c_match (code m') = true).
  destruct (t_fw1160 t) eqn:E1160.
  { specialize (H1160 eq_refl). rewrite H1160 in Hin. cbn [write_window fst snd] in Hin.
    rewrite Z.add_0_r, wrap_small, <- head_slice in Hin by done.
    apply wp_bind. apply (shellui_write_guard_byte_frame ctl_step pid (q_method_address q) (byte_at bytes 0) K).
    - intros m1 [c r] He [Hs1 Hm1].
      destruct c; try done; cbn [guard_event] in He.
      1-4: destruct (cred_step q m1 m1 (Ev _ r) ltac:(done)) as (m2 & Hst & [Hs2 _] & Hc);
        [split; [|done]; destruct Hs1; by split|];
        exists m2; split; [exact Hst|]; split; [by eapply stopped_trans|by rewrite Hc].
      + destruct He as (-> & -> & ->). cbn [ctl_step]. unfold write_code.
        rewrite (stopped_call_ok q m0) by done. rewrite (wrap_small 64) by done. rewrite Hin.
        eexists. split; [done|]. by split; [apply wrote_stopped|].
      + destruct He as (-> & -> & ->). cbn [ctl_step]. unfold write_code.
        rewrite (stopped_call_ok q m0) by done. rewrite Hin.
        eexists. split; [done|]. by split; [apply wrote_stopped|].
      + destruct He as (-> & ->). cbn [ctl_step].
        rewrite (stopped_call_ok q m0) by done. rewrite Z.eqb_refl. by exists m1.
      + destruct He as (-> & -> & ->). cbn [ctl_step].
        rewrite (stopped_call_ok q m0) by done.
        replace (q_method_address q <=? q_method_address q) with true by (symmetry; breflect; lia).
        replace (q_method_address q <? q_method_address q + 1) with true by (symmetry; breflect; lia).
        by exists m1.
    - done.
    - intros [rc g] m' [Hs' Hm']. cbn [wp]. by apply HQ. }
  destruct (write_window (t_guard t) (t_eta t)) as [off size] eqn:Ewin. cbn [fst snd] in Hin.
  assert (forall m1, K m1 -> exists m2, write_code m1 pid (u64 (q_method_address q + Z.of_nat off))
            (slice off size bytes) = Some m2 /\ K m2) as Hwrite.
  { intros m1 [Hs1 Hm1]. unfold write_code. rewrite (stopped_call_ok q m0) by done. rewrite Hin.
    eexists. split; [done|]. by split; [apply wrote_stopped|]. }
  pose proof (page_range _ Hu) as Hpage. unfold page_of in Hpage.
  assert (forall v rc m1, K m1 -> ctl_step m1 (Ev (Mprotect pid (Z.land (q_method_address q)
            (Z.lxor (2 ^ 64 - 1) (kPs5CodePageSize - 1))) kPs5CodePageSize v) rc) = Some m1) as Hprot.
  { intros v rc m1 [Hs1 Hm1]. cbn [ctl_step]. rewrite (stopped_call_ok q m0) by done.
    replace (_ <=? q_method_address q) with true by (symmetry; breflect; apply Hpage).
    by replace (q_method_address q <? _) with true by (symmetry; breflect; apply Hpage). }
  assert (K m) as HK by done.
  assert (forall rc s' m', K m' -> Q (rc, s') m') as HQ' by (intros rc s' m' []; by apply HQ).
  clearbody K. clear HQ.
  destruct (t_fw900 t).
  - intros protect. rewrite Hprot by done. cbn [bindp sysc call].
    destruct (negb (protect =? 0)); [by apply HQ'|].
    intros first. cbn [ctl_step]. destruct (Hwrite m HK) as (m1 & -> & HK1). cbn [bindp sysc call].
    apply wp_bind.
    assert (forall rc m2, K m2 -> cwp (bindp (sysc (Mprotect pid (Z.land (q_method_address q)
              (Z.lxor (2 ^ 64 - 1) (kPs5CodePageSize - 1))) kPs5CodePageSize (Z.lor PROT_READ PROT_EXEC)))
              (fun restore => Ret (if negb (restore =? 0) then -1001 else rc, s))) m2 Q) as Hend.
    { intros rc m2 H2 restore. rewrite Hprot by done. cbn [bindp sysc call wp]. by apply HQ'. }
    destruct (negb (first =? 0)); [|by apply Hend].
    intros [rc err]. cbn [ctl_step]. destruct (Hwrite m1 HK1) as (m2 & -> & HK2). cbn [bindp sysc call wp].
    by apply Hend.
  - destruct (t_backend t).
    + intros [rc err]. cbn [ctl_step]. destruct (Hwrite m HK) as (m1 & -> & HK1). cbn [bindp sysc call wp]. by apply HQ'.
    + intros rc. cbn [ctl_step]. destruct (Hwrite m HK) as (m1 & -> & HK1). cbn [bindp sysc call wp]. by apply HQ'.
    + intros [rc err]. cbn [ctl_step]. destruct (Hwrite m HK) as (m1 & -> & HK1). cbn [bindp sysc call wp]. by apply HQ'.
Qed.

(** *** The work on a stopped ShellUI *)

(** What the work has established when it hands over to the detach. *)
Record work_post (q : ShellUiHookRequest) (m0 : Ctl) (c0 c : Core) (applied : bool) (m : Ctl) : Prop := {
  wk_stopped : stopped q m0 m;
  wk_kind : probe c = probe c0 /\ main_thread_guard c = main_thread_guard c0;
  wk_flags : detached c = detached c0 /\ auth_restored c = auth_restored c0;
  wk_applied : applied = true -> status c = Success /\ probe c0 = false /\
    verified c = true /\ c_last (code m) = Some (q_desired q);
  wk_failed : applied = false -> status c = Success -> probe c0 = true;
  wk_probe : probe c0 = true -> c_wrote (code m) = c_wrote (code m0) /\
    (status c = Success -> c_last (code m) = Some (observed c));
  wk_restored : restored c = true -> c_last (code m) = Some (q_expected q);
  wk_wrote : c_wrote (code m0) = false -> c_wrote (code m) = true -> c_match (code m) = true
}.

Lemma apply_patch_wp t q m0 m c rrc s :
  target_ok t q -> stopped q m0 m -> c_match (code m) = true ->
  shellui_hook_request_is_probe q = false -> probe c = false ->
  cwp (apply_patch t c rrc s) m (fun r m' => work_post q m0 c r.1.1 r.1.2 m').
Proof.
  intros Ht Hs Hm Hpr Hpc. pose proof Ht as [Hreq _ _ _ _ _ _]. unfold apply_patch. rewrite Hreq.
  apply wp_bind. apply (write_target_wp t q m0); try done; [by left|]. intros wrc s1 m1 Hs1 Hm1.
  cbv beta iota. apply wp_bind.
  assert (forall m2, stopped q m0 m2 -> quiet q m2 m2) as Hrefl by (intros m2 []; by split; [split|]).
  apply (read_target_wp t q m1); [done|by apply Hrefl|]. intros vrc now s2 m2 [[Hs2 _] Hread] _.
  pose proof (stopped_trans _ _ _ _ Hs1 Hs2) as Hs02. pose proof (st_match _ _ _ Hs2 Hm1) as Hm2. cbv beta iota zeta.
  destruct ((vrc =? 0) && bytes_eqb now (q_desired q) && (wrc =? 0)) eqn:E1.
  { apply andb_true_iff in E1 as [E1 E2]. apply andb_true_iff in E1 as [E0 E1].
    apply Z.eqb_eq in E0. apply bytes_eqb_eq in E1. rewrite E0, E1, bytes_eqb_refl. cbn [wp fst snd].
    split; cbn; try done; [|by rewrite Hpc]. intros _. subst now. split_and!; try done. by apply Hread. }
  set (st := if wrc =? 0 then VerifyFailure else WriteFailure).
  assert (st <> Success) as Hst by (unfold st; by destruct (wrc =? 0)).
  (* whatever comes next fails, truthfully *)
  assert (forall rest m3, stopped q m0 m3 -> c_match (code m3) = true ->
    (rest = true -> c_last (code m3) = Some (q_expected q)) ->
    work_post q m0 c (with_work c st (eta_chain c) rrc wrc true
       ((vrc =? 0) && bytes_eqb now (q_desired q)) rest (observed c)) false m3) as Hfail.
  { intros rest m3 H3 Hm3 Hr3. split; cbn; try done. rewrite Hpc. done. }
  destruct (_ && (negb (t_fw1160 t) || _)) eqn:E3.
  { cbn [wp fst snd]. apply Hfail; [done|done|]. intros _. apply andb_true_iff in E3 as [E3 _].
    apply andb_true_iff in E3 as [E3 E4]. apply Z.eqb_eq in E3. apply bytes_eqb_eq in E4.
    subst now. by apply Hread. }
  apply wp_bind. apply (write_target_wp t q m0); try done; [by right|]. intros rrc2 s3 m3 Hs3 Hm3.
  cbv beta iota. apply wp_bind. destruct (rrc2 =? 0); [|cbn [wp fst snd]; by apply Hfail].
  apply wp_bind. apply (read_target_wp t q m3); [done|by apply Hrefl|]. intros crc check s5 m5 [[Hs5 _] Hread5] _.
  cbn [wp fst snd]. apply Hfail; [by eapply stopped_trans|by apply (st_match _ _ _ Hs5)|].
  intros E. apply andb_true_iff in E as [E E4]. apply Z.eqb_eq in E. apply bytes_eqb_eq in E4.
  subst check. by apply Hread5.
Qed.

Lemma work_wp t q m c s :
  target_ok t q -> stopped q m m -> c_wrote (code m) = false ->
  probe c = shellui_hook_request_is_probe q -> restored c = false -> status c = InvalidRequest ->
  cwp (work t c s) m (fun r m' => work_post q m c r.1.1 r.1.2 m').
Proof.
  intros Ht Hs Hw Hp Hr Hst. pose proof Ht as [Hreq _ _ _ _ _ _]. unfold work. rewrite Hreq.
  apply wp_bind. apply (read_target_wp t q m); [done|by split|]. intros rrc now s1 m1 [[Hs1 Hw1] Hread] _.
  cbv beta iota. destruct (probe c) eqn:Epr.
  { destruct (rrc =? 0) eqn:E; cbn [wp fst snd]; split; cbn; try done; rewrite ?Hw1, ?Hw, ?Epr; try done.
    apply Z.eqb_eq in E. split; [done|]. intros _. by apply Hread. }
  destruct (_ || _) eqn:E.
  { cbn [wp fst snd]. split; cbn; rewrite ?Hw1, ?Hw, ?Epr; done. }
  apply orb_false_iff in E as [E1 E2]. apply negb_false_iff in E1, E2.
  apply Z.eqb_eq in E1. apply bytes_eqb_eq in E2. subst now.
  apply (apply_patch_wp t q); try done. by apply Hread.
Qed.

(** *** Files *)

(** Only the files differ. *)
Record same_but_files (m m' : Ctl) : Prop := {
  sf_code : code m' = code m;
  sf_req : c_req (env m') = c_req (env m);
  sf_saved : c_saved (env m') = c_saved (env m);
  sf_auth : c_auth (env m') = c_auth (env m);
  sf_detach : c_detach (env m') = c_detach (env m)
}.

Lemma write_file_wp temp final value m Q :
  (forall ok m', same_but_files m m' ->
     c_published (env m') = c_published (env m) \/ c_published (env m') = Some (final, value) ->
     Q ok m') ->
  cwp (write_exact_file_atomic temp final value) m Q.
Proof.
  intros HQ. unfold write_exact_file_atomic. intros [|]; cbn; [|apply HQ; [by split|by left]].
  intros n. destruct (n =? Z.of_nat (length value)) eqn:En; cbn.
  - intros fl. cbn. intros cl. destruct (fl =? 0) eqn:Ef; cbn.
    + destruct (cl =? 0) eqn:Ec; cbn.
      * intros rn. rewrite bool_decide_eq_true_2 by done. destruct (rn =? 0) eqn:Er; cbn.
        -- apply HQ; [by split|by right].
        -- intros u. apply HQ; [by split|by left].
      * intros u. apply HQ; [by split|by left].
    + intros u. apply HQ; [by split|by left].
  - intros cl. cbn. intros u. apply HQ; [by split|by left].
Qed.

Lemma write_ack_wp q c m Q :
  c_published (env m) = None ->
  (forall m', same_but_files m m' ->
     (forall p b, c_published (env m') = Some (p, b) -> p = AckPath /\ b = ack_bytes (make_ack q c)) ->
     Q tt m') ->
  cwp (write_ack q c) m Q.
Proof.
  intros Hp HQ. unfold write_ack. apply wp_bind, write_file_wp. intros ok m' Hs Hpub. cbn [wp].
  apply HQ; [done|]. intros p b Hb. rewrite Hp in Hpub. destruct Hpub as [E|E]; rewrite E in Hb; by simplify_eq.
Qed.

(** *** The whole poll *)

Definition kind_of (q : ShellUiHookRequest) : RequestKind :=
  if shellui_hook_request_is_probe q then KProbe
  else if shellui_hook_request_is_main_thread_guard q then KGuard else KPatch.

(** How a poll ends. *)
Record poll_post (r : ShellUiHookPollResult * Core * Diagnostics) (m : Ctl) : Prop := {
  pp_running : c_attached (code m) = false;
  pp_result : match r.1.1 with
              | NoRequest => r.1.2 = Core_init /\ c_saved (env m) = None /\ c_published (env m) = None
              | Applied => status r.1.2 = Success
              | Failed => status r.1.2 <> Success
              end;
  pp_auth : forall v rc, c_auth (env m) = Some (v, rc) ->
              c_saved (env m) = Some v \/ (v = kPtraceAuthId /\ rc <> 0);
  pp_auth_restored : auth_restored r.1.2 = true ->
              exists v, c_auth (env m) = Some (v, 0) /\ c_saved (env m) = Some v;
  pp_wrote : c_wrote (code m) = true ->
              c_match (code m) = true /\ exists q, c_req (env m) = Some q /\
              kind_valid (kind_of q) q pid = true /\ kind_of q <> KProbe;
  pp_applied : r.1.1 = Applied ->
              exists q, c_req (env m) = Some q /\ kind_valid (kind_of q) q pid = true /\
              match kind_of q with
              | KProbe => c_wrote (code m) = false /\ c_last (code m) = Some (observed r.1.2)
              | _ => c_last (code m) = Some (q_desired q) /\
                     detached r.1.2 = true /\ auth_restored r.1.2 = true
              end;
  pp_restored : restored r.1.2 = true ->
              exists q, c_req (env m) = Some q /\ c_last (code m) = Some (q_expected q);
  pp_published : forall p b, c_published (env m) = Some (p, b) ->
              p = AckPath /\ exists q, c_req (env m) = Some q /\ b = ack_bytes (make_ack q r.1.2)
}.

(** The monitor before the authority is touched. *)
Record before (q : ShellUiHookRequest) (m : Ctl) : Prop := {
  bf_req : c_req (env m) = Some q; bf_saved : c_saved (env m) = None;
  bf_auth : c_auth (env m) = None; bf_detach : c_detach (env m) = None;
  bf_published : c_published (env m) = None; bf_attached : c_attached (code m) = false;
  bf_wrote : c_wrote (code m) = false
}.

(** Giving up before anything was touched. *)
Lemma refuse_wp q c m d :
  c_req (env m) = Some q -> c_published (env m) = None -> c_attached (code m) = false ->
  c_wrote (code m) = false ->
  (forall v rc, c_auth (env m) = Some (v, rc) -> v = kPtraceAuthId /\ rc <> 0) ->
  status c <> Success -> auth_restored c = false -> restored c = false ->
  cwp (bindp (write_ack q c) (fun _ => Ret (Failed, c, d))) m poll_post.
Proof.
  intros Hq Hp Ha Hw Hau Hst Har Hre. apply wp_bind, write_ack_wp; [done|].
  intros m' [E1 E2 E3 E4 E5] Hpub. cbn [wp]. split; cbn [fst snd]; rewrite ?E1, ?E2, ?E3, ?E4; try done.
  - intros v rc Hv. right. by apply Hau.
  - congruence.
  - congruence.
  - congruence.
  - intros p b Hb. destruct (Hpub p b Hb) as [-> ->]. split; [done|]. by exists q.
Qed.

(** After the detach: give the authority back, decide, acknowledge. *)
Lemma finish_wp t q m0 c0 c applied det m d auth :
  t_request t = q -> kind_valid (kind_of q) q pid = true -> probe c0 = match kind_of q with KProbe => true | _ => false end ->
  c_wrote (code m0) = false ->
  c_req (env m) = Some q -> c_saved (env m) = Some auth -> c_published (env m) = None ->
  c_attached (code m) = false ->
  (applied = false -> status c = Success -> probe c0 = true) ->
  (applied = true -> (status c = Success -> det = true) /\ probe c0 = false /\
     c_last (code m) = Some (q_desired q)) ->
  (probe c0 = true -> c_wrote (code m) = false /\ (status c = Success -> c_last (code m) = Some (observed c))) ->
  (restored c = true -> c_last (code m) = Some (q_expected q)) ->
  (c_wrote (code m) = true -> c_match (code m) = true) ->
  cwp (bindp (sysc (SetAuth auth)) (fun set_rc =>
       bindp (if set_rc =? 0 then bindp (sysc GetAuth) (fun a => Ret (a =? auth)) else Ret false)
         (fun auth_back =>
       let c2 := with_finish c (if negb auth_back && applied then AuthRestoreFailure else status c) det auth_back in
       bindp (write_ack q c2) (fun _ => Ret (poll_result c2, c2, d))))) m poll_post.
Proof.
  intros Hreq Hk Hp Hw0 Hq Hsv Hpub Hat Hna Hap Hpr Hre Hwm.
  (* for both outcomes of the restore *)
  assert (forall back rc m', (back = true -> rc = 0) -> code m' = code m -> c_req (env m') = Some q ->
    c_saved (env m') = Some auth -> c_auth (env m') = Some (auth, rc) -> c_published (env m') = None ->
    cwp (bindp (write_ack q (with_finish c (if negb back && applied then AuthRestoreFailure else status c) det back))
      (fun _ => Ret (poll_result (with_finish c (if negb back && applied then AuthRestoreFailure else status c) det back),
                     with_finish c (if negb back && applied then AuthRestoreFailure else status c) det back, d))) m' poll_post)
    as Hend.
  { intros back rc m' Hb Hc Hq' Hs' Ha' Hp'. set (c2 := with_finish _ _ _ _).
    apply wp_bind, write_ack_wp; [done|]. intros m2 [E1 E2 E3 E4 E5] Hpub2. cbn [wp].
    split; cbn [fst snd]; rewrite ?E1, ?E2, ?E3, ?E4, ?Hc, ?Hq', ?Hs', ?Ha'; try done.
    - unfold poll_result. by destruct (status c2).
    - intros v rc' [= <- <-]. by left.
    - intros Hb'. cbn in Hb'. subst back. rewrite (Hb eq_refl). by exists auth.
    - intros Hw. split; [by apply Hwm|]. exists q. split_and!; try done.
      intros E. rewrite E in Hp. cbn in Hp. destruct (Hpr Hp) as [Hf _]. congruence.
    - intros Happ. unfold poll_result in Happ.
      assert (status c2 = Success) as Hst by (by destruct (status c2)). clear Happ.
      cbn [c2 with_finish status] in Hst. exists q. split_and!; try done.
      destruct applied; cbn [andb] in Hst.
      + rewrite andb_true_r in Hst. destruct back; cbn [negb] in Hst; [|done].
        destruct (Hap eq_refl) as (H1 & H2 & H3). specialize (H1 Hst).
        destruct (kind_of q) eqn:Ek; cbn in Hp |- *; [done|done|congruence].
      + rewrite andb_false_r in Hst. specialize (Hna eq_refl Hst). destruct (Hpr Hna) as [H1 H2].
        rewrite Hna in Hp. destruct (kind_of q) eqn:Ek; cbn in Hp; [done|done|]. cbn. auto.
    - intros Hr. exists q. split; [done|]. by apply Hre.
    - intros p b Hb'. destruct (Hpub2 p b Hb') as [-> ->]. split; [done|]. by exists q. }
  intros rc. cbn [ctl_step bindp sysc call]. apply wp_bind. destruct (rc =? 0) eqn:E.
  - apply Z.eqb_eq in E. intros a. cbn [ctl_step on_env env set_auth c_saved bindp sysc call wp]. rewrite Hsv. cbn [wp].
    apply (Hend _ rc); try done.
  - cbn [wp]. by apply (Hend false rc).
Qed.

Lemma run_request_wp t q m s sdk eta :
  target_ok t q -> kind_valid (kind_of q) q pid = true -> before q m ->
  cwp (run_request t (classify q sdk InvalidRequest eta) s) m poll_post.
Proof.
  intros Ht Hk Hb. pose proof Ht as [Hreq Hpid Hwf _ _ _ _]. destruct Hb. unfold run_request.
  rewrite Hreq, Hpid. set (c0 := classify _ _ _ _).
  assert (probe c0 = match kind_of q with KProbe => true | _ => false end) as Hp.
  { cbn. unfold kind_of. destruct (shellui_hook_request_is_probe q); [done|].
    by destruct (shellui_hook_request_is_main_thread_guard q). }
  intros auth. cbn [ctl_step]. rewrite bf_saved0. cbn [bindp sysc call]. apply wp_bind.
  set (m1 := on_env _ m).
  assert (c_auth (env m1) = None) as Ha1 by done.
  destruct (auth =? 0).
  { cbn [wp negb]. apply refuse_wp; try done. by rewrite Ha1. }
  intros rc. cbn [ctl_step bindp sysc call wp]. destruct (rc =? 0) eqn:Er; cbn [negb].
  2: { apply refuse_wp; try done. intros v rc' [= <- <-]. apply Z.eqb_neq in Er. done. }
  apply Z.eqb_eq in Er as ->. intros at_rc. cbn [ctl_step on_env env set_auth c_auth c_detach m1].
  cbn [set_saved c_detach]. rewrite bf_detach0, Z.eqb_refl. change (code (on_env (set_auth (Some (kPtraceAuthId, 0))) m1)) with (code m). rewrite bf_attached0.
  change (kPtraceAuthId =? kPtraceAuthId) with true. cbn [andb negb bindp sysc call].
  apply wp_bind. destruct (at_rc =? 0) eqn:Eat; cbn [negb].
  2: { cbn [wp]. cbv beta iota. eapply (finish_wp t q m c0); cbn; try done; by rewrite ?bf_wrote0. }
  set (m2 := on_code _ _). apply wp_bind.
  assert (stopped q m2 m2) as Hs2 by (split; cbn; try done).
  eapply wp_mono; [|apply (work_wp t q m2); try done].
  intros [[c applied] s'] m3 [K1 K2 [K3 K3'] K4 K5 K6 K7 K8]. cbn [fst snd] in *. cbv beta iota.
  intros det. cbn [ctl_step]. rewrite Z.eqb_refl, (st_attached _ _ _ K1). cbn [andb bindp sysc call].
  intros kl. cbn [ctl_step on_env env set_detach c_detach code on_code set_attached c_attached].
  rewrite Z.eqb_refl. cbn [andb negb bindp sysc call wp]. cbv beta iota.
  destruct K1 as [_ A1 A2 A3 A4 A5 A6 A7].
  eapply (finish_wp t q m2 c0); cbn [code env set_detach set_attached on_code on_env c_req c_saved c_published
    c_attached c_last c_match c_wrote]; try done.
  - by rewrite A6.
  - intros ->. rewrite andb_false_r. by apply K5.
  - intros ->. destruct (K4 eq_refl) as (H1 & H2 & H3 & H4). rewrite andb_true_r.
    split; [|done]. by destruct (det =? 0).
  - intros Hpp. destruct (K6 Hpp) as [H1 H2]. split; [by rewrite H1|]. destruct applied; [|by rewrite andb_false_r].
    destruct (K4 eq_refl) as (_ & H & _). congruence.
  - destruct (negb (det =? 0) && applied); done.
  - by apply K8.
Qed.

Lemma valid_kind q p :
  (if shellui_hook_request_is_probe q then shellui_hook_probe_request_is_valid q p
   else if shellui_hook_request_is_main_thread_guard q then shellui_main_thread_guard_request_is_valid q p
   else shellui_hook_request_is_valid q p) = kind_valid (kind_of q) q p.
Proof.
  unfold kind_of. destruct (shellui_hook_request_is_probe q); [done|].
  by destruct (shellui_hook_request_is_main_thread_guard q).
Qed.

Lemma no_request_post m :
  code m = code Ctl_init -> c_saved (env m) = None -> c_auth (env m) = None ->
  c_published (env m) = None ->
  poll_post (NoRequest, Core_init, Diagnostics_init) m.
Proof.
  intros Hc Hs Ha Hp. split; cbn [fst snd]; rewrite ?Hc, ?Hs, ?Ha, ?Hp; done.
Qed.

Lemma poll_wp : cwp (poll_and_apply_shellui_hook pid) Ctl_init poll_post.
Proof.
  unfold poll_and_apply_shellui_hook. apply wp_bind. unfold read_exact_file.
  intros [|]; cbn [ctl_step on_env env set_file bindp sysc call negb wp]; [|by apply no_request_post].
  intros raw. cbn [ctl_step bindp sysc call]. set (bytes := take sizeof_request (map u8 raw)).
  intros tr. cbn [ctl_step bindp sysc call]. intros cl. cbn [ctl_step on_env env set_req set_file c_file].
  cbn [bindp sysc call wp]. match goal with |- context [wp _ _ ?m _] => set (m1 := m) end.
  destruct (_ && _) eqn:El; cbn [wp]; [|by apply no_request_post]. unfold serve_request.
  apply andb_true_iff in El as [El _]. apply Nat.eqb_eq in El.
  set (q := request_of_bytes bytes).
  assert (wf_request q) as Hwf.
  { apply request_of_bytes_wf; [done|]. apply Forall_take, Forall_map, Forall_forall.
    intros x _. apply wrap_range. lia. }
  assert (before q m1) as Hb by done. clearbody m1. cbv beta iota zeta.
  intros un. cbn [ctl_step bindp sysc call]. intros sdk. cbn [ctl_step bindp sysc call].
  rewrite valid_kind. destruct (kind_valid (kind_of q) q pid) eqn:Hk; cbn [negb].
  2: { destruct Hb. apply refuse_wp; try done. by rewrite bf_auth0. }
  destruct (bool_decide _).
  { destruct Hb. apply refuse_wp; try done. by rewrite bf_auth0. }
  apply run_request_wp; [|done|done]. split; cbn; try done.
  - by intros ->.
  - by destruct (shellui_hook_request_is_main_thread_guard q).
  - by destruct (shellui_hook_request_is_main_thread_guard q).
Qed.
End Monitor.

(** C3: one poll of the hook controller, for every request file and every answer of the
    system.  ShellUI is stopped at most once, under the ptrace authority, and always
    resumed; the authority that was found is given back; code is written only for a
    valid guard or patch request, inside its window, with its desired or its expected
    bytes, and only after the expected bytes were read from the stopped process.
    [Applied] means the last complete read returned the desired bytes, ShellUI was
    detached and the authority was read back (for a probe: nothing was written and the
    observed bytes are the last read); [restored] means the last complete read returned
    the expected bytes; and the only file published is the complete acknowledgement of
    exactly this report. *)
Theorem poll_safe pid t r :
  exec (poll_and_apply_shellui_hook pid) t r ->
  exists m, monitor (ctl_step pid) Ctl_init t = Some m /\ poll_post pid r m.
Proof. intros He. exact (wp_sound _ _ _ _ (poll_wp pid) t r He). Qed.

(** A console of firmware 5.50 whose ShellUI holds the expected bytes of [sample_guard]. *)
Definition sim_console (s : list Z * Z) (c : sys) : sys_ret c * (list Z * Z) :=
  match c with
  | GetAuth => (s.2, s)
  | SetAuth v => (0, (s.1, v))
  | GetCaps => (Some (repeat 1 16), s)
  | MdbgRead _ _ _ | MdbgWrite _ _ _ =>
      ({| x_rc := 0; x_errno := 0; x_status := 0; x_length := 1; x_data := [] |}, s)
  | MdbgCopyout _ _ _ | PtCopyout _ _ _ => ((0, s.1), s)
  | MdbgCopyin _ _ b => (0, (b ++ drop (length b) s.1, s.2))
  | PtCopyin _ _ _ => ((0, 0), s)
  | FirmwareSdk => (0x05500000, s)
  | FOpen _ _ => (true, s)
  | FRead _ => (request_bytes sample_guard, s)
  | FGetc => (None, s)
  | FWrite b => (Z.of_nat (length b), s)
  | _ => (0, s)
  end.

Definition poll_run := run sim_console (poll_and_apply_shellui_hook 77) (q_expected sample_guard, 42).

Lemma poll_safe_witness :
  poll_run.1.1.1.1 = Applied /\
  exists m, monitor (ctl_step 77) Ctl_init poll_run.2 = Some m /\ c_attached (code m) = false.
Proof.
  split; [vm_compute; reflexivity|].
  destruct (poll_safe 77 poll_run.2 poll_run.1.1) as (m & Hm & Hp).
  - apply run_exec.
  - exists m. split; [exact Hm|apply Hp].
Defined.
