(* ===== verification/Trampoline.v ===== *)
(** The relocation of a native prologue in the renderer: [encode_absolute_jump],
    [prepare_trampoline], [decode_relocatable_instruction] and [native_patch_length] of
    [src/ps5/shellui_payload/commonfps_shellui.cpp].  Code is a list of bytes; a pointer
    into it is the list from there on. *)
From S2P Require Import Prelude HookProtocol.

Definition kAbsoluteJumpSize : nat := 14.
Definition kAtomicPatchSize : nat := 16.
Definition kTrampolineCapacity : nat := 128.

(** [memcpy] of [l] into [buf] at [off]. *)
Definition store (off : nat) (l buf : list Z) : list Z :=
  take off buf ++ l ++ drop (off + length l) buf.

Definition encode_absolute_jump (output : list Z) (destination : Z) : list Z :=
  store 6 (le_encode 8 destination) (store 0 [0xff; 0x25; 0; 0; 0; 0] output).

(** The trampoline area after the call; [None] for [false].  [continuation] is 0 for a
    null pointer. *)
Definition prepare_trampoline (trampoline original : list Z) (original_size : nat)
    (continuation : Z) : option (list Z) :=
  if (original_size =? 0)%nat ||
     (kTrampolineCapacity <? original_size + (if (continuation =? 0)%Z then 0 else kAbsoluteJumpSize))%nat
  then None
  else
    let copied := store 0 (take original_size original) trampoline in
    if continuation =? 0 then Some copied
    else Some (take original_size copied ++
               encode_absolute_jump (drop original_size copied) continuation).

(** ** The instruction decoder *)

Definition is_legacy_prefix (byte : Z) : bool :=
  existsb (Z.eqb byte) [0xf0; 0xf2; 0xf3; 0x2e; 0x36; 0x3e; 0x26; 0x64; 0x65].

(** Cursor and flags after the prefixes; [None] for an address-size override. *)
Record Prefixes := { p_cursor : nat; p_rex_w : bool; p_operand16 : bool }.

Fixpoint skip_prefixes (fuel : nat) (code : list Z) (available : nat) (st : Prefixes) : option Prefixes :=
  match fuel with
  | O => Some st
  | S f =>
      if (p_cursor st <? available)%nat then
        let byte := byte_at code (p_cursor st) in
        if byte =? 0x66 then
          skip_prefixes f code available
            {| p_cursor := S (p_cursor st); p_rex_w := p_rex_w st; p_operand16 := true |}
        else if byte =? 0x67 then None
        else if is_legacy_prefix byte then
          skip_prefixes f code available
            {| p_cursor := S (p_cursor st); p_rex_w := p_rex_w st; p_operand16 := p_operand16 st |}
        else if (0x40 <=? byte) && (byte <=? 0x4f) then
          skip_prefixes f code available
            {| p_cursor := S (p_cursor st); p_rex_w := negb (Z.land byte 0x08 =? 0);
               p_operand16 := p_operand16 st |}
        else Some st
      else Some st
  end.

(** [cursor + n <= available ? cursor + n : 0] *)
Definition upto (cursor n available : nat) : nat :=
  if (cursor + n <=? available)%nat then (cursor + n)%nat else 0%nat.

Definition modrm_opcode (opcode : Z) : bool :=
  existsb (Z.eqb opcode) [0x01; 0x03; 0x09; 0x0b; 0x21; 0x23; 0x29; 0x2b; 0x31; 0x33; 0x39; 0x3b;
                          0x63; 0x85; 0x87; 0x89; 0x8b; 0x8d].
Definition modrm_imm8_opcode (opcode : Z) : bool := existsb (Z.eqb opcode) [0x80; 0x82; 0x83; 0xc6].
Definition modrm_imm_opcode (opcode : Z) : bool := existsb (Z.eqb opcode) [0x81; 0xc7].
Definition modrm_0f_opcode (second : Z) : bool :=
  existsb (Z.eqb second) [0x1e; 0x1f; 0xb6; 0xb7; 0xbe; 0xbf].

(** Relative control flow is never relocated. *)
Definition relative_branch (opcode : Z) : bool :=
  (opcode =? 0xe8) || (opcode =? 0xe9) || (opcode =? 0xeb) ||
  ((0x70 <=? opcode) && (opcode <=? 0x7f)) || ((0xe0 <=? opcode) && (opcode <=? 0xe3)).

(** From the ModRM byte at [cursor] on. *)
Definition decode_modrm (code : list Z) (available cursor immediate : nat) : nat :=
  if (available <=? cursor)%nat then 0%nat
  else
    let modrm := byte_at code cursor in
    let cursor := S cursor in
    let mod_ := Z.shiftr modrm 6 in
    let rm := Z.land modrm 7 in
    let after_sib :=
      if negb (mod_ =? 3) && (rm =? 4) then
        if (available <=? cursor)%nat then None
        else
          let base := Z.land (byte_at code cursor) 7 in
          let cursor := S cursor in
          if (mod_ =? 0) && (base =? 5) then
            if (available <? cursor + 4)%nat then None else Some (cursor + 4)%nat
          else Some cursor
      else if (mod_ =? 0) && (rm =? 5) then None
      else Some cursor in
    match after_sib with
    | None => 0%nat
    | Some cursor =>
        let displacement := if mod_ =? 1 then 1%nat else if mod_ =? 2 then 4%nat else 0%nat in
        if (available <? cursor + displacement)%nat then 0%nat
        else upto (cursor + displacement) immediate available
    end.

(** What the opcode decides: the result, or a ModRM byte at [cursor] and an immediate. *)
Inductive Tail := Done (result : nat) | Modrm (cursor immediate : nat).

Definition opcode_tail (code : list Z) (available : nat) (p : Prefixes) : Tail :=
  let opcode := byte_at code (p_cursor p) in
  let cursor := S (p_cursor p) in
  let imm := if p_operand16 p then 2%nat else 4%nat in
  if ((0x50 <=? opcode) && (opcode <=? 0x5f)) || (opcode =? 0x90) then Done cursor
  else if opcode =? 0x68 then Done (upto cursor imm available)
  else if opcode =? 0x6a then Done (upto cursor 1 available)
  else if (0xb8 <=? opcode) && (opcode <=? 0xbf) then
    Done (upto cursor (if p_rex_w p then 8%nat else imm) available)
  else if relative_branch opcode then Done 0
  else if modrm_opcode opcode then Modrm cursor 0
  else if modrm_imm8_opcode opcode then Modrm cursor 1
  else if modrm_imm_opcode opcode then Modrm cursor imm
  else if opcode =? 0x0f then
    if (available <=? cursor)%nat then Done 0
    else
      let second := byte_at code cursor in
      if (0x80 <=? second) && (second <=? 0x8f) then Done 0
      else if modrm_0f_opcode second then Modrm (S cursor) 0
      else Done 0
  else Done 0.

Definition decode_opcode (code : list Z) (available : nat) (p : Prefixes) : nat :=
  if (available <=? p_cursor p)%nat then 0%nat
  else match opcode_tail code available p with
       | Done result => result
       | Modrm cursor immediate => decode_modrm code available cursor immediate
       end.

(** The length of the instruction at [code], 0 when it cannot be relocated. *)
Definition decode_relocatable_instruction (code : list Z) (available : nat) : nat :=
  if (available =? 0)%nat then 0%nat
  else match skip_prefixes available code available
               {| p_cursor := 0; p_rex_w := false; p_operand16 := false |} with
       | None => 0%nat
       | Some p => decode_opcode code available p
       end.

(** Whole instructions until a jump fits; every round decodes at least one byte. *)
Fixpoint patch_loop (fuel : nat) (code : list Z) (length : nat) : nat :=
  if (length <? kAbsoluteJumpSize)%nat then
    match fuel with
    | O => 0%nat
    | S f =>
        let decoded := decode_relocatable_instruction (drop length code) (kAtomicPatchSize - length) in
        if (decoded =? 0)%nat then 0%nat else patch_loop f code (length + decoded)
    end
  else length.

Definition native_patch_length (code : list Z) : nat :=
  let length := patch_loop kAbsoluteJumpSize code 0 in
  if (length <=? kAtomicPatchSize)%nat then length else 0%nat.

Example decode_push_rbp : native_patch_length
  [0x55; 0x48; 0x89; 0xe5; 0x41; 0x57; 0x41; 0x56; 0x48; 0x83; 0xec; 0x28; 0x90; 0x90; 0x90; 0x90] = 14%nat.
Proof. reflexivity. Qed.

(** ** The decoder looks only at the instruction *)

(** Agreement of two codes on their first [n] bytes. *)
Definition agree (n : nat) (c c' : list Z) : Prop := forall i, (i < n)%nat -> byte_at c i = byte_at c' i.

(** The decoding [f code available = n] is bounded by [available] and does not look past
    the [n] bytes. *)
Definition delimited (f : list Z -> nat -> nat) (code : list Z) (available low n : nat) : Prop :=
  (low < n <= available)%nat /\
  forall code' available', agree n code code' -> (n <= available')%nat -> f code' available' = n.

Ltac nat_facts :=
  repeat match goal with
  | H : (_ <=? _)%nat = true |- _ => apply Nat.leb_le in H
  | H : (_ <=? _)%nat = false |- _ => apply Nat.leb_gt in H
  | H : (_ <? _)%nat = true |- _ => apply Nat.ltb_lt in H
  | H : (_ <? _)%nat = false |- _ => apply Nat.ltb_ge in H
  end.

(** Decide the bounds checks of the goal from the hypotheses. *)
Ltac nat_tests :=
  repeat match goal with
  | |- context [(?a <=? ?b)%nat] =>
      first [rewrite (proj2 (Nat.leb_le a b)) by lia | rewrite (proj2 (Nat.leb_gt a b)) by lia]
  | |- context [(?a <? ?b)%nat] =>
      first [rewrite (proj2 (Nat.ltb_lt a b)) by lia | rewrite (proj2 (Nat.ltb_ge a b)) by lia]
  end.

(** Replace bytes of the other code by those of the code the run is known for. *)
Ltac same_bytes A :=
  repeat match goal with
  | |- context [byte_at ?c ?i] =>
      match type of A with agree _ _ c => rewrite <- (A i) by lia end
  end.

Lemma upto_delimited code cursor n available low k :
  upto cursor n available = k -> k <> 0%nat -> (low < cursor)%nat ->
  delimited (fun _ => upto cursor n) code available low k.
Proof.
  unfold upto. destruct (_ <=? _)%nat eqn:E; intros <- Hk Hl; [|done]. nat_facts.
  split; [lia|]. intros code' available' _ H. by nat_tests.
Qed.

Lemma decode_modrm_delimited code available cursor immediate n :
  decode_modrm code available cursor immediate = n -> n <> 0%nat ->
  delimited (fun c a => decode_modrm c a cursor immediate) code available cursor n.
Proof.
  unfold decode_modrm, upto. intros H Hn.
  repeat match type of H with
  | context [if ?b then _ else _] => destruct b eqn:?; try congruence
  end; nat_facts; (split; [lia|]);
    intros code' available' A Ha; nat_tests; cbv zeta; same_bytes A;
    repeat match goal with E : _ = ?b |- context [if ?e then _ else _] =>
      match type of E with e = b => rewrite E end end; nat_tests; same_bytes A;
    repeat match goal with E : ?e = ?b |- context [if ?e then _ else _] => rewrite E end;
    nat_tests; congruence || lia.
Qed.

(** *** Prefixes *)

Definition is_prefix (byte : Z) : bool :=
  (byte =? 0x66) || is_legacy_prefix byte || ((0x40 <=? byte) && (byte <=? 0x4f)).

Lemma prefix_byte fuel code available st p :
  skip_prefixes (S fuel) code available st = Some p -> (p_cursor st < available)%nat ->
  (is_prefix (byte_at code (p_cursor st)) = true /\
   exists st', p_cursor st' = S (p_cursor st) /\ skip_prefixes fuel code available st' = Some p /\
     forall fuel' code' available', (p_cursor st < available')%nat ->
       byte_at code (p_cursor st) = byte_at code' (p_cursor st) ->
       skip_prefixes (S fuel') code' available' st = skip_prefixes fuel' code' available' st') \/
  (p = st /\ forall fuel' code' available', (p_cursor st < available')%nat ->
       byte_at code (p_cursor st) = byte_at code' (p_cursor st) ->
       skip_prefixes fuel' code' available' st = Some st).
Proof.
  intros H Hlt. cbn [skip_prefixes] in H. apply Nat.ltb_lt in Hlt. rewrite Hlt in H. cbv zeta in H.
  assert (forall fuel' code' available', (p_cursor st < available')%nat ->
    byte_at code (p_cursor st) = byte_at code' (p_cursor st) ->
    skip_prefixes (S fuel') code' available' st =
      (if byte_at code (p_cursor st) =? 0x66 then
         skip_prefixes fuel' code' available'
           {| p_cursor := S (p_cursor st); p_rex_w := p_rex_w st; p_operand16 := true |}
       else if byte_at code (p_cursor st) =? 0x67 then None
       else if is_legacy_prefix (byte_at code (p_cursor st)) then
         skip_prefixes fuel' code' available'
           {| p_cursor := S (p_cursor st); p_rex_w := p_rex_w st; p_operand16 := p_operand16 st |}
       else if (0x40 <=? byte_at code (p_cursor st)) && (byte_at code (p_cursor st) <=? 0x4f) then
         skip_prefixes fuel' code' available'
           {| p_cursor := S (p_cursor st); p_rex_w := negb (Z.land (byte_at code (p_cursor st)) 0x08 =? 0);
              p_operand16 := p_operand16 st |}
       else Some st)) as Hs.
  { intros fuel' code' available' Hl E. cbn [skip_prefixes]. nat_tests. by rewrite <- E. }
  unfold is_prefix. destruct (byte_at code (p_cursor st) =? 0x66) eqn:E1.
  { left. split; [done|]. eexists. split; [|split; [exact H|]]; [done|]. intros. by apply Hs. }
  destruct (byte_at code (p_cursor st) =? 0x67) eqn:E2; [done|].
  destruct (is_legacy_prefix _) eqn:E3.
  { left. split; [done|]. eexists. split; [|split; [exact H|]]; [done|]. intros. by apply Hs. }
  destruct (_ && _) eqn:E4.
  { left. split; [done|]. eexists. split; [|split; [exact H|]]; [done|]. intros. by apply Hs. }
  right. injection H as <-. split; [done|]. intros [|fuel'] code' available' Hl E; [done|]. by apply Hs.
Qed.

Lemma skip_prefixes_spec fuel code available st p :
  skip_prefixes fuel code available st = Some p -> (available <= fuel + p_cursor st)%nat ->
  (p_cursor p < available)%nat ->
  (p_cursor st <= p_cursor p)%nat /\
  (forall i, (p_cursor st <= i < p_cursor p)%nat -> is_prefix (byte_at code i) = true) /\
  forall fuel' code' available', agree (S (p_cursor p)) code code' ->
    (p_cursor p < available')%nat -> (available' <= fuel' + p_cursor st)%nat ->
    skip_prefixes fuel' code' available' st = Some p.
Proof.
  revert st; induction fuel as [|fuel IH]; intros st H Hf Hp.
  { injection H as ->. lia. }
  destruct (decide (p_cursor st < available)%nat) as [Hlt|Hge].
  2: { cbn [skip_prefixes] in H. assert ((p_cursor st <? available)%nat = false) as E by (apply Nat.ltb_ge; lia).
       rewrite E in H. injection H as ->. lia. }
  destruct (prefix_byte fuel code available st p H Hlt) as [[Hb (st' & Hc & Hs & Hd)]|[-> Hd]].
  - destruct (IH st' Hs) as (H1 & H2 & H3); [lia|done|]. rewrite Hc in H1. split; [lia|]. split.
    + intros i Hi. destruct (decide (i = p_cursor st)) as [->|]; [done|]. apply H2. lia.
    + intros [|fuel'] code' available' A Hl Hfu; [lia|]. rewrite Hd; [|lia|apply A; lia].
      apply H3; [done|done|]. lia.
  - split; [lia|]. split; [lia|]. intros fuel' code' available' A Hl _. apply Hd; [done|]. apply A. lia.
Qed.

(** *** Whole instructions *)

(** An instruction that can be moved: after its prefixes comes an opcode that is no
    relative branch or call, and a memory operand that is not RIP-relative. *)
Definition has_modrm (opcode : Z) : bool :=
  modrm_opcode opcode || modrm_imm8_opcode opcode || modrm_imm_opcode opcode.

Definition rip_relative (modrm : Z) : bool := (Z.shiftr modrm 6 =? 0) && (Z.land modrm 7 =? 5).

Definition relocatable (code : list Z) : Prop :=
  exists k, (forall i, (i < k)%nat -> is_prefix (byte_at code i) = true) /\
    relative_branch (byte_at code k) = false /\
    (has_modrm (byte_at code k) = true -> rip_relative (byte_at code (S k)) = false) /\
    (byte_at code k = 0x0f ->
       modrm_0f_opcode (byte_at code (S k)) = true /\ rip_relative (byte_at code (S (S k))) = false).

Lemma decode_modrm_rip code available cursor immediate :
  decode_modrm code available cursor immediate <> 0%nat -> rip_relative (byte_at code cursor) = false.
Proof.
  unfold decode_modrm, rip_relative. destruct (_ <=? _)%nat; [done|]. cbv zeta.
  set (m := byte_at code cursor).
  destruct (Z.shiftr m 6 =? 0) eqn:E1; [|done]. destruct (Z.land m 7 =? 5) eqn:E2; [|done].
  apply Z.eqb_eq in E1, E2. rewrite E1, E2. cbn. congruence.
Qed.

(** Opcodes that are decoded without a ModRM byte. *)
Lemma plain_opcode_moves opcode :
  0x50 <= opcode <= 0x5f \/ opcode = 0x90 \/ opcode = 0x68 \/ opcode = 0x6a \/ 0xb8 <= opcode <= 0xbf ->
  relative_branch opcode = false /\ has_modrm opcode = false /\ opcode <> 0x0f.
Proof.
  unfold relative_branch, has_modrm, modrm_opcode, modrm_imm8_opcode, modrm_imm_opcode.
  cbn [existsb]. breflect. lia.
Qed.

Definition moves (code : list Z) (k : nat) : Prop :=
  relative_branch (byte_at code k) = false /\
  (has_modrm (byte_at code k) = true -> rip_relative (byte_at code (S k)) = false) /\
  (byte_at code k = 0x0f ->
     modrm_0f_opcode (byte_at code (S k)) = true /\ rip_relative (byte_at code (S (S k))) = false).

Lemma plain_moves code k :
  0x50 <= byte_at code k <= 0x5f \/ byte_at code k = 0x90 \/ byte_at code k = 0x68 \/
  byte_at code k = 0x6a \/ 0xb8 <= byte_at code k <= 0xbf -> moves code k.
Proof. intros (H1 & H2 & H3)%plain_opcode_moves. split; [done|]. split; congruence. Qed.

Lemma has_modrm_0f opcode : has_modrm opcode = true -> opcode <> 0x0f.
Proof. by intros H ->. Qed.

Lemma opcode_tail_done code available p n :
  opcode_tail code available p = Done n -> n <> 0%nat -> (p_cursor p < available)%nat ->
  moves code (p_cursor p) /\
  (p_cursor p < n <= available)%nat /\
  forall code' available', agree n code code' -> (n <= available')%nat ->
    opcode_tail code' available' p = Done n.
Proof.
  unfold opcode_tail. intros H Hn Hp. cbv zeta in H.
  repeat match type of H with
  | context [if ?b then _ else _] => destruct b eqn:?; try congruence
  end; injection H as <-;
  repeat match goal with Hn : upto _ _ _ <> 0%nat |- _ => unfold upto in *; destruct (_ <=? _)%nat eqn:?; [|done] end;
  nat_facts;
  (split; [apply plain_moves; breflect; lia|]); (split; [lia|]); intros code' available' A Ha;
  cbv zeta; same_bytes A;
  repeat match goal with E : ?e = ?b |- context [if ?e then _ else _] => rewrite E end; unfold upto; nat_tests; done.
Qed.

Lemma opcode_tail_modrm code available p cursor immediate :
  opcode_tail code available p = Modrm cursor immediate -> (p_cursor p < available)%nat ->
  rip_relative (byte_at code cursor) = false ->
  moves code (p_cursor p) /\ (p_cursor p < cursor)%nat /\
  forall code' available', agree cursor code code' -> (cursor < available')%nat ->
    opcode_tail code' available' p = Modrm cursor immediate.
Proof.
  unfold opcode_tail. intros H Hp Hr. cbv zeta in H.
  repeat match type of H with
  | context [if ?b then _ else _] => destruct b eqn:?; try congruence
  end; injection H as <- <-; nat_facts; (split; [|split; [lia|]]).
  all: try match goal with |- moves _ _ =>
    split; [done|split]; [intros Hm|intros E]; rewrite ?E in *;
      first [exact Hr | discriminate | split; [done|exact Hr] |
             exfalso; match goal with E : (_ =? 0x0f) = true |- _ => apply Z.eqb_eq in E; rewrite E in Hm; discriminate end] end.
  all: intros code' available' A Ha; cbv zeta; same_bytes A;
    repeat match goal with E : ?e = ?b |- context [if ?e then _ else _] => rewrite E end; nat_tests; try done.
Qed.

Lemma agree_le n m c c' : (n <= m)%nat -> agree m c c' -> agree n c c'.
Proof. intros H A i Hi. apply A. lia. Qed.

(** The decoded length is within the bytes available, the instruction is one that can be
    moved, and any code that starts with the same bytes decodes the same. *)
Lemma decode_spec code available n :
  decode_relocatable_instruction code available = n -> n <> 0%nat ->
  relocatable code /\ delimited decode_relocatable_instruction code available 0 n.
Proof.
  unfold decode_relocatable_instruction at 1. destruct (available =? 0)%nat eqn:E0; [by intros <-|].
  destruct (skip_prefixes _ _ _ _) as [p|] eqn:Es; [|by intros <-]. unfold decode_opcode.
  destruct (available <=? p_cursor p)%nat eqn:E1; [by intros <-|]. nat_facts. intros H Hn.
  apply Nat.eqb_neq in E0.
  destruct (skip_prefixes_spec _ _ _ _ _ Es) as (_ & Hpre & Hskip); [cbn; lia|lia|]. cbn in Hpre.
  assert (moves code (p_cursor p) /\ (p_cursor p < n <= available)%nat /\
          forall code' available', agree n code code' -> (n <= available')%nat ->
            decode_opcode code' available' p = n) as (Hm & Hb & Hd).
  { destruct (opcode_tail code available p) as [r|cursor immediate] eqn:Et.
    - subst r. destruct (opcode_tail_done _ _ _ _ Et Hn E1) as (Hm & Hb & Hd).
      split; [done|]. split; [done|]. intros code' available' A Ha. unfold decode_opcode. nat_tests.
      by rewrite Hd.
    - pose proof (decode_modrm_rip code available cursor immediate) as Hr. rewrite H in Hr.
      destruct (opcode_tail_modrm _ _ _ _ _ Et E1 (Hr Hn)) as (Hm & Hc & Ht).
      destruct (decode_modrm_delimited _ _ _ _ _ H Hn) as [Hb Hd].
      split; [done|]. split; [lia|]. intros code' available' A Ha. unfold decode_opcode. nat_tests.
      rewrite Ht; [by apply Hd| |lia]. eapply agree_le; [|done]. lia. }
  split.
  - exists (p_cursor p). split; [|done]. intros i Hi. apply Hpre. lia.
  - split; [lia|]. intros code' available' A Ha. unfold decode_relocatable_instruction.
    rewrite (proj2 (Nat.eqb_neq available' 0)) by lia.
    rewrite (Hskip available' code' available'); [by apply Hd| |lia|cbn; lia].
    eapply agree_le; [|done]. lia.
Qed.

(** Code that splits into whole instructions that can be moved. *)
Inductive instructions : list Z -> list nat -> Prop :=
| i_nil code : instructions code []
| i_cons code n ns :
    n <> 0%nat -> decode_relocatable_instruction code n = n -> relocatable code ->
    instructions (drop n code) ns -> instructions code (n :: ns).

Lemma byte_at_drop code n i : byte_at (drop n code) i = byte_at code (n + i).
Proof. unfold byte_at. by rewrite !nth_lookup, lookup_drop. Qed.

Lemma instructions_agree code code' ns :
  instructions code ns -> agree (list_sum ns) code code' -> instructions code' ns.
Proof.
  intros H. revert code'; induction H as [|code n ns Hn Hd Hr _ IH]; intros code' A; [constructor|].
  simpl in A. assert (decode_relocatable_instruction code' n = n) as Hd'.
  { destruct (decode_spec code n n Hd Hn) as [_ [_ D]]. apply D; [|lia]. eapply agree_le; [|done]. lia. }
  constructor; [done|done|by apply (decode_spec code' n n)|]. apply IH. intros i Hi.
  rewrite !byte_at_drop. apply A. lia.
Qed.

Lemma patch_loop_spec fuel code length n :
  patch_loop fuel code length = n -> n <> 0%nat -> (length <= kAtomicPatchSize)%nat ->
  (length <= n <= kAtomicPatchSize)%nat /\ (kAbsoluteJumpSize <= n)%nat /\
  exists ns, instructions (drop length code) ns /\ (length + list_sum ns = n)%nat.
Proof.
  revert length; induction fuel as [|fuel IH]; intros length H Hn Hl; cbn [patch_loop] in H.
  - destruct (_ <? _)%nat eqn:E; [by subst|]. nat_facts. subst. split; [lia|]. split; [lia|].
    exists []. split; [constructor|cbn; lia].
  - destruct (_ <? _)%nat eqn:E; nat_facts.
    2: { subst. split; [lia|]. split; [lia|]. exists []. split; [constructor|cbn; lia]. }
    cbv zeta in H. destruct (decode_relocatable_instruction _ _ =? 0)%nat eqn:Ed; [by subst|].
    apply Nat.eqb_neq in Ed. set (d := decode_relocatable_instruction _ _) in *.
    destruct (decode_spec (drop length code) (kAtomicPatchSize - length) d eq_refl Ed) as [Hr [Hb Hd]].
    destruct (IH (length + d)%nat H Hn) as (H1 & H2 & ns & H3 & H4); [lia|].
    split; [lia|]. split; [done|]. exists (d :: ns). split; [|unfold list_sum in *; simpl; lia].
    constructor; [done|by apply Hd|done|]. by rewrite drop_drop.
Qed.

(** *** The trampoline *)

Lemma length_store off l buf :
  (off + length l <= length buf)%nat -> length (store off l buf) = length buf.
Proof. intros H. unfold store. rewrite !length_app, length_take, length_drop. lia. Qed.

Lemma take_store off l buf :
  (off + length l <= length buf)%nat -> take (off + length l) (store off l buf) = take off buf ++ l.
Proof.
  intros H. unfold store. rewrite app_assoc, take_app_le by (rewrite length_app, length_take; lia).
  apply take_ge. rewrite length_app, length_take. lia.
Qed.

Lemma drop_store off l buf n :
  (off + length l <= length buf)%nat -> (off + length l <= n)%nat ->
  drop n (store off l buf) = drop n buf.
Proof.
  intros H Hn. unfold store. rewrite app_assoc, drop_app_ge by (rewrite length_app, length_take; lia).
  rewrite length_app, length_take, drop_drop. f_equal. lia.
Qed.

Lemma encode_absolute_jump_spec output destination :
  (kAbsoluteJumpSize <= length output)%nat ->
  encode_absolute_jump output destination = absolute_jump destination ++ drop kAbsoluteJumpSize output.
Proof.
  unfold kAbsoluteJumpSize, encode_absolute_jump. intros H.
  set (o := store 0 _ output). unfold store at 1. rewrite length_le_encode.
  assert (take 6 o = kShellUiAbsoluteJumpPrefix) as ->.
  { apply (take_store 0 [0xff; 0x25; 0; 0; 0; 0]). cbn. lia. }
  subst o. rewrite drop_store by (cbn; lia). unfold absolute_jump. by rewrite <- app_assoc.
Qed.

(** The trampoline: the displaced bytes, the jump back, and nothing else. *)
Lemma prepare_trampoline_spec trampoline original n continuation :
  length trampoline = kTrampolineCapacity -> (1 <= n <= length original)%nat ->
  (n <= kTrampolineCapacity - kAbsoluteJumpSize)%nat -> continuation <> 0 ->
  prepare_trampoline trampoline original n continuation =
    Some (take n original ++ absolute_jump continuation ++ drop (n + kAbsoluteJumpSize) trampoline).
Proof.
  unfold kTrampolineCapacity, kAbsoluteJumpSize. intros Ht Hn Hc Hk. unfold prepare_trampoline.
  apply Z.eqb_neq in Hk. rewrite Hk. rewrite (proj2 (Nat.eqb_neq n 0)) by lia.
  rewrite (proj2 (Nat.ltb_ge kTrampolineCapacity (n + kAbsoluteJumpSize)))
    by (unfold kTrampolineCapacity, kAbsoluteJumpSize; lia).
  cbn [orb]. do 2 f_equal.
  assert (length (take n original) = n) as Hl by (rewrite length_take; lia).
  assert (exists copied, copied = store 0 (take n original) trampoline) as [copied Ec] by eauto.
  rewrite <- Ec.
  assert (take n copied = take n original) as ->.
  { transitivity (take (0 + length (take n original)) copied); [by rewrite Hl|].
    rewrite Ec. apply (take_store 0). lia. }
  f_equal. rewrite encode_absolute_jump_spec.
  - rewrite drop_drop. f_equal. apply drop_store; rewrite length_take; unfold kAbsoluteJumpSize; lia.
  - rewrite length_drop, length_store by (rewrite length_take; lia). unfold kAbsoluteJumpSize. lia.
Qed.

Lemma native_patch_length_spec code n :
  native_patch_length code = n -> n <> 0%nat ->
  (kAbsoluteJumpSize <= n <= kAtomicPatchSize)%nat /\
  exists ns, instructions code ns /\ list_sum ns = n.
Proof.
  unfold native_patch_length. intros Hn Hz.
  destruct (patch_loop_spec kAbsoluteJumpSize code 0 n) as (H1 & H2 & ns & H3 & H4); [|done|lia|].
  - destruct (_ <=? _)%nat; [exact Hn|congruence].
  - split; [lia|]. exists ns. rewrite drop_0 in H3. by split.
Qed.


(** [push rbp; mov rbp, rsp; push r15; push r14; sub rsp, 40; nop ...] *)
Definition sample_prologue : list Z :=
  [0x55; 0x48; 0x89; 0xe5; 0x41; 0x57; 0x41; 0x56; 0x48; 0x83; 0xec; 0x28; 0x90; 0x90; 0x90; 0x90].

