(* ===== verification/Mono.v ===== *)
(** The managed side of the renderer: the Mono calls of
    [src/ps5/shellui_payload/commonfps_shellui.cpp], its garbage-collector handles, the
    PUI widgets and [apply_packet_on_render].

    Pointers are [Z] with 0 for null.  The function pointers [mono_*_] are initialised
    with the imported functions and never assigned, so the tests that they are not null
    have no counterpart.  [record_stage] and [log_line] only write diagnostics and are
    left out.  A destructor is a call to [release_managed_handle] at the end of its
    scope, on every path. *)
From S2P Require Import Prelude Effects Float Types Text Config Layout Wire Debugger.

(** Arguments of a managed call: an object reference, an interior pointer to the value
    inside a boxed object, or plain data. *)
Inductive arg := Ref (o : Z) | Val (p : Z) | AInt (n : Z) | AFloat (x : f32) | ABool (b : bool).

Inductive rcall :=
| GetRootDomain | DomainGet | ThreadAttach (domain : Z)
| AssemblyOpen (domain : Z) (path : string) | AssemblyGetImage (assembly : Z)
| ClassFromName (image : Z) (ns name : string)
| MethodFromName (klass : Z) (name : string) (params : Z)
| PropertyFromName (klass : Z) (name : string)
| PropertyGetMethod (property : Z) | PropertySetMethod (property : Z)
| RuntimeInvoke (member : string) (method instance : Z) (args : list arg)
| StringNew (domain : Z) (s : text) | ObjectNew (domain klass : Z) | ObjectInit (o : Z)
| Unbox (o : Z) | CompileMethod (method : Z)
| Thunk (member : string) (thunk : Z) (args : list arg)  (** a call of compiled code *)
| GcNew (o : Z) (pinned : bool) | GcTarget (handle : Z) | GcFree (handle : Z)
| GetPid | Usleep (us : Z)
| File (c : sys)                         (** the request and acknowledgement files *)
| StoreTrampoline (bytes : list Z)       (** the copied prologue becomes executable *)
| StoreOriginal (target : Z).            (** [g_application_update_original], read by the hook *)

Definition rcall_ret (c : rcall) : Type :=
  match c with
  | RuntimeInvoke _ _ _ _ => Z * Z  (** result, exception *)
  | ObjectInit _ | GcFree _ | Usleep _ | StoreTrampoline _ | StoreOriginal _ => unit
  | File c => sys_ret c
  | _ => Z
  end.

Abbreviation rprog := (prog rcall_ret).
Definition rc (c : rcall) : rprog (rcall_ret c) := call c.

Definition null (p : Z) : bool := p =? 0.

(** The renderer's globals. *)
Record Globals := {
  g_domain : Z; g_pui_image : Z; g_find_scene_method : Z; g_background_render_mode : bool;
  g_game_scene_handle : Z; g_root_handle : Z; g_label_handle : Z; g_value_handle : Z;
  g_style_applied : bool; g_applied_config : OverlayConfig; g_applied_layout : OverlayLayout
}.

Definition OverlayLayout_init : OverlayLayout := {|
  l_anchor := {| vx := fzero; vy := fzero |}; l_font_size := 0; label_advance := fzero;
  width := fzero; height := fzero |}.

Definition Globals_init : Globals := {|
  g_domain := 0; g_pui_image := 0; g_find_scene_method := 0; g_background_render_mode := false;
  g_game_scene_handle := 0; g_root_handle := 0; g_label_handle := 0; g_value_handle := 0;
  g_style_applied := false; g_applied_config := OverlayConfig_init;
  g_applied_layout := OverlayLayout_init |}.

(** Assignments to the globals. *)
Definition with_handles (g : Globals) (scene root label value : Z) (styled : bool) : Globals := {|
  g_domain := g_domain g; g_pui_image := g_pui_image g;
  g_find_scene_method := g_find_scene_method g;
  g_background_render_mode := g_background_render_mode g;
  g_game_scene_handle := scene; g_root_handle := root; g_label_handle := label;
  g_value_handle := value; g_style_applied := styled; g_applied_config := g_applied_config g;
  g_applied_layout := g_applied_layout g |}.
Definition with_label (g : Globals) (h : Z) : Globals :=
  with_handles g (g_game_scene_handle g) (g_root_handle g) h (g_value_handle g) (g_style_applied g).
Definition with_value (g : Globals) (h : Z) : Globals :=
  with_handles g (g_game_scene_handle g) (g_root_handle g) (g_label_handle g) h (g_style_applied g).
Definition with_style (g : Globals) (styled : bool) : Globals :=
  with_handles g (g_game_scene_handle g) (g_root_handle g) (g_label_handle g) (g_value_handle g) styled.
Definition applied (g : Globals) (cfg : OverlayConfig) (layout : OverlayLayout) : Globals := {|
  g_domain := g_domain g; g_pui_image := g_pui_image g;
  g_find_scene_method := g_find_scene_method g;
  g_background_render_mode := g_background_render_mode g;
  g_game_scene_handle := g_game_scene_handle g; g_root_handle := g_root_handle g;
  g_label_handle := g_label_handle g; g_value_handle := g_value_handle g;
  g_style_applied := true; g_applied_config := cfg; g_applied_layout := layout |}.

Definition kLabelId : text := str "id_commonfps_label".
Definition kValueId : text := str "id_commonfps_value".

Section Programs.
Local Open Scope prog_scope.

Definition open_image (domain : Z) (path : string) : rprog Z :=
  if null domain then Ret 0
  else
    let* assembly := rc (AssemblyOpen domain path) in
    if null assembly then Ret 0 else rc (AssemblyGetImage assembly).

Definition invoke (member : string) (method instance : Z) (args : list arg) : rprog Z :=
  if null method then Ret 0
  else
    let* (result, exception) := rc (RuntimeInvoke member method instance args) in
    Ret (if null exception then result else 0).

Definition property_getter (klass : Z) (name : string) : rprog Z :=
  if null klass then Ret 0
  else
    let* property := rc (PropertyFromName klass name) in
    if null property then Ret 0 else rc (PropertyGetMethod property).

Definition property_setter (klass : Z) (name : string) : rprog Z :=
  if null klass then Ret 0
  else
    let* property := rc (PropertyFromName klass name) in
    if null property then Ret 0 else rc (PropertySetMethod property).

(** ** Handles *)

Definition managed_target (handle : Z) : rprog Z :=
  if null handle then Ret 0 else rc (GcTarget handle).

Definition free_handle (handle : Z) : rprog unit :=
  if null handle then Ret tt else rc (GcFree handle).

(** The new value of the handle and the result. *)
Definition replace_managed_handle (handle object : Z) : rprog (Z * bool) :=
  if null object then Ret (handle, false)
  else
    let* current := managed_target handle in
    if negb (null handle) && (current =? object) then Ret (handle, true)
    else
      let* next := rc (GcNew object true) in
      let* target := managed_target next in
      if null next || negb (target =? object) then free_handle next ;;; Ret (handle, false)
      else free_handle handle ;;; Ret (next, true).

(** The handle is 0 afterwards. *)
Definition release_managed_handle (handle : Z) : rprog unit := free_handle handle.

(** [PinnedObject]: its constructor, its members, and a scope that ends with its
    destructor. *)
Definition pin (object : Z) : rprog Z :=
  if null object then Ret 0 else let* (h, _) := replace_managed_handle 0 object in Ret h.
Definition pinned_object (h : Z) : rprog Z := managed_target h.
Definition pinned_value (h : Z) : rprog Z :=
  let* owner := pinned_object h in if null owner then Ret 0 else rc (Unbox owner).
Definition pinned_ok (h : Z) : rprog bool := let* o := pinned_object h in Ret (negb (null o)).
Definition scoped {A} (h : Z) (body : rprog A) : rprog A :=
  let* r := body in release_managed_handle h ;;; Ret r.

(** A [PinnedObject] that is returned: released only when [body] fails. *)
Definition returned (h : Z) (body : rprog bool) : rprog Z :=
  let* ok := body in if ok : bool then Ret h else release_managed_handle h ;;; Ret 0.

(** The part of [refresh_game_scene] inside the scope of [game_path]. *)
Definition find_game_scene (g : Globals) (game_path : Z) : rprog (bool * Globals) :=
  let* ok := pinned_ok game_path in
  if negb ok then Ret (false, g)
  else
    let* path := pinned_object game_path in
    let* game_scene := invoke "FindContainerSceneByPath" (g_find_scene_method g) 0 [Ref path] in
    if null game_scene then Ret (false, g)
    else
      let* current := managed_target (g_game_scene_handle g) in
      if current =? game_scene then Ret (true, g)
      else
        release_managed_handle (g_label_handle g) ;;;
        release_managed_handle (g_value_handle g) ;;;
        release_managed_handle (g_root_handle g) ;;;
        let* (scene, ok) := replace_managed_handle (g_game_scene_handle g) game_scene in
        Ret (ok, with_handles g scene 0 0 0 false).

Definition refresh_game_scene (g : Globals) : rprog (bool * Globals) :=
  if null (g_domain g) || null (g_find_scene_method g) then Ret (false, g)
  else
    let* active := rc DomainGet in
    let* name := rc (StringNew (if null active then g_domain g else active) (str "Game")) in
    let* game_path := pin name in
    scoped game_path (find_game_scene g game_path).

(** ** Widgets *)

Definition set_property_direct (klass instance : Z) (name : string) (value : arg) : rprog bool :=
  let* setter := property_setter klass name in
  if null setter then Ret false
  else
    let* thunk := rc (CompileMethod setter) in
    if null thunk then Ret false
    else let* _ := rc (Thunk name thunk [Ref instance; value]) in Ret true.

Definition set_property_object (klass instance : Z) (name : string) (value : arg) : rprog bool :=
  let* setter := property_setter klass name in
  if null setter then Ret false
  else
    let* (_, exception) := rc (RuntimeInvoke name setter instance [value]) in
    Ret (null exception).

Definition get_root_widget (g : Globals) : rprog Z :=
  let* game_scene := managed_target (g_game_scene_handle g) in
  if null game_scene then Ret 0
  else
    let* scene := rc (ClassFromName (g_pui_image g) "Sce.PlayStation.PUI.UI2" "Scene") in
    let* getter := property_getter scene "RootWidget" in
    if null getter then Ret 0 else invoke "RootWidget" getter game_scene [].

(** A boxed value of [klass], constructed in place. *)
Definition construct (g : Globals) (klass : Z) (params : Z) (args : list arg) : rprog Z :=
  if null klass then Ret 0
  else
    let* o := rc (ObjectNew (g_domain g) klass) in
    let* boxed := pin o in
    returned boxed
      (let* ok := pinned_ok boxed in
       if negb ok then Ret false
       else
         let* real := pinned_value boxed in
         let* ctor := rc (MethodFromName klass ".ctor" params) in
         let* thunk := (if null ctor then Ret 0 else rc (CompileMethod ctor)) in
         if null real || null thunk then Ret false
         else let* _ := rc (Thunk ".ctor" thunk (Val real :: args)) in Ret true).

Definition create_font (g : Globals) (size : Z) : rprog Z :=
  let* klass := rc (ClassFromName (g_pui_image g) "Sce.PlayStation.PUI.UI2" "UIFont") in
  construct g klass 3 [AInt size; AInt 0; AInt 0].

Definition create_color (g : Globals) (r gr b a : f32) : rprog Z :=
  let* klass := rc (ClassFromName (g_pui_image g) "Sce.PlayStation.PUI" "UIColor") in
  construct g klass 4 [AFloat r; AFloat gr; AFloat b; AFloat a].

(** [ok &= p]: [p] runs whatever [ok] is. *)
Definition and_also (ok : bool) (p : rprog bool) : rprog bool :=
  let* r := p in Ret (ok && r).

(** The setters of [create_label], in order. *)
Definition setup_label (klass label mono_name mono_text color font : Z) (x y : f32)
    (horizontal_alignment : Z) : rprog bool :=
  let* instance := pinned_object label in
  let* name := pinned_object mono_name in
  let* ok := and_also true (set_property_direct klass instance "Name" (Ref name)) in
  let* ok := and_also ok (set_property_direct klass instance "X" (AFloat x)) in
  let* ok := and_also ok (set_property_direct klass instance "Y" (AFloat y)) in
  let* text := pinned_object mono_text in
  let* ok := and_also ok (set_property_direct klass instance "Text" (Ref text)) in
  let* f := pinned_value font in
  let* ok := and_also ok (set_property_object klass instance "Font" (Val f)) in
  let* ok := and_also ok (set_property_direct klass instance "HorizontalAlignment"
                            (AInt horizontal_alignment)) in
  let* ok := and_also ok (set_property_direct klass instance "VerticalAlignment" (AInt 0)) in
  let* c := pinned_value color in
  let* ok := and_also ok (set_property_object klass instance "TextColor" (Val c)) in
  let* ok := and_also ok (set_property_direct klass instance "FitWidthToText" (ABool true)) in
  and_also ok (set_property_direct klass instance "FitHeightToText" (ABool true)).

(** Short-circuiting [!a || !b || ...] over the locals of [create_label]. *)
Fixpoint all_ok (hs : list Z) : rprog bool :=
  match hs with
  | [] => Ret true
  | h :: hs' => let* ok := pinned_ok h in if ok : bool then all_ok hs' else Ret false
  end.

Definition create_label (g : Globals) (name : text) (x y : f32) (content : text) (font : Z)
    (horizontal_alignment : Z) (r gr b a : f32) : rprog Z :=
  let* klass := rc (ClassFromName (g_pui_image g) "Sce.PlayStation.PUI.UI2" "Label") in
  if null klass then Ret 0
  else
    let* o := rc (ObjectNew (g_domain g) klass) in
    let* label := pin o in
    returned label
      (let* ok := pinned_ok label in
       if negb ok then Ret false
       else
         let* instance := pinned_object label in
         rc (ObjectInit instance) ;;;
         let* s := rc (StringNew (g_domain g) name) in
         let* mono_name := pin s in
         scoped mono_name
           (let* t := rc (StringNew (g_domain g) content) in
            let* mono_text := pin t in
            scoped mono_text
              (let* color := create_color g r gr b a in
               scoped color
                 (let* ok := all_ok [mono_name; mono_text; color; font] in
                  if negb ok then Ret false
                  else setup_label klass label mono_name mono_text color font x y
                         horizontal_alignment)))).

Definition find_widget (g : Globals) (root : Z) (id : text) : rprog Z :=
  let* klass := rc (ClassFromName (g_pui_image g) "Sce.PlayStation.PUI.UI2" "Widget") in
  let* method := (if null klass then Ret 0 else rc (MethodFromName klass "FindWidgetByName" 1)) in
  let* thunk := (if null method then Ret 0 else rc (CompileMethod method)) in
  if null root || null thunk then Ret 0
  else
    let* s := rc (StringNew (g_domain g) id) in
    let* name := pin s in
    scoped name
      (let* ok := pinned_ok name in
       if negb ok then Ret 0
       else
         let* n := pinned_object name in
         rc (Thunk "FindWidgetByName" thunk [Ref root; Ref n])).

Definition append_child (g : Globals) (root child : Z) : rprog bool :=
  let* klass := rc (ClassFromName (g_pui_image g) "Sce.PlayStation.PUI.UI2" "Widget") in
  let* method := (if null klass then Ret 0 else rc (MethodFromName klass "AppendChild" 1)) in
  if null method || null root || null child then Ret false
  else
    let* (_, exception) := rc (RuntimeInvoke "AppendChild" method root [Ref child]) in
    Ret (null exception).

Definition set_label_text (g : Globals) (label : Z) (content : text) : rprog bool :=
  if null label then Ret false
  else
    let* klass := rc (ClassFromName (g_pui_image g) "Sce.PlayStation.PUI.UI2" "Label") in
    let* s := rc (StringNew (g_domain g) content) in
    let* mono_text := pin s in
    scoped mono_text
      (let* ok := pinned_ok mono_text in
       if negb ok then Ret false
       else
         let* t := pinned_object mono_text in
         set_property_direct klass label "Text" (Ref t)).

(** [((rgb >> shift) & 255) / 255.0f] *)
Definition channel (rgb shift : Z) : f32 :=
  f32_div (f32_of_Z (Z.land (Z.shiftr rgb shift) 255)) (f32_of_Z 255).

Definition apply_rgb (g : Globals) (klass label rgb : Z) : rprog bool :=
  let* color := create_color g (channel rgb 16) (channel rgb 8) (channel rgb 0) (f32_of_Z 1) in
  scoped color
    (let* ok := pinned_ok color in
     if negb ok then Ret false
     else
       let* c := pinned_value color in
       set_property_object klass label "TextColor" (Val c)).

(** ** apply_packet_on_render *)

(** A new root widget: forget the children of the old one. *)
Definition adopt_root (g : Globals) (root : Z) : rprog (bool * Globals) :=
  let* current := managed_target (g_root_handle g) in
  if current =? root then Ret (true, g)
  else
    let* (h, ok) := replace_managed_handle (g_root_handle g) root in
    if negb ok then
      Ret (false, with_handles g (g_game_scene_handle g) h (g_label_handle g) (g_value_handle g)
                    (g_style_applied g))
    else
      release_managed_handle (g_label_handle g) ;;;
      release_managed_handle (g_value_handle g) ;;;
      Ret (true, with_handles g (g_game_scene_handle g) h 0 0 false).

(** What has to be redone. *)
Record Changes := {
  font_changed : bool; label_color_changed : bool; value_color_changed : bool;
  label_text_changed : bool; layout_changed : bool
}.

Definition changes (g : Globals) (cfg : OverlayConfig) (layout : OverlayLayout) : Changes :=
  let was := g_applied_layout g in
  let old := g_applied_config g in
  let first := negb (g_style_applied g) in
  {| font_changed := first || negb (l_font_size layout =? l_font_size was);
     label_color_changed := first || negb (label_color cfg =? label_color old);
     value_color_changed := first || negb (value_color cfg =? value_color old);
     label_text_changed := first || negb (Bool.eqb (show_label cfg) (show_label old));
     layout_changed := first || negb (f_eq (vx (l_anchor layout)) (vx (l_anchor was))) ||
                       negb (f_eq (vy (l_anchor layout)) (vy (l_anchor was))) ||
                       negb (f_eq (label_advance layout) (label_advance was)) |}.

Definition label_text (cfg : OverlayConfig) : text := if show_label cfg then str "FPS:" else [].
Definition value_text (frame : OverlayFrame) : text :=
  if loading frame then str "Loading" else dec (fps frame).
Definition value_x (layout : OverlayLayout) : f32 :=
  f32_add (vx (l_anchor layout)) (label_advance layout).

(** Create the widget, or retain the one that was found; the widget and its handle. *)
Definition ensure_widget (g : Globals) (root handle widget font : Z) (id : text) (x y : f32)
    (content : text) (alignment rgb : Z) : rprog (bool * Z * Z) :=
  if null widget then
    let* created := create_label g id x y content font alignment
                      (channel rgb 16) (channel rgb 8) (channel rgb 0) (f32_of_Z 1) in
    scoped created
      (let* ok := pinned_ok created in
       if negb ok then Ret (false, handle, widget)
       else
         let* child := pinned_object created in
         let* appended := append_child g root child in
         if negb appended then Ret (false, handle, widget)
         else
           let* child := pinned_object created in
           let* (h, ok) := replace_managed_handle handle child in
           if negb ok then Ret (false, h, widget)
           else let* w := managed_target h in Ret (true, h, w))
  else
    let* (h, ok) := replace_managed_handle handle widget in
    Ret (ok, h, widget).

(** The property updates of widgets that existed before. *)
Definition update_label (g : Globals) (ch : Changes) (cfg : OverlayConfig) (layout : OverlayLayout)
    (klass label font : Z) : rprog bool :=
  let* ok := and_also true (if font_changed ch
               then let* f := pinned_value font in set_property_object klass label "Font" (Val f)
               else Ret true) in
  let* ok := and_also ok (if label_color_changed ch
               then apply_rgb g klass label (label_color cfg) else Ret true) in
  let* ok := and_also ok (if label_text_changed ch
               then set_label_text g label (label_text cfg) else Ret true) in
  if layout_changed ch then
    let* ok := and_also ok (set_property_direct klass label "X" (AFloat (vx (l_anchor layout)))) in
    and_also ok (set_property_direct klass label "Y" (AFloat (vy (l_anchor layout))))
  else Ret ok.

Definition update_value (g : Globals) (ch : Changes) (frame : OverlayFrame) (layout : OverlayLayout)
    (klass value font : Z) : rprog bool :=
  let* ok := and_also true (if font_changed ch
               then let* f := pinned_value font in set_property_object klass value "Font" (Val f)
               else Ret true) in
  let* ok := and_also ok (if value_color_changed ch
               then apply_rgb g klass value (value_color (config frame)) else Ret true) in
  let* ok := (if layout_changed ch then
                let* ok := and_also ok (set_property_direct klass value "X" (AFloat (value_x layout))) in
                and_also ok (set_property_direct klass value "Y" (AFloat (vy (l_anchor layout))))
              else Ret ok) in
  and_also ok (set_label_text g value (value_text frame)).

(** From the font on; [font] is destroyed at the end. *)
Definition apply_widgets (g : Globals) (frame : OverlayFrame) (layout : OverlayLayout)
    (root label value font : Z) : rprog (bool * Globals) :=
  let cfg := config frame in
  let ch := changes g cfg layout in
  let new_label := null label in
  let new_value := null value in
  let* held := (if new_label || new_value || font_changed ch then pinned_ok font else Ret true) in
  if negb held then Ret (false, g)
  else
    let* (ok1, hl, label) := ensure_widget g root (g_label_handle g) label font kLabelId
        (vx (l_anchor layout)) (vy (l_anchor layout)) (label_text cfg) 1 (label_color cfg) in
    let g := with_label g hl in
    if negb ok1 then Ret (false, g)
    else
      let* (ok2, hv, value) := ensure_widget g root (g_value_handle g) value font kValueId
          (value_x layout) (vy (l_anchor layout)) (value_text frame) 0 (value_color cfg) in
      let g := with_value g hv in
      if negb ok2 then Ret (false, g)
      else
        let* klass := rc (ClassFromName (g_pui_image g) "Sce.PlayStation.PUI.UI2" "Label") in
        if null klass then Ret (false, g)
        else
          let* ok := (if new_label then Ret true
                      else update_label g ch cfg layout klass label font) in
          let* ok := (if new_value then Ret ok
                      else and_also ok (update_value g ch frame layout klass value font)) in
          if negb ok then Ret (false, with_style g false)
          else Ret (true, applied g cfg layout).

Definition apply_packet_on_render (g : Globals) (packet : WirePacket) : rprog (bool * Globals) :=
  match decode_wire_packet packet with
  | None => Ret (false, g)
  | Some frame =>
      let* (ok, g) := refresh_game_scene g in
      if negb ok then Ret (false, g)
      else
        let* root := get_root_widget g in
        if null root then Ret (false, g)
        else
          let* (ok, g) := adopt_root g root in
          if negb ok then Ret (false, g)
          else
            let layout := compute_layout (config frame) kLogicalWidth kLogicalHeight (loading frame) in
            let* label := managed_target (g_label_handle g) in
            let* value := managed_target (g_value_handle g) in
            let* label := (if null label then find_widget g root kLabelId else Ret label) in
            let* value := (if null value then find_widget g root kValueId else Ret value) in
            let* font := (if null label || null value ||
                             font_changed (changes g (config frame) layout)
                          then create_font g (l_font_size layout) else Ret 0) in
            scoped font (apply_widgets g frame layout root label value font)
  end.
End Programs.

(** ** Null tests *)

Lemma null_true p : null p = true -> p = 0.
Proof. apply Z.eqb_eq. Qed.
Lemma null_false p : null p = false -> p <> 0.
Proof. apply Z.eqb_neq. Qed.
Ltac nulls :=
  repeat match goal with
  | H : null _ = true |- _ => apply null_true in H
  | H : null _ = false |- _ => apply null_false in H
  end.

(** Answers for the calls an example does not use. *)
Definition silent_file (c : sys) : sys_ret c :=
  match c as c1 return sys_ret c1 with
  | GetCaps => None
  | MdbgRead _ _ _ | MdbgWrite _ _ _ =>
      {| x_rc := 0; x_errno := 0; x_status := 0; x_length := 0; x_data := [] |}
  | MdbgCopyout _ _ _ | PtCopyout _ _ _ => (0, [])
  | PtCopyin _ _ _ => (0, 0)
  | FOpen _ _ => false
  | FRead _ => []
  | FGetc => None
  | _ => 0
  end.
