(* ===== verification/PuiSafety.v ===== *)
(** The garbage-collector discipline of the renderer ([Mono]): whatever Mono answers, no
    handle is used after it was freed or freed twice, every object reference and every
    interior pointer handed to managed code is pinned at that moment, and the only handles
    that survive a frame are the four cached in the globals. *)
From S2P Require Import Prelude Effects Float Types Config Layout Wire Debugger Mono.

(** Live handles with their objects, and unboxed interior pointers with their owners.
    [Broken]: Mono did not keep its documented behaviour, that a new handle is not in use
    and that a pinned handle's target does not change; nothing is claimed from then on. *)
Inductive gc := Broken | Live (live : gmap Z Z) (inner : gmap Z Z).

Definition rooted (live : gmap Z Z) (o : Z) : bool :=
  null o || bool_decide (map_Exists (fun _ x => x = o) live).

Definition arg_ok (live inner : gmap Z Z) (a : arg) : bool :=
  match a with
  | Ref o => rooted live o
  | Val p => null p || match inner !! p with Some owner => rooted live owner | None => false end
  | _ => true
  end.

(** Calls that touch no object: their pointer arguments must not be null. *)
Definition neutral (c : rcall) : option bool :=
  match c with
  | GetRootDomain | DomainGet | ClassFromName _ _ _ | StringNew _ _ => Some true
  | MethodFromName p _ _ | PropertyFromName p _ | PropertyGetMethod p | PropertySetMethod p
  | CompileMethod p | ObjectNew _ p => Some (negb (null p))
  | _ => None
  end.

Definition guard (b : bool) (m : gc) : option gc := if b then Some m else None.

Definition gc_step (m : gc) (e : event rcall_ret) : option gc :=
  match m with
  | Broken => Some Broken
  | Live live inner =>
      match e with
      | Ev (GcNew o pinned) r =>
          guard (pinned && negb (null o))
            (if null r then m
             else if bool_decide (is_Some (live !! r)) then Broken
             else Live (<[r := o]> live) inner)
      | Ev (GcTarget h) r =>
          match live !! h with
          | None => None
          | Some o => Some (if null r || (r =? o) then m else Broken)
          end
      | Ev (GcFree h) _ =>
          guard (bool_decide (is_Some (live !! h))) (Live (delete h live) inner)
      | Ev (Unbox o) r => guard (negb (null o) && rooted live o) (Live live (<[r := o]> inner))
      | Ev (ObjectInit o) _ => guard (rooted live o) m
      | Ev (Thunk _ thunk args) _ =>
          guard (negb (null thunk) && forallb (arg_ok live inner) args) m
      | Ev (RuntimeInvoke _ method instance args) _ =>
          guard (negb (null method) && rooted live instance && forallb (arg_ok live inner) args) m
      | Ev c _ => match neutral c with Some true => Some m | _ => None end
      end
  end.

(** ** Specifications *)

Definition spec {A} (p : rprog A) (live inner : gmap Z Z)
    (Q : A -> gmap Z Z -> gmap Z Z -> Prop) : Prop :=
  live !! 0 = None ->
  wp gc_step p (Live live inner)
    (fun a m => match m with Broken => True | Live l i => Q a l i /\ l !! 0 = None end).

Lemma wp_broken {A} (p : rprog A) (Q : A -> gc -> Prop) :
  (forall a, Q a Broken) -> wp gc_step p Broken Q.
Proof. by apply wp_absorbing. Qed.

Section Rules.
Context {A B : Type}.
Implicit Types (L I : gmap Z Z).

Lemma spec_start (p : rprog A) L I Q : (L !! 0 = None -> spec p L I Q) -> spec p L I Q.
Proof. intros H H0. by apply H. Qed.

Lemma spec_ret (a : A) L I (Q : A -> _ -> _ -> Prop) : Q a L I -> spec (Ret a) L I Q.
Proof. by intros H H0. Qed.

Lemma spec_mono (p : rprog A) L I (Q Q' : A -> _ -> _ -> Prop) :
  spec p L I Q -> (forall a L' I', Q a L' I' -> Q' a L' I') -> spec p L I Q'.
Proof.
  intros H HQ H0. eapply wp_mono; [|by apply H]. intros a [|l i]; [done|].
  intros [Hq Hz]. split; [by apply HQ|done].
Qed.

Lemma spec_bind (p : rprog A) (f : A -> rprog B) L I Q :
  spec p L I (fun a L' I' => spec (f a) L' I' Q) -> spec (bindp p f) L I Q.
Proof.
  intros H H0. apply wp_bind. eapply wp_mono; [|by apply H].
  intros a [|l i]; [intros _; by apply wp_broken|]. intros [Hs Hz]. by apply Hs.
Qed.

(** Sequencing with an intermediate postcondition. *)
Lemma spec_seq (p : rprog A) (f : A -> rprog B) L I R Q :
  spec p L I R -> (forall a L' I', R a L' I' -> spec (f a) L' I' Q) -> spec (bindp p f) L I Q.
Proof. intros Hp Hf. apply spec_bind. by eapply spec_mono. Qed.
End Rules.

Lemma spec_step c L I (Q : rcall_ret c -> _ -> _ -> Prop) :
  (forall r, match gc_step (Live L I) (Ev c r) with
             | None => False | Some Broken => True
             | Some (Live l i) => Q r l i /\ (L !! 0 = None -> l !! 0 = None) end) ->
  spec (rc c) L I Q.
Proof.
  intros H H0 r. specialize (H r). destruct (gc_step _ _) as [[|l i]|]; [done| |done].
  destruct H as [Hq Hz]. split; auto.
Qed.

Lemma spec_neutral c L I (Q : rcall_ret c -> _ -> _ -> Prop) :
  neutral c = Some true -> (forall r, Q r L I) -> spec (rc c) L I Q.
Proof.
  intros Hn HQ. apply spec_step. intros r. destruct c; try discriminate Hn;
    cbn [gc_step]; rewrite ?Hn; auto.
Qed.

(** The handles and interior pointers are as before, and [P] of the result. *)
Definition Keep {A} (L I : gmap Z Z) (P : A -> Prop) (a : A) (L' I' : gmap Z Z) : Prop :=
  L' = L /\ I' = I /\ P a.
(** The handles are as before. *)
Definition KeepL {A} (L : gmap Z Z) (P : A -> Prop) (a : A) (L' I' : gmap Z Z) : Prop :=
  L' = L /\ P a.

Lemma Keep_KeepL {A} (p : rprog A) L I P : spec p L I (Keep L I P) -> spec p L I (KeepL L P).
Proof. intros H. eapply spec_mono; [done|]. by intros a L' I' (-> & _ & HP). Qed.

Lemma rooted_by (L : gmap Z Z) h o : L !! h = Some o -> rooted L o = true.
Proof.
  intros H. unfold rooted. apply orb_true_intro. right. apply bool_decide_eq_true.
  by exists h, o.
Qed.
Lemma rooted_null L : rooted L 0 = true.
Proof. done. Qed.
Lemma rooted_target (L : gmap Z Z) h o : o = 0 \/ L !! h = Some o -> rooted L o = true.
Proof. intros [->|H]; [done|by eapply rooted_by]. Qed.

(** A call that touches no object. *)
Lemma spec_neutral_seq {B} c (f : rcall_ret c -> rprog B) L I Q :
  neutral c = Some true -> (forall r, spec (f r) L I Q) -> spec (bindp (rc c) f) L I Q.
Proof. intros Hn Hf. apply spec_bind, spec_neutral; done. Qed.

Ltac neutral_call :=
  apply spec_neutral_seq;
  [first [reflexivity | cbn [neutral]; match goal with H : null _ = false |- _ => rewrite H end; reflexivity]|
   intros ?].

(** Sequencing after a step that changes no handle. *)
Lemma keep_seq {A B} (p : rprog A) (f : A -> rprog B) L I P Q :
  spec p L I (Keep L I P) -> (forall a, P a -> spec (f a) L I Q) -> spec (bindp p f) L I Q.
Proof. intros Hp Hf. eapply spec_seq; [done|]. intros a ? ? (-> & -> & HP). auto. Qed.
Lemma keepL_seq {A B} (p : rprog A) (f : A -> rprog B) L I P Q :
  spec p L I (KeepL L P) -> (forall a I', P a -> spec (f a) L I' Q) -> spec (bindp p f) L I Q.
Proof. intros Hp Hf. eapply spec_seq; [done|]. intros a ? ? (-> & HP). auto. Qed.
Lemma keep_ret {A} (a : A) L I (P : A -> Prop) : P a -> spec (Ret a) L I (Keep L I P).
Proof. intros H. by apply spec_ret. Qed.
Lemma keepL_ret {A} (a : A) L I (P : A -> Prop) : P a -> spec (Ret a) L I (KeepL L P).
Proof. intros H. by apply spec_ret. Qed.

(** ** Handles *)

Definition handle_ok (L : gmap Z Z) (h : Z) : Prop := h = 0 \/ is_Some (L !! h).

Lemma managed_target_spec L I h :
  handle_ok L h ->
  spec (managed_target h) L I (Keep L I (fun o => o = 0 \/ L !! h = Some o)).
Proof.
  intros Hh. unfold managed_target. destruct (null h) eqn:E; nulls.
  - apply spec_ret. split; [done|]. split; [done|by left].
  - destruct Hh as [|[o Ho]]; [done|]. apply spec_step. intros r. cbn [gc_step]. rewrite Ho.
    destruct (null r) eqn:Er; nulls; cbn [orb].
    + split; [|done]. split; [done|]. split; [done|by left].
    + destruct (r =? o) eqn:Eo; [|done]. apply Z.eqb_eq in Eo as ->.
      split; [|done]. split; [done|]. split; [done|by right].
Qed.

Lemma free_handle_spec L I h :
  handle_ok L h -> spec (free_handle h) L I (fun _ L' I' => L' = delete h L /\ I' = I).
Proof.
  intros Hh. unfold free_handle. destruct (null h) eqn:E; nulls.
  - intros H0. subst h. cbn. split; [|done]. by rewrite delete_id.
  - destruct Hh as [|Ho]; [done|]. apply spec_step. intros r. cbn [gc_step].
    rewrite bool_decide_eq_true_2 by done. cbn. split; [done|]. intros H0. by rewrite lookup_delete_ne.
Qed.

(** [L'] is [L] with at most the handle [h] added. *)
Definition adds (L : gmap Z Z) (h o : Z) (L' : gmap Z Z) : Prop :=
  (h = 0 /\ L' = L) \/ (h <> 0 /\ L !! h = None /\ L' = <[h := o]> L).

Lemma replace_managed_handle_spec L I h o :
  handle_ok L h ->
  spec (replace_managed_handle h o) L I
    (fun '(h', ok) L' I' => I' = I /\
       if ok : bool then o <> 0 /\ L' !! h' = Some o /\
         ((h' = h /\ L' = L) \/ (h' <> 0 /\ L !! h' = None /\ L' = delete h (<[h' := o]> L)))
       else h' = h /\ L' = L).
Proof.
  intros Hh. apply spec_start. intros H0. unfold replace_managed_handle.
  destruct (null o) eqn:Eo; nulls; [by apply spec_ret|].
  eapply spec_seq; [by apply managed_target_spec|]. intros cur ? ? (-> & -> & Hc).
  destruct (negb (null h) && (cur =? o)) eqn:Ec.
  { apply andb_true_iff in Ec as [E1 E2]. apply Z.eqb_eq in E2. subst cur. apply spec_ret.
    split; [done|]. destruct Hc as [Hc|Hc]; [done|]. split; [done|]. split; [done|by left]. }
  eapply spec_seq.
  { apply (spec_step (GcNew o true) L I (fun r L' I' => I' = I /\ adds L r o L')).
    intros r. cbn [gc_step]. apply Z.eqb_neq in Eo. unfold null at 1. rewrite Eo. cbn.
    destruct (null r) eqn:Er; nulls.
    - split; [|done]. split; [done|]. by left.
    - case_bool_decide as Ei; [done|].
      apply eq_None_not_Some in Ei. split.
      + split; [done|]. by right.
      + intros _. by rewrite lookup_insert_ne. }
  intros next L1 ? [-> Ha].
  assert (handle_ok L1 next) as Hn.
  { destruct Ha as [[-> _]|(_ & _ & ->)]; [by left|right]. rewrite lookup_insert_eq. by eexists. }
  eapply spec_seq; [by apply managed_target_spec|]. intros t ? ? (-> & -> & Ht).
  destruct (null next || negb (t =? o)) eqn:Et.
  - eapply spec_seq; [by apply free_handle_spec|]. intros _ ? ? [-> ->]. apply spec_ret.
    split; [done|]. split; [done|]. destruct Ha as [[-> ->]|(_ & Hf & ->)].
    + by rewrite delete_id.
    + by rewrite delete_insert_id.
  - apply orb_false_iff in Et as [E1 E2]. nulls. destruct Ha as [[? _]|(_ & Hf & ->)]; [done|].
    assert (handle_ok (<[next := o]> L) h) as Hh'.
    { destruct Hh as [|[x Hx]]; [by left|right]. rewrite lookup_insert_ne by congruence. by eexists. }
    eapply spec_seq; [by apply free_handle_spec|]. intros _ ? ? [-> ->]. apply spec_ret.
    split; [done|]. split; [done|]. split; [|by right].
    rewrite lookup_delete_ne, lookup_insert_eq; [done|]. intros ->. destruct Hh as [|[x Hx]]; congruence.
Qed.

Lemma pin_spec L I o : spec (pin o) L I (fun h L' I' => I' = I /\ adds L h o L').
Proof.
  unfold pin. destruct (null o); [apply spec_ret; split; [done|by left]|].
  apply spec_start. intros H0.
  eapply spec_seq; [apply replace_managed_handle_spec; by left|]. intros [h [|]] L' ? [-> H]; apply spec_ret.
  - split; [done|]. destruct H as (_ & Hl & [[-> ->]|(Hn & Hf & ->)]); [congruence|]. right.
    split; [done|]. split; [done|]. apply delete_id. by rewrite lookup_insert_ne.
  - split; [done|]. left. by destruct H as [-> ->].
Qed.

Lemma adds_ok L h o L' : adds L h o L' -> handle_ok L' h.
Proof. intros [[-> _]|(_ & _ & ->)]; [by left|right]. rewrite lookup_insert_eq. by eexists. Qed.
Lemma adds_delete L h o L' : L !! 0 = None -> adds L h o L' -> delete h L' = L.
Proof. intros H0 [[-> ->]|(_ & Hf & ->)]; [by apply delete_id|by apply delete_insert_id]. Qed.
Lemma adds_keeps L h o L' k x : adds L h o L' -> L !! k = Some x -> L' !! k = Some x.
Proof.
  intros [[-> ->]|(_ & Hf & ->)] Hk; [done|]. rewrite lookup_insert_ne; [done|]. congruence.
Qed.
Lemma adds_handle_ok L h o L' k : adds L h o L' -> handle_ok L k -> handle_ok L' k.
Proof. intros Ha [->|[x Hx]]; [by left|right]. exists x. by eapply adds_keeps. Qed.
Lemma rooted_mono (L L' : gmap Z Z) o :
  (forall k x, L !! k = Some x -> L' !! k = Some x) -> rooted L o = true -> rooted L' o = true.
Proof.
  intros H. unfold rooted. rewrite !orb_true_iff, !bool_decide_eq_true. intros [|(k & x & Hk & ->)]; [by left|].
  right. exists k, o. by split; [apply H|].
Qed.
Lemma adds_rooted L h o L' p : adds L h o L' -> rooted L p = true -> rooted L' p = true.
Proof. intros Ha. apply rooted_mono. intros k x. by eapply adds_keeps. Qed.

(** A scope gives back its handle. *)
Lemma scoped_spec {A} (h : Z) (body : rprog A) L I Q :
  spec body L I (fun a L' I' => handle_ok L' h /\ Q a (delete h L') I') ->
  spec (scoped h body) L I Q.
Proof.
  intros Hb. unfold scoped. eapply spec_seq; [exact Hb|]. intros a L' I' [Hh HQ].
  eapply spec_seq; [by apply free_handle_spec|]. intros _ ? ? [-> ->]. by apply spec_ret.
Qed.

(** A scope around a body that keeps the handles as they are. *)
Lemma scoped_keep {A} h o (body : rprog A) L L1 I (P : A -> Prop) :
  adds L h o L1 -> spec body L1 I (KeepL L1 P) -> L !! 0 = None ->
  spec (scoped h body) L1 I (KeepL L P).
Proof.
  intros Ha Hb H0. apply scoped_spec. eapply spec_mono; [exact Hb|]. intros a L' I' [-> HP].
  split; [by eapply adds_ok|]. split; [by eapply adds_delete|done].
Qed.

Lemma returned_spec h o body L L1 I :
  adds L h o L1 -> spec body L1 I (KeepL L1 (fun _ => True)) -> L !! 0 = None ->
  spec (returned h body) L1 I (fun h' L' _ => adds L h' o L').
Proof.
  intros Ha Hb H0. unfold returned. eapply spec_seq; [exact Hb|]. intros [|] L' I' [-> _].
  - by apply spec_ret.
  - eapply spec_seq; [apply free_handle_spec; by eapply adds_ok|]. intros _ ? ? [-> ->].
    apply spec_ret. left. split; [done|]. by eapply adds_delete.
Qed.

Lemma pinned_ok_spec L I h :
  handle_ok L h -> spec (pinned_ok h) L I (Keep L I (fun ok => ok = true -> is_Some (L !! h))).
Proof.
  intros Hh. unfold pinned_ok, pinned_object. eapply spec_seq; [by apply managed_target_spec|].
  intros o ? ? (-> & -> & Ho). apply spec_ret. split; [done|]. split; [done|].
  rewrite negb_true_iff. intros ?. nulls. destruct Ho as [|Ho]; [done|by eexists].
Qed.

Lemma pinned_value_spec L I h :
  handle_ok L h ->
  spec (pinned_value h) L I (fun p L' I' => L' = L /\ arg_ok L I' (Val p) = true).
Proof.
  intros Hh. unfold pinned_value, pinned_object. eapply spec_seq; [by apply managed_target_spec|].
  intros o ? ? (-> & -> & Ho). destruct (null o) eqn:E; [by apply spec_ret|].
  apply spec_step. intros r. cbn [gc_step]. rewrite E, (rooted_target L h o Ho). cbn.
  split; [|done]. split; [done|]. rewrite lookup_insert_eq, (rooted_target L h o Ho). apply orb_true_r.
Qed.

(** ** Widgets *)

Definition any {A} (_ : A) : Prop := True.

Lemma property_getter_spec L I klass name :
  spec (property_getter klass name) L I (Keep L I any).
Proof.
  unfold property_getter. destruct (null klass) eqn:E; [by apply keep_ret|]. neutral_call.
  destruct (null r) eqn:Er; [by apply keep_ret|]. apply spec_neutral; [cbn; by rewrite Er|done].
Qed.

Lemma property_setter_spec L I klass name :
  spec (property_setter klass name) L I (Keep L I any).
Proof.
  unfold property_setter. destruct (null klass) eqn:E; [by apply keep_ret|]. neutral_call.
  destruct (null r) eqn:Er; [by apply keep_ret|]. apply spec_neutral; [cbn; by rewrite Er|done].
Qed.

Lemma thunk_spec L I member thunk args :
  null thunk = false -> forallb (arg_ok L I) args = true ->
  spec (rc (Thunk member thunk args)) L I (Keep L I any).
Proof. intros Ht Ha. apply spec_step. intros r. cbn [gc_step]. by rewrite Ht, Ha. Qed.

Lemma runtime_invoke_spec L I member method instance args :
  null method = false -> rooted L instance = true -> forallb (arg_ok L I) args = true ->
  spec (rc (RuntimeInvoke member method instance args)) L I (Keep L I any).
Proof. intros Hm Hi Ha. apply spec_step. intros r. cbn [gc_step]. by rewrite Hm, Hi, Ha. Qed.

Lemma set_property_direct_spec L I klass instance name value :
  rooted L instance = true -> arg_ok L I value = true ->
  spec (set_property_direct klass instance name value) L I (Keep L I any).
Proof.
  intros Hi Hv. unfold set_property_direct. eapply keep_seq; [apply property_setter_spec|].
  intros setter _. destruct (null setter) eqn:E; [by apply keep_ret|]. neutral_call.
  destruct (null r) eqn:Er; [by apply keep_ret|].
  eapply keep_seq; [apply thunk_spec; [done|]|intros; by apply keep_ret].
  cbn [forallb arg_ok]. by rewrite Hi, Hv.
Qed.

Lemma set_property_object_spec L I klass instance name value :
  rooted L instance = true -> arg_ok L I value = true ->
  spec (set_property_object klass instance name value) L I (Keep L I any).
Proof.
  intros Hi Hv. unfold set_property_object. eapply keep_seq; [apply property_setter_spec|].
  intros setter _. destruct (null setter) eqn:E; [by apply keep_ret|].
  eapply keep_seq; [apply runtime_invoke_spec; [done|done|cbn [forallb]; by rewrite Hv]|].
  intros [? ?] _. by apply keep_ret.
Qed.

Lemma invoke_spec L I member method instance args :
  rooted L instance = true -> forallb (arg_ok L I) args = true ->
  spec (invoke member method instance args) L I (Keep L I any).
Proof.
  intros Hi Ha. unfold invoke. destruct (null method) eqn:E; [by apply keep_ret|].
  eapply keep_seq; [by apply runtime_invoke_spec|]. intros [? ?] _. by apply keep_ret.
Qed.

Lemma and_also_spec L I ok p :
  spec p L I (Keep L I any) -> spec (and_also ok p) L I (Keep L I any).
Proof. intros H. unfold and_also. eapply keep_seq; [done|]. intros; by apply keep_ret. Qed.

Lemma and_also_specL L I ok p :
  spec p L I (KeepL L any) -> spec (and_also ok p) L I (KeepL L any).
Proof. intros H. unfold and_also. eapply keepL_seq; [done|]. intros; by apply keepL_ret. Qed.

(** What the functions that return a [PinnedObject] do to the handles. *)
Definition Adds (L : gmap Z Z) (h : Z) (L' _ : gmap Z Z) : Prop := exists o, adds L h o L'.

Lemma new_object_seq {B} domain klass (f : Z -> rprog B) L I Q :
  null klass = false ->
  (forall h o L', adds L h o L' -> L !! 0 = None -> spec (f h) L' I Q) ->
  spec (bindp (rc (ObjectNew domain klass)) (fun o => bindp (pin o) f)) L I Q.
Proof.
  intros Hk Hf. apply spec_start. intros H0. neutral_call.
  eapply spec_seq; [apply pin_spec|]. intros h L' ? [-> Ha]. by eapply Hf.
Qed.

Lemma new_string_seq {B} domain s (f : Z -> rprog B) L I Q :
  (forall h o L', adds L h o L' -> L !! 0 = None -> spec (f h) L' I Q) ->
  spec (bindp (rc (StringNew domain s)) (fun o => bindp (pin o) f)) L I Q.
Proof.
  intros Hf. apply spec_start. intros H0. neutral_call.
  eapply spec_seq; [apply pin_spec|]. intros h L' ? [-> Ha]. by eapply Hf.
Qed.

Definition plain_arg (a : arg) : bool := match a with Ref _ | Val _ => false | _ => true end.

Lemma plain_args L I args : forallb plain_arg args = true -> forallb (arg_ok L I) args = true.
Proof. rewrite !forallb_forall. intros H a Ha. specialize (H a Ha). by destruct a. Qed.

Lemma construct_spec g klass params args L I :
  forallb plain_arg args = true ->
  spec (construct g klass params args) L I (Adds L).
Proof.
  intros Hp. unfold construct. destruct (null klass) eqn:Ek.
  { apply spec_ret. exists 0. by left. }
  apply new_object_seq; [done|]. intros h o L' Had H0.
  eapply spec_mono; [|intros ? ? ? H; exists o; exact H].
  eapply returned_spec; [exact Had| |done].
  eapply keep_seq; [apply pinned_ok_spec; by eapply adds_ok|]. intros ok _.
  destruct (negb ok); [by apply keepL_ret|].
  eapply spec_seq; [apply pinned_value_spec; by eapply adds_ok|]. intros real ? I1 [-> Hr].
  neutral_call. eapply keep_seq with (P := any).
  { destruct (null r) eqn:Er; [by apply keep_ret|]. apply spec_neutral; [cbn; by rewrite Er|done]. }
  intros thunk _. destruct (null real || null thunk) eqn:En; [by apply keepL_ret|].
  apply orb_false_iff in En as [_ Et]. apply Keep_KeepL.
  eapply keep_seq; [apply thunk_spec; [done|]|intros; by apply keep_ret].
  cbn [forallb]. rewrite Hr. by apply plain_args.
Qed.

Lemma create_font_spec g size L I : spec (create_font g size) L I (Adds L).
Proof. unfold create_font. neutral_call. by apply construct_spec. Qed.

Lemma create_color_spec g r gr b a L I : spec (create_color g r gr b a) L I (Adds L).
Proof. unfold create_color. neutral_call. by apply construct_spec. Qed.

Lemma keepL_bind {A B} (p : rprog A) (f : A -> rprog B) L I P (Q : B -> Prop) :
  spec p L I (KeepL L P) -> (forall a I', P a -> spec (f a) L I' (KeepL L Q)) ->
  spec (bindp p f) L I (KeepL L Q).
Proof. apply keepL_seq. Qed.

Lemma target_rooted L I h :
  handle_ok L h -> spec (managed_target h) L I (Keep L I (fun o => rooted L o = true)).
Proof.
  intros H. eapply spec_mono; [by apply managed_target_spec|]. intros o ? ? (-> & -> & Ho).
  split; [done|]. split; [done|]. by eapply rooted_target.
Qed.

Lemma object_rooted L I h :
  handle_ok L h -> spec (pinned_object h) L I (Keep L I (fun o => rooted L o = true)).
Proof. apply target_rooted. Qed.

(** A property set from a boxed value. *)
Lemma set_value_spec L I klass instance name h :
  rooted L instance = true -> handle_ok L h ->
  spec (bindp (pinned_value h) (fun v => set_property_object klass instance name (Val v))) L I
    (KeepL L any).
Proof.
  intros Hi Hh. eapply spec_seq; [by apply pinned_value_spec|]. intros v ? I' [-> Hv].
  by apply Keep_KeepL, set_property_object_spec.
Qed.

Ltac setter := apply Keep_KeepL, and_also_spec, set_property_direct_spec; [done|first [done|by cbn]].

Lemma setup_label_spec L I klass label mono_name mono_text color font x y alignment :
  handle_ok L label -> handle_ok L mono_name -> handle_ok L mono_text -> handle_ok L color ->
  handle_ok L font ->
  spec (setup_label klass label mono_name mono_text color font x y alignment) L I (KeepL L any).
Proof.
  intros Hl Hn Ht Hc Hf. unfold setup_label.
  eapply keep_seq; [by apply object_rooted|]. intros instance Hi.
  eapply keep_seq; [by apply object_rooted|]. intros name Hname.
  do 3 (eapply keepL_seq; [setter|intros ? ? _]).
  eapply keep_seq; [by apply object_rooted|]. intros content Hcontent.
  eapply keepL_seq; [setter|intros ? ? _].
  eapply spec_seq; [by apply pinned_value_spec|]. intros f ? ? [-> Hfv].
  eapply keepL_seq; [by apply Keep_KeepL, and_also_spec, set_property_object_spec|intros ? ? _].
  do 2 (eapply keepL_seq; [setter|intros ? ? _]).
  eapply spec_seq; [by apply pinned_value_spec|]. intros c ? ? [-> Hcv].
  eapply keepL_seq; [by apply Keep_KeepL, and_also_spec, set_property_object_spec|intros ? ? _].
  eapply keepL_seq; [setter|intros ? ? _]. setter.
Qed.

Lemma all_ok_spec L I hs :
  Forall (handle_ok L) hs -> spec (all_ok hs) L I (Keep L I any).
Proof.
  induction 1 as [|h hs Hh _ IH]; cbn [all_ok]; [by apply keep_ret|].
  eapply keep_seq; [by apply pinned_ok_spec|]. intros [|] _; [exact IH|by apply keep_ret].
Qed.

Lemma create_label_spec g name x y content font alignment r gr b a L I :
  handle_ok L font ->
  spec (create_label g name x y content font alignment r gr b a) L I (Adds L).
Proof.
  intros Hf. unfold create_label. neutral_call. destruct (null r0) eqn:Ek.
  { apply spec_ret. exists 0. by left. }
  apply new_object_seq; [done|]. intros label o L1 A1 H0.
  eapply spec_mono; [|intros ? ? ? H; exists o; exact H]. eapply returned_spec; [exact A1| |done].
  pose proof (adds_ok _ _ _ _ A1) as Hl. pose proof (adds_handle_ok _ _ _ _ _ A1 Hf) as Hf1.
  eapply keep_seq; [by apply pinned_ok_spec|]. intros ok _. destruct (negb ok); [by apply keepL_ret|].
  eapply keep_seq; [by apply object_rooted|]. intros instance Hi.
  eapply keep_seq with (P := any). { apply spec_step. intros u. cbn [gc_step]. by rewrite Hi. }
  intros _ _. apply new_string_seq. intros mono_name o2 L2 A2 H1. eapply scoped_keep; [exact A2| |done].
  apply new_string_seq. intros mono_text o3 L3 A3 H2. eapply scoped_keep; [exact A3| |done].
  apply spec_start. intros H3.
  eapply spec_seq; [apply create_color_spec|]. intros color L4 I4 [o4 A4].
  eapply scoped_keep; [exact A4| |done].
  assert (forall h, handle_ok L1 h -> handle_ok L4 h) as Hup.
  { intros h Hh. eapply adds_handle_ok; [exact A4|]. eapply adds_handle_ok; [exact A3|].
    by eapply adds_handle_ok. }
  assert (handle_ok L4 mono_name) as Hn.
  { eapply adds_handle_ok; [exact A4|]. eapply adds_handle_ok; [exact A3|]. by eapply adds_ok. }
  assert (handle_ok L4 mono_text) as Ht by (eapply adds_handle_ok; [exact A4|by eapply adds_ok]).
  assert (handle_ok L4 color) as Hc by (by eapply adds_ok).
  eapply keep_seq.
  { apply all_ok_spec. rewrite !Forall_cons, Forall_nil. auto 10. }
  intros ok2 _. destruct (negb ok2); [by apply keepL_ret|]. apply setup_label_spec; auto.
Qed.

Lemma find_widget_spec g root id L I :
  rooted L root = true -> spec (find_widget g root id) L I (KeepL L any).
Proof.
  intros Hr. unfold find_widget. neutral_call.
  eapply keep_seq with (P := any).
  { destruct (null r) eqn:E; [by apply keep_ret|]. apply spec_neutral; [cbn; by rewrite E|done]. }
  intros method _. eapply keep_seq with (P := any).
  { destruct (null method) eqn:E; [by apply keep_ret|]. apply spec_neutral; [cbn; by rewrite E|done]. }
  intros thunk _. destruct (null root || null thunk) eqn:E; [by apply keepL_ret|].
  apply orb_false_iff in E as [_ Et].
  apply new_string_seq. intros name o L1 A1 H0. eapply scoped_keep; [exact A1| |done].
  pose proof (adds_ok _ _ _ _ A1) as Hn.
  eapply keep_seq; [by apply pinned_ok_spec|]. intros ok _. destruct (negb ok); [by apply keepL_ret|].
  eapply keep_seq; [by apply object_rooted|]. intros n Hn'. apply Keep_KeepL, thunk_spec; [done|].
  cbn [forallb arg_ok]. rewrite Hn', (adds_rooted _ _ _ _ _ A1 Hr). done.
Qed.

Lemma append_child_spec g root child L I :
  rooted L root = true -> rooted L child = true ->
  spec (append_child g root child) L I (Keep L I any).
Proof.
  intros Hr Hc. unfold append_child. neutral_call. eapply keep_seq with (P := any).
  { destruct (null r) eqn:E; [by apply keep_ret|]. apply spec_neutral; [cbn; by rewrite E|done]. }
  intros method _. destruct (_ || null child) eqn:E; [by apply keep_ret|].
  rewrite !orb_false_iff in E. destruct E as [[Em _] _].
  eapply keep_seq; [apply runtime_invoke_spec; [done|done|cbn [forallb arg_ok]; by rewrite Hc]|].
  intros [? ?] _. by apply keep_ret.
Qed.

Lemma set_label_text_spec g label content L I :
  rooted L label = true -> spec (set_label_text g label content) L I (KeepL L any).
Proof.
  intros Hl. unfold set_label_text. destruct (null label); [by apply keepL_ret|]. neutral_call.
  apply new_string_seq. intros mono_text o L1 A1 H0. eapply scoped_keep; [exact A1| |done].
  pose proof (adds_ok _ _ _ _ A1) as Hn.
  eapply keep_seq; [by apply pinned_ok_spec|]. intros ok _. destruct (negb ok); [by apply keepL_ret|].
  eapply keep_seq; [by apply object_rooted|]. intros t Ht.
  apply Keep_KeepL, set_property_direct_spec; [by eapply adds_rooted|done].
Qed.

Lemma apply_rgb_spec g klass label rgb L I :
  rooted L label = true -> spec (apply_rgb g klass label rgb) L I (KeepL L any).
Proof.
  intros Hl. unfold apply_rgb. apply spec_start. intros H0.
  eapply spec_seq; [apply create_color_spec|]. intros color L1 I1 [o A1].
  eapply scoped_keep; [exact A1| |done]. pose proof (adds_ok _ _ _ _ A1) as Hn.
  eapply keep_seq; [by apply pinned_ok_spec|]. intros ok _. destruct (negb ok); [by apply keepL_ret|].
  apply set_value_spec; [by eapply adds_rooted|done].
Qed.

Lemma optional_spec L I (b : bool) p :
  spec p L I (KeepL L any) -> spec (if b then p else Ret true) L I (KeepL L any).
Proof. intros H. destruct b; [done|by apply keepL_ret]. Qed.

Lemma update_label_spec g ch cfg layout klass label font L I :
  rooted L label = true -> handle_ok L font ->
  spec (update_label g ch cfg layout klass label font) L I (KeepL L any).
Proof.
  intros Hl Hf. unfold update_label.
  eapply keepL_seq; [by apply and_also_specL, optional_spec, set_value_spec|intros ? ? _].
  eapply keepL_seq; [by apply and_also_specL, optional_spec, apply_rgb_spec|intros ? ? _].
  eapply keepL_seq; [by apply and_also_specL, optional_spec, set_label_text_spec|intros ? ? _].
  destruct (layout_changed ch); [|by apply keepL_ret].
  eapply keepL_seq; [setter|intros ? ? _]. setter.
Qed.

Lemma update_value_spec g ch frame layout klass value font L I :
  rooted L value = true -> handle_ok L font ->
  spec (update_value g ch frame layout klass value font) L I (KeepL L any).
Proof.
  intros Hl Hf. unfold update_value.
  eapply keepL_seq; [by apply and_also_specL, optional_spec, set_value_spec|intros ? ? _].
  eapply keepL_seq; [by apply and_also_specL, optional_spec, apply_rgb_spec|intros ? ? _].
  eapply keepL_seq with (P := any).
  { destruct (layout_changed ch); [|by apply keepL_ret].
    eapply keepL_seq; [setter|intros ? ? _]. setter. }
  intros ? ? _. by apply and_also_specL, set_label_text_spec.
Qed.

(** ** The cached handles *)

(** The live handles are the nonzero members of [hs], each of them once. *)
Definition owns (hs : list Z) (L : gmap Z Z) : Prop :=
  forall h, h <> 0 -> count_occ Z.eq_dec hs h = if bool_decide (is_Some (L !! h)) then 1%nat else 0%nat.

Lemma owns_perm hs hs' L : hs ≡ₚ hs' -> owns hs L -> owns hs' L.
Proof. intros Hp Ho h Hh. rewrite <- (Ho h Hh). symmetry. by apply Permutation_count_occ. Qed.

Lemma owns_ok hs L h : owns hs L -> h ∈ hs -> handle_ok L h.
Proof.
  intros Ho Hin. destruct (decide (h = 0)) as [->|Hh]; [by left|right].
  specialize (Ho h Hh). case_bool_decide; [done|]. apply count_occ_not_In in Ho.
  by apply list_elem_of_In in Hin.
Qed.

Lemma owns_cons hs h o L L' : L !! 0 = None -> owns hs L -> adds L h o L' -> owns (h :: hs) L'.
Proof.
  intros H0 Ho Ha k Hk. specialize (Ho k Hk). cbn [count_occ].
  destruct Ha as [[-> ->]|(Hh & Hf & ->)]; destruct (Z.eq_dec _ k) as [E|E]; try congruence; try done.
  - subst k. rewrite Ho, lookup_insert_eq, Hf. done.
  - rewrite Ho, lookup_insert_ne by done. done.
Qed.

Lemma owns_free hs h L : L !! 0 = None -> owns (h :: hs) L -> owns hs (delete h L).
Proof.
  intros H0 Ho k Hk. specialize (Ho k Hk). cbn [count_occ] in Ho.
  destruct (Z.eq_dec h k) as [->|E].
  - rewrite lookup_delete_eq, (bool_decide_eq_false_2 (is_Some None)) by (by intros [? ?]).
    case_bool_decide; [by injection Ho|done].
  - by rewrite lookup_delete_ne.
Qed.

Lemma owns_zero hs L : owns (0 :: hs) L <-> owns hs L.
Proof.
  unfold owns. split; intros Ho h Hh; rewrite <- (Ho h Hh); cbn [count_occ]; by destruct (Z.eq_dec 0 h).
Qed.

(** Replacing the first owned handle. *)
Lemma replace_owned hs h o L I :
  owns (h :: hs) L ->
  spec (replace_managed_handle h o) L I
    (fun '(h', ok) L' I' => I' = I /\ owns (h' :: hs) L' /\
       if ok : bool then o <> 0 /\ L' !! h' = Some o /\ (forall k x, k ∈ hs -> L !! k = Some x -> L' !! k = Some x)
       else h' = h /\ L' = L).
Proof.
  intros Ho. apply spec_start. intros H0.
  eapply spec_mono; [apply replace_managed_handle_spec; eapply owns_ok; [done|by left]|].
  intros [h' [|]] L' I'; cbn.
  2: { intros (-> & -> & ->). by repeat split. }
  intros (-> & Hn & Hl & [[-> ->]|(Hh & Hf & ->)]); [by repeat split|].
  split; [done|]. split.
  - apply owns_free; [by rewrite lookup_insert_ne|].
    eapply owns_perm; [apply perm_swap|]. apply (owns_cons _ _ o L); [done|done|]. by right.
  - split; [done|]. split; [done|]. intros k x Hk Hx.
    destruct (decide (k = h)) as [->|Hkh].
    + exfalso. destruct (decide (h = 0)) as [->|Hh0]; [congruence|]. specialize (Ho h Hh0).
      cbn [count_occ] in Ho. destruct (Z.eq_dec h h); [|done]. rewrite Hx, bool_decide_eq_true_2 in Ho by done.
      injection Ho as Ho. apply count_occ_not_In in Ho. by apply list_elem_of_In in Hk.
    + rewrite lookup_delete_ne by done. rewrite lookup_insert_ne; [done|]. congruence.
Qed.

Definition cached (g : Globals) : list Z :=
  [g_game_scene_handle g; g_root_handle g; g_label_handle g; g_value_handle g].

(** The lookups of [hs] survive. *)
Definition stable (hs : list Z) (L L' : gmap Z Z) : Prop :=
  forall k x, k ∈ hs -> L !! k = Some x -> L' !! k = Some x.

Lemma owns_distinct h1 h2 hs L : owns (h1 :: h2 :: hs) L -> h1 <> 0 -> h1 <> h2.
Proof.
  intros Ho Hh ->. specialize (Ho h2 Hh). cbn [count_occ] in Ho.
  destruct (Z.eq_dec h2 h2); [|done]. by case_bool_decide.
Qed.

Lemma release_owned hs h L I :
  owns (h :: hs) L -> spec (release_managed_handle h) L I (fun _ L' I' => I' = I /\ owns hs L').
Proof.
  intros Ho. apply spec_start. intros H0. unfold release_managed_handle.
  eapply spec_mono; [apply free_handle_spec; eapply owns_ok; [done|by left]|].
  intros _ ? ? [-> ->]. split; [done|]. by apply owns_free.
Qed.

Lemma scoped_owned {A} h (body : rprog A) L I (Q : A -> Prop) hs :
  spec body L I (fun a L' _ => owns (h :: hs a) L' /\ Q a) ->
  spec (scoped h body) L I (fun a L' _ => owns (hs a) L' /\ Q a).
Proof.
  intros Hb. unfold scoped. eapply spec_seq; [exact Hb|]. intros a L' I' [Ho HQ].
  eapply spec_seq; [by apply release_owned|]. intros _ ? ? [-> Ho']. by apply spec_ret.
Qed.

Lemma find_game_scene_spec g path L I :
  owns (path :: cached g) L ->
  spec (find_game_scene g path) L I (fun '(_, g') L' _ => owns (path :: cached g') L' /\ True).
Proof.
  intros Ho. unfold find_game_scene.
  assert (forall h, h ∈ path :: cached g -> handle_ok L h) as Hok by (intros; by eapply owns_ok).
  eapply keep_seq; [apply pinned_ok_spec, Hok; by left|]. intros ok _.
  destruct (negb ok); [by apply spec_ret|].
  eapply keep_seq; [apply object_rooted, Hok; by left|]. intros o Hr.
  eapply keep_seq; [apply invoke_spec; [done|cbn [forallb arg_ok]; by rewrite Hr]|]. intros scene _.
  destruct (null scene) eqn:Es; [by apply spec_ret|].
  eapply keep_seq; [apply managed_target_spec, Hok; right; by left|]. intros cur _.
  destruct (cur =? scene); [by apply spec_ret|]. unfold cached in Ho.
  eapply spec_seq; [apply (release_owned [path; g_game_scene_handle g; g_root_handle g; g_value_handle g]);
    eapply owns_perm; [|exact Ho]; solve_Permutation|].
  intros _ L1 ? [-> O1].
  eapply spec_seq; [apply (release_owned [path; g_game_scene_handle g; g_root_handle g]);
    eapply owns_perm; [|exact O1]; solve_Permutation|].
  intros _ L2 ? [-> O2].
  eapply spec_seq; [apply (release_owned [path; g_game_scene_handle g]);
    eapply owns_perm; [|exact O2]; solve_Permutation|].
  intros _ L3 ? [-> O3].
  eapply spec_seq; [apply (replace_owned [path]); eapply owns_perm; [apply perm_swap|exact O3]|].
  intros [h r] L4 ? (-> & O4 & _). apply spec_ret. split; [|done].
  cbn [cached with_handles g_game_scene_handle g_root_handle g_label_handle g_value_handle].
  apply (owns_perm [0; 0; 0; h; path]); [solve_Permutation|]. by rewrite !owns_zero.
Qed.

Lemma refresh_game_scene_spec g L I :
  owns (cached g) L -> spec (refresh_game_scene g) L I (fun '(_, g') L' _ => owns (cached g') L').
Proof.
  intros Ho. unfold refresh_game_scene. destruct (_ || _); [by apply spec_ret|]. neutral_call.
  apply new_string_seq. intros path o L1 A1 H0.
  eapply spec_mono.
  - apply (scoped_owned path _ L1 I (fun _ => True) (fun a => cached a.2)).
    eapply spec_mono; [apply find_game_scene_spec; by eapply owns_cons|]. by intros [? ?].
  - intros [? ?] ? ? [H _]. exact H.
Qed.

Lemma get_root_widget_spec g L I :
  handle_ok L (g_game_scene_handle g) -> spec (get_root_widget g) L I (Keep L I any).
Proof.
  intros Hh. unfold get_root_widget. eapply keep_seq; [by apply target_rooted|]. intros scene Hs.
  destruct (null scene); [by apply keep_ret|]. neutral_call.
  eapply keep_seq; [apply property_getter_spec|]. intros getter _.
  destruct (null getter); [by apply keep_ret|]. by apply invoke_spec.
Qed.

Lemma adopt_root_spec g root L I :
  null root = false -> owns (cached g) L ->
  spec (adopt_root g root) L I (fun '(ok, g') L' _ =>
    owns (cached g') L' /\ (ok = true -> L' !! g_root_handle g' = Some root)).
Proof.
  intros Hr Ho. unfold adopt_root.
  eapply keep_seq; [apply managed_target_spec; eapply owns_ok; [exact Ho|right; by left]|].
  intros cur Hcur. destruct (cur =? root) eqn:E.
  { apply Z.eqb_eq in E as ->. nulls. apply spec_ret. split; [done|]. intros _. by destruct Hcur. }
  unfold cached in Ho. eapply spec_seq.
  { apply (replace_owned [g_game_scene_handle g; g_label_handle g; g_value_handle g]).
    eapply owns_perm; [|exact Ho]. solve_Permutation. }
  intros [h ok] L1 ? (-> & O1 & H1). destruct ok; cbn [negb].
  2: { apply spec_ret. split; [|done].
       cbn [cached with_handles g_game_scene_handle g_root_handle g_label_handle g_value_handle].
       eapply owns_perm; [|exact O1]. solve_Permutation. }
  destruct H1 as (_ & H1 & _).
  assert (h <> 0 -> h <> g_label_handle g /\ h <> g_value_handle g) as Hd.
  { intros Hh. split.
    - eapply (owns_distinct _ _ [g_game_scene_handle g; g_value_handle g]); [|done].
      eapply owns_perm; [|exact O1]. solve_Permutation.
    - eapply (owns_distinct _ _ [g_game_scene_handle g; g_label_handle g]); [|done].
      eapply owns_perm; [|exact O1]. solve_Permutation. }
  apply spec_start. intros H0. assert (h <> 0) as Hh by congruence. destruct (Hd Hh) as [D1 D2].
  eapply spec_seq.
  { apply (free_handle_spec _ _ (g_label_handle g)). eapply owns_ok; [exact O1|right; right; by left]. }
  intros _ ? ? [-> ->]. assert (owns [h; g_game_scene_handle g; g_value_handle g] (delete (g_label_handle g) L1)) as O2.
  { apply owns_free; [done|]. eapply owns_perm; [|exact O1]. solve_Permutation. }
  apply spec_start. intros H2. eapply spec_seq.
  { apply (free_handle_spec _ _ (g_value_handle g)). eapply owns_ok; [exact O2|right; right; by left]. }
  intros _ ? ? [-> ->]. apply spec_ret.
  cbn [cached with_handles g_game_scene_handle g_root_handle g_label_handle g_value_handle]. split.
  - apply (owns_perm [0; 0; h; g_game_scene_handle g]); [solve_Permutation|]. rewrite !owns_zero.
    apply owns_free; [done|]. eapply owns_perm; [|exact O2]. solve_Permutation.
  - intros _. by rewrite !lookup_delete_ne by done.
Qed.

Lemma stable_adds hs L h o L' : adds L h o L' -> stable hs L L'.
Proof. intros Ha k x _ Hk. by eapply adds_keeps. Qed.

Lemma ensure_widget_spec g root handle widget font id x y content alignment rgb L I rest hr :
  owns (handle :: rest) L -> font ∈ rest -> hr ∈ rest -> L !! hr = Some root ->
  spec (ensure_widget g root handle widget font id x y content alignment rgb) L I
    (fun '(ok, h', w) L' _ =>
       owns (h' :: rest) L' /\ stable rest L L' /\ (ok = true -> w = 0 \/ L' !! h' = Some w)).
Proof.
  intros Ho Hf Hr Hroot. unfold ensure_widget. destruct (null widget) eqn:Ew; nulls.
  2: { eapply spec_seq; [by apply replace_owned|]. intros [h ok] L1 ? (-> & O1 & H1). apply spec_ret.
       split; [done|]. destruct ok.
       - destruct H1 as (_ & H1 & H2). split; [exact H2|]. intros _. by right.
       - destruct H1 as [_ ->]. split; [by intros k v|done]. }
  subst widget. apply spec_start. intros H0.
  eapply spec_seq; [apply create_label_spec; eapply owns_ok; [done|by right]|].
  intros created L1 I1 [o A1]. pose proof (owns_cons _ _ _ _ _ H0 Ho A1) as O1.
  assert (handle_ok L1 created) as Hc by (by eapply adds_ok).
  (* the paths that give up after the creation *)
  assert (forall (a : bool * Z * Z) I', a.1.1 = false -> a.1.2 = handle ->
    spec (Ret a) L1 I' (fun '(ok, h', w) L' I2 => handle_ok L' created /\
       (owns (h' :: rest) (delete created L') /\ stable rest L (delete created L') /\
        (ok = true -> w = 0 \/ delete created L' !! h' = Some w)))) as Hgive.
  { intros [[ok h] w] I' Hok Hh. cbn in Hok, Hh. subst. apply spec_ret. split; [done|].
    rewrite (adds_delete _ _ _ _ H0 A1). split; [done|]. split; [by intros k v|done]. }
  apply scoped_spec. eapply spec_mono with (Q := fun '(ok, h', w) L' I2 => handle_ok L' created /\
       (owns (h' :: rest) (delete created L') /\ stable rest L (delete created L') /\
        (ok = true -> w = 0 \/ delete created L' !! h' = Some w))); [|by intros [[? ?] ?]].
  eapply keep_seq; [by apply pinned_ok_spec|]. intros ok _. destruct (negb ok); [by apply Hgive|].
  eapply keep_seq; [by apply object_rooted|]. intros child Hch.
  eapply keep_seq.
  { apply append_child_spec; [|done]. eapply rooted_by, adds_keeps; [exact A1|exact Hroot]. }
  intros appended _. destruct (negb appended); [by apply Hgive|].
  eapply keep_seq; [by apply object_rooted|]. intros child2 _.
  eapply spec_seq; [apply (replace_owned (created :: rest)); eapply owns_perm; [apply perm_swap|exact O1]|].
  intros [h okr] L2 ? (-> & O2 & H2). destruct okr; cbn [negb].
  2: { destruct H2 as [-> ->]. by apply Hgive. }
  destruct H2 as (_ & Hl & Hst). apply spec_start. intros H3.
  eapply keep_seq; [apply managed_target_spec; eapply owns_ok; [exact O2|by left]|].
  intros w Hw. apply spec_ret. split; [eapply owns_ok; [exact O2|right; by left]|].
  assert (h <> 0) as Hh by congruence. split.
  - apply owns_free; [done|]. eapply owns_perm; [apply perm_swap|exact O2].
  - split.
    + intros k v Hk Hv. destruct (decide (k = created)) as [->|Hne].
      * destruct A1 as [[-> _]|(_ & Hfr & _)]; congruence.
      * rewrite lookup_delete_ne by done. apply Hst; [by right|]. by eapply adds_keeps.
    + intros _. destruct Hw as [->|Hw]; [by left|right]. rewrite lookup_delete_ne; [done|].
      intros <-. by apply (owns_distinct created created rest L2).
Qed.

Ltac g_fields :=
  cbn [cached with_label with_value with_style with_handles applied g_game_scene_handle g_root_handle
       g_label_handle g_value_handle].

Lemma apply_widgets_spec g frame layout root label value font L I :
  owns (font :: cached g) L -> L !! g_root_handle g = Some root ->
  spec (apply_widgets g frame layout root label value font) L I
    (fun '(_, g') L' _ => owns (font :: cached g') L' /\ True).
Proof.
  intros Ho Hr. unfold apply_widgets. unfold cached in Ho.
  eapply keep_seq with (P := any).
  { destruct (_ || _); [|by apply keep_ret]. eapply spec_mono.
    - apply pinned_ok_spec. eapply owns_ok; [exact Ho|by left].
    - by intros ? ? ? (-> & -> & _). }
  intros held _. destruct (negb held); [by apply spec_ret|].
  eapply spec_seq.
  { apply (ensure_widget_spec _ _ _ _ _ _ _ _ _ _ _ _ _
             [font; g_root_handle g; g_game_scene_handle g; g_value_handle g] (g_root_handle g)).
    - eapply owns_perm; [|exact Ho]. solve_Permutation.
    - by left.
    - right; by left.
    - exact Hr. }
  intros [[ok1 hl] label'] L1 ? (O1 & S1 & H1). destruct ok1; cbn [negb].
  2: { apply spec_ret. split; [|done]. g_fields. eapply owns_perm; [|exact O1]. solve_Permutation. }
  eapply spec_seq.
  { apply (ensure_widget_spec _ _ _ _ _ _ _ _ _ _ _ _ _
             [font; g_root_handle g; g_game_scene_handle g; hl] (g_root_handle g)).
    - g_fields. eapply owns_perm; [|exact O1]. solve_Permutation.
    - by left.
    - right; by left.
    - apply S1; [right; by left|exact Hr]. }
  intros [[ok2 hv] value'] L2 ? (O2 & S2 & H2). destruct ok2; cbn [negb].
  2: { apply spec_ret. split; [|done]. g_fields. eapply owns_perm; [|exact O2]. solve_Permutation. }
  assert (owns (font :: cached (with_value (with_label g hl) hv)) L2) as O3.
  { g_fields. eapply owns_perm; [|exact O2]. solve_Permutation. }
  neutral_call. destruct (null r) eqn:Ek; [by apply spec_ret|].
  assert (rooted L2 label' = true) as Rl.
  { destruct (H1 eq_refl) as [->|Hl]; [done|]. eapply rooted_by, S2; [|exact Hl].
    right; right; right; by left. }
  assert (rooted L2 value' = true) as Rv by (eapply rooted_target; apply (H2 eq_refl)).
  assert (handle_ok L2 font) as Hf by (eapply owns_ok; [exact O2|right; by left]).
  eapply keepL_seq with (P := any).
  { destruct (null label); [by apply keepL_ret|by apply update_label_spec]. }
  intros okl ? _. eapply keepL_seq with (P := any).
  { destruct (null value); [by apply keepL_ret|by apply and_also_specL, update_value_spec]. }
  intros okv ? _. destruct (negb okv); by apply spec_ret.
Qed.

Lemma apply_packet_spec g packet L I :
  owns (cached g) L ->
  spec (apply_packet_on_render g packet) L I (fun '(_, g') L' _ => owns (cached g') L').
Proof.
  intros Ho. unfold apply_packet_on_render. destruct (decode_wire_packet packet) as [frame|]; [|by apply spec_ret].
  eapply spec_seq; [by apply refresh_game_scene_spec|]. intros [ok g1] L1 ? O1.
  destruct (negb ok); [by apply spec_ret|].
  eapply keep_seq; [apply get_root_widget_spec; eapply owns_ok; [exact O1|by left]|]. intros root _.
  destruct (null root) eqn:Er; [by apply spec_ret|].
  eapply spec_seq; [by apply adopt_root_spec|]. intros [ok2 g2] L2 ? [O2 H2].
  destruct ok2; cbn [negb]; [|by apply spec_ret]. specialize (H2 eq_refl).
  eapply keep_seq; [apply managed_target_spec; eapply owns_ok; [exact O2|right; right; by left]|]. intros label0 _.
  eapply keep_seq; [apply managed_target_spec; eapply owns_ok; [exact O2|right; right; right; by left]|]. intros value0 _.
  eapply keepL_seq with (P := any).
  { destruct (null label0); [|by apply keepL_ret]. apply find_widget_spec. by eapply rooted_by. }
  intros label ? _. eapply keepL_seq with (P := any).
  { destruct (null value0); [|by apply keepL_ret]. apply find_widget_spec. by eapply rooted_by. }
  intros value ? _. apply spec_start. intros H0.
  eapply spec_seq with (R := Adds L2).
  { destruct (_ || _); [apply create_font_spec|]. apply spec_ret. exists 0. by left. }
  intros font L3 ? [o A3]. eapply spec_mono.
  - apply (scoped_owned font _ L3 _ (fun _ => True) (fun a => cached a.2)).
    eapply spec_mono; [apply apply_widgets_spec; [by eapply owns_cons|by eapply adds_keeps]|].
    by intros [? ?].
  - intros [? ?] ? ? [H _]. exact H.
Qed.

(** C11: rendering a packet, whatever the packet and whatever Mono answers, frees no handle
    twice and uses none after it was freed, passes only pinned objects and interior
    pointers of pinned objects to managed code and no null method to call, and leaves
    exactly the nonzero cached handles alive: nothing leaks, on success and on every
    failure.  [Broken] is the only way out: an answer Mono's documentation excludes. *)
Theorem apply_packet_gc_safe g packet live inner t r g' :
  live !! 0 = None -> owns (cached g) live ->
  exec (apply_packet_on_render g packet) t (r, g') ->
  match monitor gc_step (Live live inner) t with
  | None => False
  | Some Broken => True
  | Some (Live live' _) =>
      owns (cached g') live' /\ live' !! 0 = None
  end.
Proof.
  intros H0 Ho He. pose proof (apply_packet_spec g packet live inner Ho H0) as Hw.
  destruct (wp_sound _ _ _ _ Hw t (r, g') He) as (m & -> & Hm). destruct m; [done|].
  exact Hm.
Qed.

(** A console on which everything works: handles 101, 102, ..., one object per call. *)
Record Console := { k_next : Z; k_handles : gmap Z Z }.
Definition console_answer (w : Console) (c : rcall) : rcall_ret c * Console :=
  let fresh := (k_next w + 1, {| k_next := k_next w + 1; k_handles := k_handles w |}) in
  match c as c0 return rcall_ret c0 * Console with
  | RuntimeInvoke member _ _ _ =>
      if bool_decide (member = "FindContainerSceneByPath") then ((7, 0), w)
      else if bool_decide (member = "RootWidget") then ((8, 0), w) else ((1, 0), w)
  | Thunk "FindWidgetByName" _ _ => (0, w)
  | GcNew o _ => (k_next w + 1, {| k_next := k_next w + 1; k_handles := <[k_next w + 1 := o]> (k_handles w) |})
  | GcTarget h => (default 0 (k_handles w !! h), w)
  | GcFree h => (tt, {| k_next := k_next w; k_handles := delete h (k_handles w) |})
  | StringNew _ _ => fresh
  | ObjectNew _ _ => fresh
  | Unbox o => (o + 16, w)
  | ObjectInit _ | Usleep _ | StoreTrampoline _ | StoreOriginal _ => (tt, w)
  | File c => (silent_file c, w)
  | _ => (5, w)
  end.


Definition console_globals : Globals := {|
  g_domain := 3; g_pui_image := 4; g_find_scene_method := 6; g_background_render_mode := false;
  g_game_scene_handle := 0; g_root_handle := 0; g_label_handle := 0; g_value_handle := 0;
  g_style_applied := false; g_applied_config := OverlayConfig_init;
  g_applied_layout := OverlayLayout_init |}.

(** The first frame on this console: the trace, and what it returns. *)
Definition first_frame :=
  run console_answer (apply_packet_on_render console_globals (make_wire_packet sample_frame 7))
    {| k_next := 100; k_handles := ∅ |}.

Definition gc_alive (m : option gc) : bool := match m with Some (Live _ _) => true | _ => false end.

Lemma apply_packet_gc_safe_witness :
  first_frame.1.1.1 = true /\
  exists live inner, monitor gc_step (Live ∅ ∅) first_frame.2 = Some (Live live inner) /\
    owns (cached first_frame.1.1.2) live.
Proof.
  split; [vm_compute; reflexivity|].
  assert (gc_alive (monitor gc_step (Live ∅ ∅) first_frame.2) = true) as Halive
    by (vm_compute; reflexivity).
  pose proof (apply_packet_gc_safe console_globals (make_wire_packet sample_frame 7) ∅ ∅ first_frame.2
    first_frame.1.1.1 first_frame.1.1.2 eq_refl) as H.
  destruct (monitor gc_step (Live ∅ ∅) first_frame.2) as [[|live inner]|]; try discriminate.
  exists live, inner. split; [reflexivity|]. apply H.
  - unfold cached, console_globals. cbn [g_game_scene_handle g_root_handle g_label_handle g_value_handle].
    rewrite !owns_zero. intros h _. by rewrite lookup_empty, bool_decide_eq_false_2 by (by intros [? ?]).
  - rewrite <- surjective_pairing. apply run_exec.
Defined.
