(* ===== verification/PuiLooks.v ===== *)
(** What the managed objects hold: a monitor that follows strings, boxed values and the
    properties of widgets through the Mono calls, and what the handles, the constructors
    and the property setters of [Mono] do to them. *)
From S2P Require Import Prelude Effects Float Types Config Layout Wire Debugger Mono.

(** ** Objects and properties *)

(** A property: a text, a boxed value (the constructor's arguments), plain data. *)
Inductive look := LText (s : text) | LBox (args : list arg) | LArg (a : arg).

(** [d_live]: handles with their objects; [d_found]: widgets a search returned, which the
    caller holds on its stack; [d_inner]: interior pointers with their owners; [d_str],
    [d_box]: what strings and boxes hold; [d_prop]: the known properties. *)
Record Disp := {
  d_live : gmap Z Z; d_found : gset Z; d_inner : gmap Z Z; d_str : gmap Z text;
  d_box : gmap Z (list arg); d_prop : gmap (Z * string) look
}.

(** [Dark]: Mono did not keep its documented behaviour - a pinned target does not change, a
    new object is none of the held ones, a new handle is not in use, a widget has one
    name; nothing is claimed from then on. *)
Inductive Display := Dark | Lit (d : Disp).

Definition alive (d : Disp) (o : Z) : Prop :=
  o ∈ d_found d \/ map_Exists (fun _ x => x = o) (d_live d).
#[export] Instance alive_dec d o : Decision (alive d o).
Proof. unfold alive. apply _. Defined.

Definition with_live (l : gmap Z Z) (d : Disp) : Disp :=
  {| d_live := l; d_found := d_found d; d_inner := d_inner d; d_str := d_str d; d_box := d_box d;
     d_prop := d_prop d |}.
Definition with_inner (l : gmap Z Z) (d : Disp) : Disp :=
  {| d_live := d_live d; d_found := d_found d; d_inner := l; d_str := d_str d; d_box := d_box d;
     d_prop := d_prop d |}.
Definition with_box (l : gmap Z (list arg)) (d : Disp) : Disp :=
  {| d_live := d_live d; d_found := d_found d; d_inner := d_inner d; d_str := d_str d; d_box := l;
     d_prop := d_prop d |}.
Definition with_prop (l : gmap (Z * string) look) (d : Disp) : Disp :=
  {| d_live := d_live d; d_found := d_found d; d_inner := d_inner d; d_str := d_str d;
     d_box := d_box d; d_prop := l |}.
Definition with_found (s : gset Z) (d : Disp) : Disp :=
  {| d_live := d_live d; d_found := s; d_inner := d_inner d; d_str := d_str d; d_box := d_box d;
     d_prop := d_prop d |}.

(** A new object at [o]: nothing is known of it but its text. *)
Definition fresh_object (o : Z) (s : option text) (d : Disp) : Disp :=
  {| d_live := d_live d; d_found := d_found d; d_inner := d_inner d;
     d_str := partial_alter (fun _ => s) o (d_str d);
     d_box := delete o (d_box d); d_prop := filter (fun p => p.1.1 <> o) (d_prop d) |}.

(** What a property becomes when it is set to [v]. *)
Definition eval (d : Disp) (v : arg) : option look :=
  match v with
  | Ref s => LText <$> d_str d !! s
  | Val p => o ← d_inner d !! p; LBox <$> d_box d !! o
  | _ => Some (LArg v)
  end.

Definition set_prop (o : Z) (name : string) (v : option look) (d : Disp) : Disp :=
  with_prop (partial_alter (fun _ => v) (o, name) (d_prop d)) d.

(** A search for the name [id] returned [o]. *)
Definition found (o : Z) (id : text) (d : Disp) : Display :=
  let d' := with_found ({[o]} ∪ d_found d) d in
  match d_prop d !! (o, "Name"%string) with
  | Some (LText id') => if decide (id' = id) then Lit d' else Dark
  | Some _ => Dark
  | None => Lit (set_prop o "Name" (Some (LText id)) d')
  end.

(** The properties that are set through a checked call. *)
Definition checked_property (name : string) : bool :=
  bool_decide (name = "Font"%string \/ name = "TextColor"%string).

Definition create (r : Z) (s : option text) (d : Disp) : Display :=
  if null r then Lit d else if decide (alive d r) then Dark else Lit (fresh_object r s d).

Definition dnext (d : Disp) (e : event rcall_ret) : Display :=
  match e with
  | Ev (StringNew _ s) r => create r (Some s) d
  | Ev (ObjectNew _ _) r => create r None d
  | Ev (Unbox o) p => Lit (with_inner (<[p := o]> (d_inner d)) d)
  | Ev (GcNew o _) r =>
      if null r then Lit d
      else match d_live d !! r with
           | Some _ => Dark
           | None => Lit (with_live (<[r := o]> (d_live d)) d)
           end
  | Ev (GcTarget h) r =>
      match d_live d !! h with Some o => if r =? o then Lit d else Dark | None => Lit d end
  | Ev (GcFree h) _ => Lit (with_live (delete h (d_live d)) d)
  | Ev (Thunk name _ args) r =>
      match args with
      | Val p :: args' =>
          match d_inner d !! p with
          | Some o => Lit (with_box (<[o := args']> (d_box d)) d)
          | None => Lit d
          end
      | [Ref o; v] =>
          if bool_decide (name = "FindWidgetByName"%string) then
            match eval d v with
            | Some (LText id) => if null r then Lit d else found r id d
            | _ => Lit d
            end
          else Lit (set_prop o name (eval d v) d)
      | _ => Lit d
      end
  | Ev (RuntimeInvoke name _ o args) (_, exception) =>
      match args with
      | [v] => if checked_property name
               then Lit (set_prop o name (if null exception then eval d v else None) d) else Lit d
      | _ => Lit d
      end
  | _ => Lit d
  end.
Definition display_step (m : Display) (e : event rcall_ret) : option Display :=
  match m with Dark => Some Dark | Lit d => Some (dnext d e) end.

(** ** Specifications *)

Definition dspec {A} (p : rprog A) (d : Disp) (Q : A -> Disp -> Prop) : Prop :=
  wp display_step p (Lit d) (fun a m => match m with Dark => True | Lit d' => Q a d' end).

Lemma wp_dark {A} (p : rprog A) (Q : A -> Display -> Prop) :
  (forall a, Q a Dark) -> wp display_step p Dark Q.
Proof. by apply wp_absorbing. Qed.

Lemma dspec_ret {A} (a : A) d (Q : A -> Disp -> Prop) : Q a d -> dspec (Ret a) d Q.
Proof. done. Qed.

Lemma dspec_mono {A} (p : rprog A) d (Q Q' : A -> Disp -> Prop) :
  dspec p d Q -> (forall a d', Q a d' -> Q' a d') -> dspec p d Q'.
Proof. intros H HQ. eapply wp_mono; [|exact H]. intros a [|d']; [done|apply HQ]. Qed.

Lemma dspec_seq {A B} (p : rprog A) (f : A -> rprog B) d R Q :
  dspec p d R -> (forall a d', R a d' -> dspec (f a) d' Q) -> dspec (bindp p f) d Q.
Proof.
  intros Hp Hf. apply wp_bind. eapply wp_mono; [|exact Hp].
  intros a [|d']; [intros _; by apply wp_dark|apply Hf].
Qed.

(** One call. *)
Lemma dspec_call {A} c (f : rcall_ret c -> rprog A) d Q :
  (forall r, match dnext d (Ev c r) with Dark => True | Lit d' => dspec (f r) d' Q end) ->
  dspec (bindp (rc c) f) d Q.
Proof.
  intros H r. specialize (H r). cbn [display_step]. destruct (dnext d (Ev c r));
    [by apply wp_dark|exact H].
Qed.
Lemma dspec_last c d (Q : rcall_ret c -> Disp -> Prop) :
  (forall r, match dnext d (Ev c r) with Dark => True | Lit d' => Q r d' end) -> dspec (rc c) d Q.
Proof. intros H r. specialize (H r). cbn [display_step]. by destruct (dnext d (Ev c r)). Qed.

(** ** What is kept

    Everything known of the held objects stays, except the properties in [X]. *)
Record keeps (X : Z * string -> Prop) (d d' : Disp) : Prop := {
  k_found : d_found d ⊆ d_found d';
  k_live h o : d_live d !! h = Some o -> d_live d' !! h = Some o;
  k_str o s : alive d o -> d_str d !! o = Some s -> d_str d' !! o = Some s;
  k_box o b : alive d o -> d_box d !! o = Some b -> d_box d' !! o = Some b;
  k_prop o n v : alive d o -> ~ X (o, n) -> d_prop d !! (o, n) = Some v ->
    d_prop d' !! (o, n) = Some v
}.
Abbreviation none := (fun _ : Z * string => False).

Lemma alive_live d h o : d_live d !! h = Some o -> alive d o.
Proof. intros H. right. by exists h, o. Qed.

Lemma keeps_alive X d d' o : keeps X d d' -> alive d o -> alive d' o.
Proof.
  intros K [Hf|(h & x & Hh & ->)]; [left; by apply (k_found _ _ _ K)|].
  apply (alive_live _ h). by apply (k_live _ _ _ K).
Qed.

Lemma keeps_refl X d : keeps X d d.
Proof. by split. Qed.

Lemma keeps_trans X Y d d1 d2 :
  keeps X d d1 -> keeps Y d1 d2 -> keeps (fun k => X k \/ Y k) d d2.
Proof.
  intros K1 K2. split.
  - etrans; [apply (k_found _ _ _ K1)|apply (k_found _ _ _ K2)].
  - intros h o H. by apply (k_live _ _ _ K2), (k_live _ _ _ K1).
  - intros o s Ha H. apply (k_str _ _ _ K2); [by eapply keeps_alive|]. by apply (k_str _ _ _ K1).
  - intros o b Ha H. apply (k_box _ _ _ K2); [by eapply keeps_alive|]. by apply (k_box _ _ _ K1).
  - intros o n v Ha HX H. apply (k_prop _ _ _ K2); [by eapply keeps_alive|tauto|].
    apply (k_prop _ _ _ K1); tauto.
Qed.

Lemma keeps_weaken X Y d d' : (forall k, X k -> Y k) -> keeps X d d' -> keeps Y d d'.
Proof. intros HXY [K0 K1 K2 K3 K4]. split; auto. Qed.

Lemma keeps_seq X d d1 d2 : keeps X d d1 -> keeps X d1 d2 -> keeps X d d2.
Proof. intros K1 K2. eapply keeps_weaken; [|by eapply keeps_trans]. by intros k []. Qed.
Lemma keeps_then X d d1 d2 : keeps none d d1 -> keeps X d1 d2 -> keeps X d d2.
Proof. intros K1 K2. eapply keeps_weaken; [|by eapply keeps_trans]. by intros k []. Qed.

Lemma keeps_fresh d r s : ~ alive d r -> keeps none d (fresh_object r s d).
Proof.
  intros Hr. split; cbn [fresh_object d_live d_found d_str d_box d_prop]; [done|done|..].
  - intros o t Ha H. rewrite lookup_partial_alter_ne; [done|]. by intros ->.
  - intros o b Ha H. rewrite lookup_delete_ne; [done|]. by intros ->.
  - intros o n v Ha _ H. apply map_lookup_filter_Some. split; [done|]. cbn. by intros ->.
Qed.

Lemma keeps_new d h o : d_live d !! h = None -> keeps none d (with_live (<[h := o]> (d_live d)) d).
Proof.
  intros Hh. split; cbn [with_live d_live d_found d_str d_box d_prop]; try done.
  intros h' o' H. rewrite lookup_insert_ne; [done|congruence].
Qed.

(** Releasing a handle that was not there before. *)
Lemma keeps_free X d d1 h :
  keeps X d d1 -> d_live d !! h = None -> keeps X d (with_live (delete h (d_live d1)) d1).
Proof.
  intros [K0 K1 K2 K3 K4] Hh. split; cbn [with_live d_live d_found d_str d_box d_prop]; try done.
  intros h' o H. rewrite lookup_delete_ne; [by apply K1|congruence].
Qed.

Lemma keeps_inner X d d1 l : keeps X d d1 -> keeps X d (with_inner l d1).
Proof. intros [K0 K1 K2 K3 K4]. by split. Qed.

Lemma keeps_box X d d1 o b :
  keeps X d d1 -> ~ alive d o -> keeps X d (with_box (<[o := b]> (d_box d1)) d1).
Proof.
  intros [K0 K1 K2 K3 K4] Ho. split; cbn [with_box d_live d_found d_str d_box d_prop]; try done.
  intros o' b' Ha H. rewrite lookup_insert_ne; [by apply K3|]. by intros ->.
Qed.

Lemma keeps_set d o n v : keeps (fun k => k = (o, n)) d (set_prop o n v d).
Proof.
  split; cbn [set_prop with_prop d_live d_found d_str d_box d_prop]; try done.
  intros o' n' v' Ha HX H. by rewrite lookup_partial_alter_ne.
Qed.

(** A property of an object that is not pinned may change. *)
Lemma keeps_set_new X d d1 o n v : keeps X d d1 -> ~ alive d o -> keeps X d (set_prop o n v d1).
Proof.
  intros [K0 K1 K2 K3 K4] Ho.
  split; cbn [set_prop with_prop d_live d_found d_str d_box d_prop]; try done.
  intros o' n' v' Ha HX H. rewrite lookup_partial_alter_ne; [by apply K4|]. intros [= -> ->]. done.
Qed.

Lemma prop_set o n v d : d_prop (set_prop o n v d) !! (o, n) = v.
Proof. cbn. by rewrite lookup_partial_alter_eq. Qed.

(** ** Handles *)

Ltac quiet r := apply dspec_call; intros r; cbn [dnext].

Lemma target_dspec d h :
  dspec (managed_target h) d (fun o d' =>
    d' = d /\ (h = 0 -> o = 0) /\ forall x, h <> 0 -> d_live d !! h = Some x -> o = x).
Proof.
  unfold managed_target. destruct (null h) eqn:E; nulls; [by apply dspec_ret|].
  apply dspec_last. intros o. cbn [dnext]. destruct (d_live d !! h) as [x|] eqn:Hx.
  - destruct (o =? x) eqn:Ho; [|done]. apply Z.eqb_eq in Ho as ->. split; [done|]. split; [done|].
    intros y _ [= ->]. done.
  - done.
Qed.

(** The target of a pinned handle. *)
Lemma pinned_dspec {B} d h o (f : Z -> rprog B) Q :
  h <> 0 -> d_live d !! h = Some o -> dspec (f o) d Q -> dspec (bindp (managed_target h) f) d Q.
Proof.
  intros Hh Ho Hf. eapply dspec_seq; [apply target_dspec|]. intros a d' (-> & _ & Ha). by rewrite (Ha o).
Qed.

Lemma free_dspec d h :
  dspec (free_handle h) d (fun _ d' => (h = 0 /\ d' = d) \/ (h <> 0 /\ d' = with_live (delete h (d_live d)) d)).
Proof.
  unfold free_handle. destruct (null h) eqn:E; nulls; [apply dspec_ret; by left|].
  apply dspec_last. intros r. by right.
Qed.

Definition pins (d : Disp) (h o : Z) (d' : Disp) : Prop :=
  h <> 0 /\ o <> 0 /\ d_live d !! h = None /\ d' = with_live (<[h := o]> (d_live d)) d.

(** A first object; failing changes nothing. *)
Lemma replace_dspec h o d :
  dspec (replace_managed_handle h o) d (fun '(h', ok) d' =>
    if ok : bool then h = 0 -> pins d h' o d' else h' = h /\ d' = d).
Proof.
  unfold replace_managed_handle. destruct (null o) eqn:Eo; nulls; [by apply dspec_ret|].
  eapply dspec_seq; [apply target_dspec|]. intros cur ? (-> & _).
  destruct (negb (null h) && (cur =? o)) eqn:Ec.
  { apply andb_true_iff in Ec as [E1 E2]. rewrite negb_true_iff in E1. nulls. by apply dspec_ret. }
  quiet next. destruct (null next) eqn:En.
  { eapply dspec_seq; [apply target_dspec|]. intros t ? (-> & _). cbn [orb].
    eapply dspec_seq; [apply free_dspec|]. intros _ ? [[_ ->]|[Hn _]]; [by apply dspec_ret|]. by nulls. }
  nulls. destruct (d_live d !! next) eqn:Hf; [done|].
  eapply (pinned_dspec _ _ o); [done|by cbn; rewrite lookup_insert_eq|]. rewrite Z.eqb_refl. cbn [orb negb].
  eapply dspec_seq; [apply free_dspec|]. intros _ ? [[-> ->]|[Hh _]]; apply dspec_ret; [|done].
  intros _. by repeat split.
Qed.

(** The object the handle already holds. *)
Lemma replace_same_dspec h o d :
  h <> 0 -> o <> 0 -> d_live d !! h = Some o ->
  dspec (replace_managed_handle h o) d (fun r d' => r = (h, true) /\ d' = d).
Proof.
  intros Hh Ho Hl. unfold replace_managed_handle. apply Z.eqb_neq in Ho. unfold null at 1. rewrite Ho.
  eapply pinned_dspec; [done|exact Hl|]. apply Z.eqb_neq in Hh. unfold null at 1.
  rewrite Hh, Z.eqb_refl. by apply dspec_ret.
Qed.

Lemma pin_dspec o d :
  dspec (pin o) d (fun h d' => (h = 0 /\ d' = d) \/ pins d h o d').
Proof.
  unfold pin. destruct (null o); [apply dspec_ret; by left|].
  eapply dspec_seq; [apply replace_dspec|]. intros [h [|]] d'; intros H; apply dspec_ret.
  - right. by apply H.
  - left. exact H.
Qed.

(** A handle that is new since [d], and what is known of its object. *)
Definition Holds (d : Disp) (P : Z -> Disp -> Prop) (h : Z) (d' : Disp) : Prop :=
  keeps none d d' /\
  (h <> 0 -> exists o, o <> 0 /\ d_live d !! h = None /\ ~ alive d o /\ d_live d' !! h = Some o /\ P o d').

(** Releasing such a handle. *)
Lemma release_new_dspec X d d1 h :
  keeps X d d1 -> (h <> 0 -> d_live d !! h = None) ->
  dspec (release_managed_handle h) d1 (fun _ d' => keeps X d d' /\ d_prop d' = d_prop d1 /\
    (forall k, k <> h -> d_live d' !! k = d_live d1 !! k)).
Proof.
  intros K Hh. eapply dspec_mono; [apply free_dspec|]. intros _ ? [[-> ->]|[Hn ->]]; [done|].
  split; [by apply keeps_free, Hh|]. split; [done|]. intros k Hk. cbn. by rewrite lookup_delete_ne.
Qed.

(** A new string, or a new object of a class. *)
Lemma new_string_dspec domain s d :
  dspec (bindp (rc (StringNew domain s)) pin) d (Holds d (fun o d' => d_str d' !! o = Some s)).
Proof.
  quiet o. unfold create. destruct (null o) eqn:Eo; nulls.
  - subst o. unfold pin. cbn [null Z.eqb]. apply dspec_ret. split; [apply keeps_refl|done].
  - destruct (decide (alive d o)) as [|Ha]; [done|].
    eapply dspec_mono; [apply pin_dspec|]. pose proof (keeps_fresh d o (Some s) Ha) as K.
    intros h d' [[-> ->]|(Hh & _ & Hf & ->)]; [done|]. split.
    + eapply keeps_seq; [exact K|]. by apply keeps_new.
    + intros _. exists o. split; [done|]. split; [done|]. split; [done|].
      cbn. by rewrite lookup_insert_eq, lookup_partial_alter_eq.
Qed.

Lemma new_object_dspec domain klass d :
  dspec (bindp (rc (ObjectNew domain klass)) pin) d (Holds d (fun _ _ => True)).
Proof.
  quiet o. unfold create. destruct (null o) eqn:Eo; nulls.
  - subst o. unfold pin. cbn [null Z.eqb]. apply dspec_ret. split; [apply keeps_refl|done].
  - destruct (decide (alive d o)) as [|Ha]; [done|].
    eapply dspec_mono; [apply pin_dspec|]. pose proof (keeps_fresh d o None Ha) as K.
    intros h d' [[-> ->]|(Hh & _ & Hf & ->)]; [done|]. split.
    + eapply keeps_seq; [exact K|]. by apply keeps_new.
    + intros _. exists o. cbn. by rewrite lookup_insert_eq.
Qed.

(** A binding whose first two programs have a common specification. *)
Lemma dspec_seq2 {A B C} (p : rprog A) (q : A -> rprog B) (f : B -> rprog C) d R Q :
  dspec (bindp p q) d R -> (forall b d', R b d' -> dspec (f b) d' Q) ->
  dspec (bindp p (fun a => bindp (q a) f)) d Q.
Proof.
  intros Hp Hf. unfold dspec in *. apply wp_bind in Hp. apply wp_bind.
  eapply wp_mono; [|exact Hp]. intros a m Hq. apply wp_bind.
  eapply wp_mono; [|exact Hq]. intros b [|d']; [intros _; by apply wp_dark|apply Hf].
Qed.

Lemma pinned_ok_dspec d h :
  dspec (pinned_ok h) d (fun ok d' => d' = d /\ (ok = true -> h <> 0)).
Proof.
  unfold pinned_ok, pinned_object. eapply dspec_seq; [apply target_dspec|]. intros o ? (-> & H0 & _).
  apply dspec_ret. split; [done|]. rewrite negb_true_iff. intros ? Hh. nulls. by rewrite (H0 Hh) in *.
Qed.

Lemma pinned_value_dspec d h o :
  h <> 0 -> d_live d !! h = Some o -> o <> 0 ->
  dspec (pinned_value h) d (fun p d' => d' = with_inner (<[p := o]> (d_inner d)) d).
Proof.
  intros Hh Ho H0. unfold pinned_value, pinned_object. eapply pinned_dspec; [done|exact Ho|].
  apply Z.eqb_neq in H0. unfold null. rewrite H0. apply dspec_last. intros p. done.
Qed.

Lemma returned_dspec d d1 h body P :
  (h <> 0 -> d_live d !! h = None) ->
  dspec body d1 (fun ok d' => keeps none d d' /\ (ok = true -> h <> 0 -> exists o,
    o <> 0 /\ d_live d !! h = None /\ ~ alive d o /\ d_live d' !! h = Some o /\ P o d')) ->
  dspec (returned h body) d1 (Holds d P).
Proof.
  intros Hf Hb. unfold returned. eapply dspec_seq; [exact Hb|]. intros [|] d2 [K H].
  - apply dspec_ret. split; [done|]. by apply H.
  - eapply dspec_seq; [by eapply release_new_dspec|]. intros _ d3 (K3 & _). by apply dspec_ret.
Qed.

(** Lookups of methods change nothing. *)
Definition Quiet {A} (p : rprog A) : Prop := forall d, dspec p d (fun _ d' => d' = d).

Lemma compile_quiet m : Quiet (if null m then Ret 0 else rc (CompileMethod m)).
Proof. intros d. destruct (null m); [by apply dspec_ret|]. by apply dspec_last. Qed.
Lemma method_quiet k name n : Quiet (if null k then Ret 0 else rc (MethodFromName k name n)).
Proof. intros d. destruct (null k); [by apply dspec_ret|]. by apply dspec_last. Qed.
Lemma setter_quiet klass name : Quiet (property_setter klass name).
Proof.
  intros d. unfold property_setter. destruct (null klass); [by apply dspec_ret|]. quiet p.
  destruct (null p); [by apply dspec_ret|]. by apply dspec_last.
Qed.
Lemma getter_quiet klass name : Quiet (property_getter klass name).
Proof.
  intros d. unfold property_getter. destruct (null klass); [by apply dspec_ret|]. quiet p.
  destruct (null p); [by apply dspec_ret|]. by apply dspec_last.
Qed.
Lemma after_quiet {A B} (p : rprog A) (f : A -> rprog B) d Q :
  Quiet p -> (forall a, dspec (f a) d Q) -> dspec (bindp p f) d Q.
Proof. intros Hp Hf. eapply dspec_seq; [apply Hp|]. by intros a ? ->. Qed.

(** ** Boxed values *)

Definition boxed (args : list arg) (o : Z) (d : Disp) : Prop := d_box d !! o = Some args.

Lemma construct_dspec g klass params args d :
  dspec (construct g klass params args) d (Holds d (boxed args)).
Proof.
  unfold construct. destruct (null klass); [apply dspec_ret; by split; [apply keeps_refl|]|].
  eapply dspec_seq2; [apply new_object_dspec|]. intros h d1 [K1 H1].
  apply returned_dspec. { intros Hh. by destruct (H1 Hh) as (o & _ & ? & _). }
  eapply dspec_seq; [apply pinned_ok_dspec|]. intros [|] ? [-> Hok]; cbn [negb]; [|by apply dspec_ret].
  destruct (H1 (Hok eq_refl)) as (o & Ho & Hf & Ha & Hl & _).
  eapply dspec_seq; [apply pinned_value_dspec; [by apply Hok|exact Hl|done]|]. intros real ? ->.
  quiet ctor. apply after_quiet; [apply compile_quiet|]. intros thunk.
  destruct (null real || null thunk); [apply dspec_ret; by split; [apply keeps_inner|]|].
  quiet x. cbn [with_inner d_inner]. rewrite lookup_insert_eq. apply dspec_ret. split.
  - by apply keeps_box; [apply keeps_inner|].
  - intros _ _. exists o. repeat split; try done. unfold boxed. cbn. by rewrite lookup_insert_eq.
Qed.

Definition font_args (size : Z) : list arg := [AInt size; AInt 0; AInt 0].
Definition color_args (rgb : Z) : list arg :=
  [AFloat (channel rgb 16); AFloat (channel rgb 8); AFloat (channel rgb 0); AFloat (f32_of_Z 1)].

Lemma create_font_dspec g size d : dspec (create_font g size) d (Holds d (boxed (font_args size))).
Proof. unfold create_font. quiet k. apply construct_dspec. Qed.

Lemma create_color_dspec g rgb d :
  dspec (create_color g (channel rgb 16) (channel rgb 8) (channel rgb 0) (f32_of_Z 1)) d
    (Holds d (boxed (color_args rgb))).
Proof. unfold create_color. quiet k. apply construct_dspec. Qed.

(** ** Properties *)

(** The property [n] of [o] is set to [v], if all went well; nothing else changes. *)
Definition Sets (o : Z) (n : string) (v : look) (d : Disp) (ok : bool) (d' : Disp) : Prop :=
  keeps (fun k => k = (o, n)) d d' /\ (ok = true -> d_prop d' !! (o, n) = Some v).

Lemma Sets_no o n v d : Sets o n v d false d.
Proof. split; [apply keeps_refl|done]. Qed.

Lemma set_property_direct_dspec d klass o n value v :
  n <> "FindWidgetByName"%string -> eval d value = Some v ->
  dspec (set_property_direct klass o n value) d (Sets o n v d).
Proof.
  intros Hn Hv. unfold set_property_direct. apply after_quiet; [apply setter_quiet|]. intros setter.
  destruct (null setter); [apply dspec_ret, Sets_no|]. quiet thunk.
  destruct (null thunk); [apply dspec_ret, Sets_no|]. quiet x.
  rewrite bool_decide_eq_false_2, Hv by done. apply dspec_ret. split; [apply keeps_set|].
  intros _. apply prop_set.
Qed.

Lemma set_property_object_dspec d klass o n value v :
  checked_property n = true -> eval d value = Some v ->
  dspec (set_property_object klass o n value) d (Sets o n v d).
Proof.
  intros Hn Hv. unfold set_property_object. apply after_quiet; [apply setter_quiet|]. intros setter.
  destruct (null setter); [apply dspec_ret, Sets_no|]. quiet x. destruct x as [res ex].
  rewrite Hn, Hv. apply dspec_ret. split; [apply keeps_set|]. intros ->. apply prop_set.
Qed.

(** A property set from the boxed value of a pinned object. *)
Lemma set_value_dspec d klass o n h b args :
  checked_property n = true -> h <> 0 -> d_live d !! h = Some b -> b <> 0 -> boxed args b d ->
  dspec (bindp (pinned_value h) (fun v => set_property_object klass o n (Val v))) d
    (Sets o n (LBox args) d).
Proof.
  intros Hn Hh Hl Hb Hbox. eapply dspec_seq; [by eapply pinned_value_dspec|]. intros p ? ->.
  eapply dspec_mono; [apply (set_property_object_dspec _ _ _ _ _ (LBox args)); [done|]|].
  - cbn. by rewrite lookup_insert_eq; cbn; rewrite Hbox.
  - intros ok d' [K H]. split; [|done]. eapply keeps_then; [|exact K]. by apply keeps_inner, keeps_refl.
Qed.

(** A handle that is released at the end of its scope. *)
Lemma scoped_dspec {A} d d1 h P (body : rprog A) X (R : A -> Disp -> Prop) :
  Holds d P h d1 ->
  (forall a d', h <> 0 -> R a d' -> R a (with_live (delete h (d_live d')) d')) ->
  dspec body d1 (fun a d' => keeps X d1 d' /\ R a d') ->
  dspec (scoped h body) d1 (fun a d' => keeps X d d' /\ R a d').
Proof.
  intros [K Hh] HR Hb. unfold scoped. eapply dspec_seq; [exact Hb|]. intros a d2 [K2 H2].
  assert (keeps X d d2) as K3 by (by eapply keeps_then).
  eapply dspec_seq; [apply free_dspec|]. intros _ ? [[_ ->]|[Hn ->]]; apply dspec_ret; [done|].
  split; [|by apply HR]. apply keeps_free; [done|]. by destruct (Hh Hn) as (o & _ & ? & _).
Qed.

Lemma set_label_text_dspec g o content d :
  dspec (set_label_text g o content) d (Sets o "Text" (LText content) d).
Proof.
  unfold set_label_text. destruct (null o); [apply dspec_ret, Sets_no|]. quiet klass.
  eapply dspec_seq2; [apply new_string_dspec|]. intros h d1 Hd. pose proof Hd as [K Hs].
  eapply (scoped_dspec d d1 h _ _ _
    (fun ok d' => ok = true -> d_prop d' !! (o, "Text"%string) = Some (LText content)));
    [exact Hd|done|].
  eapply dspec_seq; [apply pinned_ok_dspec|]. intros [|] ? [-> Hok]; cbn [negb]; [|apply dspec_ret, Sets_no].
  destruct (Hs (Hok eq_refl)) as (s & _ & _ & _ & Hl & Hstr).
  eapply pinned_dspec; [by apply Hok|exact Hl|]. apply set_property_direct_dspec; [done|]. cbn. by rewrite Hstr.
Qed.

Lemma apply_rgb_dspec g klass o rgb d :
  dspec (apply_rgb g klass o rgb) d (Sets o "TextColor" (LBox (color_args rgb)) d).
Proof.
  unfold apply_rgb. eapply dspec_seq; [apply create_color_dspec|]. intros h d1 Hd. pose proof Hd as [K Hs].
  eapply (scoped_dspec d d1 h _ _ _
    (fun ok d' => ok = true -> d_prop d' !! (o, "TextColor"%string) = Some (LBox (color_args rgb))));
    [exact Hd|done|].
  eapply dspec_seq; [apply pinned_ok_dspec|]. intros [|] ? [-> Hok]; cbn [negb]; [|apply dspec_ret, Sets_no].
  destruct (Hs (Hok eq_refl)) as (c & Hc & _ & _ & Hl & Hb).
  eapply set_value_dspec; [done|by apply Hok|exact Hl|done|exact Hb].
Qed.

(** ** Sequences of property updates *)

Definition shows (d : Disp) (o : Z) (ps : list (string * (look -> Prop))) : Prop :=
  Forall (fun p => exists v, d_prop d !! (o, p.1) = Some v /\ p.2 v) ps.

(** Where an update of the properties [names] of [o] stands: [done] are right unless
    something failed, and of [todo] those that need no update. *)
Definition Updating (d0 : Disp) (o : Z) (names : list string) (done : list (string * (look -> Prop)))
    (todo : list (bool * (string * (look -> Prop)))) (ok : bool) (d : Disp) : Prop :=
  keeps (fun k => k.1 = o /\ k.2 ∈ names) d0 d /\ (ok = true -> shows d o done) /\
  shows d o (map snd (filter (fun p => p.1 = false) todo)).

Lemma shows_keeps X d d' o ps :
  keeps X d d' -> alive d o -> (forall p, p ∈ ps -> ~ X (o, p.1)) -> shows d o ps -> shows d' o ps.
Proof.
  intros K Ha HX. unfold shows. rewrite !Forall_forall. intros Hp p Hin.
  destruct (Hp p Hin) as (v & Hv & Hpv). exists v. split; [|done]. apply (k_prop _ _ _ K); auto.
Qed.

Lemma updating_step d0 o names done f n V v todo ok p d :
  Updating d0 o names done ((f, (n, V)) :: todo) ok d -> alive d0 o ->
  n ∈ names -> n ∉ map fst done -> n ∉ map (fst ∘ snd) todo -> V v ->
  (f = true -> dspec p d (Sets o n v d)) ->
  dspec (and_also ok (if f then p else Ret true)) d (Updating d0 o names ((n, V) :: done) todo).
Proof.
  intros (K & Hdone & Htodo) Ha Hn Hd Ht Hv Hp. unfold and_also.
  eapply dspec_seq with (R := fun r d' => keeps (fun k => k = (o, n)) d d' /\ shows d' o (map snd (filter (fun p => p.1 = false) todo)) /\
    (ok && r = true -> shows d' o ((n, V) :: done))).
  2: { intros r d' (K' & Ht' & Hr). apply dspec_ret. split; [|by split].
       eapply keeps_weaken; [|by eapply keeps_trans]. by intros k [| ->]. }
  pose proof (keeps_alive _ _ _ _ K Ha) as Ha'.
  destruct f.
  - eapply dspec_mono; [by apply Hp|]. intros r d' [K' Hs]. rewrite filter_cons_False in Htodo by done.
    split; [done|]. split.
    + eapply shows_keeps; [exact K'|done| |exact Htodo]. intros q Hq [= <-]. apply Ht.
      apply list_elem_of_fmap in Hq as ([b q'] & -> & Hq). apply list_elem_of_filter in Hq as [_ Hq].
      apply list_elem_of_fmap. by exists (b, q').
    + intros [-> ->]%andb_true_iff. constructor; [exists v; by split; [apply Hs|]|].
      eapply shows_keeps; [exact K'|done| |by apply Hdone]. intros q Hq [= <-]. apply Hd.
      apply list_elem_of_fmap. by exists q.
  - apply dspec_ret. rewrite filter_cons_True in Htodo by done. cbn [map] in Htodo.
    apply Forall_cons in Htodo as [H1 H2]. split; [apply keeps_refl|]. split; [done|].
    intros [-> _]%andb_true_iff. constructor; [done|]. by apply Hdone.
Qed.

Lemma updating_skip d0 o names done p todo ok d :
  Updating d0 o names done ((false, p) :: todo) ok d -> Updating d0 o names (p :: done) todo ok d.
Proof.
  intros (K & Hd & Ht). rewrite filter_cons_True in Ht by done. cbn [map] in Ht.
  apply Forall_cons in Ht as [H1 H2]. split; [done|]. split; [|done]. intros E. constructor; [done|by apply Hd].
Qed.

Lemma and_also_assoc {A} ok (p : rprog A) q d Q :
  dspec (and_also ok (bindp p q)) d Q -> dspec (bindp p (fun a => and_also ok (q a))) d Q.
Proof.
  unfold dspec, and_also. intros H. apply wp_bind. rewrite !wp_bind in H.
  eapply wp_mono; [|exact H]. intros a m Hq. by apply wp_bind.
Qed.

(** A step that is always made. *)
Lemma updating_set d0 o names done n V v todo ok p d :
  Updating d0 o names done ((true, (n, V)) :: todo) ok d -> alive d0 o ->
  n ∈ names -> n ∉ map fst done -> n ∉ map (fst ∘ snd) todo -> V v ->
  dspec p d (Sets o n v d) ->
  dspec (and_also ok p) d (Updating d0 o names ((n, V) :: done) todo).
Proof. intros HU Ha H1 H2 H3 Hv Hp. by apply (updating_step _ _ _ _ true _ _ v _ _ p d HU). Qed.

(** ** Looks *)

(** Equal up to the sign of a zero: what [==] on floats sees. *)
Definition unsigned (x : f32) : f32 := match x with S754_zero _ => S754_zero false | _ => x end.
Definition same (x y : f32) : Prop := unsigned x = unsigned y.

Lemma f_eq_same x y : f_eq x y = true -> same x y.
Proof.
  unfold f_eq, SFeqb, same. destruct x as [s1|s1| |s1 m1 e1], y as [s2|s2| |s2 m2 e2]; cbn; try done;
    try (by destruct s1); try (by destruct s2); try (by destruct s1, s2).
  destruct s1, s2; try done; destruct (e1 ?= e2) eqn:He; try done;
    change (Pos.compare_cont Eq m1 m2) with (m1 ?= m2)%positive;
    destruct (m1 ?= m2)%positive eqn:Hm; try done; intros _;
    apply Z.compare_eq_iff in He as ->; by apply Pos.compare_eq_iff in Hm as ->.
Qed.

Lemma same_add x y x' y' : same x x' -> same y y' -> same (f32_add x y) (f32_add x' y').
Proof.
  unfold same, f32_add, SFadd.
  destruct x as [s1| | |], x' as [s1'| | |]; cbn [unsigned]; intros [=];
    destruct y as [s2| | |], y' as [s2'| | |]; cbn [unsigned]; intros [=]; subst; try done.
  by destruct s1, s1', s2, s2'.
Qed.

Definition font_look (size : Z) : string * (look -> Prop) := ("Font"%string, eq (LBox (font_args size))).
Definition color_look (rgb : Z) : string * (look -> Prop) :=
  ("TextColor"%string, eq (LBox (color_args rgb))).
Definition text_look (s : text) : string * (look -> Prop) := ("Text"%string, eq (LText s)).
Definition coord (n : string) (x : f32) : string * (look -> Prop) :=
  (n, fun v => exists x', v = LArg (AFloat x') /\ same x' x).
Definition plain (n : string) (v : look) : string * (look -> Prop) := (n, eq v).

(** A label of one font, colour, text and place. *)
Definition looks (size rgb : Z) (s : text) (x y : f32) : list (string * (look -> Prop)) :=
  [font_look size; color_look rgb; text_look s; coord "X" x; coord "Y" y].

Definition named (d : Disp) (o : Z) (id : text) : Prop := d_prop d !! (o, "Name"%string) = Some (LText id).

Ltac names := apply (bool_decide_unpack _); vm_compute; exact I.

Ltac shown := first [reflexivity | cbn beta; eexists; split; reflexivity].

Definition setup_names : list string :=
  ["Name"; "X"; "Y"; "Text"; "Font"; "HorizontalAlignment"; "VerticalAlignment"; "TextColor";
   "FitWidthToText"; "FitHeightToText"]%string.

(** What the handles of [setup_label] stand for. *)
Definition pinned (d : Disp) (h o : Z) : Prop := h <> 0 /\ o <> 0 /\ d_live d !! h = Some o.

Lemma pinned_keeps X d d' h o : keeps X d d' -> pinned d h o -> pinned d' h o.
Proof. intros K (? & ? & ?). split; [done|]. split; [done|]. by apply (k_live _ _ _ K). Qed.
Lemma pinned_alive d h o : pinned d h o -> alive d o.
Proof. intros (_ & _ & H). by eapply alive_live. Qed.

Lemma shows_incl d o ps qs : (forall p, p ∈ ps -> p ∈ qs) -> shows d o qs -> shows d o ps.
Proof. unfold shows. rewrite !Forall_forall. auto. Qed.
Lemma shows_named d o id : shows d o [plain "Name" (LText id)] -> named d o id.
Proof. intros H. apply Forall_inv in H as (v & Hv & Hid). cbn in Hv, Hid. by subst. Qed.

(** Setting a property from a box that is pinned since [d0]. *)
Lemma updating_value d0 o names done n args todo ok d klass h b :
  Updating d0 o names done ((true, (n, eq (LBox args))) :: todo) ok d -> alive d0 o ->
  checked_property n = true -> n ∈ names -> n ∉ map fst done -> n ∉ map (fst ∘ snd) todo ->
  pinned d0 h b -> boxed args b d0 ->
  dspec (bindp (pinned_value h) (fun v => and_also ok (set_property_object klass o n (Val v)))) d
    (Updating d0 o names ((n, eq (LBox args)) :: done) todo).
Proof.
  intros H Ha Hc H1 H2 H3 P Hb. apply and_also_assoc.
  eapply updating_set; [exact H|done..|reflexivity|]. destruct H as [K _].
  destruct (pinned_keeps _ _ _ _ _ K P) as (? & ? & ?). eapply set_value_dspec; try done.
  apply (k_box _ _ _ K); [by eapply pinned_alive|exact Hb].
Qed.

Ltac step H := eapply updating_set; [exact H|done|names|names|names|shown|].

Lemma setup_label_dspec klass label mono_name mono_text color font x y alignment d o on ot oc o_f id s rgb size :
  pinned d label o -> pinned d mono_name on -> pinned d mono_text ot -> pinned d color oc ->
  pinned d font o_f -> d_str d !! on = Some id -> d_str d !! ot = Some s ->
  boxed (color_args rgb) oc d -> boxed (font_args size) o_f d ->
  dspec (setup_label klass label mono_name mono_text color font x y alignment) d (fun ok d' =>
    keeps (fun k => k.1 = o) d d' /\
    (ok = true -> named d' o id /\ shows d' o (looks size rgb s x y))).
Proof.
  intros Pl Pn Pt Pc Pf Hon Hot Hoc Hof. pose proof (pinned_alive _ _ _ Pl) as Ha. unfold setup_label, pinned_object.
  eapply pinned_dspec; [apply Pl|apply Pl|]. eapply pinned_dspec; [apply Pn|apply Pn|].
  assert (Updating d o setup_names []
    (map (pair true) [plain "Name" (LText id); coord "X" x; coord "Y" y; text_look s; font_look size;
      plain "HorizontalAlignment" (LArg (AInt alignment)); plain "VerticalAlignment" (LArg (AInt 0));
      color_look rgb; plain "FitWidthToText" (LArg (ABool true)); plain "FitHeightToText" (LArg (ABool true))])
    true d) as H.
  { split; [apply keeps_refl|]. split; [by constructor|]. by constructor. }
  cbn [map] in H.
  eapply dspec_seq; [step H; apply set_property_direct_dspec; [done|cbn; by rewrite Hon]|].
  clear H. intros ok1 d1 H.
  eapply dspec_seq; [step H; by apply set_property_direct_dspec|]. clear H. intros ok2 d2 H.
  eapply dspec_seq; [step H; by apply set_property_direct_dspec|]. clear H. intros ok3 d3 H.
  pose proof (pinned_keeps _ _ _ _ _ (proj1 H) Pt) as Pt'.
  eapply pinned_dspec; [apply Pt'|apply Pt'|].
  eapply dspec_seq; [step H; apply set_property_direct_dspec; [done|]|].
  { cbn. by rewrite (k_str _ _ _ (proj1 H) _ _ (pinned_alive _ _ _ Pt) Hot). }
  clear H. intros ok4 d4 H.
  eapply dspec_seq2; [eapply updating_value; [exact H|done|done|names..|exact Pf|exact Hof]|].
  clear H. intros ok5 d5 H.
  eapply dspec_seq; [step H; by apply set_property_direct_dspec|]. clear H. intros ok6 d6 H.
  eapply dspec_seq; [step H; by apply set_property_direct_dspec|]. clear H. intros ok7 d7 H.
  eapply dspec_seq2; [eapply updating_value; [exact H|done|done|names..|exact Pc|exact Hoc]|].
  clear H. intros ok8 d8 H.
  eapply dspec_seq; [step H; by apply set_property_direct_dspec|]. clear H. intros ok9 d9 H.
  eapply dspec_mono; [step H; by apply set_property_direct_dspec|].
  clear H. intros ok d' (K & H & _). split; [eapply keeps_weaken; [|exact K]; by intros k []|].
  intros E. specialize (H E). split.
  - eapply shows_named, shows_incl; [|exact H]. intros p. rewrite !elem_of_cons. tauto.
  - eapply shows_incl; [|exact H]. intros p. unfold looks. rewrite !elem_of_cons. tauto.
Qed.
