(* ===== verification/PuiDisplay.v ===== *)
(** What a rendered packet shows ([Mono.apply_packet_on_render]).  The renderer sets only the
    properties it believes to have changed; [packet_displayed] says that after every
    success both widgets look as a complete update would have made them, and that its
    beliefs stay right whatever fails. *)
From S2P Require Import Prelude Effects Float Types Config Layout Wire Debugger Mono PuiSafety PuiLooks.

(** ** Operations on widgets *)

Lemma Holds_pinned d P h d1 :
  Holds d P h d1 -> h <> 0 -> exists o, pinned d1 h o /\ ~ alive d o /\ d_live d !! h = None /\ P o d1.
Proof. intros [_ H] Hh. destruct (H Hh) as (o & ? & ? & ? & ? & ?). by exists o. Qed.

Lemma Holds_new d P h d1 : Holds d P h d1 -> h <> 0 -> d_live d !! h = None.
Proof. intros H Hh. by destruct (Holds_pinned _ _ _ _ H Hh) as (o & _ & _ & ? & _). Qed.

(** Whatever happens to a new object changes nothing that was known. *)
Lemma keeps_outside X d d1 d2 :
  keeps none d d1 -> (forall k, X k -> ~ alive d k.1) -> keeps X d1 d2 -> keeps none d d2.
Proof.
  intros K HX [K0 K1 K2 K3 K4]. pose proof K as [J0 J1 J2 J3 J4]. split.
  - by etrans.
  - auto.
  - intros o s Ha Hs. apply K2; [by eapply keeps_alive|auto].
  - intros o b Ha Hb. apply K3; [by eapply keeps_alive|auto].
  - intros o n v Ha _ Hv. apply K4; [by eapply keeps_alive| |auto]. intros HXo. by apply (HX (o, n)).
Qed.

Lemma all_ok_dspec hs d :
  dspec (all_ok hs) d (fun ok d' => d' = d /\ (ok = true -> Forall (fun h => h <> 0) hs)).
Proof.
  induction hs as [|h hs IH]; cbn [all_ok]; [by apply dspec_ret|].
  eapply dspec_seq; [apply pinned_ok_dspec|]. intros [|] ? [-> Hh]; [|by apply dspec_ret].
  eapply dspec_mono; [exact IH|]. intros ok ? [-> H]. split; [done|]. intros E. constructor; auto.
Qed.

Definition labelled (id : text) (size rgb : Z) (s : text) (x y : f32) (o : Z) (d : Disp) : Prop :=
  named d o id /\ shows d o (looks size rgb s x y).

(** The part of [create_label] with the strings and the colour. *)
Lemma label_body_dspec g klass label id x y s font alignment rgb size o d1 :
  pinned d1 label o -> (font <> 0 -> exists o, pinned d1 font o /\ boxed (font_args size) o d1) ->
  dspec
    (bindp (rc (StringNew (g_domain g) id)) (fun n => bindp (pin n) (fun mono_name =>
     scoped mono_name
      (bindp (rc (StringNew (g_domain g) s)) (fun t => bindp (pin t) (fun mono_text =>
       scoped mono_text
        (bindp (create_color g (channel rgb 16) (channel rgb 8) (channel rgb 0) (f32_of_Z 1)) (fun color =>
         scoped color
          (bindp (all_ok [mono_name; mono_text; color; font]) (fun ok =>
           if negb ok then Ret false
           else setup_label klass label mono_name mono_text color font x y alignment)))))))))) d1
    (fun ok d' => keeps (fun k => k.1 = o) d1 d' /\ (ok = true -> labelled id size rgb s x y o d')).
Proof.
  intros Pl Hfont.
  eapply dspec_seq2; [apply new_string_dspec|]. intros name d2 H2.
  eapply scoped_dspec; [exact H2|done|].
  eapply dspec_seq2; [apply new_string_dspec|]. intros content d3 H3.
  eapply scoped_dspec; [exact H3|done|].
  eapply dspec_seq; [apply create_color_dspec|]. intros color d4 H4.
  eapply scoped_dspec; [exact H4|done|].
  eapply dspec_seq; [apply all_ok_dspec|]. intros [|] ? [-> Hall]; cbn [negb].
  2: { apply dspec_ret. split; [apply keeps_refl|done]. }
  specialize (Hall eq_refl). rewrite !Forall_cons in Hall. destruct Hall as (N1 & N2 & N3 & N4 & _).
  destruct (Holds_pinned _ _ _ _ H2 N1) as (on & P2 & _ & _ & S2).
  destruct (Holds_pinned _ _ _ _ H3 N2) as (ot & P3 & _ & _ & S3).
  destruct (Holds_pinned _ _ _ _ H4 N3) as (oc & P4 & _ & _ & S4).
  destruct (Hfont N4) as (o_f & Pf & Sf).
  destruct H2 as [K2 _], H3 as [K3 _], H4 as [K4 _].
  assert (keeps none d2 d4) as K24 by (by eapply keeps_seq).
  assert (keeps none d1 d4) as K14 by (by eapply keeps_seq).
  eapply dspec_mono; [eapply setup_label_dspec|].
  - exact (pinned_keeps _ _ _ _ _ K14 Pl).
  - exact (pinned_keeps _ _ _ _ _ K24 P2).
  - exact (pinned_keeps _ _ _ _ _ K4 P3).
  - exact P4.
  - exact (pinned_keeps _ _ _ _ _ K14 Pf).
  - apply (k_str _ _ _ K24); [by eapply pinned_alive|exact S2].
  - apply (k_str _ _ _ K4); [by eapply pinned_alive|exact S3].
  - exact S4.
  - apply (k_box _ _ _ K14); [by eapply pinned_alive|exact Sf].
  - done.
Qed.

Lemma create_label_dspec g id x y s font alignment rgb size d :
  (font <> 0 -> exists o, pinned d font o /\ boxed (font_args size) o d) ->
  dspec (create_label g id x y s font alignment
           (channel rgb 16) (channel rgb 8) (channel rgb 0) (f32_of_Z 1)) d
    (Holds d (labelled id size rgb s x y)).
Proof.
  intros Hfont. unfold create_label. quiet klass.
  destruct (null klass); [apply dspec_ret; by split; [apply keeps_refl|]|].
  eapply dspec_seq2; [apply new_object_dspec|]. intros label d1 H1.
  apply returned_dspec; [by eapply Holds_new|].
  eapply dspec_seq; [apply pinned_ok_dspec|]. intros [|] ? [-> Hok]; cbn [negb].
  2: { apply dspec_ret. split; [apply H1|done]. }
  destruct (Holds_pinned _ _ _ _ H1 (Hok eq_refl)) as (o & Pl & Ha & Hnew & _).
  eapply pinned_dspec; [apply Pl|apply Pl|]. quiet u.
  eapply dspec_mono with (Q := fun ok d' => keeps (fun k => k.1 = o) d1 d' /\
    (ok = true -> labelled id size rgb s x y o d')).
  2: { intros ok d' [K H]. split.
       - eapply keeps_outside; [apply H1| |exact K]. by intros k ->.
       - intros E _. exists o. destruct (pinned_keeps _ _ _ _ _ K Pl) as (? & ? & ?). by auto 10. }
  apply label_body_dspec; [exact Pl|]. intros Hn. destruct (Hfont Hn) as (o_f & P & B).
  exists o_f. pose proof (proj1 H1) as K1. split; [by eapply pinned_keeps|].
  apply (k_box _ _ _ K1); [by eapply pinned_alive|exact B].
Qed.

Lemma append_child_quiet g root child : Quiet (append_child g root child).
Proof.
  intros d. unfold append_child. quiet klass. apply after_quiet; [apply method_quiet|]. intros method.
  destruct (_ || null child); [by apply dspec_ret|]. quiet r. destruct r as [res ex].
  change (checked_property "AppendChild") with false. by apply dspec_ret.
Qed.

Lemma keeps_found o id d d' : found o id d = Lit d' -> keeps none d d' /\ o ∈ d_found d' /\ named d' o id.
Proof.
  unfold found, named. destruct (d_prop d !! (o, "Name"%string)) as [[t| |]|] eqn:Hp; try done.
  - destruct (decide (t = id)) as [->|]; [|done]. intros [= <-]. split; [|by split; [set_solver|]].
    split; try done. cbn. set_solver.
  - intros [= <-]. split; [|split; [cbn; set_solver|apply prop_set]].
    split; try done; [cbn; set_solver|]. intros o' n v _ _ Hv. cbn. rewrite lookup_partial_alter_ne; [done|].
    congruence.
Qed.

Lemma find_widget_dspec g root id d :
  dspec (find_widget g root id) d (fun o d' =>
    keeps none d d' /\ (o <> 0 -> o ∈ d_found d' /\ named d' o id)).
Proof.
  unfold find_widget. quiet klass. apply after_quiet; [apply method_quiet|]. intros method.
  apply after_quiet; [apply compile_quiet|]. intros thunk.
  destruct (null root || null thunk); [apply dspec_ret; by split; [apply keeps_refl|]|].
  eapply dspec_seq2; [apply new_string_dspec|]. intros name d1 H1.
  eapply scoped_dspec; [exact H1|done|].
  eapply dspec_seq; [apply pinned_ok_dspec|]. intros [|] ? [-> Hok]; cbn [negb].
  2: { apply dspec_ret. by split; [apply keeps_refl|]. }
  destruct (Holds_pinned _ _ _ _ H1 (Hok eq_refl)) as (s & P & _ & _ & Hs).
  eapply pinned_dspec; [apply P|apply P|]. apply dspec_last. intros r. cbn [dnext].
  change (bool_decide ("FindWidgetByName"%string = "FindWidgetByName"%string)) with true.
  cbn [eval]. rewrite Hs. cbn. destruct (null r) eqn:Er; nulls.
  - by split; [apply keeps_refl|].
  - destruct (found r id d1) as [|d2] eqn:Hf; [done|]. apply keeps_found in Hf as (K & Hin & Hn). auto.
Qed.

Definition shown_names : list string := ["Font"; "TextColor"; "Text"; "X"; "Y"]%string.
Abbreviation shown_of o := (fun k : Z * string => k.1 = o /\ k.2 ∈ shown_names).

(** The font is there when it is needed. *)
Definition has_font (need : bool) (size font : Z) (d : Disp) : Prop :=
  need = true -> exists o, pinned d font o /\ boxed (font_args size) o d.

Lemma has_font_keeps need size font X d d' :
  keeps X d d' -> has_font need size font d -> has_font need size font d'.
Proof.
  intros K H E. destruct (H E) as (o & P & B). exists o. split; [by eapply pinned_keeps|].
  apply (k_box _ _ _ K); [by eapply pinned_alive|exact B].
Qed.

Lemma set_font_dspec d klass o font size :
  has_font true size font d ->
  dspec (bindp (pinned_value font) (fun f => set_property_object klass o "Font" (Val f))) d
    (Sets o "Font" (LBox (font_args size)) d).
Proof.
  intros H. destruct (H eq_refl) as (o_f & (? & ? & ?) & B). by eapply set_value_dspec.
Qed.

(** What an update finds right. *)
Definition unchanged (fonts colours texts places : bool) (ps : list (string * (look -> Prop))) :
    list (bool * (string * (look -> Prop))) :=
  zip [fonts; colours; texts; places; places] ps.

Definition right (d : Disp) (o : Z) (todo : list (bool * (string * (look -> Prop)))) : Prop :=
  forall p, (false, p) ∈ todo -> exists v, d_prop d !! (o, p.1) = Some v /\ p.2 v.

Lemma updating_start d o names todo : right d o todo -> Updating d o names [] todo true d.
Proof.
  intros H. split; [apply keeps_refl|]. split; [by constructor|]. apply Forall_forall. intros p Hp.
  apply list_elem_of_fmap in Hp as ([b q] & -> & Hq). apply list_elem_of_filter in Hq as [Hb Hq].
  cbn in Hb. subst b. by apply H.
Qed.

Lemma updating_end d0 o names ps qs ok d :
  Updating d0 o names qs [] ok d -> (forall p, p ∈ ps -> p ∈ qs) ->
  keeps (fun k => k.1 = o /\ k.2 ∈ names) d0 d /\ (ok = true -> shows d o ps).
Proof. intros (K & Hs & _) Hi. split; [exact K|]. intros E. by eapply shows_incl, Hs. Qed.

Ltac stepf H := eapply updating_step; [exact H|done|names|names|names|shown|].

Lemma update_label_dspec g ch cfg layout klass o font d :
  alive d o -> has_font (font_changed ch) (l_font_size layout) font d ->
  let ps := looks (l_font_size layout) (label_color cfg) (label_text cfg)
              (vx (l_anchor layout)) (vy (l_anchor layout)) in
  right d o (unchanged (font_changed ch) (label_color_changed ch) (label_text_changed ch)
               (layout_changed ch) ps) ->
  dspec (update_label g ch cfg layout klass o font) d (fun ok d' =>
    keeps (shown_of o) d d' /\ (ok = true -> shows d' o ps)).
Proof.
  intros Ha Hfont ps Hold. unfold update_label.
  assert (Updating d o shown_names [] (unchanged (font_changed ch) (label_color_changed ch)
    (label_text_changed ch) (layout_changed ch) ps) true d) as H.
  { by apply updating_start. }
  unfold ps, unchanged, looks in H. cbn [zip zip_with] in H.
  eapply dspec_seq.
  { stepf H. intros E. apply set_font_dspec. rewrite E in Hfont. eapply has_font_keeps; [apply H|exact Hfont]. }
  clear H. intros ok1 d1 H.
  eapply dspec_seq; [stepf H; intros _; apply apply_rgb_dspec|]. clear H. intros ok2 d2 H.
  eapply dspec_seq; [stepf H; intros _; apply set_label_text_dspec|]. clear H. intros ok3 d3 H.
  destruct (layout_changed ch).
  - eapply dspec_seq; [step H; by apply set_property_direct_dspec|]. clear H. intros ok4 d4 H.
    eapply dspec_mono; [step H; by apply set_property_direct_dspec|]. clear H. intros ok5 d5 H.
    eapply updating_end; [exact H|]. intros p. unfold ps, looks. rewrite !elem_of_cons. tauto.
  - apply dspec_ret. apply updating_skip, updating_skip in H.
    eapply updating_end; [exact H|]. intros p. unfold ps, looks. rewrite !elem_of_cons. tauto.
Qed.

Lemma update_value_dspec g ch frame layout klass o font d :
  alive d o -> has_font (font_changed ch) (l_font_size layout) font d ->
  let ps := looks (l_font_size layout) (value_color (config frame)) (value_text frame)
              (value_x layout) (vy (l_anchor layout)) in
  right d o (unchanged (font_changed ch) (value_color_changed ch) true (layout_changed ch) ps) ->
  dspec (update_value g ch frame layout klass o font) d (fun ok d' =>
    keeps (shown_of o) d d' /\ (ok = true -> shows d' o ps)).
Proof.
  intros Ha Hfont ps Hold. unfold update_value.
  assert (Updating d o shown_names []
    [(font_changed ch, font_look (l_font_size layout));
     (value_color_changed ch, color_look (value_color (config frame)));
     (layout_changed ch, coord "X" (value_x layout)); (layout_changed ch, coord "Y" (vy (l_anchor layout)));
     (true, text_look (value_text frame))] true d) as H.
  { apply updating_start. intros p Hp. apply Hold. unfold unchanged, ps, looks. cbn [zip zip_with].
    rewrite !elem_of_cons in *. tauto. }
  eapply dspec_seq.
  { stepf H. intros E. apply set_font_dspec. rewrite E in Hfont. eapply has_font_keeps; [apply H|exact Hfont]. }
  clear H. intros ok1 d1 H.
  eapply dspec_seq; [stepf H; intros _; apply apply_rgb_dspec|]. clear H. intros ok2 d2 H.
  eapply dspec_seq with (R := Updating d o shown_names
    [coord "Y" (vy (l_anchor layout)); coord "X" (value_x layout); color_look (value_color (config frame));
     font_look (l_font_size layout)] [(true, text_look (value_text frame))]).
  { destruct (layout_changed ch).
    - eapply dspec_seq; [step H; by apply set_property_direct_dspec|]. clear H. intros ok3 d3 H.
      step H. by apply set_property_direct_dspec.
    - apply dspec_ret. by apply updating_skip, updating_skip in H. }
  clear H. intros ok4 d4 H.
  eapply dspec_mono; [step H; apply set_label_text_dspec|]. clear H. intros ok5 d5 H.
  eapply updating_end; [exact H|]. intros p. unfold ps, looks. rewrite !elem_of_cons. tauto.
Qed.

Lemma pins_pinned d h o d' : pins d h o d' -> keeps none d d' /\ pinned d' h o.
Proof.
  intros (Hh & Ho & Hf & ->). split; [by apply keeps_new|]. split; [done|]. split; [done|].
  cbn. by rewrite lookup_insert_eq.
Qed.

(** A widget that was there stays as it is; a new one is created as it should look. *)
Lemma ensure_widget_dspec g root handle widget font id x y s alignment rgb size d :
  (widget = 0 -> handle = 0) -> has_font (null widget) size font d ->
  (widget <> 0 -> named d widget id /\ alive d widget /\ (handle <> 0 -> pinned d handle widget)) ->
  dspec (ensure_widget g root handle widget font id x y s alignment rgb) d (fun '(ok, h, w) d' =>
    keeps none d d' /\ (handle <> 0 -> ok = true /\ h = handle) /\
    (h = handle \/ ok = true /\ d_live d !! h = None) /\
    (ok = true -> pinned d' h w /\ named d' w id /\
       (if null widget then shows d' w (looks size rgb s x y) else w = widget))).
Proof.
  intros H0 Hfont Hw. unfold ensure_widget. destruct (null widget) eqn:Ew; nulls.
  - specialize (H0 Ew). subst widget handle.
    eapply dspec_mono with (Q := fun a d' => keeps none d d' /\
      ((a.1.2 = 0 \/ a.1.1 = true /\ d_live d !! a.1.2 = None) /\
       (a.1.1 = true -> pinned d' a.1.2 a.2 /\ labelled id size rgb s x y a.2 d'))).
    2: { intros [[ok h] w] d' (K & H1 & H2). cbn in H1, H2. split; [done|]. split; [done|]. split; [done|].
         intros E. by destruct (H2 E) as (? & ? & ?). }
    eapply dspec_seq; [apply create_label_dspec; intros _; by apply Hfont|]. intros created d1 H1.
    eapply dspec_mono with (Q := fun a d' => keeps none d d' /\
      ((a.1.2 = 0 \/ a.1.1 = true /\ d_live d !! a.1.2 = None) /\
       (a.1.1 = true -> a.1.2 <> created /\ pinned d' a.1.2 a.2 /\ labelled id size rgb s x y a.2 d'))).
    2: { intros a d' (K & Ha & Hb). split; [done|]. split; [done|]. intros E. by apply Hb. }
    eapply scoped_dspec; [exact H1| |].
    { intros a d' Hc (Ha & Hb). split; [done|]. intros E. destruct (Hb E) as (Hn & (? & ? & Hl) & ?).
      split; [done|]. split; [|done]. split; [done|]. split; [done|]. cbn. by rewrite lookup_delete_ne. }
    eapply dspec_seq; [apply pinned_ok_dspec|]. intros [|] ? [-> Hok]; cbn [negb].
    2: { apply dspec_ret. by split; [apply keeps_refl|split; [left|]]. }
    destruct (Holds_pinned _ _ _ _ H1 (Hok eq_refl)) as (o & P & _ & _ & Hl).
    eapply pinned_dspec; [apply P|apply P|]. apply after_quiet; [apply append_child_quiet|]. intros appended.
    destruct (negb appended); [apply dspec_ret; by split; [apply keeps_refl|split; [left|]]|].
    eapply pinned_dspec; [apply P|apply P|].
    eapply dspec_seq; [apply replace_dspec|]. intros [h [|]] d2 H2; cbn [negb].
    2: { destruct H2 as [-> ->]. apply dspec_ret. by split; [apply keeps_refl|split; [left|]]. }
    specialize (H2 eq_refl). destruct (pins_pinned _ _ _ _ H2) as [K2 P2].
    eapply pinned_dspec; [apply P2|apply P2|]. apply dspec_ret. split; [exact K2|].
    destruct H2 as (_ & _ & Hf & ->). split.
    { right. split; [done|]. cbn. apply eq_None_not_Some. intros [v Hv].
      apply (k_live _ _ _ (proj1 H1)) in Hv. congruence. }
    intros _. cbn. split; [|by split]. intros ->. destruct P as (_ & _ & P). congruence.
  - destruct (Hw Ew) as (Hn & Ha & Hp). destruct (decide (handle = 0)) as [->|Hh].
    + eapply dspec_seq; [apply replace_dspec|]. intros [h [|]] d2 H2; apply dspec_ret.
      * specialize (H2 eq_refl). destruct (pins_pinned _ _ _ _ H2) as [K P]. destruct H2 as (_ & _ & Hf & _).
        split; [done|]. split; [done|]. split; [by right|].
        intros _. split; [done|]. split; [|done]. apply (k_prop _ _ _ K); [done|tauto|exact Hn].
      * destruct H2 as [-> ->]. by split; [apply keeps_refl|split; [|split; [left|]]].
    + specialize (Hp Hh). eapply dspec_seq; [apply replace_same_dspec; apply Hp|]. intros ? ? [-> ->].
      apply dspec_ret. by split; [apply keeps_refl|split; [|split; [left|]]].
Qed.

(** ** What the two widgets show *)

Definition label_looks (cfg : OverlayConfig) (layout : OverlayLayout) : list (string * (look -> Prop)) :=
  looks (l_font_size layout) (label_color cfg) (label_text cfg)
    (vx (l_anchor layout)) (vy (l_anchor layout)).

(** All but the text, which is set with every packet. *)
Definition value_style (cfg : OverlayConfig) (layout : OverlayLayout) : list (string * (look -> Prop)) :=
  [font_look (l_font_size layout); color_look (value_color cfg);
   coord "X" (value_x layout); coord "Y" (vy (l_anchor layout))].

(** A cached handle holds the widget of its name. *)
Definition holds (d : Disp) (h : Z) (id : text) : Prop := h <> 0 -> exists o, pinned d h o /\ named d o id.

(** The widget of a handle is there and looks like this. *)
Definition widget (d : Disp) (h : Z) (id : text) (ps : list (string * (look -> Prop))) : Prop :=
  exists o, pinned d h o /\ named d o id /\ shows d o ps.

(** The renderer's beliefs about its widgets are right. *)
Definition faithful (g : Globals) (d : Disp) : Prop :=
  holds d (g_label_handle g) kLabelId /\ holds d (g_value_handle g) kValueId /\
  (g_style_applied g = true ->
   widget d (g_label_handle g) kLabelId (label_looks (g_applied_config g) (g_applied_layout g)) /\
   widget d (g_value_handle g) kValueId (value_style (g_applied_config g) (g_applied_layout g))).

(** Both widgets show the frame. *)
Definition displayed (d : Disp) (g : Globals) (frame : OverlayFrame) (layout : OverlayLayout) : Prop :=
  widget d (g_label_handle g) kLabelId (label_looks (config frame) layout) /\
  widget d (g_value_handle g) kValueId
    (looks (l_font_size layout) (value_color (config frame)) (value_text frame)
       (value_x layout) (vy (l_anchor layout))).

Lemma named_keeps X d d' o id :
  keeps X d d' -> alive d o -> ~ X (o, "Name"%string) -> named d o id -> named d' o id.
Proof. intros K Ha HX. by apply (k_prop _ _ _ K). Qed.

Lemma holds_keeps X d d' h id :
  keeps X d d' -> (forall o, ~ X (o, "Name"%string)) -> holds d h id -> holds d' h id.
Proof.
  intros K HX H Hh. destruct (H Hh) as (o & P & N). exists o. split; [by eapply pinned_keeps|].
  eapply named_keeps; eauto using pinned_alive.
Qed.

Lemma widget_keeps d d' h id ps : keeps none d d' -> widget d h id ps -> widget d' h id ps.
Proof.
  intros K (o & P & N & S). exists o. pose proof (pinned_alive _ _ _ P) as Ha.
  split; [by eapply pinned_keeps|]. split; [by eapply named_keeps; [exact K|..]; auto|].
  eapply shows_keeps; [exact K|done| |exact S]. auto.
Qed.

Lemma widget_holds d h id ps : widget d h id ps -> holds d h id.
Proof. intros (o & P & N & _) _. by exists o. Qed.

Lemma faithful_keeps g d d' : keeps none d d' -> faithful g d -> faithful g d'.
Proof.
  intros K (Hl & Hv & Hs). split; [by eapply holds_keeps; [exact K|auto|]|].
  split; [by eapply holds_keeps; [exact K|auto|]|]. intros E. destruct (Hs E). eauto using widget_keeps.
Qed.

(** No widgets, nothing believed. *)
Lemma faithful_none g d :
  g_label_handle g = 0 -> g_value_handle g = 0 -> g_style_applied g = false -> faithful g d.
Proof. intros Hl Hv Hs. unfold faithful, holds. rewrite Hl, Hv, Hs. done. Qed.

(** Releasing another handle. *)
Definition released (h : Z) (d : Disp) : Disp := with_live (delete h (d_live d)) d.

Lemma pinned_released d h k o : k <> h -> pinned d k o -> pinned (released h d) k o.
Proof. intros Hk (? & ? & ?). split; [done|]. split; [done|]. cbn. by rewrite lookup_delete_ne. Qed.
Lemma holds_released d h k id : k <> h -> holds d k id -> holds (released h d) k id.
Proof. intros Hk H H0. destruct (H H0) as (o & P & N). exists o. split; [by apply pinned_released|done]. Qed.
Lemma widget_released d h k id ps : k <> h -> widget d k id ps -> widget (released h d) k id ps.
Proof. intros Hk (o & P & N & S). exists o. split; [by apply pinned_released|done]. Qed.

Lemma faithful_released g d h :
  g_label_handle g <> h -> g_value_handle g <> h -> faithful g d -> faithful g (released h d).
Proof.
  intros H1 H2 (Hl & Hv & Hs). split; [by apply holds_released|]. split; [by apply holds_released|].
  intros E. destruct (Hs E). eauto using widget_released.
Qed.
Lemma displayed_released g d h frame layout :
  g_label_handle g <> h -> g_value_handle g <> h -> displayed d g frame layout ->
  displayed (released h d) g frame layout.
Proof. intros H1 H2 [Hl Hv]. split; by apply widget_released. Qed.

(** What an update leaves alone was right already. *)
Definition has (d : Disp) (o : Z) (p : string * (look -> Prop)) : Prop :=
  exists v, d_prop d !! (o, p.1) = Some v /\ p.2 v.

Lemma right_looks d o fonts colours texts places size rgb s x y :
  (fonts = false -> has d o (font_look size)) -> (colours = false -> has d o (color_look rgb)) ->
  (texts = false -> has d o (text_look s)) ->
  (places = false -> has d o (coord "X" x) /\ has d o (coord "Y" y)) ->
  right d o (unchanged fonts colours texts places (looks size rgb s x y)).
Proof.
  intros H1 H2 H3 H4 p Hp. unfold unchanged, looks in Hp. cbn [zip zip_with] in Hp.
  rewrite !elem_of_cons in Hp. destruct Hp as [[= E ->]|[[= E ->]|[[= E ->]|[[= E ->]|[[= E ->]|Hp]]]]].
  - by apply H1.
  - by apply H2.
  - by apply H3.
  - by apply H4.
  - by apply H4.
  - by apply elem_of_nil in Hp.
Qed.

Lemma has_coord d o n x y : has d o (coord n x) -> same x y -> has d o (coord n y).
Proof.
  intros (v & Hv & x' & -> & Hs) E. exists (LArg (AFloat x')). split; [done|]. exists x'.
  split; [done|]. unfold same in *. congruence.
Qed.

Lemma shows_has d o ps p : shows d o ps -> p ∈ ps -> has d o p.
Proof. unfold shows. rewrite Forall_forall. intros H Hp. exact (H p Hp). Qed.

Ltac listed := unfold label_looks, value_style, looks; rewrite !elem_of_cons; tauto.

(** The places of two equal layouts. *)
Lemma layout_same g cfg layout :
  layout_changed (changes g cfg layout) = false ->
  let was := g_applied_layout g in
  g_style_applied g = true /\ same (vx (l_anchor was)) (vx (l_anchor layout)) /\
  same (vy (l_anchor was)) (vy (l_anchor layout)) /\ same (value_x was) (value_x layout).
Proof.
  cbn. rewrite !orb_false_iff, !negb_false_iff. intros (((Hs & Hx) & Hy) & Ha).
  apply f_eq_same in Hx, Hy, Ha. split; [done|]. split; [done|]. split; [done|]. by apply same_add.
Qed.

Lemma right_label g cfg layout d o :
  (g_style_applied g = true -> shows d o (label_looks (g_applied_config g) (g_applied_layout g))) ->
  let ch := changes g cfg layout in
  right d o (unchanged (font_changed ch) (label_color_changed ch) (label_text_changed ch)
    (layout_changed ch) (label_looks cfg layout)).
Proof.
  intros H ch. apply right_looks.
  - cbn. rewrite orb_false_iff, !negb_false_iff, Z.eqb_eq. intros [Hs ->].
    eapply shows_has; [by apply H|listed].
  - cbn. rewrite orb_false_iff, !negb_false_iff, Z.eqb_eq. intros [Hs ->].
    eapply shows_has; [by apply H|listed].
  - cbn. rewrite orb_false_iff, !negb_false_iff, eqb_true_iff. intros [Hs E].
    eapply shows_has; [by apply H|]. unfold label_text. rewrite E. listed.
  - intros E. apply layout_same in E as (Hs & Hx & Hy & _).
    split; (eapply has_coord; [eapply shows_has; [by apply H|listed]|done]).
Qed.

Lemma right_value g frame layout d o :
  (g_style_applied g = true -> shows d o (value_style (g_applied_config g) (g_applied_layout g))) ->
  let ch := changes g (config frame) layout in
  right d o (unchanged (font_changed ch) (value_color_changed ch) true (layout_changed ch)
    (looks (l_font_size layout) (value_color (config frame)) (value_text frame)
       (value_x layout) (vy (l_anchor layout)))).
Proof.
  intros H ch. apply right_looks.
  - cbn. rewrite orb_false_iff, !negb_false_iff, Z.eqb_eq. intros [Hs ->].
    eapply shows_has; [by apply H|listed].
  - cbn. rewrite orb_false_iff, !negb_false_iff, Z.eqb_eq. intros [Hs ->].
    eapply shows_has; [by apply H|listed].
  - done.
  - intros E. apply layout_same in E as (Hs & _ & Hy & Hx).
    split; (eapply has_coord; [eapply shows_has; [by apply H|listed]|done]).
Qed.

(** The widget that was looked up for a handle, 0 when there is none. *)
Definition looked_up (d : Disp) (h w : Z) (id : text) : Prop :=
  (w = 0 -> h = 0) /\ (w <> 0 -> named d w id /\ alive d w /\ (h <> 0 -> pinned d h w)).

Lemma looked_up_keeps d d' h w id : keeps none d d' -> looked_up d h w id -> looked_up d' h w id.
Proof.
  intros K [H0 H]. split; [done|]. intros Hw. destruct (H Hw) as (Hn & Ha & Hp).
  split; [by eapply named_keeps; [exact K|..]; auto|]. split; [by eapply keeps_alive|].
  intros Hh. by eapply pinned_keeps; [|apply Hp].
Qed.

Lemma pinned_same d h o o' : pinned d h o -> pinned d h o' -> o = o'.
Proof. intros (_ & _ & H) (_ & _ & H'). congruence. Qed.

Lemma named_distinct d o o' : named d o kLabelId -> named d o' kValueId -> o <> o'.
Proof. unfold named. intros H H' ->. rewrite H in H'. by injection H'. Qed.

Ltac fields := cbn [with_label with_value with_style with_handles applied g_game_scene_handle g_root_handle
  g_label_handle g_value_handle g_style_applied g_applied_config g_applied_layout].

(** New handles for the same widgets. *)
Lemma faithful_handles g d hl hv :
  faithful g d -> holds d hl kLabelId -> holds d hv kValueId ->
  (g_style_applied g = true -> hl = g_label_handle g /\ hv = g_value_handle g) ->
  faithful (with_value (with_label g hl) hv) d.
Proof.
  intros (_ & _ & Hs) Hl Hv Hst. split; [exact Hl|]. split; [exact Hv|]. fields. intros E.
  destruct (Hst E) as [-> ->]. by apply Hs.
Qed.

Lemma shown_not_name o o' : ~ shown_of o (o', "Name"%string).
Proof. intros [_ H]. revert H. cbn. names. Qed.

(** The updates of both widgets; a new one already looks right. *)
Lemma update_widgets_dspec (g g' : Globals) frame layout klass label value font d (lo vo : Z) :
  let cfg := config frame in
  let ch := changes g cfg layout in
  let lps := label_looks cfg layout in
  let vps := looks (l_font_size layout) (value_color cfg) (value_text frame)
               (value_x layout) (vy (l_anchor layout)) in
  pinned d (g_label_handle g') lo -> named d lo kLabelId ->
  pinned d (g_value_handle g') vo -> named d vo kValueId ->
  has_font (font_changed ch) (l_font_size layout) font d ->
  (if null label then shows d lo lps else
     g_style_applied g = true -> shows d lo (label_looks (g_applied_config g) (g_applied_layout g))) ->
  (if null value then shows d vo vps else
     g_style_applied g = true -> shows d vo (value_style (g_applied_config g) (g_applied_layout g))) ->
  dspec
    (bindp (if null label then Ret true else update_label g' ch cfg layout klass lo font) (fun ok =>
     bindp (if null value then Ret ok
            else and_also ok (update_value g' ch frame layout klass vo font)) (fun ok =>
     if negb ok then Ret (false, with_style g' false) else Ret (true, applied g' cfg layout)))) d
    (fun '(ok, g2) d' => faithful g2 d' /\ (ok = true -> displayed d' g2 frame layout) /\
       g_label_handle g2 = g_label_handle g' /\ g_value_handle g2 = g_value_handle g').
Proof.
  intros cfg ch lps vps Pl Nl Pv Nv Hfont Hl Hv.
  pose proof (pinned_alive _ _ _ Pl) as Al. pose proof (pinned_alive _ _ _ Pv) as Av.
  pose proof (named_distinct _ _ _ Nl Nv) as Hne.
  eapply dspec_seq with (R := fun ok d' => keeps (shown_of lo) d d' /\ (ok = true -> shows d' lo lps)).
  { destruct (null label); [apply dspec_ret; by split; [apply keeps_refl|]|].
    apply update_label_dspec; [done|done|by apply right_label]. }
  intros ok1 d1 [K1 S1].
  eapply dspec_seq with (R := fun ok d' => keeps (shown_of vo) d1 d' /\
    (ok = true -> ok1 = true /\ shows d' vo vps)).
  { destruct (null value) eqn:Ev.
    - apply dspec_ret. split; [apply keeps_refl|]. intros ->. split; [done|].
      eapply shows_keeps; [exact K1|done| |exact Hv]. intros p _ [? _]. by apply Hne.
    - unfold and_also. eapply dspec_seq; [apply update_value_dspec|].
      + by eapply keeps_alive.
      + by eapply has_font_keeps.
      + apply right_value. intros E. eapply shows_keeps; [exact K1|done| |by apply Hv].
        intros p _ [? _]. by apply Hne.
      + intros ok d' [K S]. apply dspec_ret. split; [exact K|]. intros [-> ->]%andb_true_iff. by split; [|apply S]. }
  intros ok2 d2 [K2 S2].
  assert (pinned d2 (g_label_handle g') lo) as Pl2 by (by eapply pinned_keeps, pinned_keeps).
  assert (pinned d2 (g_value_handle g') vo) as Pv2 by (by eapply pinned_keeps, pinned_keeps).
  assert (named d2 lo kLabelId) as Nl2.
  { eapply named_keeps; [exact K2|by eapply keeps_alive|apply shown_not_name|].
    by eapply named_keeps; [exact K1|done|apply shown_not_name|]. }
  assert (named d2 vo kValueId) as Nv2.
  { eapply named_keeps; [exact K2|by eapply keeps_alive|apply shown_not_name|].
    by eapply named_keeps; [exact K1|done|apply shown_not_name|]. }
  destruct ok2; cbn [negb]; apply dspec_ret; fields.
  2: { split; [|done]. split; [|split; [|done]]; fields; intros _; eauto. }
  destruct (S2 eq_refl) as [E1 Sv]. specialize (S1 E1).
  assert (shows d2 lo lps) as Sl.
  { eapply shows_keeps; [exact K2|by eapply keeps_alive| |exact S1]. intros p _ [? _]. by apply Hne. }
  assert (displayed d2 (applied g' cfg layout) frame layout) as Hd.
  { split; [by exists lo|by exists vo]. }
  split; [|done]. destruct Hd as [H1 H2]. split; [by eapply widget_holds|]. split; [by eapply widget_holds|].
  fields. intros _. split; [exact H1|]. exists vo. split; [done|]. split; [done|].
  eapply shows_incl; [|exact Sv]. intros p. unfold vps. listed.
Qed.

(** The handle as before, or a new one. *)
Definition newer (d : Disp) (h h' : Z) : Prop := h' = h \/ d_live d !! h' = None.

Lemma held_dspec (need : bool) font size d :
  (font <> 0 -> exists o, pinned d font o /\ boxed (font_args size) o d) ->
  dspec (if need then pinned_ok font else Ret true) d
    (fun held d' => d' = d /\ (held = true -> has_font need size font d)).
Proof.
  intros H. destruct need; [|by apply dspec_ret].
  eapply dspec_mono; [apply pinned_ok_dspec|]. intros ok ? [-> Hok]. split; [done|]. intros E _. auto.
Qed.

Lemma has_font_less (a b : bool) size font d :
  (b = true -> a = true) -> has_font a size font d -> has_font b size font d.
Proof. unfold has_font. auto. Qed.

(** The beliefs after both widgets were ensured; a style was applied only to widgets that
    are still there. *)
Lemma ensured_faithful g d d' hl hv w ok :
  faithful g d -> keeps none d d' -> pinned d' hl w -> named d' w kLabelId ->
  (g_label_handle g <> 0 -> hl = g_label_handle g) ->
  (g_value_handle g <> 0 -> ok = true /\ hv = g_value_handle g) ->
  (ok = true -> exists o, pinned d' hv o /\ named d' o kValueId) ->
  hv = g_value_handle g \/ ok = true ->
  (g_style_applied g = true -> hl = g_label_handle g /\ ok = true /\ hv = g_value_handle g) /\
  faithful (with_value (with_label g hl) hv) d'.
Proof.
  intros Hg K P M F1 F2 Ho N.
  assert (g_style_applied g = true -> hl = g_label_handle g /\ ok = true /\ hv = g_value_handle g) as Hst.
  { intros E. destruct Hg as (_ & _ & Hs). destruct (Hs E) as [(lo & (Hl & _) & _) (vo & (Hv & _) & _)].
    destruct (F2 Hv) as [-> ->]. rewrite (F1 Hl). done. }
  split; [done|]. apply faithful_handles; [by eapply faithful_keeps| | |].
  - intros _. by exists w.
  - destruct N as [->| ->]; [|intros _; by apply Ho]. apply (faithful_keeps _ _ _ K) in Hg. apply Hg.
  - intros E. by destruct (Hst E) as (? & _ & ?).
Qed.

Lemma apply_widgets_dspec g frame layout root label value font d :
  faithful g d -> looked_up d (g_label_handle g) label kLabelId ->
  looked_up d (g_value_handle g) value kValueId ->
  (font <> 0 -> exists o, pinned d font o /\ boxed (font_args (l_font_size layout)) o d) ->
  dspec (apply_widgets g frame layout root label value font) d (fun '(ok, g') d' =>
    (faithful g' d' /\ (ok = true -> displayed d' g' frame layout)) /\
    newer d (g_label_handle g) (g_label_handle g') /\ newer d (g_value_handle g) (g_value_handle g')).
Proof.
  intros Hg Hll Hlv Hfont. unfold apply_widgets.
  eapply dspec_seq; [apply held_dspec, Hfont|]. intros [|] ? [-> Hneed]; cbn [negb].
  2: { apply dspec_ret. split; [by split|]. split; by left. }
  specialize (Hneed eq_refl).
  eapply dspec_seq.
  { apply ensure_widget_dspec; [apply Hll| |apply Hll]. eapply has_font_less; [|exact Hneed]. by intros ->. }
  intros [[ok1 hl] w1] d1 (K1 & F1 & N1 & H1).
  destruct ok1; cbn [negb].
  2: { apply dspec_ret. destruct N1 as [->|[? _]]; [|done]. split; [split; [|done]|split; by left].
       by eapply faithful_keeps in Hg. }
  eapply dspec_seq.
  { fields. eapply looked_up_keeps in Hlv; [|exact K1].
    apply ensure_widget_dspec; [apply Hlv| |apply Hlv].
    eapply has_font_keeps; [exact K1|]. eapply has_font_less; [|exact Hneed]. intros ->.
    by rewrite orb_true_r. }
  fields. intros [[ok2 hv] w2] d2 (K2 & F2 & N2 & H2).
  assert (keeps none d d2) as K by (by eapply keeps_seq).
  destruct (H1 eq_refl) as (P1 & M1 & L1).
  assert (pinned d2 hl w1) as P1' by exact (pinned_keeps _ _ _ _ _ K2 P1).
  assert (named d2 w1 kLabelId) as M1' by (eapply named_keeps; [exact K2|by eapply pinned_alive|auto|done]).
  assert (newer d (g_label_handle g) hl) as W1 by (destruct N1 as [->|[_ ?]]; [by left|by right]).
  assert (newer d (g_value_handle g) hv) as W2.
  { destruct N2 as [->|[_ E]]; [by left|right]. apply eq_None_not_Some. intros [x Hx].
    apply (k_live _ _ _ K1) in Hx. congruence. }
  destruct (ensured_faithful g d d2 hl hv w1 ok2) as [Hst Hg2]; try done.
  { intros Hn. by apply F1. }
  { intros E. exists w2. by destruct (H2 E) as (? & ? & _). }
  { destruct N2 as [->|[? _]]; [by left|by right]. }
  destruct ok2; cbn [negb]; [|by apply dspec_ret]. destruct (H2 eq_refl) as (P2 & M2 & L2).
  quiet klass. destruct (null klass); [by apply dspec_ret|].
  eapply dspec_mono; [eapply (update_widgets_dspec g (with_value (with_label g hl) hv)); fields|].
  - exact P1'.
  - exact M1'.
  - exact P2.
  - exact M2.
  - eapply has_font_keeps; [exact K|]. eapply has_font_less; [|exact Hneed]. intros ->. by rewrite !orb_true_r.
  - destruct (null label).
    + eapply shows_keeps; [exact K2|by eapply pinned_alive|auto|exact L1].
    + intros E. destruct (Hst E) as (-> & _ & _). destruct Hg2 as (_ & _ & Hs). destruct (Hs E) as [(o & P & _ & S) _].
      by rewrite (pinned_same _ _ _ _ P1' P).
  - destruct (null value); [exact L2|].
    intros E. destruct (Hst E) as (_ & _ & ->). destruct Hg2 as (_ & _ & Hs). destruct (Hs E) as [_ (o & P & _ & S)].
    by rewrite (pinned_same _ _ _ _ P2 P).
  - intros [ok g2] d' (Hf & Hd & -> & ->). by split.
Qed.

(** ** A whole packet *)

Lemma any_dspec {A} (p : rprog A) d : dspec p d (fun _ _ => True).
Proof.
  unfold dspec. generalize (Lit d). induction p as [a|c k IH]; intros m; cbn [wp]; [by destruct m|].
  intros r. destruct m; cbn [display_step]; apply IH.
Qed.

Lemma after_any {A B} (p : rprog A) (f : A -> rprog B) d Q :
  (forall a d', dspec (f a) d' Q) -> dspec (bindp p f) d Q.
Proof. intros H. eapply dspec_seq; [apply any_dspec|]. intros a d' _. apply H. Qed.

Lemma invoke_quiet member method instance args :
  checked_property member = false -> Quiet (invoke member method instance args).
Proof.
  intros Hc d. unfold invoke. destruct (null method); [by apply dspec_ret|]. quiet r. destruct r as [res ex].
  destruct args as [|v [|]]; [by apply dspec_ret| |by apply dspec_ret]. rewrite Hc. by apply dspec_ret.
Qed.

Lemma target_quiet h : Quiet (managed_target h).
Proof. intros d. eapply dspec_mono; [apply target_dspec|]. by intros o d' [-> _]. Qed.

Definition bare (g : Globals) : Prop :=
  g_label_handle g = 0 /\ g_value_handle g = 0 /\ g_style_applied g = false.

Lemma find_game_scene_dspec g path d :
  dspec (find_game_scene g path) d (fun '(_, g') d' => (g' = g /\ d' = d) \/ bare g').
Proof.
  unfold find_game_scene. eapply dspec_seq; [apply pinned_ok_dspec|]. intros ok ? [-> _].
  destruct (negb ok); [apply dspec_ret; by left|]. apply after_quiet; [apply target_quiet|]. intros o.
  apply after_quiet; [by apply invoke_quiet|]. intros scene. destruct (null scene); [apply dspec_ret; by left|].
  apply after_quiet; [apply target_quiet|]. intros current.
  destruct (current =? scene); [apply dspec_ret; by left|].
  do 3 (apply after_any; intros ? ?). apply after_any. intros [h ok'] ?. apply dspec_ret. by right.
Qed.

Lemma refresh_game_scene_dspec g d :
  faithful g d -> dspec (refresh_game_scene g) d (fun '(_, g') d' => faithful g' d').
Proof.
  intros Hg. unfold refresh_game_scene. destruct (_ || _); [by apply dspec_ret|]. quiet active.
  eapply dspec_seq2; [apply new_string_dspec|]. intros path d1 H1. unfold scoped.
  eapply dspec_seq; [apply find_game_scene_dspec|]. intros [ok g'] d2 H2.
  eapply dspec_seq with (R := fun _ d' => faithful g' d').
  2: { intros _ d' H. by apply dspec_ret. }
  destruct H2 as [[-> ->]|(Hl & Hv & Hs)].
  - eapply dspec_mono; [eapply release_new_dspec; [apply H1|by eapply Holds_new]|].
    intros _ d' (K & _). by eapply faithful_keeps.
  - eapply dspec_mono; [apply any_dspec|]. intros _ d' _. by apply faithful_none.
Qed.

Lemma get_root_widget_quiet g : Quiet (get_root_widget g).
Proof.
  intros d. unfold get_root_widget. apply after_quiet; [apply target_quiet|]. intros scene.
  destruct (null scene); [by apply dspec_ret|]. quiet klass. apply after_quiet; [apply getter_quiet|].
  intros getter. destruct (null getter); [by apply dspec_ret|]. by apply invoke_quiet.
Qed.

Lemma adopt_root_dspec g root d :
  faithful g d -> dspec (adopt_root g root) d (fun '(_, g') d' => faithful g' d').
Proof.
  intros Hg. unfold adopt_root. apply after_quiet; [apply target_quiet|]. intros current.
  destruct (current =? root); [by apply dspec_ret|].
  eapply dspec_seq; [apply replace_dspec|]. intros [h [|]] d'; cbn [negb].
  - intros _. do 2 (apply after_any; intros ? ?). apply dspec_ret. by apply faithful_none.
  - intros [-> ->]. by apply dspec_ret.
Qed.

(** The cached widget, or the one in the scene. *)
Lemma look_up_dspec g root h id w d :
  holds d h id -> (h = 0 -> w = 0) -> (forall o, h <> 0 -> d_live d !! h = Some o -> w = o) ->
  dspec (if null w then find_widget g root id else Ret w) d (fun w' d' =>
    keeps none d d' /\ looked_up d' h w' id).
Proof.
  intros Hh H0 Hw. destruct (null w) eqn:Ew; nulls.
  - assert (h = 0) as ->.
    { destruct (decide (h = 0)) as [|Hn]; [done|]. destruct (Hh Hn) as (o & (_ & Ho & Hl) & _).
      rewrite (Hw o Hn Hl) in Ew. done. }
    eapply dspec_mono; [apply find_widget_dspec|]. intros w' d' [K H]. split; [done|]. split; [done|].
    intros Hn. destruct (H Hn) as [? ?]. split; [done|]. split; [by left|done].
  - apply dspec_ret. split; [apply keeps_refl|]. split; [done|]. intros _.
    assert (h <> 0) as Hn by (intros E; by apply H0 in E). destruct (Hh Hn) as (o & P & N).
    assert (w = o) as -> by (apply Hw; [done|apply P]).
    split; [done|]. split; [by eapply pinned_alive|done].
Qed.

Lemma newer_other d d' h h' k :
  keeps none d d' -> k <> 0 -> d_live d !! k = None -> is_Some (d_live d' !! k) ->
  (h <> 0 -> is_Some (d_live d !! h)) -> newer d' h h' -> h' <> k.
Proof.
  intros K Hk Hd [o Ho] Hh [->|E] ->; [|congruence]. destruct (Hh Hk) as [x Hx]. congruence.
Qed.

Lemma holds_live d h id : holds d h id -> h <> 0 -> is_Some (d_live d !! h).
Proof. intros H Hh. destruct (H Hh) as (o & (_ & _ & Hl) & _). by eexists. Qed.

(** [apply_widgets] and the end of the scope of its font, which was created since [d]. *)
Lemma with_font_dspec g frame layout root label value font d d1 :
  faithful g d -> looked_up d (g_label_handle g) label kLabelId ->
  looked_up d (g_value_handle g) value kValueId ->
  Holds d (boxed (font_args (l_font_size layout))) font d1 ->
  dspec (scoped font (apply_widgets g frame layout root label value font)) d1 (fun '(ok, g') d' =>
    faithful g' d' /\ (ok = true -> displayed d' g' frame layout)).
Proof.
  intros Hg Hl Hv H1. pose proof H1 as [K1 _]. unfold scoped.
  eapply dspec_seq; [apply apply_widgets_dspec|].
  - by eapply faithful_keeps.
  - by eapply looked_up_keeps.
  - by eapply looked_up_keeps.
  - intros Hn. destruct (Holds_pinned _ _ _ _ H1 Hn) as (o & ? & _ & _ & ?). by exists o.
  - intros [r g'] d2 ((Hf & Hd) & Nl & Nv).
    eapply dspec_seq; [apply free_dspec|]. intros _ ? [[_ ->]|[Hn ->]]; apply dspec_ret; [done|].
    destruct (Holds_pinned _ _ _ _ H1 Hn) as (o & (_ & _ & Ho) & _ & Hnew & _).
    destruct Hg as (Hl2 & Hv2 & _).
    assert (forall h h' id, holds d h id -> newer d1 h h' -> h' <> font) as Hne.
    { intros h h' id Hh Hw. eapply newer_other; [exact K1|done|done|by eexists| |exact Hw].
      exact (holds_live _ _ _ Hh). }
    split; [apply faithful_released|intros E; apply displayed_released]; eauto.
Qed.

Lemma apply_packet_dspec g packet d :
  faithful g d ->
  dspec (apply_packet_on_render g packet) d (fun '(ok, g') d' =>
    faithful g' d' /\
    (ok = true -> exists frame, decode_wire_packet packet = Some frame /\
       displayed d' g' frame (compute_layout (config frame) kLogicalWidth kLogicalHeight (loading frame)))).
Proof.
  intros Hg. unfold apply_packet_on_render. destruct (decode_wire_packet packet) as [frame|]; [|by apply dspec_ret].
  eapply dspec_seq; [by apply refresh_game_scene_dspec|]. clear g Hg. intros [ok g] d0 Hg.
  destruct (negb ok); [by apply dspec_ret|]. apply after_quiet; [apply get_root_widget_quiet|]. intros root.
  destruct (null root); [by apply dspec_ret|].
  eapply dspec_seq; [by apply adopt_root_dspec|]. clear g Hg d d0 ok. intros [ok g] d Hg.
  destruct (negb ok); [by apply dspec_ret|].
  set (layout := compute_layout _ _ _ _). cbv zeta.
  eapply dspec_seq; [apply target_dspec|]. intros label0 ? (-> & L0 & L1).
  eapply dspec_seq; [apply target_dspec|]. intros value0 ? (-> & V0 & V1).
  eapply dspec_seq; [apply look_up_dspec; [apply Hg|exact L0|intros; by apply L1]|]. intros label d1 [K1 Hl].
  pose proof (faithful_keeps _ _ _ K1 Hg) as Hg1.
  eapply dspec_seq.
  { apply (look_up_dspec g root (g_value_handle g) kValueId value0); [apply Hg1|exact V0|].
    intros o Hh Ho. destruct Hg as (_ & Hv & _). destruct (Hv Hh) as (x & (_ & _ & Hx) & _).
    rewrite (k_live _ _ _ K1 _ _ Hx) in Ho. injection Ho as <-. by apply V1. }
  intros value d2 [K2 Hv]. pose proof (faithful_keeps _ _ _ K2 Hg1) as Hg2.
  eapply (looked_up_keeps _ d2) in Hl; [|exact K2].
  eapply dspec_seq with (R := Holds d2 (boxed (font_args (l_font_size layout)))).
  { destruct (_ || _); [apply create_font_dspec|]. apply dspec_ret. by split; [apply keeps_refl|]. }
  intros font d3 H3. eapply dspec_mono; [by eapply (with_font_dspec g frame layout root label value font d2)|].
  intros [r g'] d' [Hf Hd]. split; [done|]. intros E. exists frame. auto.
Qed.

(** C12: what a rendered packet shows.  Whatever the packet and Mono's answers, if the
    renderer's beliefs about its two widgets were right before, they are right afterwards;
    and when [apply_packet_on_render] reports success the packet was valid and both widgets
    - the cached ones, found or created - have the font, the colours, the texts and the
    places of the decoded frame, although only the properties that changed were set.
    [Dark] is the only way out: an answer Mono's documentation excludes. *)
Theorem packet_displayed g packet d t r g' :
  faithful g d -> exec (apply_packet_on_render g packet) t (r, g') ->
  match monitor display_step (Lit d) t with
  | None => False
  | Some Dark => True
  | Some (Lit d') =>
      faithful g' d' /\
      (r = true -> exists frame, decode_wire_packet packet = Some frame /\
         displayed d' g' frame
           (compute_layout (config frame) kLogicalWidth kLogicalHeight (loading frame)))
  end.
Proof.
  intros Hg He. pose proof (apply_packet_dspec g packet d Hg) as Hw.
  destruct (wp_sound _ _ _ _ Hw t (r, g') He) as (m & -> & Hm). by destruct m.
Qed.

(** Two packets on the console of [PuiSafety]: the second changes only the rate. *)
Definition blank : Disp := {| d_live := ∅; d_found := ∅; d_inner := ∅; d_str := ∅; d_box := ∅; d_prop := ∅ |}.
Definition next_frame : OverlayFrame := {|
  visible := true; loading := false; fps := 59; config := sample_config;
  anchor := {| vx := fzero; vy := fzero |} |}.
Definition second_frame :=
  run console_answer (apply_packet_on_render first_frame.1.1.2 (make_wire_packet next_frame 8))
    first_frame.1.2.

(** The objects after a run that stays in the light. *)
Definition seen (m : option Display) : Disp := match m with Some (Lit d) => d | _ => blank end.
Definition first_seen : Disp := seen (monitor display_step (Lit blank) first_frame.2).
Definition second_seen : Disp := seen (monitor display_step (Lit first_seen) second_frame.2).

Lemma first_lit : monitor display_step (Lit blank) first_frame.2 = Some (Lit first_seen).
Proof. vm_compute. reflexivity. Qed.
Lemma second_lit : monitor display_step (Lit first_seen) second_frame.2 = Some (Lit second_seen).
Proof. vm_compute. reflexivity. Qed.

Lemma packet_displayed_witness :
  first_frame.1.1.1 = true /\ second_frame.1.1.1 = true /\
  (length second_frame.2 < length first_frame.2)%nat /\
  exists frame, decode_wire_packet (make_wire_packet next_frame 8) = Some frame /\
    displayed second_seen second_frame.1.1.2 frame
      (compute_layout (config frame) kLogicalWidth kLogicalHeight (loading frame)).
Proof.
  split; [vm_compute; reflexivity|]. split; [vm_compute; reflexivity|].
  split; [vm_compute; lia|].
  pose proof (packet_displayed console_globals (make_wire_packet sample_frame 7) blank first_frame.2
    first_frame.1.1.1 first_frame.1.1.2) as H1.
  rewrite first_lit in H1. destruct H1 as [F1 _].
  { apply faithful_none; reflexivity. }
  { rewrite <- surjective_pairing. apply run_exec. }
  pose proof (packet_displayed first_frame.1.1.2 (make_wire_packet next_frame 8) first_seen second_frame.2
    second_frame.1.1.1 second_frame.1.1.2 F1) as H2.
  rewrite second_lit in H2. apply H2.
  - rewrite <- surjective_pairing. apply run_exec.
  - vm_compute; reflexivity.
Defined.
