(* ===== verification/RendererHook.v ===== *)
(** How the renderer obtains its place in ShellUI: the requests it publishes to the
    controller, the acknowledgements it waits for, the guard and hook installations and
    [initialize_runtime] of [src/ps5/shellui_payload/commonfps_shellui.cpp]. *)
From S2P Require Import Prelude Effects Types Layout HookProtocol Debugger Trampoline Mono.

Definition kCoreDll : string := "/system_ex/common_ex/lib/Sce.PlayStation.Core.dll".
Definition kPuiDll : string := "/system_ex/common_ex/lib/Sce.PlayStation.PUI.dll".
Definition kAppSystemDll : string := "/system_ex/common_ex/lib/Sce.Vsh.ShellUI.AppSystem.dll".

Definition zero_block : list Z := repeat 0 kAtomicPatchSize.

(** [desired[i] = 0x90] for [i] from the end of the jump to [displaced_size]. *)
Definition fill_nops (displaced_size : nat) (desired : list Z) : list Z :=
  take kAbsoluteJumpSize desired ++ repeat 0x90 (displaced_size - kAbsoluteJumpSize) ++
  drop (Nat.max kAbsoluteJumpSize displaced_size) desired.

Definition nonzero_nonce (nonce : Z) : Z := if nonce =? 0 then 1 else nonce.

Definition request (pid nonce method hook original displaced_size : Z) (expected desired : list Z)
    : ShellUiHookRequest :=
  let q checksum := {|
    q_magic := kShellUiHookRequestMagic; q_version := kShellUiHookProtocolVersion; q_pid := pid;
    q_nonce := nonce; q_method_address := method; q_hook_address := hook;
    q_original_call_address := original; q_patch_size := Z.of_nat kShellUiHookPatchSize;
    q_displaced_size := displaced_size; q_expected := expected; q_desired := desired;
    q_checksum := checksum |} in
  q (shellui_hook_request_checksum (q 0)).

(** The globals of the installation. *)
Record Runtime := {
  r_globals : Globals; r_original : Z; r_confirmed : bool; r_attempted : bool; r_ready : bool;
  r_trampoline : list Z
}.

Definition Runtime_init : Runtime := {|
  r_globals := Globals_init; r_original := 0; r_confirmed := false; r_attempted := false;
  r_ready := false; r_trampoline := repeat 0x90 kTrampolineCapacity |}.

Definition with_globals (r : Runtime) (g : Globals) : Runtime := {|
  r_globals := g; r_original := r_original r; r_confirmed := r_confirmed r;
  r_attempted := r_attempted r; r_ready := r_ready r; r_trampoline := r_trampoline r |}.
Definition with_original (r : Runtime) (o : Z) (tramp : list Z) : Runtime := {|
  r_globals := r_globals r; r_original := o; r_confirmed := r_confirmed r;
  r_attempted := r_attempted r; r_ready := r_ready r; r_trampoline := tramp |}.
Definition with_confirmed (r : Runtime) : Runtime := {|
  r_globals := r_globals r; r_original := r_original r; r_confirmed := true;
  r_attempted := r_attempted r; r_ready := r_ready r; r_trampoline := r_trampoline r |}.
Definition with_attempted (r : Runtime) : Runtime := {|
  r_globals := r_globals r; r_original := r_original r; r_confirmed := r_confirmed r;
  r_attempted := true; r_ready := r_ready r; r_trampoline := r_trampoline r |}.
Definition with_ready (r : Runtime) (background : bool) : Runtime :=
  let g := r_globals r in {|
  r_globals := {|
    g_domain := g_domain g; g_pui_image := g_pui_image g;
    g_find_scene_method := g_find_scene_method g; g_background_render_mode := background;
    g_game_scene_handle := g_game_scene_handle g; g_root_handle := g_root_handle g;
    g_label_handle := g_label_handle g; g_value_handle := g_value_handle g;
    g_style_applied := g_style_applied g; g_applied_config := g_applied_config g;
    g_applied_layout := g_applied_layout g |};
  r_original := r_original r; r_confirmed := r_confirmed r; r_attempted := r_attempted r;
  r_ready := true; r_trampoline := r_trampoline r |}.
Definition with_mono (g : Globals) (domain image find : Z) : Globals := {|
  g_domain := domain; g_pui_image := image; g_find_scene_method := find;
  g_background_render_mode := g_background_render_mode g;
  g_game_scene_handle := g_game_scene_handle g; g_root_handle := g_root_handle g;
  g_label_handle := g_label_handle g; g_value_handle := g_value_handle g;
  g_style_applied := g_style_applied g; g_applied_config := g_applied_config g;
  g_applied_layout := g_applied_layout g |}.

Inductive MainThreadGuardResult := Installed | GuardUnsupported | GuardFailed.

(** [candidate] is the acknowledgement of this transaction. *)
Definition ack_matches (pid nonce : Z) (candidate : ShellUiHookAck) : bool :=
  (a_magic candidate =? kShellUiHookAckMagic) &&
  (a_version candidate =? kShellUiHookProtocolVersion) &&
  (a_pid candidate =? pid) && (a_nonce candidate =? nonce) &&
  (a_checksum candidate =? shellui_hook_ack_checksum candidate).

(** A successful transaction of the given phase. *)
Definition ack_success (phase : ShellUiHookAckPhase) (ack : ShellUiHookAck) : bool :=
  (a_phase ack =? phase_code phase) && (a_status ack =? status_code Success) &&
  negb (a_verified ack =? 0) && negb (a_detached ack =? 0) && negb (a_auth_restored ack =? 0).

Section Hook.
(** The addresses of [application_update_hook] and [commonfps_update_trampoline]. *)
Variables hook_fn trampoline_fn : Z.
Local Open Scope prog_scope.

Definition write_exact_file (path : Path) (value : list Z) : rprog bool :=
  let* opened := rc (File (FOpen path true)) in
  if negb opened then Ret false
  else
    let* count := rc (File (FWrite value)) in
    let* complete := (if count =? Z.of_nat (length value)
                      then let* flushed := rc (File FFlush) in Ret (flushed =? 0)
                      else Ret false) in
    let* closed := rc (File FClose) in
    Ret (complete && (closed =? 0)).

Definition read_exact_file (path : Path) (size : nat) : rprog (option (list Z)) :=
  let* opened := rc (File (FOpen path false)) in
  if negb opened then Ret None
  else
    let* raw := rc (File (FRead size)) in
    let bytes := take size (map u8 raw) in
    rc (File FClose) ;;;
    Ret (if (length bytes =? size)%nat then Some bytes else None).

(** [getpid()] shifted into the nonce. *)
Definition pid_bits (pid : Z) : Z := u64 (Z.shiftl (u64 pid) 32).

Definition hook_nonce (pid method original : Z) : Z :=
  nonzero_nonce (Z.lxor (Z.lxor (Z.lxor (Z.lxor method hook_fn) original) (pid_bits pid))
                   0x8d4f23a76c19e502).
Definition guard_nonce (pid method : Z) : Z :=
  nonzero_nonce (Z.lxor (Z.lxor method (pid_bits pid)) 0x6d9bc2f1a54837e0).

(** The result and the nonce. *)
Definition publish_hook_request (method : Z) (expected desired : list Z) (displaced_size : nat)
    (original_call : Z) : rprog (bool * Z) :=
  let* pid := rc GetPid in
  let nonce := hook_nonce pid method original_call in
  let q := request pid nonce method hook_fn original_call (u32 (Z.of_nat displaced_size))
             expected desired in
  let* ok := write_exact_file RequestPath (request_bytes q) in
  Ret (ok, nonce).

Definition publish_main_thread_guard_request (method : Z) (expected : list Z) : rprog (bool * Z) :=
  let* pid := rc GetPid in
  let nonce := guard_nonce pid method in
  let q := request pid nonce method method 0 1 expected (0xc3 :: tail expected) in
  let* ok := write_exact_file RequestPath (request_bytes q) in
  Ret (ok, nonce).

Fixpoint wait_loop (attempts : nat) (pid nonce : Z) : rprog (option ShellUiHookAck) :=
  match attempts with
  | O => Ret None
  | S n =>
      let* file := read_exact_file AckPath sizeof_ack in
      let found := match file with
                   | Some bytes => let candidate := ack_of_bytes bytes in
                                   if ack_matches pid nonce candidate then Some candidate else None
                   | None => None
                   end in
      match found with
      | Some ack => Ret (Some ack)
      | None => rc (Usleep 20000) ;;; wait_loop n pid nonce
      end
  end.

Definition kAckAttempts : nat := 1000.
Definition wait_for_native_hook_ack (pid nonce : Z) : rprog (option ShellUiHookAck) :=
  wait_loop kAckAttempts pid nonce.

(** The 16 bytes the controller observed at [method]. *)
Definition probe_hook_bytes (method : Z) : rprog (option (list Z)) :=
  let* (published, nonce) := publish_hook_request method zero_block zero_block 0 0 in
  if negb published then Ret None
  else
    let* pid := rc GetPid in
    let* ack := wait_for_native_hook_ack pid nonce in
    match ack with
    | None => Ret None
    | Some ack => Ret (if ack_success PhaseProbe ack then Some (a_observed ack) else None)
    end.

Definition install_main_thread_guard (domain : Z) : rprog MainThreadGuardResult :=
  let* core := open_image domain kCoreDll in
  if null core then Ret GuardFailed
  else
    let* diagnostics := rc (ClassFromName core "Sce.PlayStation.Core.Runtime" "Diagnostics") in
    let* check := (if null diagnostics then Ret 0
                   else rc (MethodFromName diagnostics "CheckRunningOnMainThread" 0)) in
    if null check then Ret GuardFailed
    else
      let* address := rc (CompileMethod check) in
      if null address then Ret GuardFailed
      else
        let* probed := probe_hook_bytes address in
        match probed with
        | None => Ret GuardFailed
        | Some expected =>
            if byte_at expected 0 =? 0xc3 then Ret Installed
            else
              let* (published, nonce) := publish_main_thread_guard_request address expected in
              if negb published then Ret GuardFailed
              else
                let* pid := rc GetPid in
                let* ack := wait_for_native_hook_ack pid nonce in
                match ack with
                | None => Ret GuardFailed
                | Some ack =>
                    if a_status ack =? status_code UnsupportedFirmware then Ret GuardUnsupported
                    else if ack_success PhaseMainThreadGuard ack then Ret Installed
                    else Ret GuardFailed
                end
        end.

(** From the bytes on: what the hook will call instead of the displaced code, the size of
    the displaced part, and the trampoline. *)
Inductive HookPlan :=
| AlreadyOnline | Refused
| Chain (original : Z)
| Native (displaced_size : nat) (trampoline : list Z).

Definition plan_hook (r : Runtime) (address : Z) (expected : list Z) : HookPlan :=
  if bytes_eqb (take 6 expected) kShellUiAbsoluteJumpPrefix then
    let previous_destination := field 6 8 expected in
    if previous_destination =? hook_fn then
      if negb (null (r_original r)) && r_confirmed r then AlreadyOnline else Refused
    else if (previous_destination <? 0x10000) || (0x0000800000000000 <=? previous_destination) ||
            (previous_destination =? address) then Refused
    else Chain previous_destination
  else
    let displaced_size := native_patch_length expected in
    if (displaced_size =? 0)%nat then Refused
    else match prepare_trampoline (r_trampoline r) expected displaced_size
                 (u64 (address + Z.of_nat displaced_size)) with
         | None => Refused
         | Some t => Native displaced_size t
         end.

(** Publish the patch and wait for the controller. *)
Definition request_hook (r : Runtime) (address : Z) (expected : list Z) (displaced_size : nat)
    (original_call : Z) (trampoline : list Z) : rprog (bool * Runtime) :=
  let desired := fill_nops displaced_size (encode_absolute_jump expected hook_fn) in
  rc (StoreOriginal original_call) ;;;
  let r := with_original r original_call trampoline in
  let* (published, nonce) := publish_hook_request address expected desired displaced_size original_call in
  if negb published then Ret (false, r)
  else
    let* pid := rc GetPid in
    let* ack := wait_for_native_hook_ack pid nonce in
    match ack with
    | None => Ret (false, r)
    | Some ack => if ack_success PhasePatch ack then Ret (true, with_confirmed r) else Ret (false, r)
    end.

Definition install_update_hook (r : Runtime) (application_class : Z) : rprog (bool * Runtime) :=
  let* update := (if null application_class then Ret 0
                  else rc (MethodFromName application_class "Update" 0)) in
  let* address := (if null update then Ret 0 else rc (CompileMethod update)) in
  if null address then Ret (false, r)
  else
    let* probed := probe_hook_bytes address in
    match probed with
    | None => Ret (false, r)
    | Some expected =>
        match plan_hook r address expected with
        | AlreadyOnline => Ret (true, r)
        | Refused => Ret (false, r)
        | Chain original => request_hook r address expected kAbsoluteJumpSize original (r_trampoline r)
        | Native displaced_size t =>
            rc (StoreTrampoline t) ;;;
            request_hook r address expected displaced_size trampoline_fn t
        end
    end.

Definition select_backend (r : Runtime) : rprog (bool * Runtime) :=
  let g := r_globals r in
  let r := with_attempted r in
  let* result := install_main_thread_guard (g_domain g) in
  match result with
  | Installed => Ret (true, with_ready r true)
  | GuardUnsupported =>
      let* application_class := rc (ClassFromName (g_pui_image g) "Sce.PlayStation.PUI" "Application") in
      if null application_class then Ret (false, r)
      else
        let* (ok, r) := install_update_hook r application_class in
        Ret (if ok : bool then (true, with_ready r false) else (false, r))
  | GuardFailed => Ret (false, r)
  end.

Definition initialize_runtime (r : Runtime) : rprog (bool * Runtime) :=
  if r_ready r then Ret (true, r)
  else if r_attempted r then Ret (false, r)
  else
    let g := r_globals r in
    let* domain := rc GetRootDomain in
    let g := with_mono g domain (g_pui_image g) (g_find_scene_method g) in
    if null domain then Ret (false, with_globals r g)
    else
      let* _ := rc (ThreadAttach domain) in
      let* pui := open_image domain kPuiDll in
      let g := with_mono g domain pui (g_find_scene_method g) in
      let* app_system := open_image domain kAppSystemDll in
      if null pui || null app_system then Ret (false, with_globals r g)
      else
        let* layer_manager := rc (ClassFromName app_system "Sce.Vsh.ShellUI.AppSystem" "LayerManager") in
        let* find := (if null layer_manager then Ret 0
                      else rc (MethodFromName layer_manager "FindContainerSceneByPath" 1)) in
        let g := with_mono g domain pui find in
        if null find then Ret (false, with_globals r g)
        else
          let* (ok, g) := refresh_game_scene g in
          if negb ok then Ret (false, with_globals r g)
          else select_backend (with_globals r g).
End Hook.
