(* ===== verification/HookRequests.v ===== *)
(** What the renderer may publish: every request file it writes is one the controller
    accepts, at a moment when the hook can already call the displaced code, and a failed
    transaction is never repeated ([RendererHook]). *)
From S2P Require Import Prelude Effects HookProtocol Debugger Trampoline Mono RendererHook.

(** ** Requests that pass the controller's checks *)

(** A method of 16 bytes in user space. *)
Definition method_ok (address : Z) : bool :=
  (0x10000 <=? address) && (address + 15 <? 0x0000800000000000).

Definition block (l : list Z) : Prop := length l = kShellUiHookPatchSize /\ bytes_ok l.

Lemma request_wf pid nonce method hook original displaced expected desired :
  in_i 32 pid -> in_u 64 nonce -> in_u 64 method -> in_u 64 hook -> in_u 64 original ->
  in_u 32 displaced -> block expected -> block desired ->
  wf_request (request pid nonce method hook original displaced expected desired).
Proof.
  intros. split; try done. apply checksum_fold_range. done.
Qed.

Lemma request_checksum_ok pid nonce method hook original displaced expected desired :
  block expected -> block desired ->
  q_checksum (request pid nonce method hook original displaced expected desired) =
  shellui_hook_request_checksum (request pid nonce method hook original displaced expected desired).
Proof.
  intros [He _] [Hd _]. cbn [q_checksum request]. unfold shellui_hook_request_checksum. f_equal.
  unfold request_bytes.
  assert (forall q, length (q_expected q) = kShellUiHookPatchSize -> length (q_desired q) = kShellUiHookPatchSize ->
    take offsetof_request_checksum (request_head q ++ le_encode 4 (q_checksum q)) = request_head q) as Ht.
  { intros q H1 H2. assert (length (request_head q) = offsetof_request_checksum) as Hl.
    { unfold request_head. by rewrite !length_app, !length_le_encode, H1, H2. }
    rewrite take_app_le by lia. apply take_ge. lia. }
  by rewrite !Ht.
Qed.

Lemma method_user address :
  method_ok address = true ->
  in_u 64 address /\ shellui_user_address address = true /\
  shellui_user_address (u64 (u64 (address + Z.of_nat kShellUiHookPatchSize) - 1)) = true.
Proof.
  unfold method_ok, shellui_user_address. intros H. breflect.
  change (Z.of_nat kShellUiHookPatchSize) with 16.
  assert (in_u 64 address) by (unfold in_u; lia). split; [done|].
  rewrite (wrap_small 64 (address + 16)) by (unfold in_u; lia).
  rewrite wrap_small by (unfold in_u; lia). lia.
Qed.

Lemma user_in_u address : shellui_user_address address = true -> in_u 64 address.
Proof. unfold shellui_user_address, in_u. breflect. lia. Qed.

Lemma request_common pid nonce method hook original displaced expected desired :
  0 < pid -> nonce <> 0 -> method_ok method = true -> shellui_user_address hook = true ->
  block expected -> block desired ->
  shellui_hook_request_common_is_valid (request pid nonce method hook original displaced expected desired) pid = true.
Proof.
  intros Hp Hn Hm Hh He Hd. unfold shellui_hook_request_common_is_valid.
  rewrite request_checksum_ok by done. destruct (method_user method Hm) as (_ & H1 & H2).
  set (q := request _ _ _ _ _ _ _ _).
  assert (q_method_address q = method) as -> by done. assert (q_hook_address q = hook) as -> by done.
  rewrite H1, H2, Hh, !Z.eqb_refl. apply Z.leb_gt in Hp. apply Z.eqb_neq in Hn.
  change (q_nonce q) with nonce. by rewrite Hp, Hn.
Qed.

Lemma all_from_intro a b f : (forall i, (a <= i < b)%nat -> f i = true) -> all_from a b f = true.
Proof. intros H. unfold all_from. rewrite forallb_forall. intros i Hi. apply H. apply in_seq in Hi. lia. Qed.

Lemma zero_block_ok : block zero_block.
Proof. split; [done|]. apply Forall_forall. intros x Hx. by apply list_elem_of_In, repeat_spec in Hx as ->. Qed.

(** A probe for any method is accepted. *)
Lemma probe_accepted pid nonce method hook :
  0 < pid -> nonce <> 0 -> method_ok method = true -> shellui_user_address hook = true ->
  kind_valid KProbe (request pid nonce method hook 0 0 zero_block zero_block) pid = true.
Proof.
  intros. cbn [kind_valid]. unfold shellui_hook_probe_request_is_valid.
  by rewrite request_common by (done || apply zero_block_ok).
Qed.

(** A guard for a method that does not return at once is accepted. *)
Lemma guard_accepted pid nonce method expected :
  0 < pid -> nonce <> 0 -> method_ok method = true -> block expected -> byte_at expected 0 <> 0xc3 ->
  kind_valid KGuard (request pid nonce method method 0 1 expected (0xc3 :: tail expected)) pid = true.
Proof.
  intros Hp Hn Hm He H0. destruct expected as [|b e]; [by destruct He|].
  assert (block (0xc3 :: e)) as Hd.
  { destruct He as [Hl Hb]. split; [done|]. inversion Hb; subst. by constructor. }
  cbn [kind_valid tail]. unfold shellui_main_thread_guard_request_is_valid.
  rewrite request_common; try done; [|by apply method_user].
  assert (shellui_hook_request_is_main_thread_guard
    (request pid nonce method method 0 1 (b :: e) (0xc3 :: e)) = true) as ->.
  { unfold shellui_hook_request_is_main_thread_guard. cbn [request q_displaced_size q_original_call_address
      q_hook_address q_method_address]. by rewrite !Z.eqb_refl. }
  cbn [request q_expected q_desired]. apply Z.eqb_neq in H0. rewrite H0. cbn [negb orb].
  apply all_from_intro. intros [|i] Hi; [lia|]. cbn. apply Z.eqb_refl.
Qed.

(** The 16 bytes the hook is patched to. *)
Definition patched (hook : Z) (displaced : nat) (expected : list Z) : list Z :=
  fill_nops displaced (encode_absolute_jump expected hook).

Lemma patched_eq hook displaced expected :
  length expected = kShellUiHookPatchSize -> (kAbsoluteJumpSize <= displaced <= kAtomicPatchSize)%nat ->
  patched hook displaced expected =
    absolute_jump hook ++ repeat 0x90 (displaced - kAbsoluteJumpSize) ++ drop displaced expected.
Proof.
  intros Hl Hd. unfold patched, fill_nops.
  unfold kAbsoluteJumpSize, kAtomicPatchSize, kShellUiHookPatchSize in *.
  rewrite encode_absolute_jump_spec by (unfold kAbsoluteJumpSize; lia). unfold kAbsoluteJumpSize.
  assert (length (absolute_jump hook) = 14%nat) as Hj by done.
  rewrite take_app_le, take_ge by lia. do 2 f_equal. rewrite drop_app_ge by lia.
  rewrite Hj, drop_drop. f_equal. lia.
Qed.

Lemma patched_facts hook displaced expected :
  block expected -> (kAbsoluteJumpSize <= displaced <= kAtomicPatchSize)%nat -> in_u 64 hook ->
  let d := patched hook displaced expected in
  block d /\ take 6 d = kShellUiAbsoluteJumpPrefix /\ field 6 8 d = hook /\
  (forall i, (14 <= i < displaced)%nat -> byte_at d i = 0x90) /\
  (forall i, (displaced <= i)%nat -> byte_at d i = byte_at expected i).
Proof.
  intros [Hl Hb] Hd Hh d. subst d. rewrite patched_eq by done.
  unfold kAbsoluteJumpSize, kAtomicPatchSize, kShellUiHookPatchSize in *.
  assert (length (absolute_jump hook) = 14%nat) as Hj by done.
  split; [split|split; [|split; [|split]]].
  - rewrite !length_app, Hj, repeat_length, length_drop. unfold kShellUiHookPatchSize. lia.
  - apply Forall_app. split; [|apply Forall_app; split; [|by apply Forall_drop]].
    + apply Forall_app. split; [repeat constructor; done|apply le_encode_bytes].
    + apply Forall_forall. intros x Hx. apply list_elem_of_In, repeat_spec in Hx as ->. done.
  - done.
  - unfold absolute_jump. rewrite <- app_assoc. rewrite field_skip by (cbn; lia). apply field_head_enc. exact Hh.
  - intros i Hi. unfold byte_at. rewrite app_nth2, Hj by lia.
    rewrite app_nth1 by (rewrite repeat_length; lia). apply nth_repeat_lt. lia.
  - intros i Hi. unfold byte_at. rewrite !nth_lookup, lookup_app_r, Hj by lia.
    rewrite lookup_app_r by (rewrite repeat_length; lia). rewrite repeat_length, lookup_drop.
    do 2 f_equal. lia.
Qed.

(** A hook over an absolute jump, with its destination as the original call, is accepted. *)
Lemma chain_accepted pid nonce method hook expected :
  0 < pid -> nonce <> 0 -> method_ok method = true -> shellui_user_address hook = true ->
  block expected -> take 6 expected = kShellUiAbsoluteJumpPrefix ->
  shellui_user_address (field 6 8 expected) = true ->
  field 6 8 expected <> hook -> field 6 8 expected <> method ->
  kind_valid KPatch (request pid nonce method hook (field 6 8 expected)
    (Z.of_nat kAbsoluteJumpSize) expected (patched hook kAbsoluteJumpSize expected)) pid = true.
Proof.
  intros Hp Hn Hm Hh He Hpre Hu Hn1 Hn2.
  destruct (patched_facts hook kAbsoluteJumpSize expected He ltac:(unfold kAbsoluteJumpSize, kAtomicPatchSize; lia)
    (user_in_u _ Hh)) as (Hd & Hd6 & Hdt & _ & Hrest).
  cbn [kind_valid]. unfold shellui_hook_request_is_valid. rewrite request_common by done.
  set (q := request _ _ _ _ _ _ _ _).
  change (q_original_call_address q) with (field 6 8 expected).
  change (q_hook_address q) with hook. change (q_method_address q) with method.
  assert (shellui_hook_request_is_main_thread_guard q = false) as -> by done.
  assert (shellui_hook_is_eta_chain q = true) as -> by (by apply bool_decide_eq_true).
  change (q_displaced_size q) with 14. change (q_expected q) with expected.
  change (q_desired q) with (patched hook kAbsoluteJumpSize expected).
  unfold bytes_eqb. rewrite (bool_decide_eq_true_2 _ Hd6), Hdt, Hu, !Z.eqb_refl.
  apply Z.eqb_neq in Hn1, Hn2. rewrite Hn1, Hn2.
  change (shellui_hook_request_is_probe q) with false. cbn [negb orb Z.ltb Z.compare Z.eqb].
  apply all_from_intro. intros i Hi. apply Z.eqb_eq, Hrest. unfold kAbsoluteJumpSize. lia.
Qed.

(** A hook over a native prologue is accepted. *)
Lemma native_accepted pid nonce method hook trampoline displaced expected :
  0 < pid -> nonce <> 0 -> method_ok method = true -> shellui_user_address hook = true ->
  block expected -> take 6 expected <> kShellUiAbsoluteJumpPrefix ->
  shellui_user_address trampoline = true -> trampoline <> hook -> trampoline <> method ->
  (kAbsoluteJumpSize <= displaced <= kAtomicPatchSize)%nat ->
  kind_valid KPatch (request pid nonce method hook trampoline (Z.of_nat displaced) expected
    (patched hook displaced expected)) pid = true.
Proof.
  intros Hp Hn Hm Hh He Hpre Hu Hn1 Hn2 Hdis.
  destruct (patched_facts hook displaced expected He Hdis (user_in_u _ Hh)) as (Hd & Hd6 & Hdt & Hnop & Hrest).
  unfold kAbsoluteJumpSize, kAtomicPatchSize in Hdis.
  cbn [kind_valid]. unfold shellui_hook_request_is_valid. rewrite request_common by done.
  set (q := request _ _ _ _ _ _ _ _).
  change (q_original_call_address q) with trampoline.
  change (q_hook_address q) with hook. change (q_method_address q) with method.
  unfold shellui_hook_request_is_probe, shellui_hook_request_is_main_thread_guard.
  assert (shellui_hook_is_eta_chain q = false) as -> by (by apply bool_decide_eq_false).
  change (q_displaced_size q) with (Z.of_nat displaced). change (q_expected q) with expected.
  change (q_desired q) with (patched hook displaced expected).
  unfold bytes_eqb. rewrite (bool_decide_eq_true_2 _ Hd6), Hdt, Hu, Z.eqb_refl.
  apply Z.eqb_neq in Hn1, Hn2. rewrite Hn1, Hn2.
  rewrite (proj2 (Z.ltb_ge _ 14)), (proj2 (Z.ltb_ge 16 _)), (proj2 (Z.eqb_neq _ 0)), (proj2 (Z.eqb_neq _ 1)) by lia.
  cbn [negb orb andb]. rewrite Nat2Z.id.
  rewrite (all_from_intro 14 displaced); [|intros i Hi; by apply Z.eqb_eq, Hnop]. cbn [negb].
  apply all_from_intro. intros i Hi. apply Z.eqb_eq, Hrest. lia.
Qed.
