(* ===== verification/HookInstall.v ===== *)
(** The installation of the renderer's hook ([RendererHook]) against a monitor: over any
    number of initialisation attempts, any answers of Mono and of the file system and any
    acknowledgements. *)
From S2P Require Import Prelude Effects HookProtocol Debugger Trampoline Mono RendererHook HookRequests.

Section Install.
(** The renderer's process and the addresses of its two functions. *)
Context (pid hook_fn trampoline_fn : Z).

Record Publisher := {
  p_open : option bool;          (** a file is open: [true] the request, [false] the acknowledgement *)
  p_original : Z;                (** [g_application_update_original] *)
  p_trampoline : list Z;         (** what the trampoline area holds *)
  p_guards : nat; p_patches : nat  (** requests published so far *)
}.

(** [Off]: an answer outside the documented behaviour of [getpid] or [mono_compile_method];
    nothing is claimed from then on. *)
Inductive publisher := Off | On (p : Publisher).

Definition with_open (p : Publisher) (o : option bool) : Publisher := {|
  p_open := o; p_original := p_original p; p_trampoline := p_trampoline p;
  p_guards := p_guards p; p_patches := p_patches p |}.
Definition with_counts (p : Publisher) (guards patches : nat) : Publisher := {|
  p_open := p_open p; p_original := p_original p; p_trampoline := p_trampoline p;
  p_guards := guards; p_patches := patches |}.

(** Compiled methods lie in user space and are not the renderer's own functions. *)
Definition compiled_ok (address : Z) : bool :=
  method_ok address && negb (address =? hook_fn) && negb (address =? trampoline_fn).

(** The hook can stand in for the displaced code: its original call is the destination of
    the jump that is replaced, or the trampoline, which holds the displaced instructions
    and a jump behind them. *)
Definition patch_ready (p : Publisher) (q : ShellUiHookRequest) : bool :=
  let n := Z.to_nat (q_displaced_size q) in
  (q_hook_address q =? hook_fn) && (q_original_call_address q =? p_original p) &&
  if shellui_hook_is_eta_chain q
  then bytes_eqb (take 14 (q_expected q)) (absolute_jump (p_original p))
  else (p_original p =? trampoline_fn) && (native_patch_length (q_expected q) =? n)%nat &&
       bytes_eqb (take (n + 14) (p_trampoline p))
         (take n (q_expected q) ++ absolute_jump (u64 (q_method_address q + Z.of_nat n))).

(** A request file: one guard and one patch at most, each of them only once. *)
Definition publish (p : Publisher) (bytes : list Z) : option Publisher :=
  let q := request_of_bytes bytes in
  if negb (length bytes =? sizeof_request)%nat then None
  else if kind_valid KProbe q pid then Some p
  else if kind_valid KGuard q pid then
    if (p_guards p =? 0)%nat then Some (with_counts p 1 (p_patches p)) else None
  else if kind_valid KPatch q pid then
    if (p_patches p =? 0)%nat && patch_ready p q then Some (with_counts p (p_guards p) 1) else None
  else None.

Definition file_step (p : Publisher) (c : sys) (r : sys_ret c) : option Publisher :=
  match c as c0 return sys_ret c0 -> option Publisher with
  | FOpen path write => fun opened =>
      match p_open p, path, write with
      | None, RequestPath, true => Some (if opened then with_open p (Some true) else p)
      | None, AckPath, false => Some (if opened then with_open p (Some false) else p)
      | _, _, _ => None
      end
  | FWrite bytes => fun _ => match p_open p with Some true => publish p bytes | _ => None end
  | FRead _ => fun _ => match p_open p with Some false => Some p | _ => None end
  | FFlush => fun _ => match p_open p with Some true => Some p | _ => None end
  | FClose => fun _ => match p_open p with Some _ => Some (with_open p None) | None => None end
  | _ => fun _ => None
  end r.

Definition hook_step (m : publisher) (e : event rcall_ret) : option publisher :=
  match m with
  | Off => Some Off
  | On p =>
      match e with
      | Ev (File c) r => match file_step p c r with Some p' => Some (On p') | None => None end
      | Ev GetPid r => Some (if (r : Z) =? pid then m else Off)
      | Ev (CompileMethod _) r => Some (if null r || compiled_ok r then m else Off)
      | Ev (StoreTrampoline bytes) _ =>
          Some (On {| p_open := p_open p; p_original := p_original p; p_trampoline := bytes;
                      p_guards := p_guards p; p_patches := p_patches p |})
      | Ev (StoreOriginal target) _ =>
          Some (On {| p_open := p_open p; p_original := target; p_trampoline := p_trampoline p;
                      p_guards := p_guards p; p_patches := p_patches p |})
      | _ => Some m
      end
  end.

(** ** Rules *)

Definition hspec {A} (p : rprog A) (s : Publisher) (Q : A -> Publisher -> Prop) : Prop :=
  wp hook_step p (On s) (fun a m => match m with Off => True | On s' => Q a s' end).

Lemma hspec_ret {A} (a : A) s (Q : A -> Publisher -> Prop) : Q a s -> hspec (Ret a) s Q.
Proof. by intros H. Qed.

Lemma hspec_mono {A} (p : rprog A) s (Q Q' : A -> Publisher -> Prop) :
  hspec p s Q -> (forall a s', Q a s' -> Q' a s') -> hspec p s Q'.
Proof. intros H HQ. eapply wp_mono; [|exact H]. intros a [|s']; [done|apply HQ]. Qed.

Lemma hspec_seq {A B} (p : rprog A) (f : A -> rprog B) s R Q :
  hspec p s R -> (forall a s', R a s' -> hspec (f a) s' Q) -> hspec (bindp p f) s Q.
Proof.
  intros Hp Hf. apply wp_bind. eapply wp_mono; [|exact Hp]. intros a [|s'] H; [|by apply Hf].
  by apply wp_absorbing.
Qed.

Lemma hspec_step c s (Q : rcall_ret c -> Publisher -> Prop) :
  (forall r, match hook_step (On s) (Ev c r) with
             | None => False | Some Off => True | Some (On s') => Q r s' end) ->
  hspec (rc c) s Q.
Proof. intros H r. specialize (H r). by destruct (hook_step _ _) as [[|s']|]. Qed.

(** Programs that publish nothing and change nothing the hook depends on. *)
Definition quiet {A} (p : rprog A) : Prop := forall s, hspec p s (fun _ s' => s' = s).

Lemma quiet_ret {A} (a : A) : quiet (Ret a).
Proof. by intros s. Qed.
Lemma quiet_bind {A B} (p : rprog A) (f : A -> rprog B) :
  quiet p -> (forall a, quiet (f a)) -> quiet (bindp p f).
Proof. intros Hp Hf s. eapply hspec_seq; [apply Hp|]. intros a ? ->. apply Hf. Qed.

Definition quiet_call (c : rcall) : bool :=
  match c with File _ | StoreTrampoline _ | StoreOriginal _ => false | _ => true end.
Lemma quiet_rc c : quiet_call c = true -> quiet (rc c).
Proof.
  intros Hc s. apply hspec_step. intros r.
  destruct c; try discriminate Hc; cbn [hook_step]; try done;
    match goal with |- context [if ?b then _ else _] => by destruct b end.
Qed.
Lemma quiet_seq {A B} (p : rprog A) (f : A -> rprog B) s Q :
  quiet p -> (forall a, hspec (f a) s Q) -> hspec (bindp p f) s Q.
Proof. intros Hp Hf. eapply hspec_seq; [apply Hp|]. by intros a ? ->. Qed.

Ltac quiet :=
  repeat first
    [ apply quiet_ret
    | apply quiet_rc; reflexivity
    | apply quiet_bind; [|intros ?]
    | match goal with |- quiet (if ?b then _ else _) => destruct b end
    | match goal with |- quiet (match ?a with _ => _ end) => destruct a end
    | progress unfold managed_target, free_handle ].

Lemma open_image_quiet domain path : quiet (open_image domain path).
Proof. unfold open_image. quiet. Qed.

Lemma replace_quiet h o : quiet (replace_managed_handle h o).
Proof. unfold replace_managed_handle, managed_target, free_handle. quiet. Qed.

Lemma refresh_game_scene_quiet g : quiet (refresh_game_scene g).
Proof.
  unfold refresh_game_scene, scoped, find_game_scene, pin, pinned_ok, pinned_object, managed_target,
    invoke, release_managed_handle, free_handle, replace_managed_handle. quiet.
Qed.

(** ** The files *)

Lemma write_spec s bytes s' :
  p_open s = None -> publish s bytes = Some s' ->
  hspec (write_exact_file RequestPath bytes) s (fun _ s1 => s1 = s' \/ s1 = s).
Proof.
  intros Ho Hp. unfold write_exact_file.
  assert (publish (with_open s (Some true)) bytes = Some (with_open s' (Some true)) /\ p_open s' = None)
    as [Hp' Ho'].
  { unfold publish in *. repeat case_match; simplify_eq; try done;
      (split; [|exact Ho]); unfold with_open, with_counts, patch_ready in *; cbn in *; congruence. }
  eapply hspec_seq.
  { apply (hspec_step (File (FOpen RequestPath true)) s
             (fun opened s1 => s1 = if (opened : bool) then with_open s (Some true) else s)).
    intros r. cbn [hook_step file_step]. rewrite Ho. by destruct r. }
  intros [|] s1 ->; cbn [negb]; [|by apply hspec_ret; right].
  eapply hspec_seq.
  { apply (hspec_step _ _ (fun _ s1 => s1 = with_open s' (Some true))). intros r.
    cbn [hook_step file_step with_open p_open]. by rewrite Hp'. }
  intros count s2 ->. eapply hspec_seq with (R := fun _ s1 => s1 = with_open s' (Some true)).
  { destruct (count =? _); [|by apply hspec_ret]. eapply hspec_seq.
    - by apply (hspec_step _ _ (fun _ s1 => s1 = with_open s' (Some true))).
    - intros ? ? ->. by apply hspec_ret. }
  intros complete s3 ->. eapply hspec_seq.
  { apply (hspec_step _ _ (fun _ s1 => s1 = s')). intros r. cbn [hook_step file_step with_open p_open].
    unfold with_open. cbn. destruct s'. cbn in *. by subst. }
  intros ? ? ->. apply hspec_ret. by left.
Qed.

Lemma read_spec s size :
  p_open s = None ->
  hspec (read_exact_file AckPath size) s
    (fun file s' => s' = s /\ forall b, file = Some b -> length b = size /\ bytes_ok b).
Proof.
  intros Ho. unfold read_exact_file. eapply hspec_seq.
  { apply (hspec_step (File (FOpen AckPath false)) s
             (fun opened s1 => s1 = if (opened : bool) then with_open s (Some false) else s)).
    intros r. cbn [hook_step file_step]. rewrite Ho. by destruct r. }
  intros [|] s1 ->; cbn [negb]; [|by apply hspec_ret].
  eapply hspec_seq.
  { by apply (hspec_step _ _ (fun _ s1 => s1 = with_open s (Some false))). }
  intros raw s2 ->. eapply hspec_seq.
  { apply (hspec_step _ _ (fun _ s1 => s1 = s)). intros r. cbn [hook_step file_step with_open p_open].
    unfold with_open. cbn. destruct s. cbn in *. by subst. }
  intros ? ? ->. apply hspec_ret. split; [done|]. intros b Hb.
  destruct (length _ =? size)%nat eqn:El; [|done]. injection Hb as <-. apply Nat.eqb_eq in El.
  split; [done|]. apply Forall_take, Forall_map, Forall_forall. intros x _. apply wrap_range. lia.
Qed.

Lemma wait_spec n p nonce s :
  p_open s = None ->
  hspec (wait_loop n p nonce) s (fun ack s' => s' = s /\ forall a, ack = Some a -> block (a_observed a)).
Proof.
  intros Ho. induction n as [|n IH]; cbn [wait_loop]; [by apply hspec_ret|].
  eapply hspec_seq; [by apply read_spec|]. intros file s' [-> Hf]. cbv zeta.
  destruct file as [b|].
  - destruct (ack_matches _ _ _).
    + apply hspec_ret. split; [done|]. intros a [= <-]. destruct (Hf b eq_refl) as [Hl Hb].
      split; [apply length_slice; rewrite Hl; unfold sizeof_ack, kShellUiHookPatchSize; lia|by apply slice_bytes].
    + eapply quiet_seq; [by apply quiet_rc|]. by intros _.
  - eapply quiet_seq; [by apply quiet_rc|]. by intros _.
Qed.

Lemma pid_seq {B} (f : Z -> rprog B) s Q : hspec (f pid) s Q -> hspec (bindp (rc GetPid) f) s Q.
Proof.
  intros H. eapply hspec_seq with (R := fun a s' => a = pid /\ s' = s).
  - apply hspec_step. intros r. cbn [hook_step]. destruct ((r : Z) =? pid) eqn:E; [|done].
    apply Z.eqb_eq in E. done.
  - by intros ? ? [-> ->].
Qed.

Lemma compile_spec m s :
  hspec (rc (CompileMethod m)) s (fun a s' => s' = s /\ (a = 0 \/ compiled_ok a = true)).
Proof.
  apply hspec_step. intros r. cbn [hook_step]. destruct (null r) eqn:E; cbn [orb].
  - apply null_true in E as ->. split; [done|by left].
  - destruct (compiled_ok r) eqn:E2; [|done]. split; [done|by right].
Qed.

(** ** The requests *)

Context (Hpid : 0 < pid < 2 ^ 31) (Hhook : shellui_user_address hook_fn = true)
        (Htramp : shellui_user_address trampoline_fn = true) (Hdiff : trampoline_fn <> hook_fn).

Lemma pid_i32 : in_i 32 pid.
Proof. unfold in_i. change (2 ^ (32 - 1)) with (2 ^ 31). lia. Qed.

Lemma pid_bits_range : in_u 64 (pid_bits pid).
Proof. apply wrap_range. lia. Qed.

Lemma nonzero_nonce_ok n : in_u 64 n -> in_u 64 (nonzero_nonce n) /\ nonzero_nonce n <> 0.
Proof.
  intros H. unfold nonzero_nonce. destruct (n =? 0) eqn:E; [split; [unfold in_u; lia|done]|].
  apply Z.eqb_neq in E. done.
Qed.

Lemma hook_nonce_ok method original :
  in_u 64 method -> in_u 64 original ->
  in_u 64 (hook_nonce hook_fn pid method original) /\ hook_nonce hook_fn pid method original <> 0.
Proof.
  intros Hm Ho. apply nonzero_nonce_ok.
  repeat apply lxor_in_u; try done; [by apply user_in_u|apply pid_bits_range].
Qed.

Lemma guard_nonce_ok method :
  in_u 64 method -> in_u 64 (guard_nonce pid method) /\ guard_nonce pid method <> 0.
Proof.
  intros Hm. apply nonzero_nonce_ok. repeat apply lxor_in_u; try done. apply pid_bits_range.
Qed.

Lemma compiled_facts address :
  compiled_ok address = true ->
  method_ok address = true /\ in_u 64 address /\ address <> hook_fn /\ address <> trampoline_fn.
Proof.
  unfold compiled_ok. rewrite !andb_true_iff, !negb_true_iff, !Z.eqb_neq. intros [[H1 H2] H3].
  split; [done|]. split; [by apply method_user|done].
Qed.

(** What the monitor sees of a well-formed request. *)
Lemma publish_request s q :
  wf_request q ->
  publish s (request_bytes q) =
    if kind_valid KProbe q pid then Some s
    else if kind_valid KGuard q pid then
      if (p_guards s =? 0)%nat then Some (with_counts s 1 (p_patches s)) else None
    else if kind_valid KPatch q pid then
      if (p_patches s =? 0)%nat && patch_ready s q
      then Some (with_counts s (p_guards s) 1) else None
    else None.
Proof.
  intros Hw. unfold publish. rewrite request_of_request_bytes by done.
  assert (length (request_bytes q) = sizeof_request) as ->.
  { unfold request_bytes. by rewrite length_app, length_request_head, length_le_encode. }
  by rewrite Nat.eqb_refl.
Qed.

Lemma kind_unique q k : wf_request q -> kind_valid k q pid = true ->
  forall k', k' <> k -> kind_valid k' q pid = false.
Proof.
  intros Hw Hk k' Hne. destruct (kind_valid k' q pid) eqn:E; [|done]. exfalso. apply Hne.
  by eapply kind_valid_unique.
Qed.

(** A probe: the file, the wait and the observed bytes. *)
Lemma probe_spec s address :
  p_open s = None -> compiled_ok address = true ->
  hspec (probe_hook_bytes hook_fn address) s
    (fun r s' => s' = s /\ forall e, r = Some e -> block e).
Proof.
  intros Ho Hc. destruct (compiled_facts _ Hc) as (Hm & Hu & _ & _).
  unfold probe_hook_bytes, publish_hook_request.
  eapply hspec_seq with (R := fun '(_, _) s1 => s1 = s).
  { apply pid_seq. cbv zeta. destruct (hook_nonce_ok address 0 Hu) as [Hn1 Hn2]; [done|].
    pose proof zero_block_ok as Hz.
    eapply hspec_seq; [apply (write_spec _ _ s); [done|]|].
    - rewrite publish_request.
      + change (u32 (Z.of_nat 0)) with 0. by rewrite probe_accepted by (done || lia).
      + apply request_wf; try done; [apply pid_i32|by apply user_in_u].
    - intros ok s1 Hs1. apply hspec_ret. by destruct Hs1. }
  intros [published nonce] s1 ->. destruct (negb published); [by apply hspec_ret|].
  apply pid_seq. eapply hspec_seq; [by apply wait_spec|]. intros ack s1 [-> Hack].
  destruct ack as [ack|]; [|by apply hspec_ret]. apply hspec_ret. split; [done|].
  intros e He. destruct (ack_success _ _); [|done]. injection He as <-. by apply Hack.
Qed.

Lemma install_guard_spec s domain :
  p_open s = None -> p_guards s = 0%nat ->
  hspec (install_main_thread_guard hook_fn domain) s
    (fun _ s' => s' = s \/ s' = with_counts s 1 (p_patches s)).
Proof.
  intros Ho Hg. unfold install_main_thread_guard.
  eapply quiet_seq; [apply open_image_quiet|]. intros core. destruct (null core); [by apply hspec_ret; left|].
  eapply quiet_seq; [by apply quiet_rc|]. intros diagnostics.
  eapply quiet_seq; [quiet|]. intros check. destruct (null check); [by apply hspec_ret; left|].
  eapply hspec_seq; [apply compile_spec|]. intros address ? [-> Ha].
  destruct (null address) eqn:En; [by apply hspec_ret; left|]. apply null_false in En.
  destruct Ha as [|Ha]; [done|]. destruct (compiled_facts _ Ha) as (Hm & Hu & _ & _).
  eapply hspec_seq; [by apply probe_spec|]. intros [e|] ? [-> He]; [|by apply hspec_ret; left].
  specialize (He e eq_refl). destruct (byte_at e 0 =? 0xc3) eqn:E0; [by apply hspec_ret; left|].
  apply Z.eqb_neq in E0. unfold publish_main_thread_guard_request.
  destruct (guard_nonce_ok address Hu) as [Hn1 Hn2].
  eapply hspec_seq with (R := fun '(_, _) s1 => s1 = s \/ s1 = with_counts s 1 (p_patches s)).
  { apply pid_seq. cbv zeta.
    assert (wf_request (request pid (guard_nonce pid address) address address 0 1 e (195 :: tail e))) as Hw.
    { apply request_wf; try done; [apply pid_i32|]. destruct e as [|b e]; [by destruct He|].
      destruct He as [Hl Hb]. split; [done|]. inversion Hb; subst. by constructor. }
    pose proof (guard_accepted pid _ address e ltac:(lia) Hn2 Hm He E0) as Hk.
    eapply hspec_seq; [apply (write_spec _ _ (with_counts s 1 (p_patches s))); [done|]|].
    - rewrite publish_request by done. rewrite (kind_unique _ KGuard Hw Hk KProbe) by done.
      by rewrite Hk, Hg.
    - intros ok s1 Hs1. apply hspec_ret. destruct Hs1; auto. }
  intros [published nonce] s1 Hs1. destruct (negb published); [by apply hspec_ret|].
  apply pid_seq. eapply hspec_seq; [apply wait_spec; by destruct Hs1 as [->| ->]|]. intros ack ? [-> _].
  destruct ack as [ack|]; [|by apply hspec_ret]. repeat case_match; by apply hspec_ret.
Qed.

Definition set_original (s : Publisher) (o : Z) : Publisher := {|
  p_open := p_open s; p_original := o; p_trampoline := p_trampoline s;
  p_guards := p_guards s; p_patches := p_patches s |}.
Definition set_trampoline (s : Publisher) (t : list Z) : Publisher := {|
  p_open := p_open s; p_original := p_original s; p_trampoline := t;
  p_guards := p_guards s; p_patches := p_patches s |}.

(** The runtime's trampoline area is what the monitor has seen. *)
Definition synced (r : Runtime) (s : Publisher) : Prop :=
  p_open s = None /\ p_trampoline s = r_trampoline r /\ length (r_trampoline r) = kTrampolineCapacity /\
  r_attempted r = true.

(** The request of an installation whose target is ready is published, and no other. *)
Lemma request_hook_spec r s address expected displaced original t :
  synced (with_original r original t) s -> p_patches s = 0%nat -> compiled_ok address = true -> block expected ->
  in_u 64 original -> (kAbsoluteJumpSize <= displaced <= kAtomicPatchSize)%nat ->
  (forall nonce, nonce <> 0 ->
     let q := request pid nonce address hook_fn original (Z.of_nat displaced) expected
                (patched hook_fn displaced expected) in
     kind_valid KPatch q pid = true /\ patch_ready (set_original s original) q = true) ->
  hspec (request_hook hook_fn r address expected displaced original t) s
    (fun '(_, r') s' => synced r' s').
Proof.
  intros Hs Hp Hc He Ho Hd Hq. destruct (compiled_facts _ Hc) as (Hm & Hu & _ & _).
  unfold request_hook. cbv zeta. fold (patched hook_fn displaced expected).
  eapply hspec_seq; [by apply (hspec_step _ _ (fun _ s1 => s1 = set_original s original))|].
  intros _ ? ->. set (s1 := set_original s original) in *.
  assert (forall n m, synced (with_original r original t) (with_counts s1 n m)) as Hs1 by done.
  assert (synced (with_original r original t) s1) as Hs2 by done.
  unfold publish_hook_request.
  eapply hspec_seq with (R := fun '(_, _) s2 => synced (with_original r original t) s2).
  { apply pid_seq. cbv zeta. destruct (hook_nonce_ok address original Hu Ho) as [Hn1 Hn2].
    unfold kAbsoluteJumpSize, kAtomicPatchSize in Hd.
    rewrite (wrap_small 32 (Z.of_nat displaced)) by (unfold in_u; lia).
    destruct (Hq _ Hn2) as [Hk Hr]. cbv zeta in Hk, Hr.
    set (q := request _ _ _ _ _ _ _ _) in *.
    assert (wf_request q) as Hw.
    { apply request_wf; try done; [apply pid_i32|by apply user_in_u|unfold in_u; lia|].
      apply patched_facts; [done|unfold kAbsoluteJumpSize, kAtomicPatchSize; lia|by apply user_in_u]. }
    eapply hspec_seq; [apply (write_spec _ _ (with_counts s1 (p_guards s1) 1)); [by apply Hs|]|].
    - rewrite publish_request by done.
      rewrite (kind_unique _ KPatch Hw Hk KProbe), (kind_unique _ KPatch Hw Hk KGuard) by done.
      rewrite Hk, Hr. change (p_patches s1) with (p_patches s). by rewrite Hp.
    - intros ok s2 [->| ->]; by apply hspec_ret. }
  intros [published nonce] s2 Hs3. destruct (negb published); [by apply hspec_ret|].
  apply pid_seq. eapply hspec_seq; [apply wait_spec; by apply Hs3|]. intros ack ? [-> _].
  destruct ack as [ack|]; [|by apply hspec_ret]. destruct (ack_success _ _); by apply hspec_ret.
Qed.

Lemma plan_chain r address expected original :
  plan_hook hook_fn r address expected = Chain original ->
  take 6 expected = kShellUiAbsoluteJumpPrefix /\ original = field 6 8 expected /\
  shellui_user_address original = true /\ original <> hook_fn /\ original <> address.
Proof.
  unfold plan_hook. destruct (bytes_eqb _ _) eqn:E; [|repeat case_match; discriminate].
  cbv zeta. destruct (_ =? hook_fn) eqn:E1; [by case_match|]. destruct (_ || _) eqn:E2; [done|].
  intros [= <-]. apply bool_decide_eq_true in E. rewrite !orb_false_iff in E2.
  destruct E2 as [[E2 E3] E4]. split; [done|]. split; [done|]. unfold shellui_user_address.
  apply Z.eqb_neq in E1, E4. apply Z.ltb_ge in E2. apply Z.leb_gt in E3.
  split; [|done]. apply andb_true_iff. split; [by apply Z.leb_le|by apply Z.ltb_lt].
Qed.

Lemma plan_native r address expected n t :
  plan_hook hook_fn r address expected = Native n t ->
  block expected -> compiled_ok address = true -> length (r_trampoline r) = kTrampolineCapacity ->
  take 6 expected <> kShellUiAbsoluteJumpPrefix /\ native_patch_length expected = n /\
  (kAbsoluteJumpSize <= n <= kAtomicPatchSize)%nat /\ length t = kTrampolineCapacity /\
  take (n + 14) t = take n expected ++ absolute_jump (u64 (address + Z.of_nat n)).
Proof.
  unfold plan_hook. intros H [Hl _] Hc Ht. destruct (bytes_eqb _ _) eqn:E; [repeat case_match; discriminate|].
  apply bool_decide_eq_false in E. cbv zeta in H.
  destruct (native_patch_length expected =? 0)%nat eqn:E1; [done|]. apply Nat.eqb_neq in E1.
  destruct (native_patch_length_spec expected _ eq_refl E1) as [Hn _].
  set (k := native_patch_length expected) in *. unfold kAbsoluteJumpSize, kAtomicPatchSize in Hn.
  destruct (compiled_facts _ Hc) as (Hm & _). unfold method_ok in Hm. breflect.
  rewrite (prepare_trampoline_spec _ _ _ _ Ht) in H.
  - set (tail_bytes := drop (k + kAbsoluteJumpSize) (r_trampoline r)) in *.
    set (jump := absolute_jump (u64 (address + Z.of_nat k))) in *.
    assert (n = k /\ t = take k expected ++ jump ++ tail_bytes) as [-> ->] by (split; congruence).
    split; [done|]. split; [done|]. split; [unfold kAbsoluteJumpSize, kAtomicPatchSize; lia|].
    assert (length (take k expected) = k) as Hk by (rewrite length_take, Hl; unfold kShellUiHookPatchSize; lia).
    assert (length jump = 14%nat) as Hj by done.
    assert (length tail_bytes = (114 - k)%nat) as Htl
      by (subst tail_bytes; rewrite length_drop, Ht; unfold kTrampolineCapacity, kAbsoluteJumpSize; lia).
    split.
    + rewrite !length_app, Hk, Hj, Htl. unfold kTrampolineCapacity. lia.
    + assert (length (take k expected ++ jump) = (k + 14)%nat) as Hlen by (rewrite length_app, Hk, Hj; done).
      rewrite app_assoc, take_app_le by (rewrite Hlen; done). fold jump. rewrite take_ge; [done|by rewrite Hlen].
  - rewrite Hl. unfold kShellUiHookPatchSize. lia.
  - unfold kTrampolineCapacity, kAbsoluteJumpSize. lia.
  - rewrite wrap_small by (unfold in_u; lia). lia.
Qed.

Lemma install_hook_spec r s klass :
  synced r s -> p_patches s = 0%nat ->
  hspec (install_update_hook hook_fn trampoline_fn r klass) s (fun '(_, r') s' => synced r' s').
Proof.
  intros Hs Hp. unfold install_update_hook.
  eapply quiet_seq; [quiet|]. intros update.
  eapply hspec_seq with (R := fun a s1 => s1 = s /\ (a = 0 \/ compiled_ok a = true)).
  { destruct (null update); [apply hspec_ret; auto|apply compile_spec]. }
  intros address ? [-> Ha]. destruct (null address) eqn:En; [by apply hspec_ret|].
  apply null_false in En. destruct Ha as [|Ha]; [done|].
  destruct (compiled_facts _ Ha) as (Hm & Hu & Hn1 & Hn2).
  eapply hspec_seq; [apply probe_spec; [by apply Hs|done]|]. intros [e|] ? [-> He]; [|by apply hspec_ret].
  specialize (He e eq_refl). destruct (plan_hook _ _ _ _) as [| |original|n t] eqn:Epl; try by apply hspec_ret.
  - apply plan_chain in Epl as (Hpre & -> & Huo & Hd1 & Hd2).
    apply request_hook_spec; try done.
    + by apply user_in_u.
    + unfold kAbsoluteJumpSize, kAtomicPatchSize. lia.
    + intros nonce Hnz. split; [by apply chain_accepted; try done; lia|].
      unfold patch_ready. cbn [set_original p_original q_hook_address q_original_call_address request].
      rewrite !Z.eqb_refl. cbn [andb].
      assert (forall q, q_expected q = e -> shellui_hook_is_eta_chain q = true) as Heta.
      { intros q <-. by apply bool_decide_eq_true. }
      rewrite Heta by done. apply bool_decide_eq_true. cbn [q_expected request].
      destruct He as [Hl Hb]. apply jump_bytes; try done. by apply bool_decide_eq_true.
  - destruct (plan_native _ _ _ _ _ Epl He Ha ltac:(by apply Hs)) as (Hpre & Hn & Hdis & Ht & Htake).
    eapply hspec_seq; [by apply (hspec_step _ _ (fun _ s1 => s1 = set_trampoline s t))|].
    intros _ ? ->. apply request_hook_spec; try done.
    + destruct Hs as (Hs1 & Hs2 & Hs3 & Hs4). by split.
    + by apply user_in_u.
    + intros nonce Hnz. split; [by apply native_accepted; try done; lia|].
      unfold patch_ready. cbn [set_original set_trampoline p_original p_trampoline q_hook_address
        q_original_call_address request q_expected q_displaced_size q_method_address].
      rewrite !Z.eqb_refl. cbn [andb].
      assert (forall q, q_expected q = e -> shellui_hook_is_eta_chain q = false) as Heta.
      { intros q <-. by apply bool_decide_eq_false. }
      rewrite Heta by done. rewrite Nat2Z.id, Hn, Nat.eqb_refl. cbn [andb].
      apply bool_decide_eq_true. exact Htake.
Qed.

(** Between two attempts. *)
Definition idle (r : Runtime) (s : Publisher) : Prop :=
  p_open s = None /\ p_trampoline s = r_trampoline r /\ length (r_trampoline r) = kTrampolineCapacity /\
  (r_attempted r = false -> p_guards s = 0%nat /\ p_patches s = 0%nat).

Lemma synced_idle r s : synced r s -> idle r s.
Proof. intros (H1 & H2 & H3 & H4). split_and!; try done. by rewrite H4. Qed.

Lemma initialize_spec r s :
  idle r s ->
  hspec (initialize_runtime hook_fn trampoline_fn r) s (fun '(_, r') s' => idle r' s').
Proof.
  intros Hi. unfold initialize_runtime. destruct (r_ready r); [by apply hspec_ret|].
  destruct (r_attempted r) eqn:Ea; [by apply hspec_ret|]. cbv zeta.
  assert (forall g, idle (with_globals r g) s) as Hg by done.
  eapply quiet_seq; [by apply quiet_rc|]. intros domain. destruct (null domain); [by apply hspec_ret|].
  eapply quiet_seq; [by apply quiet_rc|]. intros _.
  eapply quiet_seq; [apply open_image_quiet|]. intros pui.
  eapply quiet_seq; [apply open_image_quiet|]. intros app. destruct (_ || _); [by apply hspec_ret|].
  eapply quiet_seq; [by apply quiet_rc|]. intros lm.
  eapply quiet_seq; [quiet|]. intros find. destruct (null find); [by apply hspec_ret|].
  eapply quiet_seq; [apply refresh_game_scene_quiet|]. intros [ok g].
  destruct (negb ok); [by apply hspec_ret|]. unfold select_backend. cbv zeta.
  destruct Hi as (H1 & H2 & H3 & H4). destruct (H4 Ea) as [H5 H6].
  eapply hspec_seq; [by apply install_guard_spec|]. intros result s1 Hs1.
  assert (synced (with_attempted (with_globals r g)) s1 /\ p_patches s1 = 0%nat) as [Hsy Hp1].
  { by destruct Hs1 as [->| ->]. }
  destruct result.
  - apply hspec_ret. by apply synced_idle.
  - eapply quiet_seq; [by apply quiet_rc|]. intros klass.
    destruct (null klass); [by apply hspec_ret, synced_idle|].
    eapply hspec_seq; [by apply install_hook_spec|]. intros [ok2 r2] s2 H. apply hspec_ret.
    destruct ok2; by apply synced_idle.
  - by apply hspec_ret, synced_idle.
Qed.

(** The readiness retries of the renderer's thread. *)
Fixpoint retries (n : nat) (r : Runtime) : rprog Runtime :=
  match n with
  | O => Ret r
  | S n' => bindp (initialize_runtime hook_fn trampoline_fn r) (fun '(_, r') => retries n' r')
  end.

Definition publisher_init : Publisher := {|
  p_open := None; p_original := 0; p_trampoline := r_trampoline Runtime_init;
  p_guards := 0; p_patches := 0 |}.

Lemma retries_spec n r s : idle r s -> hspec (retries n r) s (fun r' s' => idle r' s').
Proof.
  revert r s; induction n as [|n IH]; intros r s Hi; cbn [retries]; [by apply hspec_ret|].
  eapply hspec_seq; [by apply initialize_spec|]. intros [ok r'] s' H'. by apply IH.
Qed.
End Install.

(** C7: over any number of initialisation attempts, whatever Mono, the files and the
    acknowledgements are: the renderer uses only the two protocol files and never writes
    code; every request it publishes is one that the controller's validators accept; at
    most one guard and one patch request are ever published, a failed transaction is not
    repeated; and when a patch request appears, the original call that the hook will make
    is already stored, and is either the destination of the jump to be replaced or the
    trampoline, which already holds the displaced instructions and a jump behind them. *)
Theorem renderer_publishes_safely pid hook_fn trampoline_fn n t r :
  0 < pid < 2 ^ 31 -> shellui_user_address hook_fn = true ->
  shellui_user_address trampoline_fn = true -> trampoline_fn <> hook_fn ->
  exec (retries hook_fn trampoline_fn n Runtime_init) t r ->
  match monitor (hook_step pid hook_fn trampoline_fn) (On publisher_init) t with
  | None => False
  | Some Off => True
  | Some (On s) => p_open s = None /\ p_trampoline s = r_trampoline r /\ (r_attempted r = false -> p_guards s = 0%nat /\ p_patches s = 0%nat)
  end.
Proof.
  intros Hp Hh Ht Hd He.
  assert (hspec pid hook_fn trampoline_fn (retries hook_fn trampoline_fn n Runtime_init) publisher_init
    (fun r' s' => idle r' s')) as Hs by (by apply retries_spec).
  destruct (wp_sound _ _ _ _ Hs t r He) as (m & -> & Hm). destruct m as [|s]; [done|].
  destruct Hm as (H1 & H2 & _ & H4). done.
Qed.

(** ** A console on which the installation succeeds: the probe finds a native prologue,
    the guard is not supported, the patch is applied. *)

Definition reply (q : ShellUiHookRequest) : ShellUiHookAck :=
  let a status phase checksum := {|
    a_magic := kShellUiHookAckMagic; a_version := kShellUiHookProtocolVersion; a_pid := q_pid q;
    a_nonce := q_nonce q; a_status := status_code status; a_read_rc := 0; a_write_rc := 0;
    a_verified := 1; a_restored := 0; a_detached := 1; a_auth_restored := 1;
    a_phase := phase_code phase; a_observed := sample_prologue; a_checksum := checksum |} in
  let k := if q_displaced_size q =? 0 then a Success PhaseProbe
           else if q_displaced_size q =? 1 then a UnsupportedFirmware PhaseMainThreadGuard
           else a Success PhasePatch in
  k (shellui_hook_ack_checksum (k 0)).

(** The last request file, and the answers. *)
Definition installer_answer (w : list Z) (c : rcall) : rcall_ret c * list Z :=
  match c as c0 return rcall_ret c0 * list Z with
  | RuntimeInvoke _ _ _ _ => ((7, 0), w)
  | CompileMethod _ => (0x880001000, w)
  | GetPid => (77, w)
  | File (FOpen _ _) => (true, w)
  | File (FWrite bytes) => (Z.of_nat (length bytes), bytes)
  | File (FRead n) => (ack_bytes (reply (request_of_bytes w)), w)
  | File c => (silent_file c, w)
  | ObjectInit _ | GcFree _ | Usleep _ | StoreTrampoline _ | StoreOriginal _ => (tt, w)
  | GcNew o _ => (o, w)
  | GcTarget h => (h, w)
  | _ => (5, w)
  end.

Definition installation :=
  run installer_answer (retries 0x900001000 0x900002000 3 Runtime_init) [].

Definition on (m : option publisher) : option (Z * nat * nat) :=
  match m with Some (On s) => Some (p_original s, p_guards s, p_patches s) | _ => None end.

Lemma renderer_publishes_safely_witness :
  on (monitor (hook_step 77 0x900001000 0x900002000) (On publisher_init) installation.2) =
    Some (0x900002000, 1%nat, 1%nat) /\
  r_ready installation.1.1 = true /\
  exists s, monitor (hook_step 77 0x900001000 0x900002000) (On publisher_init) installation.2 = Some (On s) /\
    p_trampoline s = r_trampoline installation.1.1.
Proof.
  assert (on (monitor (hook_step 77 0x900001000 0x900002000) (On publisher_init) installation.2) =
    Some (0x900002000, 1%nat, 1%nat)) as Ho by (vm_compute; reflexivity).
  split; [exact Ho|]. split; [vm_compute; reflexivity|].
  pose proof (renderer_publishes_safely 77 0x900001000 0x900002000 3 installation.2 installation.1.1
    ltac:(lia) eq_refl eq_refl ltac:(discriminate) (run_exec _ _ _)) as H.
  destruct (monitor _ _ installation.2) as [[|s]|]; try discriminate. exists s. split; [done|].
  apply H.
Defined.
