(* ===== verification/HookHandshake.v ===== *)
(** The acknowledgement between the two processes: what the controller writes
    ([HookController.make_ack]) is what the renderer waits for
    ([RendererHook.ack_matches], [RendererHook.ack_success]). *)
From S2P Require Import Prelude Effects HookProtocol Debugger HookController Mono RendererHook.

(** A report whose fields fit the acknowledgement. *)
Record wf_core (c : Core) : Prop := {
  wc_read : in_i 32 (read_rc c); wc_write : in_i 32 (write_rc c);
  wc_observed : length (observed c) = kShellUiHookPatchSize /\ bytes_ok (observed c)
}.

Definition wf_ack (a : ShellUiHookAck) : Prop :=
  in_u 64 (a_magic a) /\ in_u 32 (a_version a) /\ in_i 32 (a_pid a) /\ in_u 64 (a_nonce a) /\
  in_i 32 (a_status a) /\ in_i 32 (a_read_rc a) /\ in_i 32 (a_write_rc a) /\
  is_byte (a_verified a) /\ is_byte (a_restored a) /\ is_byte (a_detached a) /\
  is_byte (a_auth_restored a) /\ is_byte (a_phase a) /\
  (length (a_observed a) = kShellUiHookPatchSize /\ bytes_ok (a_observed a)) /\ in_u 32 (a_checksum a).

Lemma length_ack_head a :
  length (a_observed a) = kShellUiHookPatchSize -> length (ack_head a) = offsetof_ack_checksum.
Proof. intros H. unfold ack_head. by rewrite !length_app, !length_le_encode, H. Qed.

Lemma ack_checksum_head a :
  length (a_observed a) = kShellUiHookPatchSize ->
  shellui_hook_ack_checksum a = shellui_hook_checksum (ack_head a).
Proof.
  intros H. unfold shellui_hook_ack_checksum, ack_bytes.
  by rewrite take_app_le, take_ge by (rewrite length_ack_head by done; lia).
Qed.

Lemma ack_of_ack_bytes a : wf_ack a -> ack_of_bytes (ack_bytes a) = a.
Proof.
  intros (H1 & H2 & H3 & H4 & H5 & H6 & H7 & H8 & H9 & H10 & H11 & H12 & [Ho Hb] & H14).
  pose proof (wrap_range 32 (a_pid a) ltac:(lia)) as W1.
  pose proof (wrap_range 32 (a_status a) ltac:(lia)) as W2.
  pose proof (wrap_range 32 (a_read_rc a) ltac:(lia)) as W3.
  pose proof (wrap_range 32 (a_write_rc a) ltac:(lia)) as W4.
  destruct a as [mg vs pd nc st rr wr ve re de au ph ob ck].
  cbn [a_magic a_version a_pid a_nonce a_status a_read_rc a_write_rc a_verified a_restored a_detached
       a_auth_restored a_phase a_observed a_checksum] in *.
  unfold kShellUiHookPatchSize in *. unfold ack_of_bytes, ack_bytes, ack_head.
  cbn [a_magic a_version a_pid a_nonce a_status a_read_rc a_write_rc a_verified a_restored a_detached
       a_auth_restored a_phase a_observed a_checksum].
  rewrite <- !(app_assoc (A:=Z)).
  f_equal; next_field; try (apply field_head_enc; assumption);
    try (rewrite field_head_enc by assumption; by apply swrap_wrap_id).
  - repeat rewrite slice_skip by (rewrite ?length_le_encode; simpl; lia). rewrite ?length_le_encode.
    by apply slice_head.
  - repeat rewrite field_skip by (rewrite ?length_le_encode, ?Ho; simpl; lia).
    rewrite ?length_le_encode, Ho. by apply field_last_enc.
Qed.

Lemma make_ack_wf q c : wf_request q -> wf_core c -> wf_ack (make_ack q c).
Proof.
  intros Hq [Hr Hw Ho]. unfold wf_ack, make_ack. cbn [ack_of a_magic a_version a_pid a_nonce a_status
    a_read_rc a_write_rc a_verified a_restored a_detached a_auth_restored a_phase a_observed a_checksum].
  assert (forall b, is_byte (flag b)) as Hf by (by intros []).
  repeat (split; [first [done | by apply Hq | by destruct (status c) | apply Hf
    | destruct (probe c), (main_thread_guard c); done]|]).
  apply checksum_fold_range. done.
Qed.

Lemma make_ack_checksum q c :
  length (observed c) = kShellUiHookPatchSize ->
  a_checksum (make_ack q c) = shellui_hook_ack_checksum (make_ack q c).
Proof.
  intros Ho. unfold make_ack. cbn [ack_of a_checksum]. rewrite !ack_checksum_head by done. done.
Qed.

Lemma ack_bytes_of_bytes b :
  length b = sizeof_ack -> bytes_ok b -> ack_bytes (ack_of_bytes b) = b.
Proof.
  intros Hlen Hb. unfold ack_bytes, ack_head, ack_of_bytes.
  cbn [a_magic a_version a_pid a_nonce a_status a_read_rc a_write_rc a_verified a_restored a_detached
       a_auth_restored a_phase a_observed a_checksum].
  rewrite !wrap_swrap_id by (by apply field_u).
  unfold sizeof_ack in Hlen.
  rewrite !le_encode_field by (try done; lia).
  rewrite <- !(app_assoc (A:=Z)).
  rewrite (slice_join 41 16 4), (slice_join 40 1 20), (slice_join 39 1 21), (slice_join 38 1 22),
    (slice_join 37 1 23), (slice_join 36 1 24), (slice_join 32 4 25), (slice_join 28 4 29),
    (slice_join 24 4 33), (slice_join 16 8 37), (slice_join 12 4 45), (slice_join 8 4 49),
    (slice_join 0 8 53).
  by apply slice_all.
Qed.

Lemma ack_checksum_of_bytes b :
  length b = sizeof_ack -> bytes_ok b ->
  a_checksum (ack_of_bytes b) = le_decode (drop 57 b) /\
  shellui_hook_ack_checksum (ack_of_bytes b) = shellui_hook_checksum (take 57 b).
Proof.
  intros Hl Hb. unfold shellui_hook_ack_checksum. rewrite ack_bytes_of_bytes by done.
  split; [|done]. cbn [a_checksum ack_of_bytes]. unfold field, slice.
  rewrite (take_ge (drop 57 b)); [done|]. rewrite length_drop, Hl. unfold sizeof_ack. lia.
Qed.

Lemma ack_bytes_ok a : wf_ack a -> length (ack_bytes a) = sizeof_ack /\ bytes_ok (ack_bytes a).
Proof.
  intros (_ & _ & _ & _ & _ & _ & _ & _ & _ & _ & _ & _ & [Ho Hb] & _). split.
  - unfold ack_bytes. by rewrite length_app, length_ack_head, length_le_encode.
  - unfold ack_bytes, ack_head. repeat (apply Forall_app; split); auto with machine.
Qed.

Lemma ack_matches_true pid nonce a :
  ack_matches pid nonce a = true <->
  a_magic a = kShellUiHookAckMagic /\ a_version a = kShellUiHookProtocolVersion /\ a_pid a = pid /\
  a_nonce a = nonce /\ a_checksum a = shellui_hook_ack_checksum a.
Proof. unfold ack_matches. rewrite !andb_true_iff, !Z.eqb_eq. tauto. Qed.

(** The phase of the transaction. *)
Definition phase_of (c : Core) : ShellUiHookAckPhase :=
  if probe c then PhaseProbe else if main_thread_guard c then PhaseMainThreadGuard else PhasePatch.

Lemma flag_nonzero b : negb (flag b =? 0) = b.
Proof. by destruct b. Qed.

Lemma phase_code_inj p p' : phase_code p = phase_code p' -> p = p'.
Proof. by destruct p, p'. Qed.

Lemma status_code_inj s s' : status_code s = status_code s' -> s = s'.
Proof. by destruct s, s'. Qed.

(** An acknowledgement is taken as the answer to its own transaction. *)
Lemma ack_matches_make q c pid nonce :
  length (observed c) = kShellUiHookPatchSize ->
  ack_matches pid nonce (make_ack q c) = true <-> pid = q_pid q /\ nonce = q_nonce q.
Proof.
  intros Ho. rewrite ack_matches_true.
  cbn [make_ack ack_of a_magic a_version a_pid a_nonce]. split; [by intros (_ & _ & <- & <- & _)|].
  intros [-> ->]. by rewrite make_ack_checksum.
Qed.

(** It counts as a success when the controller reports one, with everything given back. *)
Lemma ack_success_make q c phase :
  ack_success phase (make_ack q c) = true <->
  phase = phase_of c /\ status c = Success /\ verified c = true /\ detached c = true /\
  auth_restored c = true.
Proof.
  unfold ack_success. cbn [make_ack ack_of a_phase a_status a_verified a_detached a_auth_restored].
  rewrite !flag_nonzero, !andb_true_iff, !Z.eqb_eq. fold (phase_of c). split.
  - intros [[[[H1 H2] H3] H4] H5]. apply phase_code_inj in H1. by apply status_code_inj in H2.
  - intros (-> & -> & H3 & H4 & H5). done.
Qed.

(** C13: the acknowledgement file of the controller is 61 bytes which the renderer reads
    back without loss; it is taken as the answer to exactly the transaction of its process
    and nonce, it counts as a success of a phase exactly when the controller reports
    success in that phase with the code verified, the process resumed and the authority
    given back, and after damage to any one byte it is not taken as an answer at all. *)
Theorem acknowledgement_agreement q c :
  wf_request q -> wf_core c ->
  let file := ack_bytes (make_ack q c) in
  length file = sizeof_ack /\ ack_of_bytes file = make_ack q c /\
  (forall pid nonce,
     ack_matches pid nonce (ack_of_bytes file) = true <-> pid = q_pid q /\ nonce = q_nonce q) /\
  (forall phase,
     ack_success phase (ack_of_bytes file) = true <->
     phase = phase_of c /\ status c = Success /\ verified c = true /\ detached c = true /\
     auth_restored c = true) /\
  (forall i old new pid nonce,
     file !! i = Some old -> is_byte new -> new <> old ->
     ack_matches pid nonce (ack_of_bytes (<[i := new]> file)) = false).
Proof.
  intros Hq Hc file. pose proof (make_ack_wf q c Hq Hc) as Hw. pose proof (ack_bytes_ok _ Hw) as [Hl Hb].
  pose proof (ack_of_ack_bytes _ Hw) as Hback. pose proof (make_ack_checksum q c (proj1 (wc_observed _ Hc))) as Hck.
  fold file in Hl, Hb, Hback. split; [done|]. split; [done|]. rewrite Hback. split; [|split].
  - intros pid nonce. by apply ack_matches_make, Hc.
  - intros phase. apply ack_success_make.
  - intros i old new pid nonce Hi Hn Hne. destruct (ack_matches _ _ _) eqn:E; [|done].
    apply ack_matches_true in E as (_ & _ & _ & _ & E).
    assert (bytes_ok (<[i := new]> file)) as Hb' by (by apply Forall_insert).
    destruct (ack_checksum_of_bytes file Hl Hb) as [E1 E2].
    destruct (ack_checksum_of_bytes (<[i := new]> file)) as [E3 E4]; [by rewrite length_insert|done|].
    rewrite E3, E4 in E. exfalso. revert E. eapply checksum_damage; try done.
    rewrite <- E1, <- E2, Hback. done.
Qed.

(** A successful guard of process 77. *)
Definition sample_core : Core := {|
  status := Success; sdk_version := 0x07610000; method_address := 0x880001000; displaced_size := 1;
  eta_chain := false; read_rc := 0; write_rc := 0; expected_matched := true; verified := true;
  restored := false; detached := true; auth_restored := true; probe := false;
  main_thread_guard := true; observed := zero16 |}.

Lemma acknowledgement_agreement_witness :
  length (ack_bytes (make_ack sample_guard sample_core)) = sizeof_ack /\
  ack_matches 77 12345 (ack_of_bytes (ack_bytes (make_ack sample_guard sample_core))) = true /\
  ack_success PhaseMainThreadGuard (ack_of_bytes (ack_bytes (make_ack sample_guard sample_core))) = true.
Proof.
  destruct (acknowledgement_agreement sample_guard sample_core) as (H1 & _ & H2 & H3 & _).
  - apply sample_guard_wf.
  - split; [done|done|split; [done|]]. apply Forall_forall. intros x Hx.
    by apply list_elem_of_In, repeat_spec in Hx as ->.
  - split; [exact H1|]. split; [by apply H2|by apply H3].
Defined.
