(* ===== verification/Console.v ===== *)
(** The console around the hook controller, as far as the controller relies on it: what
    the system calls of [Debugger.sys] are documented to answer, over a state with the
    memory and the page protections of ShellUI, the credentials of the caller and the
    files of the protocol.  Nothing here is code of the program: the definitions are the
    hypothesis of the theorem of [HookServed]. *)
From S2P Require Import Prelude Effects HookProtocol Debugger GuardWrite HookController HookSafety.

(** ** Memory *)

Fixpoint load (m : gmap Z Z) (a : Z) (n : nat) : option (list Z) :=
  match n with
  | O => Some []
  | S n' => match m !! a, load m (a + 1) n' with Some b, Some l => Some (b :: l) | _, _ => None end
  end.

Fixpoint store (m : gmap Z Z) (a : Z) (l : list Z) : gmap Z Z :=
  match l with [] => m | b :: l' => <[a := b]> (store m (a + 1) l') end.

Lemma lookup_shift (m : gmap Z Z) a (l : list Z) b n :
  (forall i, (i < S n)%nat -> m !! (a + Z.of_nat i) = (b :: l) !! i) <->
  m !! a = Some b /\ (forall i, (i < n)%nat -> m !! (a + 1 + Z.of_nat i) = l !! i).
Proof.
  split.
  - intros H. split; [rewrite <- (Z.add_0_r a); apply (H 0%nat); lia|]. intros i Hi.
    replace (a + 1 + Z.of_nat i) with (a + Z.of_nat (S i)) by lia. apply (H (S i)). lia.
  - intros [H0 H] [|i] Hi; [by rewrite Z.add_0_r|].
    replace (a + Z.of_nat (S i)) with (a + 1 + Z.of_nat i) by lia. apply H. lia.
Qed.

Lemma load_Some m a n l :
  load m a n = Some l <->
  length l = n /\ forall i, (i < n)%nat -> m !! (a + Z.of_nat i) = l !! i.
Proof.
  revert a l. induction n as [|n IH]; intros a l; cbn [load].
  - split; [intros [= <-]; split; [done|lia]|]. by intros [->%nil_length_inv _].
  - split.
    + destruct (m !! a) as [b|] eqn:Hb; [|done]. destruct (load m (a + 1) n) as [l'|] eqn:Hl; [|done].
      intros [= <-]. apply IH in Hl as [<- Hl]. split; [done|]. by apply lookup_shift.
    + destruct l as [|b l]; [by intros [? _]|]. intros [[= Hl] H]. apply lookup_shift in H as [-> H].
      by rewrite (proj2 (IH _ l) (conj Hl H)).
Qed.

Lemma lookup_store m a l x :
  store m a l !! x =
  if decide (a <= x < a + Z.of_nat (length l)) then l !! Z.to_nat (x - a) else m !! x.
Proof.
  revert a. induction l as [|b l IH]; intros a; cbn [store length].
  - by rewrite decide_False by lia.
  - destruct (decide (x = a)) as [->|Hne].
    + rewrite lookup_insert_eq, decide_True by lia. by rewrite Z.sub_diag.
    + rewrite lookup_insert_ne by done. rewrite IH.
      destruct (decide (a + 1 <= x < _)).
      * rewrite decide_True by lia. replace (Z.to_nat (x - a)) with (S (Z.to_nat (x - (a + 1)))) by lia. done.
      * by rewrite decide_False by lia.
Qed.

Lemma load_store m a l : load (store m a l) a (length l) = Some l.
Proof.
  apply load_Some. split; [done|]. intros i Hi. rewrite lookup_store, decide_True by lia. f_equal. lia.
Qed.

(** Reading a part of what can be read. *)
Lemma load_slice m a l off n :
  load m a (length l) = Some l -> (off + n <= length l)%nat ->
  load m (a + Z.of_nat off) n = Some (slice off n l).
Proof.
  intros [_ H]%load_Some Hn. apply load_Some. split; [by apply length_slice|]. intros i Hi.
  replace (a + Z.of_nat off + Z.of_nat i) with (a + Z.of_nat (off + i)) by lia.
  rewrite H by lia. unfold slice. by rewrite lookup_take_lt, lookup_drop by lia.
Qed.

(** Writing the part in which two blocks differ is writing the block. *)
Lemma store_part m a old new off n :
  load m a (length old) = Some old -> length new = length old -> (off + n <= length old)%nat ->
  take off new = take off old -> drop (off + n) new = drop (off + n) old ->
  store m (a + Z.of_nat off) (slice off n new) = store m a new.
Proof.
  intros [_ H]%load_Some Hl Hn Ht Hd. apply map_eq. intros x. rewrite !lookup_store.
  rewrite length_slice by lia. unfold slice.
  destruct (decide (a + Z.of_nat off <= x < _)) as [Hin|Hout].
  - rewrite decide_True by lia. rewrite lookup_take_lt, lookup_drop by lia. f_equal. lia.
  - destruct (decide (a <= x < _)) as [Hb|]; [|done].
    replace x with (a + Z.of_nat (Z.to_nat (x - a))) at 1 by lia. rewrite H by lia.
    set (i := Z.to_nat (x - a)). destruct (decide (i < off)%nat) as [Hi|Hi].
    + by rewrite <- (lookup_take_lt old off), <- (lookup_take_lt new off), Ht by done.
    + apply (f_equal (fun l => l !! (i - (off + n))%nat)) in Hd. rewrite !lookup_drop in Hd.
      by replace (off + n + (i - (off + n)))%nat with i in Hd by lia.
Qed.

(** ** State *)

Record Console := {
  k_pid : Z;                          (** the process of ShellUI *)
  k_sdk : Z;                          (** [kernel_get_fw_version] *)
  k_auth : Z; k_caps : list Z;        (** credentials of the caller *)
  k_attached : bool;
  k_memory : gmap Z Z;                (** bytes of ShellUI *)
  k_protection : gmap Z Z;            (** by page number *)
  k_files : Path -> option (list Z);
  k_handle : option (Path * list Z)   (** the open file and what is left to read of it *)
}.

Definition with_credentials (auth : Z) (caps : list Z) (s : Console) : Console := {|
  k_pid := k_pid s; k_sdk := k_sdk s; k_auth := auth; k_caps := caps; k_attached := k_attached s;
  k_memory := k_memory s; k_protection := k_protection s; k_files := k_files s; k_handle := k_handle s |}.

Definition with_attached (b : bool) (s : Console) : Console := {|
  k_pid := k_pid s; k_sdk := k_sdk s; k_auth := k_auth s; k_caps := k_caps s; k_attached := b;
  k_memory := k_memory s; k_protection := k_protection s; k_files := k_files s; k_handle := k_handle s |}.

Definition with_code (memory protection : gmap Z Z) (s : Console) : Console := {|
  k_pid := k_pid s; k_sdk := k_sdk s; k_auth := k_auth s; k_caps := k_caps s; k_attached := k_attached s;
  k_memory := memory; k_protection := protection; k_files := k_files s; k_handle := k_handle s |}.

Definition with_files (files : Path -> option (list Z)) (handle : option (Path * list Z))
    (s : Console) : Console := {|
  k_pid := k_pid s; k_sdk := k_sdk s; k_auth := k_auth s; k_caps := k_caps s; k_attached := k_attached s;
  k_memory := k_memory s; k_protection := k_protection s; k_files := files; k_handle := handle |}.

Definition set_file (p : Path) (v : option (list Z)) (files : Path -> option (list Z)) :
    Path -> option (list Z) :=
  fun x => if decide (x = p) then v else files x.

(** The pages of [n > 0] bytes. *)
Definition pages (a n : Z) : list Z :=
  seqZ (a / kPs5CodePageSize) ((a + n - 1) / kPs5CodePageSize - a / kPs5CodePageSize + 1).

Definition writable (prot : Z) : bool := negb (Z.land prot PROT_WRITE =? 0).

(** The firmwares whose debugger interfaces do not write to a page that is not writable. *)
Definition strict (s : Console) : bool :=
  (family_of (u32 (k_sdk s)) =? 0x09000000) || firmware_is_fw1160 (u32 (k_sdk s)).

Definition mapped (s : Console) (a : Z) (n : nat) : bool := bool_decide (is_Some (load (k_memory s) a n)).
Definition may_write (s : Console) (a : Z) (n : nat) : bool :=
  mapped s a n &&
  (negb (strict s) ||
   forallb (fun p => match k_protection s !! p with Some v => writable v | None => false end)
     (pages a (Z.of_nat n))).

(** Who may use the debugger, and who the MDBG system call. *)
Definition debugging (s : Console) (p : Z) : bool :=
  k_attached s && (k_auth s =? kPtraceAuthId) && (p =? k_pid s).
Definition coredump (s : Console) (p : Z) : bool :=
  (k_auth s =? kCoredumpAuth) && bytes_eqb (k_caps s) privileged_caps && (p =? k_pid s).

Definition stored (s : Console) (a : Z) (b : list Z) : Console :=
  with_code (store (k_memory s) a b) (k_protection s) s.
Definition protected (s : Console) (a n prot : Z) : Console :=
  with_code (k_memory s) (foldr (fun p m => <[p := prot]> m) (k_protection s) (pages a n)) s.

Definition answer (b : bool) (s : Console) : option Console := if b then Some s else None.

(** The bytes come back, or the call reports an error. *)
Definition copied_out (s : Console) (allowed : bool) (a : Z) (n : nat) (rc : Z) (data : list Z) :
    option Console :=
  if allowed && mapped s a n then answer ((rc =? 0) && bool_decide (load (k_memory s) a n = Some data)) s
  else answer (negb (rc =? 0)) s.

Definition copied_in (s : Console) (allowed : bool) (a : Z) (b : list Z) (rc : Z) : option Console :=
  if allowed && may_write s a (length b) then answer (rc =? 0) (stored s a b)
  else answer (negb (rc =? 0)) s.

(** Every call that is in order succeeds, every other one reports an error and changes
    nothing.  The debugger of firmware 11.60 may answer EFAULT to any copy; an MDBG read
    may transfer less than was asked for, but something. *)
Definition documented (s : Console) (e : event sys_ret) : option Console :=
  match e with
  | Ev GetAuth r => answer (r =? k_auth s) s
  | Ev (SetAuth v) rc => answer (rc =? 0) (with_credentials v (k_caps s) s)
  | Ev GetCaps r => answer (bool_decide (r = Some (k_caps s))) s
  | Ev (SetCaps v) rc => answer (rc =? 0) (with_credentials (k_auth s) v s)
  | Ev (MdbgRead p a n) x =>
      if coredump s p && (0 <? n) then
        match load (k_memory s) a (Z.to_nat n) with
        | Some data =>
            answer ((x_rc x =? 0) && (x_status x =? 0) && (0 <? x_length x) && (x_length x <=? n) &&
                    bool_decide (x_data x = take (Z.to_nat (x_length x)) data)) s
        | None => answer (negb (x_status x =? 0)) s
        end
      else answer (negb (x_rc x =? 0)) s
  | Ev (MdbgWrite p a b) x =>
      if coredump s p && may_write s a (length b)
      then answer ((x_rc x =? 0) && (x_status x =? 0) && (x_length x =? Z.of_nat (length b))) (stored s a b)
      else answer (negb (x_rc x =? 0)) s
  | Ev (MdbgCopyout p a n) r => copied_out s (p =? k_pid s) a n r.1 r.2
  | Ev (MdbgCopyin p a b) rc => copied_in s (p =? k_pid s) a b rc
  | Ev (PtCopyout p a n) r =>
      if firmware_is_fw1160 (u32 (k_sdk s)) && (r.1 =? EFAULT) then Some s
      else copied_out s (debugging s p) a n r.1 r.2
  | Ev (PtCopyin p a b) r =>
      if firmware_is_fw1160 (u32 (k_sdk s)) && (r.1 =? -1) && (r.2 =? EFAULT) then Some s
      else copied_in s (debugging s p) a b r.1
  | Ev (PtAttach p) rc =>
      if negb (k_attached s) && (k_auth s =? kPtraceAuthId) && (p =? k_pid s)
      then answer (rc =? 0) (with_attached true s) else answer (negb (rc =? 0)) s
  | Ev (PtDetach p) rc =>
      if debugging s p then answer (rc =? 0) (with_attached false s) else answer (negb (rc =? 0)) s
  | Ev (KillCont _) _ => Some s
  | Ev (GetProt p a) r =>
      match k_protection s !! (a / kPs5CodePageSize) with
      | Some v => if p =? k_pid s then answer (r =? v) s else answer (r <? 0) s
      | None => answer (r <? 0) s
      end
  | Ev (Mprotect p a n v) rc =>
      if (p =? k_pid s) && forallb (fun i => bool_decide (is_Some (k_protection s !! i))) (pages a n)
      then answer (rc =? 0) (protected s a n v) else answer (negb (rc =? 0)) s
  | Ev FirmwareSdk r => answer (r =? k_sdk s) s
  | Ev (FOpen p false) r =>
      match k_files s p with
      | Some b => answer r (with_files (k_files s) (Some (p, b)) s)
      | None => answer (negb r) s
      end
  | Ev (FOpen p true) r =>
      answer r (with_files (set_file p (Some []) (k_files s)) (Some (p, [])) s)
  | Ev (FRead n) r =>
      match k_handle s with
      | Some (p, rest) => answer (bool_decide (r = take n rest)) (with_files (k_files s) (Some (p, drop n rest)) s)
      | None => answer (bool_decide (r = [])) s
      end
  | Ev FGetc r =>
      match k_handle s with
      | Some (p, rest) => answer (bool_decide (r = head rest)) (with_files (k_files s) (Some (p, tail rest)) s)
      | None => answer (bool_decide (r = None)) s
      end
  | Ev (FWrite b) n =>
      match k_handle s with
      | Some (p, rest) =>
          answer (n =? Z.of_nat (length b))
            (with_files (set_file p (Some (default [] (k_files s p) ++ b)) (k_files s)) (Some (p, rest)) s)
      | None => answer (n =? 0) s
      end
  | Ev FFlush rc => answer (rc =? 0) s
  | Ev FClose rc => answer (rc =? 0) (with_files (k_files s) None s)
  | Ev (Rename from to) rc =>
      match k_files s from with
      | Some b => answer (rc =? 0) (with_files (set_file from None (set_file to (Some b) (k_files s))) (k_handle s) s)
      | None => answer (negb (rc =? 0)) s
      end
  | Ev (Unlink p) _ => Some (with_files (set_file p None (k_files s)) (k_handle s) s)
  end.

Lemma answer_true s : answer true s = Some s.
Proof. done. Qed.

(** Every call has a documented answer: the hypothesis can always be met. *)
Lemma documented_total s c : exists r s', documented s (Ev c r) = Some s'.
Proof.
  assert (forall (b : bool) a, exists rc s', (if b then answer (rc =? 0) a else answer (negb (rc =? 0)) s) = Some s')
    as Hrc by (intros [] a; [by exists 0, a|by exists 1, s]).
  assert (forall (allowed : bool) a n, exists r : Z * list Z, exists s', copied_out s allowed a n r.1 r.2 = Some s' /\ r.1 <> EFAULT)
    as Hout.
  { intros allowed a n. unfold copied_out, mapped. destruct allowed; cbn [andb].
    - case_bool_decide as H; [destruct H as [l Hl]; exists (0, l), s|by exists (1, []), s].
      rewrite Hl. by rewrite bool_decide_eq_true_2.
    - by exists (1, []), s. }
  assert (forall allowed a b, exists rc s', copied_in s allowed a b rc = Some s' /\ rc <> -1) as Hin.
  { intros allowed a b. unfold copied_in. destruct (_ && _); [by exists 0, (stored s a b)|by exists 1, s]. }
  destruct c; cbn [documented].
  - exists (k_auth s), s. by rewrite Z.eqb_refl.
  - by eexists 0, _.
  - exists (Some (k_caps s)), s. by rewrite bool_decide_eq_true_2 by done.
  - by eexists 0, _.
  - set (reply := fun rc st n l => {| x_rc := rc; x_errno := 1; x_status := st; x_length := n; x_data := l |}).
    destruct (_ && _) eqn:E; [|by exists (reply 1 0 0 []), s]. apply andb_true_iff in E as [_ E].
    destruct (load _ _ _) as [data|]; [|by exists (reply 0 1 0 []), s].
    exists (reply 0 0 size (take (Z.to_nat size) data)), s.
    cbn. by rewrite E, Z.leb_refl, bool_decide_eq_true_2.
  - set (reply := fun rc n => {| x_rc := rc; x_errno := 1; x_status := 0; x_length := n; x_data := [] |}).
    destruct (_ && _); [exists (reply 0 (Z.of_nat (length bytes)))|by exists (reply 1 0), s].
    eexists. cbn. by rewrite Z.eqb_refl.
  - destruct (Hout (pid =? k_pid s) address size) as (r & s' & H & _). by exists r, s'.
  - destruct (Hin (pid =? k_pid s) address bytes) as (r & s' & H & _). by exists r, s'.
  - destruct (Hout (debugging s pid) address size) as (r & s' & H & Hne). exists r, s'.
    apply Z.eqb_neq in Hne. by rewrite Hne, andb_false_r.
  - destruct (Hin (debugging s pid) address bytes) as (r & s' & H & Hne). exists (r, 0), s'.
    apply Z.eqb_neq in Hne. cbn [fst snd]. by rewrite Hne, andb_false_r.
  - apply Hrc.
  - apply Hrc.
  - by exists 0, s.
  - destruct (k_protection s !! _) as [v|]; [|by exists (-1), s].
    destruct (pid =? k_pid s); [exists v, s|by exists (-1), s]. by rewrite Z.eqb_refl.
  - apply Hrc.
  - exists (k_sdk s), s. by rewrite Z.eqb_refl.
  - destruct write; [by eexists true, _|]. destruct (k_files s p); [by eexists true, _|by exists false, s].
  - destruct (k_handle s) as [[p rest]|]; [exists (take size rest)|exists []]; eexists; by rewrite bool_decide_eq_true_2.
  - destruct (k_handle s) as [[p rest]|]; [exists (head rest)|exists None]; eexists; by rewrite bool_decide_eq_true_2.
  - destruct (k_handle s) as [[p rest]|]; [exists (Z.of_nat (length bytes))|exists 0]; eexists; by rewrite ?Z.eqb_refl.
  - by exists 0, s.
  - by eexists 0, _.
  - destruct (k_files s from) as [b|]; [by eexists 0, _|by exists 1, s].
  - by eexists 0, _.
Qed.

(** ** What the calls of the controller give

    One rule per call, for a call that is in order. *)

Abbreviation krely := (rely documented).

Lemma answer_inv b s s' : answer b s = Some s' -> b = true /\ s' = s.
Proof. unfold answer. destruct b; [by intros [= <-]|done]. Qed.

Lemma rely_call c s Q :
  (forall r s', documented s (Ev c r) = Some s' -> Q r s') -> krely (sysc c) s Q.
Proof. intros H r s' Hs. by apply H. Qed.

(** A call that succeeds. *)
Lemma rely_answer c s (b : sys_ret c -> bool) s1 Q :
  (forall r, documented s (Ev c r) = answer (b r) s1) -> (forall r, b r = true -> Q r s1) ->
  krely (sysc c) s Q.
Proof. intros H HQ. apply rely_call. intros r s'. rewrite H. intros [Hb ->]%answer_inv. by apply HQ. Qed.

Lemma rely_value c s (f : sys_ret c -> Z) (v : Z) s1 (Q : sys_ret c -> Console -> Prop) :
  (forall r, documented s (Ev c r) = answer (f r =? v) s1) -> (forall r, f r = v -> Q r s1) ->
  krely (sysc c) s Q.
Proof. intros H HQ. apply (rely_answer _ _ _ _ _ H). intros r Hb%Z.eqb_eq. by apply HQ. Qed.

Lemma get_auth s (Q : Z -> Console -> Prop) : Q (k_auth s) s -> krely (sysc GetAuth) s Q.
Proof. intros HQ. apply (rely_value GetAuth s id _ s Q (fun _ => eq_refl)). unfold id. by intros r ->. Qed.

Lemma set_auth v s (Q : Z -> Console -> Prop) :
  Q 0 (with_credentials v (k_caps s) s) -> krely (sysc (SetAuth v)) s Q.
Proof. intros HQ. apply (rely_value (SetAuth v) s id _ _ Q (fun _ => eq_refl)). unfold id. by intros r ->. Qed.

Lemma get_caps s (Q : option (list Z) -> Console -> Prop) :
  Q (Some (k_caps s)) s -> krely (sysc GetCaps) s Q.
Proof.
  intros HQ. apply (rely_answer GetCaps s _ s Q (fun _ => eq_refl)). by intros r ->%bool_decide_eq_true.
Qed.

Lemma set_caps v s (Q : Z -> Console -> Prop) :
  Q 0 (with_credentials (k_auth s) v s) -> krely (sysc (SetCaps v)) s Q.
Proof. intros HQ. apply (rely_value (SetCaps v) s id _ _ Q (fun _ => eq_refl)). unfold id. by intros r ->. Qed.

Lemma pt_attach s (Q : Z -> Console -> Prop) :
  k_attached s = false -> k_auth s = kPtraceAuthId -> Q 0 (with_attached true s) ->
  krely (sysc (PtAttach (k_pid s))) s Q.
Proof.
  intros Ha Hk HQ. apply (rely_value (PtAttach (k_pid s)) s id 0 (with_attached true s)); [|unfold id; by intros r ->].
  intros r. cbn [documented]. by rewrite Ha, Hk, !Z.eqb_refl.
Qed.

Definition is_debugging (s : Console) : Prop := k_attached s = true /\ k_auth s = kPtraceAuthId.

Lemma is_debugging_true s : is_debugging s -> debugging s (k_pid s) = true.
Proof. intros [Ha Hk]. unfold debugging. by rewrite Ha, Hk, !Z.eqb_refl. Qed.

Lemma pt_detach s (Q : Z -> Console -> Prop) :
  is_debugging s -> Q 0 (with_attached false s) -> krely (sysc (PtDetach (k_pid s))) s Q.
Proof.
  intros Hd HQ. apply (rely_value (PtDetach (k_pid s)) s id 0 (with_attached false s)); [|unfold id; by intros r ->].
  intros r. cbn [documented]. by rewrite is_debugging_true by done.
Qed.

Lemma kill_cont p s (Q : Z -> Console -> Prop) : (forall r, Q r s) -> krely (sysc (KillCont p)) s Q.
Proof. intros HQ. apply rely_call. intros r s' [= <-]. apply HQ. Qed.

Lemma load_mapped s a n l : load (k_memory s) a n = Some l -> mapped s a n = true.
Proof. intros H. unfold mapped. apply bool_decide_eq_true_2. by eexists. Qed.

Lemma copied_out_inv s a n l rc data s' :
  load (k_memory s) a n = Some l -> copied_out s true a n rc data = Some s' ->
  rc = 0 /\ data = l /\ s' = s.
Proof.
  intros Hl. unfold copied_out. rewrite (load_mapped _ _ _ _ Hl), Hl. cbn [andb].
  intros [H ->]%answer_inv. apply andb_true_iff in H as [->%Z.eqb_eq H].
  apply bool_decide_eq_true in H. by simplify_eq.
Qed.

Lemma pt_copyout s a n l (Q : Z * list Z -> Console -> Prop) :
  is_debugging s -> load (k_memory s) a n = Some l -> Q (0, l) s ->
  (firmware_is_fw1160 (u32 (k_sdk s)) = true -> forall raw, Q (EFAULT, raw) s) ->
  krely (sysc (PtCopyout (k_pid s) a n)) s Q.
Proof.
  intros Hd Hl HQ HF. apply rely_call. intros [rc raw] s' H. cbn [documented fst snd] in H.
  destruct (_ && _) eqn:E.
  - injection H as <-. apply andb_true_iff in E as [E ->%Z.eqb_eq]. by apply HF.
  - rewrite is_debugging_true in H by done. by apply (copied_out_inv _ _ _ l) in H as (-> & -> & ->).
Qed.

Lemma mdbg_copyout s a n l (Q : Z * list Z -> Console -> Prop) :
  load (k_memory s) a n = Some l -> Q (0, l) s -> krely (sysc (MdbgCopyout (k_pid s) a n)) s Q.
Proof.
  intros Hl HQ. apply rely_call. intros [rc raw] s' H. cbn [documented fst snd] in H.
  rewrite Z.eqb_refl in H. by apply (copied_out_inv _ _ _ l) in H as (-> & -> & ->).
Qed.

Lemma pt_copyin s a b (Q : Z * Z -> Console -> Prop) :
  is_debugging s -> may_write s a (length b) = true -> (forall err, Q (0, err) (stored s a b)) ->
  (firmware_is_fw1160 (u32 (k_sdk s)) = true -> Q (-1, EFAULT) s) ->
  krely (sysc (PtCopyin (k_pid s) a b)) s Q.
Proof.
  intros Hd Hw HQ HF. apply rely_call. intros [rc err] s' H. cbn [documented fst snd] in H.
  destruct (_ && _) eqn:E.
  - injection H as <-. rewrite !andb_true_iff, !Z.eqb_eq in E. destruct E as [[E ->] ->]. by apply HF.
  - unfold copied_in in H. rewrite is_debugging_true, Hw in H by done.
    by apply answer_inv in H as [->%Z.eqb_eq ->].
Qed.

Lemma mdbg_copyin s a b (Q : Z -> Console -> Prop) :
  may_write s a (length b) = true -> Q 0 (stored s a b) -> krely (sysc (MdbgCopyin (k_pid s) a b)) s Q.
Proof.
  intros Hw HQ. apply (rely_value (MdbgCopyin (k_pid s) a b) s id 0 (stored s a b)); [|unfold id; by intros r ->].
  intros r. cbn [documented]. unfold copied_in. by rewrite Z.eqb_refl, Hw.
Qed.

Lemma get_prot s a v (Q : Z -> Console -> Prop) :
  k_protection s !! (a / kPs5CodePageSize) = Some v -> Q v s -> krely (sysc (GetProt (k_pid s) a)) s Q.
Proof.
  intros Hv HQ. apply (rely_value (GetProt (k_pid s) a) s id v s); [|unfold id; by intros r ->].
  intros r. cbn [documented]. by rewrite Hv, Z.eqb_refl.
Qed.

(** The protection of bytes of one page. *)
Definition set_page (s : Console) (a prot : Z) : Console :=
  with_code (k_memory s) (<[a / kPs5CodePageSize := prot]> (k_protection s)) s.

Lemma mprotect s a n v old (Q : Z -> Console -> Prop) :
  pages a n = [a / kPs5CodePageSize] -> k_protection s !! (a / kPs5CodePageSize) = Some old ->
  Q 0 (set_page s a v) -> krely (sysc (Mprotect (k_pid s) a n v)) s Q.
Proof.
  intros Hp Hv HQ. apply (rely_value (Mprotect (k_pid s) a n v) s id 0 (set_page s a v)); [|unfold id; by intros r ->].
  intros r. cbn [documented]. unfold protected, set_page. rewrite Hp, Z.eqb_refl. cbn [andb forallb foldr].
  by rewrite Hv.
Qed.

Lemma firmware_sdk s (Q : Z -> Console -> Prop) : Q (k_sdk s) s -> krely (sysc FirmwareSdk) s Q.
Proof. intros HQ. apply (rely_value FirmwareSdk s id _ s Q (fun _ => eq_refl)). unfold id. by intros r ->. Qed.

Lemma unlink p s (Q : Z -> Console -> Prop) :
  (forall r, Q r (with_files (set_file p None (k_files s)) (k_handle s) s)) -> krely (sysc (Unlink p)) s Q.
Proof. intros HQ. apply rely_call. intros r s' [= <-]. apply HQ. Qed.
