(* ===== verification/HookServed.v ===== *)
(** A valid request is served: on a console that answers as documented ([Console]), one
    poll of the controller ([HookController.poll_and_apply_shellui_hook]) makes exactly the
    change the request asks for, gives everything else back and publishes the
    acknowledgement that the renderer waits for; a request whose expected bytes are not
    the code is refused without a change. *)
From S2P Require Import Prelude Effects HookProtocol Mono RendererHook HookHandshake Debugger GuardWrite HookController HookSafety Console.

(** ** Files *)

Lemma map_u8_id l : bytes_ok l -> map u8 l = l.
Proof.
  induction 1 as [|b l Hb Hl IH]; cbn [map]; [done|]. rewrite IH. f_equal. by apply wrap_small.
Qed.

Lemma read_exact_file_served p n b s Q :
  k_files s p = Some b -> length b = n -> bytes_ok b ->
  Q (Some b) (with_files (k_files s) None s) -> krely (read_exact_file p n) s Q.
Proof.
  intros Hf Hn Hb HQ. unfold read_exact_file. apply rely_bind, rely_call.
  intros r s1 H. cbn [documented] in H. rewrite Hf in H. apply answer_inv in H as [-> ->]. cbn [negb].
  apply rely_bind, rely_call. intros raw s2 H. cbn [documented with_files k_handle k_files] in H.
  apply answer_inv in H as [->%bool_decide_eq_true ->].
  apply rely_bind, rely_call. intros r s3 H. cbn [documented with_files k_handle k_files] in H.
  apply answer_inv in H as [->%bool_decide_eq_true ->].
  apply rely_bind, rely_call. intros r s4 H. cbn [documented with_files k_handle k_files] in H.
  apply answer_inv in H as [_ ->]. cbn [rely].
  rewrite (take_ge b), (drop_ge b), map_u8_id, (take_ge b), Hn, Nat.eqb_refl by (done || lia).
  rewrite bool_decide_eq_true_2 by done. exact HQ.
Qed.

(** The acknowledgement is published under its name, the temporary file is gone. *)
Definition published (b : list Z) (s : Console) : Console :=
  with_files (set_file AckTempPath None (set_file AckPath (Some b)
    (set_file AckTempPath (Some b) (set_file AckTempPath (Some []) (k_files s))))) None s.

Lemma write_ack_served q c s Q :
  Q tt (published (ack_bytes (make_ack q c)) s) -> krely (write_ack q c) s Q.
Proof.
  intros HQ. unfold write_ack. set (b := ack_bytes (make_ack q c)) in *. clearbody b.
  apply rely_bind. unfold write_exact_file_atomic.
  apply rely_bind, rely_call. intros r s1 H. cbn [documented] in H. apply answer_inv in H as [-> ->]. cbn [negb].
  apply rely_bind, rely_call. intros r s2 H. cbn [documented with_files k_handle k_files] in H.
  apply answer_inv in H as [->%Z.eqb_eq ->]. rewrite Z.eqb_refl.
  apply rely_bind, rely_bind, rely_call. intros r s3 H. cbn [documented] in H.
  apply answer_inv in H as [->%Z.eqb_eq ->]. cbn [rely].
  apply rely_bind, rely_call. intros r s4 H. cbn [documented with_files k_handle k_files] in H.
  apply answer_inv in H as [->%Z.eqb_eq ->]. cbn [Z.eqb negb orb].
  apply rely_bind, rely_call. intros r s5 H. cbn [documented with_files k_handle k_files] in H.
  unfold set_file in H at 1. rewrite decide_True in H by done.
  apply answer_inv in H as [->%Z.eqb_eq ->]. cbn [Z.eqb negb rely].
  cbn [default app]. exact HQ.
Qed.

(** ** MDBG transfers *)

(** Credentials that the transfers can save and give back. *)
Definition sound_credentials (s : Console) : Prop :=
  k_auth s <> 0 /\ length (k_caps s) = 16%nat /\ bytes_ok (k_caps s).

Lemma buffer_id n l : length l = n -> bytes_ok l -> buffer n l = l.
Proof. intros <- Hb. unfold buffer. rewrite map_u8_id by done. by rewrite take_app_le, take_ge by lia. Qed.

Lemma with_code_id s : with_code (k_memory s) (k_protection s) s = s.
Proof. by destruct s. Qed.

Definition raised (s : Console) : Console := with_credentials kCoredumpAuth privileged_caps s.

Lemma transfer_exact_served write address size (D : list Z -> Prop) m s (Q : Z * list Z -> Console -> Prop) :
  0 < k_pid s -> 0 < size <= 16 -> (write <> None -> size = 1) ->
  0x10000 <= address -> address + size <= 0x0000800000000000 -> sound_credentials s ->
  krely (debugger_transfer_exact size (mdbg_chunk write (k_pid s) address)) (raised s)
    (fun r s' => r.1 = 0 /\ D r.2 /\ s' = raised (with_code m (k_protection s) s)) ->
  (forall d, D d -> Q (0, d) (with_code m (k_protection s) s)) ->
  krely (transfer_exact write (k_pid s) address size) s Q.
Proof.
  intros Hp Hsz Hw Ha1 Ha2 (Hauth & Hcl & Hcb) Hin HQ. unfold transfer_exact.
  assert (((k_pid s <=? 0) || (size =? 0) || (Z.of_nat kShellUiHookPatchSize <? size) ||
           (bool_decide (write <> None) && negb (size =? 1)) || negb (shellui_user_address address) ||
           negb (shellui_user_address (u64 (u64 (address + size) - 1)))) = false) as ->.
  { rewrite (wrap_small 64 (address + size)), (wrap_small 64) by (unfold in_u; lia).
    unfold shellui_user_address. change (Z.of_nat kShellUiHookPatchSize) with 16.
    rewrite !orb_false_iff, !negb_false_iff, !andb_true_iff, andb_false_iff, negb_false_iff.
    assert (bool_decide (write <> None) = false \/ (size =? 1) = true).
    { destruct (decide (write = None)) as [->|Hne]; [left; by apply bool_decide_eq_false_2; intros []|].
      right. by rewrite (Hw Hne). }
    split_and!; try done; breflect; lia. }
  apply rely_bind, get_auth. apply Z.eqb_neq in Hauth. rewrite Hauth. apply rely_bind, get_caps.
  rewrite (buffer_id 16) by done. apply rely_bind, set_auth. rewrite Z.eqb_refl.
  apply rely_bind, rely_bind, set_caps. rewrite Z.eqb_refl.
  refine (rely_mono _ _ _ _ _ _ Hin). intros [r d] s1 (H0 & Hd & ->). cbn [fst snd] in H0, Hd. subst r.
  apply rely_bind, set_auth. apply rely_bind, set_caps. rewrite !Z.eqb_refl.
  apply rely_bind, rely_bind, get_auth. cbn [rely].
  apply rely_bind, rely_bind, get_caps. cbn [rely k_auth k_caps with_credentials].
  rewrite (buffer_id 16), bytes_eqb_refl, Z.eqb_refl by done. by apply HQ.
Qed.

(** The chunks of a read are contiguous and add up to the whole, whatever their sizes. *)
Lemma transfer_loop_served fuel address size offset l s (Q : Z * list Z -> Console -> Prop) :
  k_auth s = kCoredumpAuth -> k_caps s = privileged_caps ->
  load (k_memory s) address (length l) = Some l -> bytes_ok l -> size = Z.of_nat (length l) ->
  0 <= offset <= size -> 0 <= address -> address + size < 2 ^ 64 -> size - offset <= Z.of_nat fuel ->
  Q (0, l) s ->
  krely (transfer_loop fuel size offset (take (Z.to_nat offset) l) (mdbg_chunk None (k_pid s) address)) s Q.
Proof.
  intros Hau Hca Hl Hb -> Ho Ha Hmax. revert offset Ho. induction fuel as [|fuel IH]; intros offset Ho Hf HQ;
    cbn [transfer_loop].
  { rewrite (proj2 (Z.leb_le _ _)) by lia. rewrite take_ge by lia. exact HQ. }
  destruct (Z.of_nat (length l) <=? offset) eqn:E; breflect.
  { rewrite take_ge by lia. exact HQ. }
  apply rely_bind, rely_bind, rely_call. intros x s' H. cbn [documented] in H.
  rewrite wrap_small in H by (unfold in_u; lia).
  unfold coredump in H. rewrite Hau, Hca, bytes_eqb_refl, !Z.eqb_refl in H.
  rewrite (proj2 (Z.ltb_lt 0 _)) in H by lia. cbn [andb] in H.
  replace (address + offset) with (address + Z.of_nat (Z.to_nat offset)) in H by lia.
  rewrite (load_slice _ _ l) in H by (done || lia).
  apply answer_inv in H as [H ->]. rewrite !andb_true_iff in H. destruct H as [[[[Hrc Hst] Hpos] Hlen] Hd].
  breflect. apply bool_decide_eq_true in Hd. cbn [rely].
  assert (u64 (x_length x) = x_length x) as Hu by (apply wrap_small; unfold in_u; lia).
  unfold chunk_error. cbn [ch_syscall_rc ch_status ch_bytes]. rewrite Hu, Hrc, Hst.
  change (errno_of 0 (x_errno x)) with 0. cbn [Z.eqb negb andb].
  replace ((x_length x =? 0) || (Z.of_nat (length l) - offset <? x_length x)) with false
    by (symmetry; apply orb_false_iff; split; breflect; lia).
  cbn [Z.eqb negb]. rewrite Z.min_r by lia. rewrite Hd. unfold slice. rewrite take_take, Nat.min_l by lia.
  rewrite buffer_id by first [by apply Forall_take, Forall_drop | rewrite length_take, length_drop; lia].
  replace (take (Z.to_nat offset) l ++ take (Z.to_nat (x_length x)) (drop (Z.to_nat offset) l))
    with (take (Z.to_nat (offset + x_length x)) l).
  - apply IH; [lia|lia|exact HQ].
  - rewrite Z2Nat.inj_add by lia. by rewrite take_take_drop.
Qed.

Lemma mdbg_read_served address l s (Q : Z * list Z -> Console -> Prop) :
  0 < k_pid s -> (0 < length l <= 16)%nat -> 0x10000 <= address ->
  address + Z.of_nat (length l) <= 0x0000800000000000 -> sound_credentials s ->
  load (k_memory s) address (length l) = Some l -> bytes_ok l -> Q (0, l) s ->
  krely (shellui_mdbg_read_exact (k_pid s) address (length l)) s Q.
Proof.
  intros Hp Hn Ha1 Ha2 Hc Hl Hb HQ.
  apply (transfer_exact_served _ _ _ (fun d => d = l) (k_memory s)); try done; try lia;
    [|by intros d ->; rewrite with_code_id].
  unfold debugger_transfer_exact. rewrite (proj2 (Z.eqb_neq _ _)) by lia.
  apply (transfer_loop_served _ _ _ 0 l (raised s)); try done; lia.
Qed.

Lemma mdbg_write_byte_served address byte s (Q : Z -> Console -> Prop) :
  0 < k_pid s -> 0x10000 <= address -> address + 1 <= 0x0000800000000000 -> sound_credentials s ->
  may_write s address 1 = true -> Q 0 (stored s address [byte]) ->
  krely (shellui_mdbg_write_byte (k_pid s) address byte) s Q.
Proof.
  intros Hp Ha1 Ha2 Hc Hw HQ. apply rely_bind.
  apply (transfer_exact_served _ _ _ (fun _ => True) (store (k_memory s) address [byte])); try done; try lia.
  unfold debugger_transfer_exact, mdbg_chunk. change (Z.to_nat 1) with 1%nat. cbn [Z.eqb transfer_loop].
  change (1 <=? 0) with false. cbv beta iota. apply rely_bind, rely_bind, (rely_call (MdbgWrite (k_pid s) _ [byte])). intros x s' H. cbn [documented] in H.
  rewrite Z.add_0_r, wrap_small in H by (unfold in_u; lia).
  assert (coredump (raised s) (k_pid s) = true) as Hcore.
  { unfold coredump. cbn. by rewrite bytes_eqb_refl, Z.eqb_refl. }
  rewrite Hcore, (Hw : may_write (raised s) address (length [byte]) = true) in H. cbn [andb] in H.
  apply answer_inv in H as [H ->]. rewrite !andb_true_iff, !Z.eqb_eq in H. destruct H as [[Hrc Hst] Hlen].
  cbn [rely]. unfold chunk_error. cbn [ch_syscall_rc ch_status ch_bytes]. rewrite Hlen, Hrc, Hst. cbn. done.
Qed.

(** ** The code of the target *)

(** A stopped ShellUI whose request is in order. *)
Record target_served (t : Target) (s : Console) : Prop := {
  ts_pid : t_pid t = k_pid s; ts_positive : 0 < k_pid s;
  ts_sdk : t_sdk t = u32 (k_sdk s); ts_backend : t_backend t <> Unsupported;
  ts_low : 0x10000 <= q_method_address (t_request t);
  ts_high : q_method_address (t_request t) + 15 < 0x0000800000000000;
  ts_credentials : sound_credentials s; ts_debugging : is_debugging s
}.

Definition code_is (t : Target) (s : Console) (l : list Z) : Prop :=
  load (k_memory s) (q_method_address (t_request t)) kShellUiHookPatchSize = Some l /\
  length l = kShellUiHookPatchSize /\ bytes_ok l.

Lemma read_target_served t code s ses (Q : Z * list Z * Session -> Console -> Prop) :
  target_served t s -> code_is t s code ->
  (forall ses', s_guard ses' = s_guard ses -> Q (0, code, ses') s) -> krely (read_target t ses) s Q.
Proof.
  intros [Hpid Hpos Hsdk Hbe Hlo Hhi Hcred Hdbg] (Hload & Hlen & Hb) HQ.
  unfold read_target. rewrite Hpid. apply rely_bind.
  set (address := q_method_address (t_request t)) in *.
  (* the MDBG read, primary or fallback *)
  assert (forall Q' : Z * list Z -> Console -> Prop, Q' (0, code) s ->
    krely (if firmware_is_fw1160 (t_sdk t) then shellui_mdbg_read_exact (k_pid s) address kShellUiHookPatchSize
           else bindp (sysc (MdbgCopyout (k_pid s) address kShellUiHookPatchSize))
             (fun '(rc, raw) => Ret (rc, buffer kShellUiHookPatchSize raw))) s Q') as Hmdbg.
  { intros Q' HQ'. destruct (firmware_is_fw1160 _).
    - rewrite <- Hlen. apply mdbg_read_served; try done; rewrite ?Hlen; unfold kShellUiHookPatchSize; try done; lia.
    - apply rely_bind, (mdbg_copyout _ _ _ code); [done|]. cbn [rely]. by rewrite buffer_id. }
  assert (forall rd, rd_rc rd = 0 -> krely (Ret (rd, code) : sprog (ShellUiCodeReadResult * list Z)) s
    (fun a s' => krely (let '(r, data) := a in Ret (rd_rc r, data, after_read r ses)) s' Q)) as Hend.
  { intros rd H0. cbn [rely]. rewrite H0. by apply HQ. }
  unfold read_shellui_code. change (kShellUiHookPatchSize =? 0)%nat with false. cbn iota.
  destruct (t_backend t); [done| |].
  - apply rely_bind, Hmdbg. cbv beta iota. rewrite bool_decide_eq_false_2 by done. cbn [andb Z.eqb negb].
    by apply Hend.
  - apply rely_bind, rely_bind, (pt_copyout _ _ _ code); [done|done| |].
    + cbv beta iota. cbn [rely]. rewrite buffer_id by done. cbv beta iota.
      change (0 =? EFAULT) with false. rewrite andb_false_r. cbn [Z.eqb negb]. by apply Hend.
    + intros H1160 raw. cbv beta iota. cbn [rely]. rewrite Hsdk, H1160, Z.eqb_refl. cbn [andb].
      rewrite bool_decide_eq_true_2 by done. cbv beta iota.
      apply rely_bind. rewrite Hsdk, H1160 in Hmdbg. apply Hmdbg. cbv beta iota. cbn [Z.eqb negb]. by apply Hend.
Qed.

Definition kCodeProtection : Z := Z.lor PROT_READ PROT_EXEC.

Lemma page_of_byte a : pages a 1 = [a / kPs5CodePageSize].
Proof.
  unfold pages. replace (a + 1 - 1) with a by lia. rewrite Z.sub_diag. reflexivity.
Qed.

Lemma page_of_page a :
  in_u 64 a -> page_of a / kPs5CodePageSize = a / kPs5CodePageSize /\
  pages (page_of a) kPs5CodePageSize = [page_of a / kPs5CodePageSize].
Proof.
  intros Ha. rewrite (page_start a Ha). unfold pages, kPs5CodePageSize.
  set (i := a / 16384). split; [by rewrite Z.div_mul by lia|].
  replace ((i * 16384 + 16384 - 1) / 16384) with i
    by (apply (Z.div_unique_pos _ _ _ 16383); lia).
  rewrite Z.div_mul, Z.sub_diag by lia. reflexivity.
Qed.

(** Made writable, written and protected again. *)
Lemma set_page_back s a b v b' :
  k_protection s !! (a / kPs5CodePageSize) = Some v ->
  set_page (stored (set_page s a b') a b) a v = stored s a b.
Proof.
  intros Hv. unfold set_page, stored, with_code. cbn.
  by rewrite insert_insert_eq, (insert_id (k_protection s)).
Qed.

Lemma may_write_byte s a b v :
  k_memory s !! a = Some b -> writable v = true -> may_write (set_page s a v) a 1 = true.
Proof.
  intros Hb Hv. unfold may_write. rewrite (load_mapped _ _ _ [b]) by (cbn; by rewrite Hb).
  rewrite page_of_byte. cbn. rewrite lookup_insert_eq, Hv. by rewrite orb_true_r.
Qed.

(** The guarded write of one byte. *)
Lemma guard_byte_served a byte old s (Q : Z * ShellUiGuardWriteState -> Console -> Prop) :
  0 < k_pid s -> 0x10000 <= a -> a + 1 <= 0x0000800000000000 -> sound_credentials s -> is_debugging s ->
  k_protection s !! (a / kPs5CodePageSize) = Some kCodeProtection -> k_memory s !! a = Some old ->
  (forall g, Q (0, g) (stored s a [byte])) ->
  krely (shellui_write_guard_byte (k_pid s) a byte ShellUiGuardWriteState_init) s Q.
Proof.
  intros Hp Ha1 Ha2 Hc Hd Hprot Hold HQ. unfold shellui_write_guard_byte.
  rewrite (proj2 (Z.leb_gt _ _)) by lia.
  replace (shellui_user_address a) with true
    by (symmetry; unfold shellui_user_address; rewrite andb_true_iff; split; breflect; lia).
  cbn [ShellUiGuardWriteState_init GuardWrite.original_protection Z.leb Z.compare negb orb andb].
  apply rely_bind, (get_prot _ _ kCodeProtection); [done|]. cbv beta iota.
  change (kCodeProtection <? 0) with false. cbv iota.
  unfold write_at. change (_ || _) with false. cbv iota.
  cbn [clear_attempt GuardWrite.original_protection ShellUiGuardWriteState_init Z.ltb Z.compare].
  set (g := with_snapshot _ _ _ _). unfold write_protected.
  change (GuardWrite.original_protection g) with kCodeProtection. set (rwx := Z.lor (Z.lor _ _) PROT_WRITE).
  change (kCodeProtection =? kCodeProtection) with true. change (kCodeProtection =? rwx) with false. cbn [negb andb].
  apply rely_bind, (mprotect _ _ _ _ kCodeProtection); [apply page_of_byte|done|].
  cbv beta iota zeta. cbn [Z.eqb]. set (s1 := set_page s a rwx).
  assert (may_write s1 a 1 = true) as Hw by (by apply (may_write_byte s a old rwx)).
  pose proof (set_page_back s a [byte] kCodeProtection rwx Hprot) as Hback. fold s1 in Hback.
  (* the restore at the end *)
  assert (forall w g', GuardWrite.original_protection g' = kCodeProtection -> GuardWrite.protect_rc g' = 0 -> w = 0 ->
    krely (bindp (restore_protection (k_pid s) a g') (fun s4 =>
      Ret (if negb (GuardWrite.protection_restored s4) then -1001
           else if negb (GuardWrite.protect_rc s4 =? 0) then -1000 else w, s4)))
      (stored s1 a [byte]) Q) as Hend.
  { intros w g' Ho Hpr ->. apply rely_bind. unfold restore_protection. rewrite Ho. apply rely_bind.
    apply (mprotect (stored s1 a [byte]) _ _ _ rwx); [apply page_of_byte|cbn; by rewrite lookup_insert_eq|].
    cbv beta. cbn [Z.eqb]. rewrite Hback.
    apply rely_bind, (get_prot (stored s a [byte]) _ kCodeProtection); [done|].
    rewrite Z.eqb_refl. cbn [rely with_restore GuardWrite.protection_restored GuardWrite.protect_rc negb]. rewrite Hpr.
    cbn [Z.eqb negb]. apply HQ. }
  apply rely_bind, rely_bind. apply (get_prot s1 _ rwx); [cbn; by rewrite lookup_insert_eq|].
  rewrite Z.eqb_refl. unfold write_byte. apply rely_bind.
  apply (pt_copyin s1); [done|done| |].
  - intros err. cbv beta iota zeta. change (errno_of 0 err) with 0.
    change ((0 =? EFAULT) || (0 =? EPERM)) with false. cbn [rely]. by apply Hend.
  - intros _. cbv beta iota zeta. change (errno_of (-1) EFAULT) with EFAULT. cbn [Z.eqb EFAULT EPERM orb].
    apply rely_bind. apply (mdbg_write_byte_served _ _ s1); [done|done|done|done|done|].
    cbn [rely]. by apply Hend.
Qed.

(** The way of the write suits the firmware. *)
Record write_served (t : Target) (s : Console) : Prop := {
  ws_target : target_served t s;
  ws_way : strict s = true -> t_fw900 t = true \/ t_fw1160 t = true;
  ws_1160 : t_fw1160 t = true -> t_guard t = true;
  ws_900 : t_fw900 t = true -> t_guard t = true /\ firmware_is_fw1160 (u32 (k_sdk s)) = false;
  ws_protection :
    k_protection s !! (q_method_address (t_request t) / kPs5CodePageSize) = Some kCodeProtection
}.

(** What the write leaves of the code. *)
Definition outside_window (t : Target) (l l' : list Z) : Prop :=
  let '(off, n) := write_window (t_guard t) (t_eta t) in take off l = take off l' /\ drop (off + n) l = drop (off + n) l'.

Lemma window_fits guard eta : ((write_window guard eta).1 + (write_window guard eta).2 <= 16)%nat.
Proof. destruct guard, eta; cbn; unfold kShellUiHookPatchSize; lia. Qed.

Lemma may_write_part s a l off n :
  strict s = false -> load (k_memory s) a (length l) = Some l -> (off + n <= length l)%nat ->
  may_write s (a + Z.of_nat off) n = true.
Proof.
  intros Hs Hl Hn. unfold may_write. rewrite Hs. rewrite (load_mapped _ _ _ (slice off n l)); [done|].
  by apply load_slice.
Qed.

Lemma code_byte t s code :
  code_is t s code -> exists b, k_memory s !! q_method_address (t_request t) = Some b.
Proof.
  intros ([Hl H]%load_Some & _ & _). destruct code as [|b code]; [done|]. exists b.
  rewrite <- (Z.add_0_r (q_method_address _)). apply (H 0%nat). unfold kShellUiHookPatchSize. lia.
Qed.

(** Writing the window is writing the block. *)
Lemma window_stored t s code bytes :
  code_is t s code -> length bytes = kShellUiHookPatchSize -> outside_window t bytes code ->
  let a := q_method_address (t_request t) in
  let '(off, n) := write_window (t_guard t) (t_eta t) in
  stored s (a + Z.of_nat off) (slice off n bytes) = stored s a bytes /\
  length (slice off n bytes) = n /\ (off <= 16)%nat /\
  (strict s = false -> may_write s (a + Z.of_nat off) n = true).
Proof.
  intros (Hl & Hlen & _) Hlb Hout a. unfold outside_window in Hout.
  pose proof (window_fits (t_guard t) (t_eta t)) as Hfit. destruct (write_window _ _) as [off n].
  cbn [fst snd] in Hfit. destruct Hout as [Ht Hd]. rewrite <- Hlen in Hl.
  unfold kShellUiHookPatchSize in *. split_and!.
  - unfold stored. f_equal. apply (store_part _ _ code); try done; lia.
  - apply length_slice. lia.
  - lia.
  - intros Hs. apply (may_write_part _ _ code); [done|done|lia].
Qed.

Lemma write_target_served t code bytes s ses (Q : Z * Session -> Console -> Prop) :
  write_served t s -> code_is t s code -> length bytes = kShellUiHookPatchSize ->
  outside_window t bytes code -> s_guard ses = ShellUiGuardWriteState_init ->
  (forall ses', Q (0, ses') (stored s (q_method_address (t_request t)) bytes)) ->
  krely (write_target t bytes ses) s Q.
Proof.
  intros [Ht Hway H1160 H900 Hprot] (Hload & Hlen & Hb) Hlb Hout Hg HQ.
  destruct Ht as [Hpid Hpos Hsdk Hbe Hlo Hhi Hcred Hdbg]. unfold write_target.
  set (a := q_method_address (t_request t)) in *. rewrite Hpid.
  pose proof (code_byte t s code (conj Hload (conj Hlen Hb))) as [b0 Hb0].
  pose proof (window_stored t s code bytes (conj Hload (conj Hlen Hb)) Hlb Hout) as Hwin. cbv zeta in Hwin.
  fold a in Hb0, Hwin. destruct (write_window (t_guard t) (t_eta t)) as [off n] eqn:Ewin.
  destruct Hwin as (Hst & Hsl & Hoff & Hmay).
  destruct (t_fw1160 t).
  { specialize (H1160 eq_refl). rewrite H1160 in Ewin. injection Ewin as <- <-.
    rewrite Z.add_0_r, <- head_slice in Hst by done. apply rely_bind. rewrite Hg.
    apply (guard_byte_served _ _ b0); try done; try lia. intros g. cbn [rely]. rewrite Hst. apply HQ. }
  rewrite wrap_small by (unfold in_u; lia).
  destruct (t_fw900 t).
  { destruct (H900 eq_refl) as [H9 Hno]. rewrite H9 in Ewin. injection Ewin as <- <-. rewrite Z.add_0_r in *.
    destruct (page_of_page a) as [Hpa Hpp]; [unfold in_u; lia|].
    fold (page_of a). apply rely_bind, (mprotect _ _ _ _ kCodeProtection); [done|by rewrite Hpa|].
    cbn [Z.eqb negb]. set (rwx := Z.lor (Z.lor PROT_READ PROT_WRITE) PROT_EXEC).
    assert (set_page s (page_of a) rwx = set_page s a rwx) as -> by (unfold set_page; by rewrite Hpa).
    set (s1 := set_page s a rwx).
    apply rely_bind. apply (mdbg_copyin s1); [rewrite Hsl; by apply (may_write_byte s a b0 rwx)|].
    cbn [Z.eqb negb]. apply rely_bind. cbn [rely]. apply rely_bind.
    apply (mprotect (stored s1 a (slice 0 1 bytes)) _ _ _ rwx); [done|cbn; by rewrite Hpa, lookup_insert_eq|].
    cbn [Z.eqb negb rely].
    assert (forall s2, set_page s2 (page_of a) (Z.lor PROT_READ PROT_EXEC) = set_page s2 a kCodeProtection) as ->
      by (intros s2; unfold set_page; by rewrite Hpa).
    unfold s1. rewrite set_page_back by done. rewrite Hst. apply HQ. }
  assert (strict s = false) as Hstrict by (destruct (strict s); [by destruct (Hway eq_refl)|done]).
  specialize (Hmay Hstrict). rewrite <- Hsl in Hmay at 1.
  destruct (t_backend t); [done| |].
  - apply rely_bind, mdbg_copyin; [done|]. cbn [rely]. rewrite Hst. apply HQ.
  - apply rely_bind, pt_copyin; [done|done| |].
    + intros err. cbn [rely]. rewrite Hst. apply HQ.
    + intros H. unfold strict in Hstrict. by rewrite H, orb_true_r in Hstrict.
Qed.

(** ** The work on the stopped ShellUI *)

Lemma stored_code t s l old :
  code_is t s old -> length l = kShellUiHookPatchSize -> bytes_ok l ->
  code_is t (stored s (q_method_address (t_request t)) l) l.
Proof.
  intros _ Hl Hb. split; [|done]. cbn [stored with_code k_memory]. rewrite <- Hl. apply load_store.
Qed.

Lemma stored_target t s a l : target_served t s -> target_served t (stored s a l).
Proof. intros []. by split. Qed.

(** What came of the work: [ok] when the code is what the request expects. *)
Record worked (c : Core) (ok : bool) (code : list Z) (c' : Core) (applied : bool) : Prop := {
  wk_status : status c' = if ok then Success else ExpectedBytesMismatch;
  wk_verified : ok = true -> verified c' = true;
  wk_observed : observed c' = if probe c && ok then code else observed c;
  wk_rcs : read_rc c' = 0 /\ (write_rc c' = 0 \/ write_rc c' = write_rc c);
  wk_kind : probe c' = probe c /\ main_thread_guard c' = main_thread_guard c;
  wk_applied : applied = ok && negb (probe c)
}.

Lemma work_served t c code s ses (Q : Core * bool * Session -> Console -> Prop) :
  target_served t s -> code_is t s code -> wf_request (t_request t) ->
  (probe c = false -> write_served t s /\ outside_window t (q_desired (t_request t)) (q_expected (t_request t))) ->
  s_guard ses = ShellUiGuardWriteState_init ->
  (forall c' applied ses',
     worked c (probe c || bytes_eqb code (q_expected (t_request t))) code c' applied ->
     Q (c', applied, ses')
       (if applied then stored s (q_method_address (t_request t)) (q_desired (t_request t)) else s)) ->
  krely (work t c ses) s Q.
Proof.
  intros Ht Hcode Hwf Hw Hg HQ. destruct (wq_desired _ Hwf) as [Hdl Hdb].
  unfold work. apply rely_bind, (read_target_served _ code); [done|done|]. intros ses1 Hg1. cbv beta iota.
  destruct (probe c) eqn:Ep; cbn [Z.eqb negb orb].
  { apply (HQ _ false). split; cbn; rewrite ?Ep; auto. }
  destruct (Hw eq_refl) as [Hws Hout]. destruct (bytes_eqb code _) eqn:E; cbn [negb orb] in *.
  - apply bytes_eqb_eq in E. subst code. unfold apply_patch.
    apply rely_bind, (write_target_served _ (q_expected (t_request t))); try done; [by rewrite Hg1|].
    intros ses2. cbv beta iota.
    apply rely_bind, (read_target_served _ (q_desired (t_request t)));
      [by apply stored_target|by eapply stored_code|]. intros ses3 _. cbv beta iota.
    rewrite bytes_eqb_refl. cbn [Z.eqb andb]. apply (HQ _ true). split; cbn; rewrite ?Ep; auto.
  - apply (HQ _ false). split; cbn; rewrite ?Ep; auto.
Qed.

(** ** The request *)

(** A console before the poll: ShellUI runs, its code page is readable and executable,
    and the credentials can be saved. *)
Record idle (t : Target) (s : Console) : Prop := {
  id_running : k_attached s = false;
  id_credentials : sound_credentials s;
  id_pid : t_pid t = k_pid s /\ 0 < k_pid s;
  id_sdk : t_sdk t = u32 (k_sdk s);
  id_backend : t_backend t <> Unsupported;
  id_range : 0x10000 <= q_method_address (t_request t) /\
             q_method_address (t_request t) + 15 < 0x0000800000000000
}.

(** ShellUI as the work finds it. *)
Definition stopped_at (s : Console) : Console :=
  with_attached true (with_credentials kPtraceAuthId (k_caps s) s).

Lemma idle_target t s : idle t s -> target_served t (stopped_at s).
Proof.
  intros [_ (_ & Hc1 & Hc2) [Hp Hpos] Hsdk Hb [Hlo Hhi]]. split; done.
Qed.

(** The report at the end of a request whose work came to [ok]. *)
Record reported (c : Core) (ok : bool) (code : list Z) (c' : Core) : Prop := {
  re_status : status c' = if ok then Success else ExpectedBytesMismatch;
  re_verified : ok = true -> verified c' = true;
  re_observed : observed c' = if probe c && ok then code else observed c;
  re_rcs : read_rc c' = 0 /\ (write_rc c' = 0 \/ write_rc c' = write_rc c);
  re_kind : probe c' = probe c /\ main_thread_guard c' = main_thread_guard c;
  re_given_back : detached c' = true /\ auth_restored c' = true
}.

Definition after_request (ok : bool) (q : ShellUiHookRequest) (c : Core) (s : Console) : Console :=
  if ok && negb (probe c) then stored s (q_method_address q) (q_desired q) else s.

Lemma run_request_served t c code s ses (Q : ShellUiHookPollResult * Core * Diagnostics -> Console -> Prop) :
  idle t s -> code_is t s code -> wf_request (t_request t) ->
  (probe c = false -> write_served t (stopped_at s) /\
                      outside_window t (q_desired (t_request t)) (q_expected (t_request t))) ->
  s_guard ses = ShellUiGuardWriteState_init ->
  (forall c' d, let ok := probe c || bytes_eqb code (q_expected (t_request t)) in
     reported c ok code c' ->
     Q (if ok then Applied else Failed, c', d)
       (published (ack_bytes (make_ack (t_request t) c')) (after_request ok (t_request t) c s))) ->
  krely (run_request t c ses) s Q.
Proof.
  intros Hi Hcode Hwf Hw Hg HQ. pose proof Hi as [Hrun (Hauth & _) [Hp _] _ _ _].
  unfold run_request. apply rely_bind, get_auth. apply Z.eqb_neq in Hauth. rewrite Hauth.
  apply rely_bind, rely_bind, set_auth. cbn [rely Z.eqb negb].
  apply rely_bind. rewrite Hp. apply (pt_attach (with_credentials kPtraceAuthId (k_caps s) s)); [done|done|].
  cbn [Z.eqb negb]. apply rely_bind, rely_bind.
  apply (work_served _ _ code (stopped_at s)); [by apply idle_target|done|done|done|done|].
  intros c' applied ses' Hk. set (ok := _ || _) in *. specialize (HQ (with_finish c'
    (if negb true && applied then AuthRestoreFailure else status c') true true) (s_diag ses')).
  cbv zeta in HQ. fold ok in HQ.
  set (s1 := if applied then _ else _).
  assert (k_pid s1 = k_pid s /\ k_caps s1 = k_caps s /\ is_debugging s1) as (Ep & Ec & Hd)
    by (unfold s1; destruct applied; by split_and!).
  cbv beta iota. apply rely_bind. rewrite <- Ep. apply pt_detach; [done|].
  apply rely_bind, kill_cont. intros _. cbn [rely Z.eqb negb andb].
  apply rely_bind, set_auth. apply rely_bind. cbn [Z.eqb]. apply rely_bind, get_auth. cbn [rely].
  cbn [k_auth with_credentials]. rewrite Z.eqb_refl. apply rely_bind, write_ack_served. cbn [rely].
  destruct Hk as [K1 K2 K3 K4 K5 K6].
  assert (with_credentials (k_auth s) (k_caps (with_attached false s1)) (with_attached false s1) =
          after_request ok (t_request t) c s) as ->.
  { unfold s1, after_request. rewrite <- K6. destruct s, applied; cbn in *; by subst. }
  assert (poll_result (with_finish c' (if negb true && applied then AuthRestoreFailure else status c') true true) =
          if ok then Applied else Failed) as ->.
  { unfold poll_result. cbn. rewrite K1. by destruct ok. }
  apply HQ. by split.
Qed.

(** ** The poll *)

Definition backend_for (k : RequestKind) (sdk : Z) (q : ShellUiHookRequest) : ShellUiHookBackend :=
  match k with
  | KPatch => shellui_hook_backend sdk (shellui_hook_is_eta_chain q)
  | KGuard => shellui_main_thread_guard_backend sdk
  | KProbe => shellui_hook_probe_backend sdk
  end.

Lemma kind_valid_kind_of k q pid : kind_valid k q pid = true -> kind_of q = k.
Proof.
  unfold kind_of. destruct k; cbn [kind_valid].
  - unfold shellui_hook_request_is_valid. destruct (_ || _) eqn:E; [done|]. intros _.
    rewrite !orb_false_iff in E. destruct E as [[[_ E1] E2] _]. by rewrite E1, E2.
  - unfold shellui_main_thread_guard_request_is_valid. destruct (_ || _) eqn:E; [done|]. intros _.
    rewrite !orb_false_iff, !negb_false_iff in E. destruct E as [[[_ E] _] _]. rewrite E.
    unfold shellui_hook_request_is_main_thread_guard in E. rewrite !andb_true_iff in E.
    destruct E as [[E _] _]. unfold shellui_hook_request_is_probe. apply Z.eqb_eq in E. by rewrite E.
  - unfold shellui_hook_probe_request_is_valid. destruct (_ || _) eqn:E; [done|]. intros _.
    rewrite !orb_false_iff, !negb_false_iff in E. destruct E as [_ E]. by rewrite E.
Qed.

(** What the poll makes of a valid request. *)
Definition target_of (q : ShellUiHookRequest) (k : RequestKind) (sdk pid : Z) : Target := {|
  t_pid := pid; t_request := q; t_sdk := sdk; t_backend := backend_for k sdk q;
  t_guard := bool_decide (k = KGuard);
  t_eta := bool_decide (k = KPatch) && shellui_hook_is_eta_chain q;
  t_fw900 := bool_decide (k = KGuard) && (family_of sdk =? 0x09000000) &&
             bool_decide (backend_for k sdk q = Mdbg);
  t_fw1160 := bool_decide (k = KGuard) && firmware_is_fw1160 sdk &&
              bool_decide (backend_for k sdk q = PtraceIo) |}.

(** The write of each kind stays in its window. *)
Lemma kind_window q k sdk pid :
  wf_request q -> kind_valid k q pid = true -> k <> KProbe ->
  outside_window (target_of q k sdk pid) (q_desired q) (q_expected q).
Proof.
  intros Hw Hk Hne. destruct (wq_expected _ Hw) as [He _]. destruct (wq_desired _ Hw) as [Hd _].
  unfold outside_window. destruct k; cbn [target_of t_guard t_eta]; [| |done].
  - rewrite bool_decide_eq_false_2, bool_decide_eq_true_2 by done. cbn [andb].
    destruct (shellui_hook_is_eta_chain q) eqn:Eta; cbn [write_window].
    + apply patch_asks in Hk as (_ & Hj & Htail & _ & _ & Hc); [|done]. destruct (Hc Eta) as [Hj' Hdis].
      rewrite Hdis in Htail. split; [|exact Htail].
      apply (f_equal (take 6)) in Hj, Hj'. rewrite take_take in Hj, Hj'. cbn [Nat.min] in Hj, Hj'.
      by rewrite Hj, Hj'.
    + split; [done|]. by rewrite !drop_ge by lia.
  - rewrite bool_decide_eq_true_2 by done. cbn [write_window].
    apply guard_asks in Hk as (b & _ & He' & Hd'); [|done]. split; [done|]. rewrite Hd'. by rewrite He' at 2.
Qed.

(** A supported firmware has a way to write. *)
Lemma supported_way q k s pid :
  backend_for k (u32 (k_sdk s)) q <> Unsupported -> k <> KProbe ->
  let t := target_of q k (u32 (k_sdk s)) pid in
  (strict s = true -> t_fw900 t = true \/ t_fw1160 t = true) /\
  (t_fw1160 t = true -> t_guard t = true) /\
  (t_fw900 t = true -> t_guard t = true /\ firmware_is_fw1160 (u32 (k_sdk s)) = false).
Proof.
  intros Hb Hne t. subst t. unfold strict, target_of. cbn [t_fw900 t_fw1160 t_guard].
  set (sdk := u32 (k_sdk s)) in *. clearbody sdk. unfold firmware_is_fw1160 in *.
  split_and!.
  - intros H. assert (family_of sdk = 0x09000000 \/ family_of sdk = 0x11600000) as [F|F]
      by (apply orb_true_iff in H; rewrite !Z.eqb_eq in H; exact H).
    + destruct k; [|left|done].
      * exfalso. apply Hb. unfold backend_for, shellui_hook_backend. by rewrite F.
      * unfold backend_for, shellui_main_thread_guard_backend. by rewrite F.
    + destruct k; [|right|done].
      * exfalso. apply Hb. unfold backend_for, shellui_hook_backend. by rewrite F.
      * unfold backend_for, shellui_main_thread_guard_backend. by rewrite F.
  - rewrite !andb_true_iff. tauto.
  - rewrite !andb_true_iff. intros [[H1 H2] _]. split; [done|]. apply Z.eqb_eq in H2. by rewrite H2.
Qed.


(** A request for ShellUI that is waiting, on a firmware that its kind supports, while
    ShellUI runs and [code] is what the 16 bytes of the method hold. *)
Record serviceable (k : RequestKind) (q : ShellUiHookRequest) (code : list Z) (s : Console) : Prop := {
  sv_wf : wf_request q;
  sv_valid : kind_valid k q (k_pid s) = true;
  sv_supported : backend_for k (u32 (k_sdk s)) q <> Unsupported;
  sv_file : k_files s RequestPath = Some (request_bytes q);
  sv_running : k_attached s = false;
  sv_credentials : sound_credentials s;
  sv_code : load (k_memory s) (q_method_address q) kShellUiHookPatchSize = Some code;
  sv_bytes : bytes_ok code;
  sv_protection : k_protection s !! (q_method_address q / kPs5CodePageSize) = Some kCodeProtection
}.

Definition phase_for (k : RequestKind) : ShellUiHookAckPhase :=
  match k with KPatch => PhasePatch | KGuard => PhaseMainThreadGuard | KProbe => PhaseProbe end.

(** Whether the code is what the request expects; a probe expects nothing. *)
Definition expected_code (k : RequestKind) (q : ShellUiHookRequest) (code : list Z) : bool :=
  bool_decide (k = KProbe) || bytes_eqb code (q_expected q).

(** The service: the change that was asked for and nothing else, everything lent given
    back, the request consumed, and the answer that the renderer is waiting for. *)
Record serviced (k : RequestKind) (q : ShellUiHookRequest) (code : list Z) (s : Console)
    (r : ShellUiHookPollResult * Core * Diagnostics) (s' : Console) : Prop := {
  sd_result : r.1.1 = if expected_code k q code then Applied else Failed;
  sd_memory : k_memory s' = if expected_code k q code && negb (bool_decide (k = KProbe))
                            then store (k_memory s) (q_method_address q) (q_desired q) else k_memory s;
  sd_protection : k_protection s' = k_protection s;
  sd_resumed : k_attached s' = false;
  sd_credentials : k_auth s' = k_auth s /\ k_caps s' = k_caps s;
  sd_consumed : k_files s' RequestPath = None /\ k_files s' AckTempPath = None;
  sd_answer : exists file, k_files s' AckPath = Some file /\
    (length file = sizeof_ack /\ bytes_ok file) /\
    ack_matches (k_pid s) (q_nonce q) (ack_of_bytes file) = true /\
    ack_success (phase_for k) (ack_of_bytes file) = expected_code k q code /\
    a_status (ack_of_bytes file) =
      status_code (if expected_code k q code then Success else ExpectedBytesMismatch) /\
    (k = KProbe -> a_observed (ack_of_bytes file) = code)
}.

Lemma request_bytes_ok q : wf_request q -> length (request_bytes q) = sizeof_request /\ bytes_ok (request_bytes q).
Proof.
  intros Hw. destruct (wq_expected _ Hw) as [_ He]. destruct (wq_desired _ Hw) as [_ Hd]. split.
  - unfold request_bytes. by rewrite length_app, length_request_head, length_le_encode.
  - unfold request_bytes, request_head. repeat (apply Forall_app; split); auto with machine.
Qed.

Lemma kind_flags q k :
  kind_of q = k -> shellui_hook_request_is_probe q = bool_decide (k = KProbe) /\
                   shellui_hook_request_is_main_thread_guard q = bool_decide (k = KGuard).
Proof.
  unfold kind_of. destruct (shellui_hook_request_is_probe q) eqn:E.
  - intros <-. split; [done|]. unfold shellui_hook_request_is_main_thread_guard, shellui_hook_request_is_probe in *.
    apply Z.eqb_eq in E. by rewrite E.
  - by destruct (shellui_hook_request_is_main_thread_guard q); intros <-.
Qed.

(** What the poll computes from a request of kind [k]. *)
Lemma kind_validator k q pid :
  (if bool_decide (k = KProbe) then shellui_hook_probe_request_is_valid q pid
   else if bool_decide (k = KGuard) then shellui_main_thread_guard_request_is_valid q pid
   else shellui_hook_request_is_valid q pid) = kind_valid k q pid.
Proof. by destruct k. Qed.

Lemma kind_eta k q :
  negb (bool_decide (k = KProbe)) && negb (bool_decide (k = KGuard)) && shellui_hook_is_eta_chain q =
  bool_decide (k = KPatch) && shellui_hook_is_eta_chain q.
Proof. by destruct k. Qed.

Lemma kind_backend k q sdk :
  (if bool_decide (k = KProbe) then shellui_hook_probe_backend sdk
   else if bool_decide (k = KGuard) then shellui_main_thread_guard_backend sdk
   else shellui_hook_backend sdk
     (negb (bool_decide (k = KProbe)) && negb (bool_decide (k = KGuard)) && shellui_hook_is_eta_chain q)) =
  backend_for k sdk q.
Proof. by destruct k. Qed.

(** The report of a service is one. *)
Lemma reported_serviced k q code s c d :
  serviceable k q code s ->
  let c0 := classify q (u32 (k_sdk s)) InvalidRequest (bool_decide (k = KPatch) && shellui_hook_is_eta_chain q) in
  let s0 := with_files (set_file RequestPath None (k_files s)) (k_handle s) s in
  reported c0 (expected_code k q code) code c ->
  serviced k q code s (if expected_code k q code then Applied else Failed, c, d)
    (published (ack_bytes (make_ack q c)) (after_request (expected_code k q code) q c0 s0)).
Proof.
  intros [Hw Hv _ Hf Hrun _ Hl Hb _] c0 s0 [R1 R2 R3 R4 [R5 R6] [R7 R8]].
  destruct (kind_flags q k (kind_valid_kind_of _ _ _ Hv)) as [Fp Fg].
  assert (length code = kShellUiHookPatchSize) as Hlen by (by apply load_Some in Hl as [? _]).
  assert (wf_core c) as Hc.
  { destruct R4 as [R4 Hwr]. split; [by rewrite R4|by destruct Hwr as [-> | ->]|]. rewrite R3.
    destruct (probe c0 && expected_code k q code); [by split|]. split; [done|]. apply Forall_forall. intros x Hx.
    by apply list_elem_of_In, repeat_spec in Hx as ->. }
  pose proof (ack_of_ack_bytes _ (make_ack_wf q c Hw Hc)) as Hback.
  assert (phase_of c = phase_for k) as Hph.
  { unfold phase_of. rewrite R5, R6. cbn [c0 classify probe main_thread_guard]. rewrite Fp, Fg. by destruct k. }
  assert (probe c0 = bool_decide (k = KProbe)) as Hpr by done.
  split; cbn [fst].
  - done.
  - unfold after_request. rewrite Hpr. by destruct (expected_code k q code && _).
  - unfold after_request. by destruct (expected_code k q code && _).
  - unfold after_request. by destruct (expected_code k q code && _).
  - unfold after_request. by destruct (expected_code k q code && _).
  - unfold after_request. by destruct (expected_code k q code && _).
  - exists (ack_bytes (make_ack q c)). split; [by unfold after_request; destruct (expected_code k q code && _)|].
    rewrite Hback. split; [exact (ack_bytes_ok _ (make_ack_wf q c Hw Hc))|]. split_and!.
    + apply ack_matches_make; [apply Hc|]. split; [|done].
      symmetry. by apply (common_facts q (k_pid s)), (kind_valid_common _ _ k).
    + apply eq_true_iff_eq. rewrite ack_success_make, Hph, R1.
      destruct (expected_code k q code); [|by split; [intros (_ & ? & _)|]]. split; [done|]. by rewrite R2.
    + cbn [make_ack ack_of a_status]. by rewrite R1.
    + intros ->. cbn [make_ack ack_of a_observed]. rewrite R3, Hpr.
      unfold expected_code. by rewrite bool_decide_eq_true_2.
Qed.

(** From the request file on. *)
Lemma serve_served k q code s :
  serviceable k q code s ->
  krely (serve_request (k_pid s) (request_bytes q)) s (serviced k q code s).
Proof.
  intros Hs. pose proof Hs as [Hw Hv Hsup Hf Hrun Hcred Hl Hb Hprot].
  destruct (kind_flags q k (kind_valid_kind_of _ _ _ Hv)) as [Fp Fg].
  destruct (common_facts q (k_pid s) Hw (kind_valid_common _ _ _ Hv)) as (_ & Hpos & _ & Hlo & Hhi & _).
  assert (length code = kShellUiHookPatchSize) as Hcl by (by apply load_Some in Hl as [? _]).
  unfold serve_request. rewrite (request_of_request_bytes q Hw). apply rely_bind, unlink. intros _.
  set (s0 := with_files (set_file RequestPath None (k_files s)) (k_handle s) s).
  apply rely_bind, firmware_sdk. change (k_sdk s0) with (k_sdk s). cbv zeta. rewrite Fp, Fg.
  set (sdk := u32 (k_sdk s)) in *. rewrite kind_validator, kind_backend, Hv by done. cbn [negb].
  rewrite bool_decide_eq_false_2, kind_eta by done.
  set (t := target_of q k sdk (k_pid s)).
  assert (idle t s0) as Hi by (by split).
  match goal with |- krely (run_request _ ?c ?ses) _ _ => set (c0 := c); set (ses0 := ses) end.
  change (krely (run_request t c0 ses0) s0 (serviced k q code s)).
  apply (run_request_served t c0 code s0); [done|done|done| |done|].
  - intros Hp. assert (k <> KProbe) as Hne by (intros ->; cbn in Hp; by rewrite Fp in Hp).
    destruct (supported_way q k s (k_pid s) Hsup Hne) as (W1 & W2 & W3).
    split; [|by apply (kind_window q k sdk (k_pid s))]. by split; [apply idle_target| | | |].
  - intros c' d. cbv zeta. assert (probe c0 = bool_decide (k = KProbe)) as -> by done.
    fold (expected_code k q code). intros Hrep. by apply (reported_serviced k q code s c' d Hs Hrep).
Qed.

Lemma poll_served k q code s :
  serviceable k q code s ->
  krely (poll_and_apply_shellui_hook (k_pid s)) s (serviced k q code s).
Proof.
  intros Hs. pose proof Hs as [Hw Hv Hsup Hf Hrun Hcred Hl Hb Hprot].
  destruct (request_bytes_ok q Hw) as [Hlen Hok].
  apply rely_bind, (read_exact_file_served _ _ (request_bytes q)); [done|done|done|].
  assert (serviceable k q code (with_files (k_files s) None s)) as Hs1 by done.
  apply (rely_mono documented _ _ _ _) with (2 := serve_served k q code _ Hs1). intros r s' []. by split.
Qed.

(** On a firmware that the kind of request does not support, the answer says so and
    nothing else happens. *)
Record declined (q : ShellUiHookRequest) (s s' : Console) : Prop := {
  dc_same : k_memory s' = k_memory s /\ k_protection s' = k_protection s /\
            k_attached s' = k_attached s /\ k_auth s' = k_auth s /\ k_caps s' = k_caps s;
  dc_consumed : k_files s' RequestPath = None;
  dc_answer : exists file, k_files s' AckPath = Some file /\
    (length file = sizeof_ack /\ bytes_ok file) /\
    ack_matches (k_pid s) (q_nonce q) (ack_of_bytes file) = true /\
    (forall phase, ack_success phase (ack_of_bytes file) = false) /\
    a_status (ack_of_bytes file) = status_code UnsupportedFirmware
}.

Lemma unsupported_served k q s :
  wf_request q -> kind_valid k q (k_pid s) = true -> backend_for k (u32 (k_sdk s)) q = Unsupported ->
  krely (serve_request (k_pid s) (request_bytes q)) s (fun r s' => declined q s s').
Proof.
  intros Hw Hv Hun. destruct (kind_flags q k (kind_valid_kind_of _ _ _ Hv)) as [Fp Fg].
  unfold serve_request. rewrite (request_of_request_bytes q Hw). apply rely_bind, unlink. intros _.
  apply rely_bind, firmware_sdk. cbv zeta. rewrite Fp, Fg.
  set (s0 := with_files _ _ s). change (k_sdk s0) with (k_sdk s).
  rewrite kind_validator, kind_backend, Hv by done. cbn [negb]. rewrite bool_decide_eq_true_2, kind_eta by done.
  set (c := classify _ _ _ _). apply rely_bind, write_ack_served. cbn [rely].
  assert (wf_core c) as Hc.
  { split; [done|done|]. split; [done|]. apply Forall_forall. intros x Hx.
    by apply list_elem_of_In, repeat_spec in Hx as ->. }
  split; [done|done|]. exists (ack_bytes (make_ack q c)). split; [done|].
  split; [exact (ack_bytes_ok _ (make_ack_wf q c Hw Hc))|].
  rewrite (ack_of_ack_bytes _ (make_ack_wf q c Hw Hc)). split_and!.
  - apply ack_matches_make; [done|]. split; [|done].
    symmetry. by apply (common_facts q (k_pid s)), (kind_valid_common _ _ k).
  - intros phase. apply not_true_is_false. rewrite ack_success_make. by intros (_ & ? & _).
  - done.
Qed.


(** A console of firmware 11.60 whose ShellUI waits for the guard of [sample_guard]. *)
Definition sample_console : Console := {|
  k_pid := 77; k_sdk := 0x11600000; k_auth := 0x3800000000000010; k_caps := repeat 1 16; k_attached := false;
  k_memory := store ∅ 0x880001000 (q_expected sample_guard);
  k_protection := {[ 0x880001000 / kPs5CodePageSize := kCodeProtection ]};
  k_files := set_file RequestPath (Some (request_bytes sample_guard)) (fun _ => None);
  k_handle := None |}.

