(* ===== verification/HookSession.v ===== *)
(** The renderer and the controller together: two programs that run concurrently and share
    the request and acknowledgement files.  The renderer ([RendererHook]) publishes
    requests and waits; the controller polls ([HookController]).  Their calls interleave
    one by one, each on a console that answers as documented ([Console]).  The protocol is
    a small ghost state machine, the renderer is verified against it, and an invariant
    relates it to the console and to what the controller has left to do. *)
From S2P Require Import Prelude Effects HookProtocol Mono RendererHook HookRequests HookInstall HookHandshake Debugger GuardWrite HookController HookSafety Console HookServed.

(** ** The controller leaves the acknowledgement alone until it is done *)

Definition keeps_ack (c : sys) : Prop :=
  match c with
  | FOpen p _ | Unlink p => p <> AckPath
  | Rename _ _ => False
  | _ => True
  end.

(** The call that ends the program when it succeeds. *)
Definition last_rename {A} (c : sys) (K : sys_ret c -> sprog A) : Prop :=
  match c return (sys_ret c -> sprog A) -> Prop with
  | Rename from _ => fun K => from <> AckPath /\ exists a, K 0 = Ret a
  | _ => fun _ => False
  end K.

Fixpoint holds_back {A} (p : sprog A) : Prop :=
  match p with
  | Ret _ => True
  | Call c K => (keeps_ack c \/ last_rename c K) /\ forall r, holds_back (K r)
  end.

Lemma holds_back_bind {A B} (p : sprog A) (f : A -> sprog B) :
  calls keeps_ack p -> (forall a, holds_back (f a)) -> holds_back (bindp p f).
Proof.
  intros Hp Hf. induction p as [a|c K IH]; cbn [bindp holds_back]; [apply Hf|].
  destruct Hp as [Hc HK]. split; [by left|]. intros r. by apply IH.
Qed.

(** Calls, conditionals and results of a program, one after the other. *)
Ltac keeps part :=
  repeat first
    [ exact I | discriminate | part
    | apply calls_bind; [|intros ?]
    | match goal with
      | |- calls _ (let '(_, _) := ?a in _) => destruct a
      | |- calls _ (if ?b then _ else _) => destruct b
      | |- calls _ (match ?a with _ => _ end) => destruct a
      | |- calls _ (Ret _) => exact I
      | |- calls _ (sysc _) => split; [cbn; try exact I; try discriminate|intros ?; exact I]
      end ].

Lemma transfer_loop_keeps fuel size offset data write pid a :
  calls keeps_ack (transfer_loop fuel size offset data (mdbg_chunk write pid a)).
Proof.
  revert offset data. induction fuel as [|fuel IH]; intros offset data; cbn [transfer_loop].
  { destruct (_ <=? _); exact I. }
  destruct (_ <=? _); [exact I|]. apply calls_bind.
  - unfold mdbg_chunk. apply calls_bind; [|intros ?; exact I]. destruct write; (split; [exact I|intros ?; exact I]).
  - intros [r bytes]. destruct (negb _); [exact I|apply IH].
Qed.

Lemma transfer_exact_keeps write pid a size : calls keeps_ack (transfer_exact write pid a size).
Proof. unfold transfer_exact, debugger_transfer_exact. keeps ltac:(apply transfer_loop_keeps). Qed.

Lemma guard_write_keeps pid a byte s : calls keeps_ack (shellui_write_guard_byte pid a byte s).
Proof.
  unfold shellui_write_guard_byte, write_at, write_protected, restore_protection, write_byte,
    shellui_mdbg_write_byte. keeps ltac:(apply transfer_exact_keeps).
Qed.

Lemma read_target_keeps t ses : calls keeps_ack (read_target t ses).
Proof. unfold read_target, read_shellui_code, shellui_mdbg_read_exact. keeps ltac:(apply transfer_exact_keeps). Qed.

Lemma write_target_keeps t b ses : calls keeps_ack (write_target t b ses).
Proof. unfold write_target. keeps ltac:(apply guard_write_keeps). Qed.

Lemma work_keeps t c ses : calls keeps_ack (work t c ses).
Proof.
  unfold work, apply_patch. keeps ltac:(first [apply read_target_keeps | apply write_target_keeps]).
Qed.

Lemma write_ack_back {A} q c (a : A) : holds_back (bindp (write_ack q c) (fun _ => Ret a)).
Proof.
  unfold write_ack, write_exact_file_atomic, sysc, call. cbn [bindp].
  split; [by left|]. intros [|]; [|exact I]. cbn [negb bindp]. split; [by left|]. intros n.
  destruct (_ =? _); cbn [bindp].
  - split; [by left|]. intros f. split; [by left|]. intros cl. destruct (_ || _); cbn [bindp].
    + split; [by left|]. intros u. exact I.
    + split; [right; split; [done|by eexists]|]. intros rn. destruct (negb _); cbn [bindp]; [|exact I].
      split; [by left|]. intros u. exact I.
  - split; [by left|]. intros cl. cbn [negb orb bindp]. split; [by left|]. intros u. exact I.
Qed.

Lemma run_request_back t c ses : holds_back (run_request t c ses).
Proof.
  unfold run_request. apply holds_back_bind; [keeps fail|]. intros auth.
  apply holds_back_bind; [keeps fail|]. intros ready. destruct (negb ready); [apply write_ack_back|].
  apply holds_back_bind; [keeps fail|]. intros rc.
  apply holds_back_bind; [keeps ltac:(apply work_keeps)|]. intros [[[c1 applied] det] s1].
  apply holds_back_bind; [keeps fail|]. intros set_rc.
  apply holds_back_bind; [keeps fail|]. intros back. apply write_ack_back.
Qed.

Lemma serve_request_back pid b : holds_back (serve_request pid b).
Proof.
  unfold serve_request. apply holds_back_bind; [keeps fail|]. intros _.
  apply holds_back_bind; [keeps fail|]. intros sdk. cbv zeta.
  destruct (negb _); [apply write_ack_back|]. destruct (bool_decide _); [apply write_ack_back|].
  apply run_request_back.
Qed.

(** Until the last rename the acknowledgement file is as it was; after it nothing is left
    to do. *)
Definition not_ack (h : option (Path * list Z)) : Prop := forall p rest, h = Some (p, rest) -> p <> AckPath.

Lemma set_file_ne p q v files : p <> q -> set_file p v files q = files q.
Proof. intros H. unfold set_file. by rewrite decide_False by congruence. Qed.

(** Every documented answer is one of a few changes of the console. *)
Ltac answers H :=
  try match type of H with documented _ (Ev (FOpen _ ?w) _) = _ => destruct w end;
  cbn [documented] in H; try unfold copied_out in H; try unfold copied_in in H;
  repeat match type of H with
    | (match ?a with _ => _ end) = _ => destruct a eqn:?
    end;
  first [ apply answer_inv in H as [? ->] | injection H as <- ].

Lemma documented_fixed s e s' : documented s e = Some s' -> k_pid s' = k_pid s /\ k_sdk s' = k_sdk s.
Proof. intros H. destruct e as [c r]. destruct c; answers H; done. Qed.

Lemma documented_keeps s c r s' :
  keeps_ack c -> not_ack (k_handle s) -> documented s (Ev c r) = Some s' ->
  not_ack (k_handle s') /\ k_files s' AckPath = k_files s AckPath.
Proof.
  intros Hc Hh H. destruct c; cbn [keeps_ack] in Hc; try done; answers H; split; try done; cbn.
  all: subst; first
    [ by rewrite set_file_ne
    | rewrite set_file_ne; [done|by eapply Hh]
    | intros ? ? E; first [congruence | by eapply Hh | injection E as <- <-; first [exact Hc | by eapply Hh]] ].
Qed.

Lemma holds_back_step {A} (c : sys) (K : sys_ret c -> sprog A) s r s' :
  holds_back (Call c K) -> not_ack (k_handle s) -> documented s (Ev c r) = Some s' ->
  holds_back (K r) /\ not_ack (k_handle s') /\
  (k_files s' AckPath = k_files s AckPath \/ exists a, K r = Ret a).
Proof.
  intros [Hc HK] Hh H. split; [apply HK|]. destruct Hc as [Hc|Hc].
  { destruct (documented_keeps s c r s' Hc Hh H) as [H1 H2]. split; [done|by left]. }
  destruct c; try done. cbn in Hc. destruct Hc as [Hne [a Ha]]. answers H; breflect.
  - subst r. split; [done|right; by exists a].
  - split; [done|by left].
Qed.

(** ** Two processes *)

Definition handle : Type := option (Path * list Z).
Definition Poll : Type := ShellUiHookPollResult * Core * Diagnostics.

(** What the renderer truncates and appends is seen by the controller, if it has the file
    open.  (The other way round there is nothing to see: the controller writes only the
    temporary file, which the renderer does not open, and a rename leaves open files as
    they are.) *)
Definition seen_by (reader : handle) (files : Path -> option (list Z)) (writer : handle) (c : sys) : handle :=
  match c, reader with
  | FOpen p true, Some (p', rest) => if decide (p' = p /\ is_Some (files p)) then Some (p', []) else reader
  | FWrite b, Some (p', rest) =>
      match writer with
      | Some (p, _) => if decide (p' = p) then Some (p', rest ++ b) else reader
      | None => reader
      end
  | _, _ => reader
  end.

Section Session.
(** The console at the start, and the renderer's two functions. *)
Context (s0 : Console) (hook_fn trampoline_fn : Z).
Let pid := k_pid s0.

(** A compiled method: 16 bytes in an executable page of ShellUI. *)
Definition is_code (s : Console) (a : Z) : bool :=
  compiled_ok hook_fn trampoline_fn a &&
  match load (k_memory s) a kShellUiHookPatchSize with
  | Some code => forallb (fun b => (0 <=? b) && (b <? 256)) code
  | None => false
  end &&
  bool_decide (k_protection s !! (a / kPs5CodePageSize) = Some kCodeProtection).

(** The calls of the renderer, with its own open file [h].  Mono compiles a method to
    code or reports null; its other answers are arbitrary. *)
Definition renderer_documented (s : Console) (h : handle) (e : event rcall_ret) : option (Console * handle) :=
  match e with
  | Ev GetPid r => if r =? k_pid s then Some (s, h) else None
  | Ev (CompileMethod _) r => if null r || is_code s r then Some (s, h) else None
  | Ev (File c) r =>
      match documented (with_files (k_files s) h s) (Ev c r) with
      | Some s1 => Some (with_files (k_files s1) (seen_by (k_handle s) (k_files s) h c) s, k_handle s1)
      | None => None
      end
  | _ => Some (s, h)
  end.

(** The state of both: the console with the controller's open file, the renderer's open
    file, and what each program has left to do. *)
Record System (A : Type) := {
  y_console : Console; y_handle : handle; y_renderer : rprog A; y_controller : sprog Poll
}.
Arguments y_console {A} _.
Arguments y_handle {A} _.
Arguments y_renderer {A} _.
Arguments y_controller {A} _.

Definition renderer_moves {A} (R : rprog A) (s : Console) (h : handle) (R' : rprog A) (s' : Console) (h' : handle) : Prop :=
  match R with
  | Ret _ => False
  | Call c K => exists r, renderer_documented s h (Ev c r) = Some (s', h') /\ R' = K r
  end.

Definition controller_moves (C : sprog Poll) (s : Console) (C' : sprog Poll) (s' : Console) : Prop :=
  match C with
  | Ret _ => C' = poll_and_apply_shellui_hook pid /\ s' = s  (** the next poll *)
  | Call c K => exists r, documented s (Ev c r) = Some s' /\ C' = K r
  end.

Inductive system_step {A} : System A -> System A -> Prop :=
| renderer_step s h R C R' s' h' :
    renderer_moves R s h R' s' h' ->
    system_step {| y_console := s; y_handle := h; y_renderer := R; y_controller := C |}
                {| y_console := s'; y_handle := h'; y_renderer := R'; y_controller := C |}
| controller_step s h R C C' s' :
    controller_moves C s C' s' ->
    system_step {| y_console := s; y_handle := h; y_renderer := R; y_controller := C |}
                {| y_console := s'; y_handle := h; y_renderer := R; y_controller := C' |}.

(** ** The protocol as the renderer sees it

    No request is out; the request file is created; or a request of kind [k] is out and may
    be served at any moment.  Each state knows the code and the acknowledgement from before
    the request. *)
Inductive Ghost :=
| Quiet (m : gmap Z Z) (ack : option (list Z))
| Opened (m : gmap Z Z) (ack : option (list Z))
| Sent (k : RequestKind) (q : ShellUiHookRequest) (m : gmap Z Z) (ack : option (list Z)).

Definition method_at (m : gmap Z Z) (a : Z) : Prop :=
  compiled_ok hook_fn trampoline_fn a = true /\
  (exists code, load m a kShellUiHookPatchSize = Some code /\ bytes_ok code) /\
  k_protection s0 !! (a / kPs5CodePageSize) = Some kCodeProtection.

(** A request that may be published: valid, for a method, and with a nonce that the old
    acknowledgement does not have. *)
Record may_send (k : RequestKind) (q : ShellUiHookRequest) (m : gmap Z Z) (ack : option (list Z)) : Prop := {
  ms_wf : wf_request q;
  ms_valid : kind_valid k q pid = true;
  ms_method : method_at m (q_method_address q);
  ms_fresh : forall b, ack = Some b -> (length b = sizeof_ack /\ bytes_ok b) /\
                       ack_matches pid (q_nonce q) (ack_of_bytes b) = false
}.

Definition supported (k : RequestKind) (q : ShellUiHookRequest) : bool :=
  negb (bool_decide (backend_for k (u32 (k_sdk s0)) q = Unsupported)).

(** The answer to a request over the code [m], and the code after it. *)
Record answers_to (k : RequestKind) (q : ShellUiHookRequest) (m : gmap Z Z) (file : list Z) (m' : gmap Z Z) : Prop := {
  an_file : length file = sizeof_ack /\ bytes_ok file;
  an_match : ack_matches pid (q_nonce q) (ack_of_bytes file) = true;
  an_status : a_status (ack_of_bytes file) = status_code UnsupportedFirmware <-> supported k q = false;
  an_code : exists code, load m (q_method_address q) kShellUiHookPatchSize = Some code /\ bytes_ok code /\
    let ok := supported k q && expected_code k q code in
    ack_success (phase_for k) (ack_of_bytes file) = ok /\
    m' = (if ok && negb (bool_decide (k = KProbe)) then store m (q_method_address q) (q_desired q) else m) /\
    (ok = true -> k = KProbe -> a_observed (ack_of_bytes file) = code)
}.

Definition other_call (c : rcall) : bool :=
  match c with File _ | GetPid | CompileMethod _ => false | _ => true end.

(** What the renderer may do, and what can come of it. *)
Inductive can : Ghost -> handle -> forall c, (rcall_ret c -> Ghost -> handle -> Prop) -> Prop :=
| can_pid g h : can g h GetPid (fun r g' h' => r = pid /\ g' = g /\ h' = h)
| can_compile m ack h method :
    can (Quiet m ack) h (CompileMethod method)
      (fun r g' h' => (r = 0 \/ method_at m r) /\ g' = Quiet m ack /\ h' = h)
| can_create m ack h :
    can (Quiet m ack) h (File (FOpen RequestPath true))
      (fun r g' h' => r = true /\ g' = Opened m ack /\ h' = Some (RequestPath, []))
| can_send k q m ack :
    may_send k q m ack ->
    can (Opened m ack) (Some (RequestPath, [])) (File (FWrite (request_bytes q)))
      (fun r g' h' => r = Z.of_nat (length (request_bytes q)) /\ g' = Sent k q m ack /\
                      h' = Some (RequestPath, []))
| can_look k q m ack h :
    can (Sent k q m ack) h (File (FOpen AckPath false))
      (fun r g' h' =>
         (g' = Sent k q m ack /\
          match ack with Some b => r = true /\ h' = Some (AckPath, b) | None => r = false /\ h' = h end) \/
         (exists file m', answers_to k q m file m' /\ r = true /\ g' = Quiet m' (Some file) /\
                          h' = Some (AckPath, file)))
| can_read g p rest n :
    can g (Some (p, rest)) (File (FRead n))
      (fun r g' h' => r = take n rest /\ g' = g /\ h' = Some (p, drop n rest))
| can_flush g h : can g h (File FFlush) (fun r g' h' => r = 0 /\ g' = g /\ h' = h)
| can_close g h : can g h (File FClose) (fun r g' h' => r = 0 /\ g' = g /\ h' = None)
| can_other g h c : other_call c = true -> can g h c (fun _ g' h' => g' = g /\ h' = h).

(** The renderer keeps to the protocol, whatever comes of its calls. *)
Fixpoint plays {A} (R : rprog A) (g : Ghost) (h : handle) (Q : A -> Ghost -> handle -> Prop) : Prop :=
  match R with
  | Ret a => Q a g h
  | Call c K => exists T, can g h c T /\ forall r g' h', T r g' h' -> plays (K r) g' h' Q
  end.

Lemma plays_mono {A} (R : rprog A) g h (Q Q' : A -> Ghost -> handle -> Prop) :
  plays R g h Q -> (forall a g' h', Q a g' h' -> Q' a g' h') -> plays R g h Q'.
Proof.
  intros H HQ. revert g h H. induction R as [a|c K IH]; intros g h; cbn [plays]; [apply HQ|].
  intros (T & Hc & H). exists T. split; [done|]. intros r g' h' Ht. by apply IH, H.
Qed.

Lemma plays_bind {A B} (R : rprog A) (f : A -> rprog B) g h Q :
  plays R g h (fun a g' h' => plays (f a) g' h' Q) -> plays (bindp R f) g h Q.
Proof.
  revert g h. induction R as [a|c K IH]; intros g h; cbn [plays bindp]; [done|].
  intros (T & Hc & H). exists T. split; [done|]. intros r g' h' Ht. by apply IH, H.
Qed.

Lemma plays_seq {A B} (R : rprog A) (f : A -> rprog B) g h P Q :
  plays R g h P -> (forall a g' h', P a g' h' -> plays (f a) g' h' Q) -> plays (bindp R f) g h Q.
Proof. intros HR Hf. apply plays_bind. eapply plays_mono; [exact HR|exact Hf]. Qed.

Lemma plays_call c g h (T : rcall_ret c -> Ghost -> handle -> Prop) : can g h c T -> plays (rc c) g h T.
Proof. intros Hc. exists T. split; [done|]. by intros r g' h' Ht. Qed.

(** ** The controller while it looks for a request *)

Definition nothing : Poll := (NoRequest, Core_init, Diagnostics_init).

Definition read_result (raw : list Z) (trailing : option Z) : option (list Z) :=
  let bytes := take sizeof_request (map u8 raw) in
  if (length bytes =? sizeof_request)%nat && bool_decide (trailing = None) then Some bytes else None.

Definition closing (raw : list Z) (trailing : option Z) : sprog Poll :=
  Call FClose (fun _ => match read_result raw trailing with
                        | None => Ret nothing | Some bytes => serve_request pid bytes end).
Definition checking (raw : list Z) : sprog Poll := Call FGetc (closing raw).
Definition reading : sprog Poll := Call (FRead sizeof_request) checking.

Definition at_rest (C : sprog Poll) : Prop := (exists x, C = Ret x) \/ C = poll_and_apply_shellui_hook pid.

(** Between two polls, or in a poll that has read nothing yet, nothing at all, or all of
    the request file. *)
Inductive looking (s : Console) : sprog Poll -> Prop :=
| lk_rest C : at_rest C -> looking s C
| lk_open u : k_handle s = Some (RequestPath, u) -> k_files s RequestPath = Some u -> looking s reading
| lk_empty : looking s (checking [])
| lk_full b : k_handle s = Some (RequestPath, []) -> k_files s RequestPath = Some b -> looking s (checking b)
| lk_close_empty trailing : looking s (closing [] trailing)
| lk_close b : k_files s RequestPath = Some b -> looking s (closing b None).

Lemma looking_step s C C' s' :
  looking s C -> controller_moves C s C' s' ->
  (forall b, k_files s RequestPath = Some b -> b = [] \/ (length b = sizeof_request /\ bytes_ok b)) ->
  s' = with_files (k_files s) (k_handle s') s /\
  (looking s' C' \/
   exists b, k_files s RequestPath = Some b /\ length b = sizeof_request /\ k_handle s' = None /\
             C' = serve_request pid b).
Proof.
  intros Hl Hm Hb. destruct Hl as [C [[x ->]| ->]|u Hh Hf| |b Hh Hf|trailing|b Hf]; cbn [controller_moves] in Hm.
  - destruct Hm as [-> ->]. split; [by destruct s|]. left. apply lk_rest. by right.
  - destruct Hm as (r & Hd & ->). cbn [documented] in Hd. destruct (k_files s RequestPath) as [u|] eqn:E;
      apply answer_inv in Hd as [Hr ->].
    + subst r. split; [done|]. left. by apply (lk_open _ u).
    + apply negb_true_iff in Hr as ->. split; [by destruct s|]. left. apply lk_rest. left. by eexists.
  - destruct Hm as (r & Hd & ->). cbn [documented] in Hd. rewrite Hh in Hd.
    apply answer_inv in Hd as [->%bool_decide_eq_true ->]. split; [done|]. left.
    destruct (Hb u Hf) as [->|[Hlen _]]; [apply lk_empty|].
    rewrite take_ge, drop_ge by lia. by apply lk_full.
  - destruct Hm as (r & Hd & ->). cbn [documented] in Hd.
    destruct (k_handle s) as [[p rest]|] eqn:E; apply answer_inv in Hd as [_ ->].
    + split; [done|]. left. apply lk_close_empty.
    + split; [by destruct s; cbn in *; subst|]. left. apply lk_close_empty.
  - destruct Hm as (r & Hd & ->). cbn [documented] in Hd. rewrite Hh in Hd.
    apply answer_inv in Hd as [->%bool_decide_eq_true ->]. split; [done|]. left. by apply lk_close.
  - destruct Hm as (r & Hd & ->). cbn [documented] in Hd. apply answer_inv in Hd as [_ ->].
    split; [done|]. left. apply lk_rest. left. by eexists.
  - destruct Hm as (r & Hd & ->). cbn [documented] in Hd. apply answer_inv in Hd as [_ ->].
    split; [done|]. destruct (Hb b Hf) as [->|[Hlen Hok]].
    + left. apply lk_rest. left. by eexists.
    + right. exists b. split_and!; try done. unfold read_result.
      rewrite map_u8_id, take_ge, Hlen, Nat.eqb_refl by (done || lia). done.
Qed.

(** ** The invariant *)

(** The console apart from files and code is as at the start. *)
Record settled (s : Console) : Prop := {
  se_fixed : k_pid s = pid /\ k_sdk s = k_sdk s0;
  se_credentials : k_auth s = k_auth s0 /\ k_caps s = k_caps s0;
  se_protection : k_protection s = k_protection s0;
  se_running : k_attached s = false
}.

(** What a served request leaves behind. *)
Definition served (k : RequestKind) (q : ShellUiHookRequest) (m : gmap Z Z) (s : Console) : Prop :=
  k_attached s = false /\ k_auth s = k_auth s0 /\ k_caps s = k_caps s0 /\
  k_protection s = k_protection s0 /\ k_files s RequestPath = None /\
  exists file, k_files s AckPath = Some file /\ answers_to k q m file (k_memory s).

Inductive inv (s : Console) (C : sprog Poll) : Ghost -> Prop :=
| inv_quiet m ack :
    settled s -> k_memory s = m -> k_files s RequestPath = None -> k_files s AckPath = ack -> at_rest C ->
    inv s C (Quiet m ack)
| inv_opened m ack :
    settled s -> k_memory s = m -> k_files s RequestPath = Some [] -> k_files s AckPath = ack -> looking s C ->
    inv s C (Opened m ack)
| inv_waiting k q m ack :
    settled s -> k_memory s = m -> may_send k q m ack -> k_files s RequestPath = Some (request_bytes q) ->
    k_files s AckPath = ack -> looking s C ->
    inv s C (Sent k q m ack)
| inv_serving k q m ack c K :
    k_pid s = pid /\ k_sdk s = k_sdk s0 -> C = Call c K -> holds_back C -> not_ack (k_handle s) ->
    krely C s (fun _ s' => served k q m s') -> k_files s AckPath = ack ->
    inv s C (Sent k q m ack)
| inv_served k q m ack :
    k_pid s = pid /\ k_sdk s = k_sdk s0 -> served k q m s -> at_rest C ->
    inv s C (Sent k q m ack).

Hypothesis Hcred : sound_credentials s0.

(** A request is served as the protocol says. *)
Lemma serving_starts k q m ack s :
  settled s -> k_memory s = m -> may_send k q m ack -> k_files s RequestPath = Some (request_bytes q) ->
  krely (serve_request pid (request_bytes q)) s (fun _ s' => served k q m s').
Proof.
  intros [[Hp Hsdk] [Ha Hc] Hprot Hrun] Hm [Hw Hv (Hcomp & (code & Hl & Hb) & Hpr) _] Hf.
  destruct (decide (backend_for k (u32 (k_sdk s)) q = Unsupported)) as [Hun|Hsup].
  - assert (supported k q = false) as Hs.
    { unfold supported. rewrite <- Hsdk. by rewrite bool_decide_eq_true_2. }
    rewrite <- Hp in Hv. refine (rely_mono _ _ _ _ _ _ (eq_ind _ (fun x => krely (serve_request x _) s _)
      (unsupported_served k q s Hw Hv Hun) _ Hp)).
    intros _ s' [(D1 & D2 & D3 & D4 & D5) D6 (file & D7 & D8 & D9 & D10 & D11)].
    unfold served. rewrite D1, D2, D3, D4, D5. split_and!; try done. exists file. split; [done|].
    split; [done|by rewrite <- Hp|by rewrite D11, Hs|]. exists code. rewrite Hs. cbn [andb]. by rewrite Hm.
  - assert (supported k q = true) as Hs.
    { unfold supported. rewrite <- Hsdk. by rewrite bool_decide_eq_false_2. }
    assert (serviceable k q code s) as Hsv.
    { split; try done; [by rewrite Hp|unfold sound_credentials; by rewrite Ha, Hc|by rewrite Hm|by rewrite Hprot]. }
    refine (rely_mono _ _ _ _ _ _ (eq_ind _ (fun x => krely (serve_request x _) s _) (serve_served k q code s Hsv) _ Hp)).
    intros r s' [_ D2 D3 D4 [D5 D6] [D7 D8] (file & E1 & E2 & E3 & E4 & E5 & E6)].
    unfold served. rewrite D3, D4, D5, D6. split_and!; try done. exists file. split; [done|].
    split; [done|by rewrite <- Hp| |].
    + rewrite E5, Hs. by destruct (expected_code k q code).
    + exists code. rewrite Hs. cbn [andb]. split; [done|]. split; [done|]. split; [done|].
      rewrite <- Hm. split; [done|]. intros _ ->. by apply E6.
Qed.

Lemma settled_files s files h : settled s -> settled (with_files files h s).
Proof. by intros []. Qed.

(** Nothing happens while there is no request. *)
Lemma rest_step s C C' s' :
  at_rest C -> k_files s RequestPath = None -> controller_moves C s C' s' -> s' = s /\ at_rest C'.
Proof.
  intros [[x ->]| ->] Hf Hm; cbn [controller_moves] in Hm.
  - destruct Hm as [-> ->]. split; [done|by right].
  - destruct Hm as (r & Hd & ->). cbn [documented] in Hd. rewrite Hf in Hd.
    apply answer_inv in Hd as [Hr ->]. apply negb_true_iff in Hr as ->. split; [done|left; by eexists].
Qed.

Lemma controller_preserves s C C' s' g : inv s C g -> controller_moves C s C' s' -> inv s' C' g.
Proof.
  intros Hi Hm. destruct Hi as [m ack Hs Hmem Hf Ha Hr|m ack Hs Hmem Hf Ha Hl|k q m ack Hs Hmem Hsend Hf Ha Hl
    |k q m ack c K Hfix -> Hback Hn Hk Ha|k q m ack Hfix Hserved Hr].
  - apply rest_step in Hm as [-> Hr']; [|done..]. by apply inv_quiet.
  - destruct (looking_step s C C' s' Hl Hm) as [-> [Hl'|(b & Hb & Hlen & _)]].
    + intros b Hb. left. congruence.
    + apply inv_opened; try done. by apply settled_files.
    + rewrite Hf in Hb. injection Hb as <-. done.
  - destruct (request_bytes_ok q (ms_wf _ _ _ _ Hsend)) as [Hlen Hok].
    destruct (looking_step s C C' s' Hl Hm) as [-> [Hl'|(b & Hb & _ & Hh & ->)]].
    + intros b Hb. right. rewrite Hf in Hb. by injection Hb as <-.
    + apply inv_waiting; try done. by apply settled_files.
    + rewrite Hf in Hb. injection Hb as <-. cbn in Hh. rewrite Hh.
      eapply inv_serving; [apply Hs|reflexivity|apply serve_request_back| | |done].
      * intros p rest [=].
      * apply (serving_starts k q m ack); try done. by apply settled_files.
  - destruct Hm as (r & Hd & ->). destruct (documented_fixed _ _ _ Hd) as [Hp Hsdk].
    destruct (holds_back_step c K s r s' Hback Hn Hd) as (Hback' & Hn' & Hack).
    specialize (Hk r s' Hd). destruct (K r) as [a|c' K'] eqn:E.
    + apply inv_served; [by rewrite Hp, Hsdk|exact Hk|left; by eexists].
    + destruct Hack as [Hack|[a Hret]]; [|done].
      eapply inv_serving; [by rewrite Hp, Hsdk|reflexivity|done|done|exact Hk|by rewrite Hack].
  - apply rest_step in Hm as [-> Hr']; [by apply inv_served|done|apply Hserved].
Qed.

Lemma inv_pid s C g : inv s C g -> k_pid s = pid.
Proof. intros [m ack []|m ack []|k q m ack []|k q m ack c K []|k q m ack []]; first [done | by destruct se_fixed0]. Qed.

Lemma is_code_method s m a :
  settled s -> k_memory s = m -> is_code s a = true -> method_at m a.
Proof.
  intros Hs <-. unfold is_code. rewrite !andb_true_iff. intros [[H1 H2] H3].
  split; [done|]. split.
  - destruct (load _ _ _) as [code|]; [|done]. exists code. split; [done|]. apply Forall_forall.
    intros b Hb. rewrite forallb_forall in H2. specialize (H2 b (proj1 (list_elem_of_In _ _) Hb)).
    unfold is_byte, in_u. breflect. lia.
  - apply bool_decide_eq_true in H3. by rewrite <- (se_protection _ Hs).
Qed.

(** The renderer's reads and closes leave the console as it is. *)
Lemma same_console s (files : Path -> option (list Z)) : files = k_files s -> with_files files (k_handle s) s = s.
Proof. intros ->. by destruct s. Qed.

Lemma create_preserves s C m ack h r s' h' :
  inv s C (Quiet m ack) -> renderer_documented s h (Ev (File (FOpen RequestPath true)) r) = Some (s', h') ->
  r = true /\ h' = Some (RequestPath, []) /\ inv s' C (Opened m ack).
Proof.
  intros Hi Hd. inversion Hi as [m1 a1 Hs Hm Hf Ha Hr| | | |]; subst. cbn [renderer_documented documented] in Hd.
  destruct r; [|done]. cbn [answer] in Hd. injection Hd as <- <-. split; [done|]. split; [done|].
  apply inv_opened; [by apply settled_files|done|done|done|by apply lk_rest].
Qed.

(** Once the request is written it waits, whatever the controller has read so far. *)
Lemma send_waits s C k q m ack r s' h' :
  inv s C (Opened m ack) -> may_send k q m ack ->
  renderer_documented s (Some (RequestPath, [])) (Ev (File (FWrite (request_bytes q))) r) = Some (s', h') ->
  r = Z.of_nat (length (request_bytes q)) /\ h' = Some (RequestPath, []) /\
  settled s' /\ k_memory s' = m /\ k_files s' RequestPath = Some (request_bytes q) /\
  k_files s' AckPath = ack /\ looking s' C.
Proof.
  intros Hi Hsend Hd. inversion Hi as [|m1 a1 Hs Hm Hf Ha Hl| | |]; subst.
  set (b := request_bytes q) in *. cbn [renderer_documented documented with_files k_handle k_files] in Hd.
  destruct ((r : Z) =? Z.of_nat (length b)) eqn:Er; [|done]. apply Z.eqb_eq in Er. cbn [answer] in Hd.
  injection Hd as <- <-. split; [done|]. split; [done|]. rewrite Hf. cbn [default app].
  split; [by apply settled_files|]. split; [done|]. split; [done|]. split; [done|].
  destruct Hl as [C Hr|u Hh Hu| |b0 Hh Hu|trailing|b0 Hu].
  - by apply lk_rest.
  - rewrite Hf in Hu. injection Hu as <-. apply (lk_open _ b); [cbn; by rewrite Hh|done].
  - apply lk_empty.
  - rewrite Hf in Hu. injection Hu as <-. apply lk_empty.
  - apply lk_close_empty.
  - rewrite Hf in Hu. injection Hu as <-. apply lk_close_empty.
Qed.

Lemma send_preserves s C k q m ack r s' h' :
  inv s C (Opened m ack) -> may_send k q m ack ->
  renderer_documented s (Some (RequestPath, [])) (Ev (File (FWrite (request_bytes q))) r) = Some (s', h') ->
  r = Z.of_nat (length (request_bytes q)) /\ h' = Some (RequestPath, []) /\ inv s' C (Sent k q m ack).
Proof.
  intros Hi Hsend Hd. destruct (send_waits _ _ _ _ _ _ _ _ _ Hi Hsend Hd) as (-> & -> & Hs & Hm & Hf & Ha & Hl).
  split_and!; try done. by apply inv_waiting.
Qed.

Lemma look_answer s h r s' h' b :
  k_files s AckPath = b -> renderer_documented s h (Ev (File (FOpen AckPath false)) r) = Some (s', h') ->
  s' = s /\ match b with Some b => r = true /\ h' = Some (AckPath, b) | None => r = false /\ h' = h end.
Proof.
  intros <- Hd. cbn [renderer_documented documented with_files k_files] in Hd.
  destruct (k_files s AckPath) as [b|]; destruct r; try done; cbn [answer negb] in Hd; injection Hd as <- <-;
    (split; [by apply same_console|done]).
Qed.

Lemma look_preserves s C k q m ack h r s' h' :
  inv s C (Sent k q m ack) -> renderer_documented s h (Ev (File (FOpen AckPath false)) r) = Some (s', h') ->
  (match ack with Some b => r = true /\ h' = Some (AckPath, b) | None => r = false /\ h' = h end /\
   inv s' C (Sent k q m ack)) \/
  (exists file m', answers_to k q m file m' /\ r = true /\ h' = Some (AckPath, file) /\
                   inv s' C (Quiet m' (Some file))).
Proof.
  intros Hi Hd.
  inversion Hi as [| |k1 q1 m1 a1 Hs Hm Hsend Hf Ha Hl|k1 q1 m1 a1 c K Hfix HC Hback Hn Hk Ha
    |k1 q1 m1 a1 Hfix (Hrun & Hau & Hca & Hpr & Hf & file & Ha & Hans) Hr]; subst;
    destruct (look_answer s h r s' h' _ eq_refl Hd) as [-> Hrh].
  - by left.
  - by left.
  - right. rewrite Ha in Hrh. exists file, (k_memory s). split_and!; try done; [apply Hrh|apply Hrh|].
    by apply inv_quiet.
Qed.

Lemma renderer_preserves s C g h c (T : rcall_ret c -> Ghost -> handle -> Prop) r s' h' :
  inv s C g -> can g h c T -> renderer_documented s h (Ev c r) = Some (s', h') ->
  exists g', T r g' h' /\ inv s' C g'.
Proof.
  intros Hi Hc Hd. destruct Hc as [g h|m ack h method|m ack h|k q m ack Hsend|k q m ack h|g p rest n|g h|g h|g h c Ho].
  - cbn [renderer_documented] in Hd. destruct ((r : Z) =? k_pid s) eqn:E; [|done]. injection Hd as <- <-.
    apply Z.eqb_eq in E. exists g. by rewrite E, (inv_pid _ _ _ Hi).
  - cbn [renderer_documented] in Hd. destruct (null r || is_code s r) eqn:E; [|done]. injection Hd as <- <-.
    exists (Quiet m ack). split_and!; try done. apply orb_true_iff in E as [E|E]; [left; by apply Z.eqb_eq|].
    right. inversion Hi as [m1 a1 Hs Hm| | | |]; subst. by apply (is_code_method s).
  - destruct (create_preserves _ _ _ _ _ _ _ _ Hi Hd) as (-> & -> & Hi'). by exists (Opened m ack).
  - destruct (send_preserves _ _ _ _ _ _ _ _ _ Hi Hsend Hd) as (-> & -> & Hi'). by exists (Sent k q m ack).
  - destruct (look_preserves _ _ _ _ _ _ _ _ _ _ Hi Hd) as [[Hr Hi']|(file & m' & Hans & -> & -> & Hi')].
    + exists (Sent k q m ack). split; [by left|done].
    + exists (Quiet m' (Some file)). split; [|done]. right. by exists file, m'.
  - cbn [renderer_documented documented with_files k_handle k_files] in Hd. exists g.
    unfold answer in Hd. destruct (bool_decide _) eqn:E; [|done]. injection Hd as <- <-.
    apply bool_decide_eq_true in E as ->. split; [done|]. by rewrite same_console.
  - cbn [renderer_documented documented] in Hd. exists g. unfold answer in Hd. destruct (_ =? 0) eqn:E; [|done].
    injection Hd as <- <-. apply Z.eqb_eq in E. split; [done|]. by rewrite same_console.
  - cbn [renderer_documented documented] in Hd. exists g. unfold answer in Hd. destruct (_ =? 0) eqn:E; [|done].
    injection Hd as <- <-. apply Z.eqb_eq in E. split; [done|]. by rewrite same_console.
  - exists g. destruct c; try done; cbn [renderer_documented] in Hd; injection Hd as <- <-; done.
Qed.

(** A renderer that keeps to the protocol, in any interleaving with the controller. *)
Definition session_inv {A} (Q : A -> Ghost -> handle -> Prop) (y : System A) : Prop :=
  exists g, inv (y_console y) (y_controller y) g /\ plays (y_renderer y) g (y_handle y) Q.

Lemma session_step {A} (Q : A -> Ghost -> handle -> Prop) y y' :
  session_inv Q y -> system_step y y' -> session_inv Q y'.
Proof.
  intros (g & Hi & Hp) Hstep. destruct Hstep as [s h R C R' s' h' Hm|s h R C C' s' Hm]; cbn in *.
  - destruct R as [a|c K]; [done|]. destruct Hm as (r & Hd & ->), Hp as (T & Hc & Hp).
    destruct (renderer_preserves s C g h c T r s' h' Hi Hc Hd) as (g' & Ht & Hi').
    exists g'. split; [done|]. by apply Hp.
  - exists g. split; [by apply (controller_preserves s C)|done].
Qed.

Lemma session_sound {A} (Q : A -> Ghost -> handle -> Prop) y y' :
  session_inv Q y -> rtc system_step y y' -> session_inv Q y'.
Proof. intros Hy Hr. induction Hr as [y|y y1 y2 Hs Hr IH]; [done|]. by apply IH, (session_step Q y). Qed.
End Session.

Arguments y_console {A} _.
Arguments y_handle {A} _.
Arguments y_renderer {A} _.
Arguments y_controller {A} _.
