(* ===== verification/HookInstalled.v ===== *)
(** An installation that reports success is real: the renderer's initialisation
    ([RendererHook.initialize_runtime]) against the protocol of [HookSession]. *)
From S2P Require Import Prelude Effects HookProtocol Mono RendererHook HookRequests HookInstall HookHandshake Debugger Trampoline HookController Console HookServed HookSession.

(** ** Nonces

    Two transactions in a row never have the same one. *)

Lemma nonzero_nonce_bit n : Z.testbit (nonzero_nonce n) 63 = Z.testbit n 63.
Proof. unfold nonzero_nonce. destruct (n =? 0) eqn:E; [|done]. by apply Z.eqb_eq in E as ->. Qed.

Lemma user_bit a : shellui_user_address a = true -> Z.testbit a 63 = false.
Proof.
  unfold shellui_user_address. intros H. breflect. apply Z.bits_above_log2; [lia|].
  apply Z.log2_lt_pow2; lia.
Qed.

(** A nonce of the hook and one of the guard. *)
Lemma hook_guard_nonce hook pid m original m' :
  shellui_user_address m = true -> shellui_user_address hook = true -> shellui_user_address m' = true ->
  Z.testbit original 63 = false ->
  hook_nonce hook pid m original <> guard_nonce pid m'.
Proof.
  intros Hm Hh Hm' Ho E. apply (f_equal (fun x => Z.testbit x 63)) in E. revert E.
  unfold hook_nonce, guard_nonce. rewrite !nonzero_nonce_bit, !Z.lxor_spec.
  rewrite (user_bit m), (user_bit hook), (user_bit m'), Ho by done.
  change (Z.testbit 0x8d4f23a76c19e502 63) with true. change (Z.testbit 0x6d9bc2f1a54837e0 63) with false.
  by destruct (Z.testbit (pid_bits pid) 63).
Qed.

Lemma nonzero_nonce_inj x y : nonzero_nonce x = nonzero_nonce y -> x = y \/ Z.lxor x y = 1.
Proof.
  unfold nonzero_nonce. destruct (x =? 0) eqn:Ex, (y =? 0) eqn:Ey; intros E; breflect; subst; auto.
Qed.

(** The probe of a method and its patch. *)
Lemma hook_hook_nonce hook pid m original :
  shellui_user_address original = true -> hook_nonce hook pid m original <> hook_nonce hook pid m 0.
Proof.
  intros Ho E. unfold hook_nonce in E. rewrite Z.lxor_0_r in E.
  set (x := Z.lxor m hook) in E. set (p := pid_bits pid) in E. set (K := 0x8d4f23a76c19e502) in E.
  assert (Z.lxor (Z.lxor (Z.lxor (Z.lxor x original) p) K) (Z.lxor (Z.lxor x p) K) = original) as Hx.
  { apply Z.bits_inj'. intros n _. rewrite !Z.lxor_spec.
    by destruct (Z.testbit x n), (Z.testbit original n), (Z.testbit p n), (Z.testbit K n). }
  unfold shellui_user_address in Ho. breflect.
  apply nonzero_nonce_inj in E as [E|E]; [rewrite E, Z.lxor_nilpotent in Hx|rewrite E in Hx]; lia.
Qed.

Lemma other_nonce pid n n' a : ack_matches pid n a = true -> n' <> n -> ack_matches pid n' a = false.
Proof.
  intros H Hne. apply ack_matches_true in H as (_ & _ & _ & <- & _). apply not_true_is_false.
  rewrite ack_matches_true. by intros (_ & _ & _ & H & _).
Qed.

(** Writing back what is there. *)
Lemma store_same m a l : load m a (length l) = Some l -> store m a l = m.
Proof.
  intros Hl. pose proof Hl as [_ H]%load_Some. apply map_eq. intros x. rewrite lookup_store.
  destruct (decide _) as [Hx|]; [|done]. rewrite <- (H (Z.to_nat (x - a))) by lia. f_equal. lia.
Qed.

Section Installed.
Context (s0 : Console) (hook_fn trampoline_fn : Z).
Let pid := k_pid s0.
Context (Hpid : 0 < pid < 2 ^ 31) (Hhook : shellui_user_address hook_fn = true)
        (Htramp : shellui_user_address trampoline_fn = true) (Hdiff : trampoline_fn <> hook_fn).

Abbreviation splays := (plays s0 hook_fn trampoline_fn).
Abbreviation sanswers := (answers_to s0).
Abbreviation smay := (may_send s0 hook_fn trampoline_fn).
Abbreviation smethod := (method_at s0 hook_fn trampoline_fn).

(** ** Calls that have nothing to do with the protocol *)

Abbreviation bystander := (calls (fun c => other_call c = true)).

Lemma bystander_plays {A} (p : rprog A) g h :
  bystander p -> splays p g h (fun _ g' h' => g' = g /\ h' = h).
Proof.
  induction p as [a|c K IH]; [done|]. intros [Hc HK]. exists (fun _ g' h' => g' = g /\ h' = h).
  split; [by apply can_other|]. intros r g' h' [-> ->]. by apply IH.
Qed.

Lemma bystander_seq {A B} (p : rprog A) (f : A -> rprog B) g h Q :
  bystander p -> (forall a, splays (f a) g h Q) -> splays (bindp p f) g h Q.
Proof. intros Hp Hf. eapply plays_seq; [by apply bystander_plays|]. by intros a ? ? [-> ->]. Qed.

Ltac bystands :=
  repeat first
    [ exact I
    | match goal with
      | |- calls _ (Ret _) => exact I
      | |- calls _ (rc _) => split; [reflexivity|intros ?; exact I]
      | |- calls _ (if ?b then _ else _) => destruct b
      | |- calls _ (match ?a with _ => _ end) => destruct a
      end
    | apply calls_bind; [|intros ?]
    | progress unfold managed_target, free_handle ].

Lemma open_image_bystander domain path : bystander (open_image domain path).
Proof. unfold open_image. bystands. Qed.

Lemma replace_bystander h o : bystander (replace_managed_handle h o).
Proof. unfold replace_managed_handle. bystands. Qed.

Lemma refresh_game_scene_bystander g : bystander (refresh_game_scene g).
Proof.
  unfold refresh_game_scene, scoped, find_game_scene, pin, pinned_ok, pinned_object, managed_target,
    invoke, release_managed_handle, free_handle, replace_managed_handle. bystands.
Qed.

(** ** One transaction *)

Lemma write_plays k q m ack :
  smay k q m ack ->
  splays (RendererHook.write_exact_file RequestPath (request_bytes q)) (Quiet m ack) None
    (fun ok g h => ok = true /\ g = Sent k q m ack /\ h = None).
Proof.
  intros Hs. unfold RendererHook.write_exact_file.
  eapply plays_seq; [apply plays_call, can_create|]. intros opened ? ? (-> & -> & ->). cbn [negb].
  eapply plays_seq; [by apply plays_call, can_send|]. intros n ? ? (-> & -> & ->). rewrite Z.eqb_refl.
  eapply plays_seq with (P := fun b g h => b = true /\ g = Sent k q m ack /\ h = Some (RequestPath, [])).
  { eapply plays_seq; [apply plays_call, can_flush|]. by intros r ? ? (-> & -> & ->). }
  intros b ? ? (-> & -> & ->). eapply plays_seq; [apply plays_call, can_close|].
  by intros r ? ? (-> & -> & ->).
Qed.

(** What the wait finds. *)
Definition answered (k : RequestKind) (q : ShellUiHookRequest) (m : gmap Z Z)
    (r : option ShellUiHookAck) (g : Ghost) (h : handle) : Prop :=
  forall a, r = Some a -> h = None /\
    exists file m', a = ack_of_bytes file /\ sanswers k q m file m' /\ g = Quiet m' (Some file).

Lemma read_plays size b p g :
  length b = size -> bytes_ok b ->
  splays (bindp (rc (File (FRead size))) (fun raw =>
            bindp (rc (File FClose)) (fun _ =>
            Ret (if (length (take size (map u8 raw)) =? size)%nat then Some (take size (map u8 raw)) else None))))
    g (Some (p, b)) (fun r g' h' => r = Some b /\ g' = g /\ h' = None).
Proof.
  intros Hl Hb. eapply plays_seq; [apply plays_call, can_read|]. intros raw ? ? (-> & -> & ->).
  eapply plays_seq; [apply plays_call, can_close|]. intros r ? ? (-> & -> & ->). cbn [plays].
  rewrite (take_ge b), map_u8_id, (take_ge b), Hl, Nat.eqb_refl by (done || lia). done.
Qed.

Lemma wait_plays k q m ack n :
  smay k q m ack ->
  splays (wait_loop n pid (q_nonce q)) (Sent k q m ack) None (answered k q m).
Proof.
  intros Hs. induction n as [|n IH]; cbn [wait_loop]; [done|].
  assert (splays (bindp (rc (Usleep 20000)) (fun _ => wait_loop n pid (q_nonce q))) (Sent k q m ack) None
            (answered k q m)) as Hagain by (apply bystander_seq; [bystands|done]).
  assert (forall b, (length b = sizeof_ack /\ bytes_ok b) -> take sizeof_ack (map u8 (take sizeof_ack b)) = b) as Hid.
  { intros b [Hl Hb]. by rewrite (take_ge b), map_u8_id, take_ge by (done || lia). }
  unfold RendererHook.read_exact_file. apply plays_bind.
  eapply plays_seq; [apply plays_call, can_look|].
  intros opened ? ? [[-> Hack]|(file & m' & Hans & -> & -> & ->)].
  - destruct ack as [b|].
    + destruct Hack as [-> ->]. cbn [negb]. destruct (ms_fresh _ _ _ _ _ _ _ Hs b eq_refl) as [[Hl Hb] Hf].
      eapply plays_mono; [by apply read_plays|]. intros r ? ? (-> & -> & ->). cbv zeta.
      fold pid in Hf. by rewrite Hf.
    + destruct Hack as [-> ->]. exact Hagain.
  - cbn [negb]. destruct (an_file _ _ _ _ _ _ Hans) as [Hl Hb].
    eapply plays_mono; [by apply read_plays|]. intros r ? ? (-> & -> & ->). cbv zeta.
    pose proof (an_match _ _ _ _ _ _ Hans) as Hm. fold pid in Hm. rewrite Hm.
    intros a [= <-]. split; [done|]. by exists file, m'.
Qed.

Lemma pid_plays {B} (f : Z -> rprog B) g h Q : splays (f pid) g h Q -> splays (bindp (rc GetPid) f) g h Q.
Proof. intros H. eapply plays_seq; [apply plays_call, can_pid|]. by intros r ? ? (-> & -> & ->). Qed.

Lemma publish_plays k q m ack :
  smay k q m ack ->
  splays (bindp (RendererHook.write_exact_file RequestPath (request_bytes q)) (fun ok => Ret (ok, q_nonce q)))
    (Quiet m ack) None (fun r g h => r = (true, q_nonce q) /\ g = Sent k q m ack /\ h = None).
Proof.
  intros Hs. eapply plays_seq; [by apply write_plays|]. by intros ok ? ? (-> & -> & ->).
Qed.

Lemma answer_plays {A} k q m ack (f : option ShellUiHookAck -> rprog A) Q :
  smay k q m ack -> (forall r g h, answered k q m r g h -> splays (f r) g h Q) ->
  splays (bindp (rc GetPid) (fun p => bindp (wait_for_native_hook_ack p (q_nonce q)) f)) (Sent k q m ack) None Q.
Proof. intros Hs Hf. apply pid_plays. eapply plays_seq; [by apply wait_plays|]. exact Hf. Qed.

(** ** The transactions of the renderer *)

Lemma method_facts m a :
  smethod m a -> method_ok a = true /\ in_u 64 a /\ shellui_user_address a = true /\ a <> hook_fn /\ a <> trampoline_fn.
Proof.
  intros (Hc & _). apply compiled_facts in Hc as (H1 & H2 & H3 & H4). split_and!; try done.
  by apply method_user.
Qed.

(** The acknowledgement of the last transaction. *)
Definition last_ack (nonce : Z) (file : list Z) : Prop :=
  (length file = sizeof_ack /\ bytes_ok file) /\ ack_matches pid nonce (ack_of_bytes file) = true.

Definition fresh (nonce : Z) (ack : option (list Z)) : Prop :=
  forall b, ack = Some b -> (length b = sizeof_ack /\ bytes_ok b) /\ ack_matches pid nonce (ack_of_bytes b) = false.

Lemma last_fresh n n' file : last_ack n file -> n' <> n -> fresh n' (Some file).
Proof. intros [Hf Hm] Hne b [= <-]. split; [done|]. by eapply other_nonce. Qed.

Lemma probe_plays m ack a :
  smethod m a -> fresh (hook_nonce hook_fn pid a 0) ack ->
  splays (probe_hook_bytes hook_fn a) (Quiet m ack) None
    (fun r g h => forall e, r = Some e ->
       load m a kShellUiHookPatchSize = Some e /\ block e /\ h = None /\
       exists file, g = Quiet m (Some file) /\ last_ack (hook_nonce hook_fn pid a 0) file).
Proof.
  intros Hm Hf. destruct (method_facts _ _ Hm) as (Hok & Hu & _ & _).
  destruct (hook_nonce_ok pid hook_fn Hhook a 0 Hu) as [Hn1 Hn2]; [done|].
  unfold probe_hook_bytes, publish_hook_request.
  set (q := request pid (hook_nonce hook_fn pid a 0) a hook_fn 0 0 zero_block zero_block).
  assert (smay KProbe q m ack) as Hs.
  { split; [|by apply probe_accepted; first [apply Hpid|done]|done|done].
    apply request_wf; try done; try apply zero_block_ok; [by apply pid_i32|by apply user_in_u]. }
  apply plays_bind, pid_plays. cbv zeta. change (u32 (Z.of_nat 0)) with 0. fold q.
  eapply plays_mono; [by apply publish_plays|]. intros r ? ? (-> & -> & ->). cbn [negb].
  apply (answer_plays KProbe q m ack); [done|]. intros [a'|] g h Ha; [|done].
  destruct (Ha a' eq_refl) as (-> & file & m' & -> & Hans & ->). cbn [plays].
  destruct Hans as [A1 A2 _ (code & Hl & Hb & A3 & -> & A5)]. intros e He.
  change (phase_for KProbe) with PhaseProbe in A3. rewrite A3 in He.
  destruct (supported s0 KProbe q && expected_code KProbe q code) eqn:Eok; [|done]. injection He as <-.
  pose proof (A5 eq_refl eq_refl) as Hobs. cbn [a_observed ack_of_bytes] in Hobs. rewrite Hobs.
  change (q_method_address q) with a in Hl.
  split; [done|]. split; [split; [by apply load_Some in Hl as [? _]|done]|]. split; [done|]. by exists file.
Qed.

(** The first instruction of a method becomes a return. *)
Definition guarded (m m' : gmap Z Z) : Prop :=
  exists a e, load m a kShellUiHookPatchSize = Some e /\ m' = store m a (0xc3 :: tail e).

(** A request whose expected bytes are the code succeeds when the firmware supports it. *)
Lemma expected_answer k q m file m' e :
  sanswers k q m file m' -> load m (q_method_address q) kShellUiHookPatchSize = Some e ->
  k <> KProbe -> q_expected q = e ->
  ack_success (phase_for k) (ack_of_bytes file) = supported s0 k q /\
  (supported s0 k q = true -> m' = store m (q_method_address q) (q_desired q)) /\
  (supported s0 k q = false -> m' = m).
Proof.
  intros [_ _ _ (code & Hl & _ & A3 & -> & _)] He Hk Hq.
  assert (code = e) as -> by congruence.
  assert (expected_code k q e = true) as E by (unfold expected_code; rewrite Hq, bytes_eqb_refl; apply orb_true_r).
  rewrite E, andb_true_r in *. rewrite (bool_decide_eq_false_2 (k = KProbe)) by done. cbn [negb].
  split; [done|]. split; intros ->; done.
Qed.

Definition guard_end (m : gmap Z Z) (r : MainThreadGuardResult) (g : Ghost) (h : handle) : Prop :=
  match r with
  | Installed => exists m' ack, guarded m m' /\ g = Quiet m' ack
  | GuardUnsupported =>
      h = None /\ exists a file, smethod m a /\ g = Quiet m (Some file) /\ last_ack (guard_nonce pid a) file
  | GuardFailed => True
  end.

Lemma request_guard_plays m ack a e :
  smethod m a -> load m a kShellUiHookPatchSize = Some e -> block e -> byte_at e 0 <> 0xc3 ->
  fresh (guard_nonce pid a) ack ->
  splays (bindp (publish_main_thread_guard_request a e) (fun '(published, nonce) =>
      if negb published then Ret GuardFailed
      else bindp (rc GetPid) (fun p => bindp (wait_for_native_hook_ack p nonce) (fun ack =>
        match ack with
        | None => Ret GuardFailed
        | Some ack =>
            if a_status ack =? status_code UnsupportedFirmware then Ret GuardUnsupported
            else if ack_success PhaseMainThreadGuard ack then Ret Installed
            else Ret GuardFailed
        end)))) (Quiet m ack) None (guard_end m).
Proof.
  intros Hm Hl He H0 Hf. destruct (method_facts _ _ Hm) as (Hok & Hu & _ & _).
  destruct (guard_nonce_ok pid a Hu) as [Hn1 Hn2].
  set (q := request pid (guard_nonce pid a) a a 0 1 e (0xc3 :: tail e)).
  assert (smay KGuard q m ack) as Hs.
  { split; [|by apply guard_accepted; first [apply Hpid|done]|done|done].
    apply request_wf; try done; [by apply pid_i32|]. destruct e as [|b e]; [by destruct He|].
    destruct He as [Hle Hb]. split; [done|]. inversion Hb; subst. by constructor. }
  unfold publish_main_thread_guard_request. apply plays_bind, pid_plays. cbv zeta. fold q.
  eapply plays_mono; [by apply publish_plays|]. intros r ? ? (-> & -> & ->). cbn [negb].
  apply (answer_plays KGuard q m ack); [done|]. intros [x|] g h Ha; [|done].
  destruct (Ha x eq_refl) as (-> & file & m' & -> & Hans & ->). pose proof Hans as [A1 A2 A3 _].
  destruct (expected_answer KGuard q m file m' e Hans Hl ltac:(done) eq_refl) as (B1 & B2 & B3).
  change (phase_for KGuard) with PhaseMainThreadGuard in B1. rewrite B1.
  destruct (supported s0 KGuard q) eqn:Esup.
  - destruct (_ =? _) eqn:E; [apply Z.eqb_eq in E; by apply A3 in E|].
    exists m', (Some file). split; [|done]. exists a, e. by rewrite (B2 eq_refl).
  - destruct (proj2 A3 eq_refl). rewrite Z.eqb_refl. split; [done|]. exists a, file. split_and!; try done.
    by rewrite (B3 eq_refl).
Qed.

Lemma install_guard_plays m domain :
  splays (install_main_thread_guard hook_fn domain) (Quiet m None) None (guard_end m).
Proof.
  unfold install_main_thread_guard. apply bystander_seq; [apply open_image_bystander|]. intros core.
  destruct (null core); [done|]. apply bystander_seq; [bystands|]. intros diagnostics.
  apply bystander_seq; [bystands|]. intros check. destruct (null check); [done|].
  eapply plays_seq; [apply plays_call, can_compile|]. intros a ? ? (Ha & -> & ->).
  destruct (null a) eqn:En; [done|]. destruct Ha as [->|Ha]; [done|].
  destruct (method_facts _ _ Ha) as (_ & _ & Hua & _).
  eapply plays_seq; [by apply probe_plays|]. intros [e|] g h Hp; [|done].
  destruct (Hp e eq_refl) as (Hl & He & -> & file & -> & Hlast).
  destruct (byte_at e 0 =? 0xc3) eqn:E0.
  - exists m, (Some file). split; [|done]. exists a, e. split; [done|].
    destruct e as [|b e]; [by destruct He|]. apply Z.eqb_eq in E0. cbn in E0. subst b. symmetry.
    apply store_same. cbn [tail]. by rewrite (proj1 He).
  - apply Z.eqb_neq in E0. apply request_guard_plays; try done. eapply last_fresh; [exact Hlast|].
    apply not_eq_sym, hook_guard_nonce; try done.
Qed.

(** A method starts with a jump to the hook, and the hook's original call does what was
    there: it goes on to where the old jump led, or the trampoline holds the displaced
    instructions and a jump behind them. *)
Definition hooked (m m' : gmap Z Z) (r : Runtime) : Prop :=
  exists a e n, load m a kShellUiHookPatchSize = Some e /\ m' = store m a (patched hook_fn n e) /\
    ((n = kAbsoluteJumpSize /\ take 6 e = kShellUiAbsoluteJumpPrefix /\ r_original r = field 6 8 e) \/
     (n = native_patch_length e /\ (kAbsoluteJumpSize <= n <= kAtomicPatchSize)%nat /\
      r_original r = trampoline_fn /\
      take (n + 14) (r_trampoline r) = take n e ++ absolute_jump (u64 (a + Z.of_nat n)))).

Lemma request_hook_plays r m ack a e n original t :
  smethod m a -> load m a kShellUiHookPatchSize = Some e -> block e ->
  fresh (hook_nonce hook_fn pid a original) ack -> in_u 64 original ->
  (kAbsoluteJumpSize <= n <= kAtomicPatchSize)%nat ->
  (forall nonce, nonce <> 0 ->
     kind_valid KPatch (request pid nonce a hook_fn original (Z.of_nat n) e (patched hook_fn n e)) pid = true) ->
  splays (request_hook hook_fn r a e n original t) (Quiet m ack) None
    (fun x g h => x.1 = true -> r_original x.2 = original /\ r_trampoline x.2 = t /\
       exists ack', g = Quiet (store m a (patched hook_fn n e)) ack').
Proof.
  intros Hm Hl He Hf Ho Hn Hv. destruct (method_facts _ _ Hm) as (Hok & Hu & _ & _).
  unfold request_hook. cbv zeta. fold (patched hook_fn n e).
  apply bystander_seq; [bystands|]. intros _. unfold publish_hook_request. apply plays_bind, pid_plays. cbv zeta.
  destruct (hook_nonce_ok pid hook_fn Hhook a original Hu Ho) as [Hn1 Hn2].
  unfold kAbsoluteJumpSize, kAtomicPatchSize in Hn.
  rewrite (wrap_small 32 (Z.of_nat n)) by (unfold in_u; lia).
  set (q := request _ _ _ _ _ _ _ _).
  assert (smay KPatch q m ack) as Hs.
  { split; [|by apply Hv|done|done]. apply request_wf; try done; [by apply pid_i32|by apply user_in_u|unfold in_u; lia|].
    apply patched_facts; [done|unfold kAbsoluteJumpSize, kAtomicPatchSize; lia|by apply user_in_u]. }
  eapply plays_mono; [by apply publish_plays|]. intros x ? ? (-> & -> & ->). cbn [negb].
  apply (answer_plays KPatch q m ack); [done|]. intros [x|] g h Ha; [|done].
  destruct (Ha x eq_refl) as (-> & file & m' & -> & Hans & ->).
  destruct (expected_answer KPatch q m file m' e Hans Hl ltac:(done) eq_refl) as (B1 & B2 & _).
  change (phase_for KPatch) with PhasePatch in B1. rewrite B1.
  destruct (supported s0 KPatch q); [|done]. intros _. split; [done|]. split; [done|].
  exists (Some file). by rewrite (B2 eq_refl).
Qed.

Definition hook_end (m : gmap Z Z) (x : bool * Runtime) (g : Ghost) (h : handle) : Prop :=
  x.1 = true -> exists m' ack, g = Quiet m' ack /\ hooked m m' x.2.

Lemma install_hook_plays r m a0 file klass :
  length (r_trampoline r) = kTrampolineCapacity -> r_confirmed r = false ->
  smethod m a0 -> last_ack (guard_nonce pid a0) file ->
  splays (install_update_hook hook_fn trampoline_fn r klass) (Quiet m (Some file)) None (hook_end m).
Proof.
  intros Ht Hcf Ha0 Hlast0. destruct (method_facts _ _ Ha0) as (_ & _ & Hu0 & _).
  unfold install_update_hook. apply bystander_seq; [bystands|]. intros update.
  eapply plays_seq with (P := fun a g h => (a = 0 \/ smethod m a) /\ g = Quiet m (Some file) /\ h = None).
  { destruct (null update); [by cbn; auto|apply plays_call, can_compile]. }
  intros a ? ? (Ha & -> & ->). destruct (null a) eqn:En; [done|]. destruct Ha as [->|Ha]; [done|].
  destruct (method_facts _ _ Ha) as (Hok & Hu & Hua & Hnh & Hnt).
  eapply plays_seq.
  { apply probe_plays; [done|]. eapply last_fresh; [exact Hlast0|]. by apply hook_guard_nonce. }
  intros [e|] g h Hp; [|done]. destruct (Hp e eq_refl) as (Hl & He & -> & file1 & -> & Hlast).
  destruct (plan_hook _ _ _ _) as [| |original|n t] eqn:Epl; [|done| |].
  - exfalso. revert Epl. unfold plan_hook. rewrite Hcf, andb_false_r. cbv zeta. repeat case_match; done.
  - apply plan_chain in Epl as (Hpre & -> & Huo & Hd1 & Hd2).
    eapply plays_mono.
    + apply request_hook_plays; try done.
      * eapply last_fresh; [exact Hlast|by apply hook_hook_nonce].
      * by apply user_in_u.
      * unfold kAbsoluteJumpSize, kAtomicPatchSize. lia.
      * intros nonce Hnz. apply chain_accepted; first [apply Hpid|done].
    + intros x g h Hx Hok1. destruct (Hx Hok1) as (H1 & H2 & ack' & ->). eexists _, ack'. split; [done|].
      exists a, e, kAbsoluteJumpSize. split; [done|]. split; [done|]. by left.
  - destruct (plan_native hook_fn trampoline_fn _ _ _ _ _ Epl He (proj1 Ha) Ht) as (Hpre & Hn & Hdis & _ & Htake).
    apply bystander_seq; [bystands|]. intros _.
    eapply plays_mono.
    + apply request_hook_plays; try done.
      * eapply last_fresh; [exact Hlast|by apply hook_hook_nonce].
      * by apply user_in_u.
      * intros nonce Hnz. apply native_accepted; first [apply Hpid|done].
    + intros x g h Hx Hok1. destruct (Hx Hok1) as (H1 & H2 & ack' & ->). eexists _, ack'. split; [done|].
      exists a, e, n. split; [done|]. split; [done|]. right. by rewrite H2.
Qed.

(** ** The initialisation *)

(** Success: nothing is outstanding and the code is as the mode says. *)
Definition installed (m m' : gmap Z Z) (r : Runtime) : Prop :=
  if g_background_render_mode (r_globals r) then guarded m m' else hooked m m' r.

Definition init_end (m : gmap Z Z) (x : bool * Runtime) (g : Ghost) (h : handle) : Prop :=
  x.1 = true -> r_ready x.2 = true /\ exists m' ack, g = Quiet m' ack /\ installed m m' x.2.

Lemma select_backend_plays r m :
  length (r_trampoline r) = kTrampolineCapacity -> r_confirmed r = false ->
  splays (select_backend hook_fn trampoline_fn r) (Quiet m None) None (init_end m).
Proof.
  intros Ht Hc. unfold select_backend. cbv zeta. eapply plays_seq; [apply install_guard_plays|].
  intros [| |] g h Hg; [| |done].
  - intros _. destruct Hg as (m' & ack & Hg & ->). split; [done|]. by exists m', ack.
  - destruct Hg as (-> & a & file & Ha & -> & Hlast). apply bystander_seq; [bystands|]. intros klass.
    destruct (null klass); [done|]. eapply plays_seq; [by apply (install_hook_plays _ _ a)|].
    intros [[|] r'] g h Hx; [|done]. intros _. destruct (Hx eq_refl) as (m' & ack & -> & Hh).
    split; [done|]. exists m', ack. split; [done|]. exact Hh.
Qed.

Lemma initialize_plays r m :
  length (r_trampoline r) = kTrampolineCapacity -> r_ready r = false -> r_confirmed r = false ->
  splays (initialize_runtime hook_fn trampoline_fn r) (Quiet m None) None (init_end m).
Proof.
  intros Ht Hr Hc. unfold initialize_runtime. rewrite Hr. destruct (r_attempted r); [done|]. cbv zeta.
  apply bystander_seq; [bystands|]. intros domain. destruct (null domain); [done|].
  apply bystander_seq; [bystands|]. intros _.
  apply bystander_seq; [apply open_image_bystander|]. intros pui.
  apply bystander_seq; [apply open_image_bystander|]. intros app. destruct (_ || _); [done|].
  apply bystander_seq; [bystands|]. intros lm. apply bystander_seq; [bystands|]. intros find.
  destruct (null find); [done|]. apply bystander_seq; [apply refresh_game_scene_bystander|]. intros [ok g].
  destruct (negb ok); [done|]. by apply select_backend_plays.
Qed.
End Installed.

(** ** The theorem *)

(** A renderer that has done nothing yet. *)
Definition untried (r : Runtime) : Prop :=
  length (r_trampoline r) = kTrampolineCapacity /\ r_ready r = false /\ r_confirmed r = false.

(** The console before the installation: ShellUI runs, the protocol files were removed
    and the controller's credentials can be saved. *)
Record uninstalled (s : Console) : Prop := {
  un_pid : 0 < k_pid s < 2 ^ 31;
  un_running : k_attached s = false;
  un_credentials : sound_credentials s;
  un_files : k_files s RequestPath = None /\ k_files s AckPath = None
}.

Definition session_start (s : Console) (hook_fn trampoline_fn : Z) (r : Runtime) : System (bool * Runtime) :=
  {| y_console := s; y_handle := None; y_renderer := initialize_runtime hook_fn trampoline_fn r;
     y_controller := poll_and_apply_shellui_hook (k_pid s) |}.

(** Such a session starts within the protocol. *)
Lemma start_inv s hook_fn trampoline_fn r :
  uninstalled s -> untried r ->
  shellui_user_address hook_fn = true -> shellui_user_address trampoline_fn = true -> trampoline_fn <> hook_fn ->
  session_inv s hook_fn trampoline_fn (init_end hook_fn trampoline_fn (k_memory s))
    (session_start s hook_fn trampoline_fn r).
Proof.
  intros [Hp Hrun Hcred [Hf Ha]] (Ht & Hr & Hc) Hh Htr Hd.
  exists (Quiet (k_memory s) None). split; [|by apply initialize_plays].
  apply inv_quiet; [by split|done|done|done|by right].
Qed.


(** ** A session on firmware 9.60

    The guard is not supported; the update method starts with a jump, which is chained. *)

Definition console_answer (s : Console) (c : sys) : sys_ret c :=
  match c as c0 return sys_ret c0 with
  | GetAuth => k_auth s
  | GetCaps => Some (k_caps s)
  | MdbgRead _ _ _ | MdbgWrite _ _ _ => {| x_rc := 1; x_errno := 0; x_status := 0; x_length := 0; x_data := [] |}
  | MdbgCopyout _ a n | PtCopyout _ a n => (0, default [] (load (k_memory s) a n))
  | PtCopyin _ _ _ => (0, 0)
  | GetProt _ a => default 0 (k_protection s !! (a / kPs5CodePageSize))
  | FirmwareSdk => k_sdk s
  | FOpen p write => write || bool_decide (is_Some (k_files s p))
  | FRead n => match k_handle s with Some (_, rest) => take n rest | None => [] end
  | FGetc => match k_handle s with Some (_, rest) => head rest | None => None end
  | FWrite b => Z.of_nat (length b)
  | _ => 0
  end.

Definition mono_answer (s : Console) (h : handle) (c : rcall) : rcall_ret c :=
  match c as c0 return rcall_ret c0 with
  | GetPid => k_pid s
  | File c => console_answer (with_files (k_files s) h s) c
  | MethodFromName _ name _ => if String.eqb name "Update" then 12 else 11
  | CompileMethod method => if method =? 12 then 0x880005000 else 0x880001000
  | RuntimeInvoke _ _ _ _ => (7, 0)
  | GcNew o _ => o
  | GcTarget h => h
  | ObjectInit _ | GcFree _ | Usleep _ | StoreTrampoline _ | StoreOriginal _ => tt
  | _ => 5
  end.

Section Schedule.
Context (s0 : Console) (hook_fn trampoline_fn : Z).

(** One step of the renderer ([true]) or of the controller, if there is one. *)
Definition schedule_step {A} (y : System A) (who : bool) : System A :=
  let s := y_console y in
  if who then
    match y_renderer y with
    | Ret _ => y
    | Call c K =>
        match renderer_documented hook_fn trampoline_fn s (y_handle y) (Ev c (mono_answer s (y_handle y) c)) with
        | Some (s', h') => {| y_console := s'; y_handle := h'; y_renderer := K (mono_answer s (y_handle y) c);
                              y_controller := y_controller y |}
        | None => y
        end
    end
  else
    match y_controller y with
    | Ret _ => {| y_console := s; y_handle := y_handle y; y_renderer := y_renderer y;
                  y_controller := poll_and_apply_shellui_hook (k_pid s0) |}
    | Call c K =>
        match documented s (Ev c (console_answer s c)) with
        | Some s' => {| y_console := s'; y_handle := y_handle y; y_renderer := y_renderer y;
                        y_controller := K (console_answer s c) |}
        | None => y
        end
    end.

Lemma schedule_sound {A} (y : System A) l :
  rtc (system_step s0 hook_fn trampoline_fn) y (fold_left schedule_step l y).
Proof.
  revert y. induction l as [|who l IH]; intros y; cbn [fold_left]; [done|].
  assert (schedule_step y who = y \/ system_step s0 hook_fn trampoline_fn y (schedule_step y who)) as Hs.
  { destruct y as [s h R C]. unfold schedule_step. cbn [y_console y_handle y_renderer y_controller].
    destruct who.
    - destruct R as [a|c K]; [by left|]. match goal with |- context [renderer_documented ?a ?b ?c ?d ?e] =>
        destruct (renderer_documented a b c d e) as [[s' h']|] eqn:E end; [|by left].
      right. apply renderer_step. by eexists.
    - destruct C as [a|c K]; [right; by apply controller_step|].
      match goal with |- context [documented ?a ?b] => destruct (documented a b) as [s'|] eqn:E end; [|by left].
      right. apply controller_step. by eexists. }
  destruct Hs as [->|Hs]; [apply IH|]. eapply rtc_l; [exact Hs|apply IH].
Qed.
End Schedule.

Definition chained_code : list Z := absolute_jump 0x880009000 ++ [0x90; 0x90].

Definition etahen_console : Console := {|
  k_pid := 77; k_sdk := 0x09600000; k_auth := 0x3800000000000010; k_caps := repeat 1 16; k_attached := false;
  k_memory := store (store ∅ 0x880001000 (0x55 :: repeat 0x90 15)) 0x880005000 chained_code;
  k_protection := <[0x880001000 / kPs5CodePageSize := kCodeProtection]>
                    {[ 0x880005000 / kPs5CodePageSize := kCodeProtection ]};
  k_files := fun _ => None; k_handle := None |}.

Lemma etahen_uninstalled : uninstalled etahen_console.
Proof.
  split; [split; reflexivity|reflexivity| |split; reflexivity].
  split; [discriminate|]. split; [reflexivity|]. apply Forall_forall. intros x Hx.
  apply list_elem_of_In, repeat_spec in Hx as ->. split; [discriminate|reflexivity].
Qed.

Definition session_end : System (bool * Runtime) :=
  fold_left (schedule_step etahen_console 0x900001000 0x900002000)
    (concat (repeat [true; false; false] 400)) (session_start etahen_console 0x900001000 0x900002000 Runtime_init).

Definition outcome {A} (R : rprog A) : option A := match R with Ret a => Some a | Call _ _ => None end.

Lemma session_ends : option_map fst (outcome (y_renderer session_end)) = Some true.
Proof. vm_compute. reflexivity. Qed.

(** The code at the end: the update method jumps to the hook. *)
Lemma session_code :
  load (k_memory (y_console session_end)) 0x880005000 kShellUiHookPatchSize =
  Some (absolute_jump 0x900001000 ++ [0x90; 0x90]).
Proof. vm_compute. reflexivity. Qed.

