(* ===== verification/HookAnswered.v ===== *)
(** No request is lost: once the renderer has written a request, the controller, wherever
    its polling stands at that moment, inevitably serves it (the liveness that goes with
    the safety of [HookInstalled]). *)
From S2P Require Import Prelude Effects HookProtocol Mono RendererHook HookRequests Debugger HookController HookSafety Console HookServed HookSession HookInstalled.

(** ** What the controller cannot fail to do

    [inevitable P s C]: a controller with [C] left to do on the console [s] reaches [P]
    whatever documented answers its calls get.  It is never stuck on the way and does not
    poll forever. *)
Section Inevitable.
Context (s0 : Console) (P : Console -> Prop).

Inductive inevitable (s : Console) (C : sprog Poll) : Prop :=
| inevitable_now : P s -> inevitable s C
| inevitable_later :
    (exists C' s', controller_moves s0 C s C' s') ->
    (forall C' s', controller_moves s0 C s C' s' -> inevitable s' C') ->
    inevitable s C.

Lemma inevitable_call (c : sys) (K : sys_ret c -> sprog Poll) s :
  (forall r s', documented s (Ev c r) = Some s' -> inevitable s' (K r)) -> inevitable s (Call c K).
Proof.
  intros H. apply inevitable_later.
  - destruct (documented_total s c) as (r & s' & Hd). by exists (K r), s', r.
  - intros C' s' (r & Hd & ->). by apply H.
Qed.

(** A verified program makes its postcondition inevitable. *)
Lemma inevitable_rely (p : sprog Poll) s : krely p s (fun _ s' => P s') -> inevitable s p.
Proof.
  revert s. induction p as [a|c K IH]; intros s Hp; [by apply inevitable_now|].
  apply inevitable_call. intros r s' Hd. apply IH. by apply Hp.
Qed.

(** ** From any point of a poll that has not found the request yet *)

Context (b : list Z) (Hlen : length b = sizeof_request) (Hb : bytes_ok b).

(** The request file and everything the service depends on, whatever the open file. *)
Context (ready : Console -> Prop).
Hypothesis ready_file : forall s, ready s -> k_files s RequestPath = Some b.
Hypothesis ready_handle : forall s h, ready s -> ready (with_files (k_files s) h s).
Hypothesis ready_serves : forall s, ready s -> krely (serve_request (k_pid s0) b) s (fun _ s' => P s').

(** One call of a poll; it changes the open file at most. *)
Ltac one_call := apply inevitable_call; intros r s' Hd; cbn [documented] in Hd.

Lemma inevitable_close s : ready s -> inevitable s (closing s0 b None).
Proof.
  intros Hs. one_call. apply answer_inv in Hd as [_ ->]. unfold read_result.
  rewrite map_u8_id, take_ge, Hlen, Nat.eqb_refl by (done || lia). cbn [andb].
  rewrite bool_decide_eq_true_2 by done. by apply inevitable_rely, ready_serves, ready_handle.
Qed.

Lemma inevitable_full s :
  ready s -> k_handle s = Some (RequestPath, []) -> inevitable s (checking s0 b).
Proof.
  intros Hs Hh. one_call. rewrite Hh in Hd. apply answer_inv in Hd as [->%bool_decide_eq_true ->].
  by apply inevitable_close, ready_handle.
Qed.

Lemma inevitable_open s :
  ready s -> k_handle s = Some (RequestPath, b) -> inevitable s (reading s0).
Proof.
  intros Hs Hh. one_call. rewrite Hh in Hd. apply answer_inv in Hd as [->%bool_decide_eq_true ->].
  rewrite take_ge, drop_ge by lia. by apply inevitable_full; [apply ready_handle|].
Qed.

Lemma inevitable_poll s : ready s -> inevitable s (poll_and_apply_shellui_hook (k_pid s0)).
Proof.
  intros Hs. one_call. rewrite (ready_file s Hs) in Hd. apply answer_inv in Hd as [-> ->].
  by apply inevitable_open; [apply ready_handle|].
Qed.

Lemma inevitable_rest s C : ready s -> at_rest s0 C -> inevitable s C.
Proof.
  intros Hs [[x ->]| ->]; [|by apply inevitable_poll]. apply inevitable_later.
  - by exists (poll_and_apply_shellui_hook (k_pid s0)), s.
  - intros C' s' [-> ->]. by apply inevitable_poll.
Qed.

(** The poll found the file while it was still empty. *)
Lemma inevitable_close_empty s trailing : ready s -> inevitable s (closing s0 [] trailing).
Proof.
  intros Hs. one_call. apply answer_inv in Hd as [_ ->].
  apply inevitable_rest; [by apply ready_handle|left; by eexists].
Qed.

Lemma inevitable_empty s : ready s -> inevitable s (checking s0 []).
Proof.
  intros Hs. one_call. apply inevitable_close_empty.
  destruct (k_handle s) as [[p rest]|]; apply answer_inv in Hd as [_ ->]; [by apply ready_handle|done].
Qed.

Lemma inevitable_looking s C : ready s -> looking s0 s C -> inevitable s C.
Proof.
  intros Hs Hl. pose proof (ready_file s Hs) as Hf.
  destruct Hl as [C Hr|u Hh Hu| |u Hh Hu|trailing|u Hu]; try (rewrite Hf in Hu; injection Hu as <-).
  - by apply inevitable_rest.
  - by apply inevitable_open.
  - by apply inevitable_empty.
  - by apply inevitable_full.
  - by apply inevitable_close_empty.
  - by apply inevitable_close.
Qed.
End Inevitable.

(** ** In a session *)

(** The only file that the renderer writes in the protocol is a request it may publish. *)
Lemma can_write s0 hook_fn trampoline_fn g h c (T : rcall_ret c -> Ghost -> handle -> Prop) b :
  can s0 hook_fn trampoline_fn g h c T -> c = File (FWrite b) ->
  exists k q m ack, g = Opened m ack /\ h = Some (RequestPath, []) /\ b = request_bytes q /\
    may_send s0 hook_fn trampoline_fn k q m ack.
Proof. intros [ | | |k q m ack Hs| | | | |? ? ? Ho] E; try done; [injection E as <-; by exists k, q, m, ack|by subst]. Qed.

(** A console on which a request waits. *)
Definition waiting (s0 : Console) (q : ShellUiHookRequest) (m : gmap Z Z) (s : Console) : Prop :=
  settled s0 s /\ k_memory s = m /\ k_files s RequestPath = Some (request_bytes q).

Lemma waiting_answered s0 hook_fn trampoline_fn k q m ack s C :
  sound_credentials s0 -> may_send s0 hook_fn trampoline_fn k q m ack -> waiting s0 q m s -> looking s0 s C ->
  inevitable s0 (served s0 k q m) s C.
Proof.
  intros Hcred Hs Hw Hl. destruct (request_bytes_ok q (ms_wf _ _ _ _ _ _ _ Hs)) as [Hlen Hb].
  apply (inevitable_looking s0 _ (request_bytes q) Hlen Hb (waiting s0 q m)); try done.
  - by intros s1 (_ & _ & ?).
  - intros s1 h (H1 & H2 & H3). by split; [apply settled_files|].
  - intros s1 (H1 & H2 & H3). by apply (serving_starts s0 hook_fn trampoline_fn Hcred k q m ack).
Qed.


(** The session of [HookInstalled] at its fourth request, the one that patches the update
    method, with the controller between two calls of a poll. *)
Definition patch_requested : System (bool * Runtime) :=
  fold_left (schedule_step etahen_console 0x900001000 0x900002000)
    (concat (repeat [true; false; false] 76)) (session_start etahen_console 0x900001000 0x900002000 Runtime_init).

Definition written {A} (R : rprog A) : option (list Z) :=
  match R with Call (File (FWrite b)) _ => Some b | _ => None end.

Lemma written_call {A} (R : rprog A) b : written R = Some b -> exists K, R = Call (File (FWrite b)) K.
Proof.
  destruct R as [a|c K]; [discriminate|]. destruct c; try discriminate.
  match goal with |- context [File ?c] => destruct c end; try discriminate. cbn [written]. intros [= ->]. by exists K.
Qed.

Lemma patch_written :
  option_map (fun b => kind_of (request_of_bytes b)) (written (y_renderer patch_requested)) = Some KPatch.
Proof. vm_compute. reflexivity. Qed.

Lemma patch_writable :
  y_handle patch_requested = Some (RequestPath, []).
Proof. vm_compute. reflexivity. Qed.

