(* ===== verification/RenderLoop.v ===== *)
(** The two threads of the renderer: [run_receiver_loop], which takes datagrams, and the
    render pass [apply_latest_state_on_render], run by [application_update_hook] on every
    frame of ShellUI, or by the receiver itself in the background mode
    ([src/ps5/shellui_payload/commonfps_shellui.cpp]).

    The shared variables are atomics, and the packet is copied under a mutex: every load,
    store and copy is one step, and the threads interleave in every way. *)
From S2P Require Import Prelude Effects Types Wire Mono PuiSafety.

(** What [recv] returns: an error or timeout, a datagram of another size, a packet. *)
Inductive Datagram := RecvError | WrongSize | Packet (p : WirePacket).

(** [run_receiver_loop]: where the receiver is in its loop body. *)
Inductive RecvPc :=
| Receiving
| StorePacket (p : WirePacket)    (** before the copy under the lock *)
| StoreSequence (p : WirePacket)
| StoreHave
| BackgroundRender.               (** in [apply_latest_state_on_render] *)

(** [apply_latest_state_on_render]: where the pass is. *)
Inductive PassPc :=
| Outside
| LoadSequence                    (** ready, and a packet was there *)
| CopyPacket (sequence : Z)
| Apply (sequence : Z) (index : nat) (p : WirePacket).

(** The shared state.  [s_received] and [s_log] are histories: the accepted packets, and
    the packets rendered with their index in the former and the result. *)
Record State := {
  s_ready : bool; s_have : bool; s_sequence : Z; s_applied : Z; s_packet : WirePacket;
  s_background : bool; s_globals : Globals;
  s_recv : RecvPc; s_pass : PassPc;
  s_received : list WirePacket; s_log : list (nat * WirePacket * bool)
}.

Definition State_init (ready background : bool) (g : Globals) : State := {|
  s_ready := ready; s_have := false; s_sequence := 0; s_applied := 0; s_packet := WirePacket_init;
  s_background := background; s_globals := g; s_recv := Receiving; s_pass := Outside;
  s_received := []; s_log := [] |}.

Definition recv_at (s : State) (pc : RecvPc) : State := {|
  s_ready := s_ready s; s_have := s_have s; s_sequence := s_sequence s; s_applied := s_applied s;
  s_packet := s_packet s; s_background := s_background s; s_globals := s_globals s;
  s_recv := pc; s_pass := s_pass s; s_received := s_received s; s_log := s_log s |}.
Definition pass_at (s : State) (pc : PassPc) : State := {|
  s_ready := s_ready s; s_have := s_have s; s_sequence := s_sequence s; s_applied := s_applied s;
  s_packet := s_packet s; s_background := s_background s; s_globals := s_globals s;
  s_recv := s_recv s; s_pass := pc; s_received := s_received s; s_log := s_log s |}.
Definition set_have (s : State) (have : bool) : State := {|
  s_ready := s_ready s; s_have := have; s_sequence := s_sequence s; s_applied := s_applied s;
  s_packet := s_packet s; s_background := s_background s; s_globals := s_globals s;
  s_recv := s_recv s; s_pass := s_pass s; s_received := s_received s; s_log := s_log s |}.
Definition set_sequence (s : State) (n : Z) : State := {|
  s_ready := s_ready s; s_have := s_have s; s_sequence := n; s_applied := s_applied s;
  s_packet := s_packet s; s_background := s_background s; s_globals := s_globals s;
  s_recv := s_recv s; s_pass := s_pass s; s_received := s_received s; s_log := s_log s |}.
Definition set_packet (s : State) (p : WirePacket) : State := {|
  s_ready := s_ready s; s_have := s_have s; s_sequence := s_sequence s; s_applied := s_applied s;
  s_packet := p; s_background := s_background s; s_globals := s_globals s;
  s_recv := s_recv s; s_pass := s_pass s; s_received := s_received s ++ [p]; s_log := s_log s |}.
Definition set_rendered (s : State) (g : Globals) (i : nat) (p : WirePacket) (ok : bool) : State := {|
  s_ready := s_ready s; s_have := s_have s; s_sequence := s_sequence s;
  s_applied := if ok then w_sequence p else s_applied s;
  s_packet := s_packet s; s_background := s_background s; s_globals := g;
  s_recv := s_recv s; s_pass := s_pass s; s_received := s_received s;
  s_log := s_log s ++ [(i, p, ok)] |}.

(** What the receiver does with a datagram. *)
Definition accepted (d : Datagram) : option WirePacket :=
  match d with
  | Packet p => if is_shutdown_wire_packet p then None
                else if header_is kWireMagic p then Some p else None
  | _ => None
  end.

Inductive recv_step : State -> State -> Prop :=
| recv_error s : s_recv s = Receiving -> recv_step s (set_have s false)
| recv_ignored s d :
    s_recv s = Receiving -> d <> RecvError -> accepted d = None -> recv_step s s
| recv_accepted s d p :
    s_recv s = Receiving -> accepted d = Some p -> recv_step s (recv_at s (StorePacket p))
| recv_store_packet s p :
    s_recv s = StorePacket p -> recv_step s (recv_at (set_packet s p) (StoreSequence p))
| recv_store_sequence s p :
    s_recv s = StoreSequence p -> recv_step s (recv_at (set_sequence s (w_sequence p)) StoreHave)
| recv_store_have s :
    s_recv s = StoreHave ->
    recv_step s (recv_at (set_have s true) (if s_background s then BackgroundRender else Receiving)).

(** The end of a pass: in the background mode the receiver goes on. *)
Definition leave (s : State) : State :=
  let s := pass_at s Outside in
  if s_background s then recv_at s Receiving else s.

(** A pass may begin: a frame of ShellUI, or the receiver's own call. *)
Definition may_begin (s : State) : Prop :=
  s_pass s = Outside /\ (s_background s = false \/ s_recv s = BackgroundRender).

Inductive pass_step : State -> State -> Prop :=
| pass_skip s :
    may_begin s -> s_ready s && s_have s = false -> pass_step s (leave s)
| pass_begin s :
    may_begin s -> s_ready s && s_have s = true -> pass_step s (pass_at s LoadSequence)
| pass_same s :
    s_pass s = LoadSequence -> s_sequence s = s_applied s -> pass_step s (leave s)
| pass_sequence s :
    s_pass s = LoadSequence -> s_sequence s <> s_applied s ->
    pass_step s (pass_at s (CopyPacket (s_sequence s)))
| pass_copy s n :
    s_pass s = CopyPacket n ->
    pass_step s (pass_at s (Apply n (length (s_received s) - 1) (s_packet s)))
| pass_discard s n i p :
    s_pass s = Apply n i p ->
    negb (w_sequence p =? n) || negb (bool_decide (is_Some (decode_wire_packet p))) = true ->
    pass_step s (leave s)
| pass_apply s n i p t ok g :
    s_pass s = Apply n i p ->
    negb (w_sequence p =? n) || negb (bool_decide (is_Some (decode_wire_packet p))) = false ->
    exec (apply_packet_on_render (s_globals s) p) t (ok, g) ->
    pass_step s (leave (set_rendered s g i p ok)).

Inductive step (s s' : State) : Prop :=
| step_recv : recv_step s s' -> step s s'
| step_pass : pass_step s s' -> step s s'.

Inductive reachable (ready background : bool) (g : Globals) : State -> Prop :=
| reach_init : reachable ready background g (State_init ready background g)
| reach_step s s' :
    reachable ready background g s -> step s s' -> reachable ready background g s'.

(** ** Order *)

Definition last_index (l : list WirePacket) : nat := length l - 1.

(** The log: packets that were received, rendered in the order they were received. *)
Inductive ordered (received : list WirePacket) : list (nat * WirePacket * bool) -> nat -> Prop :=
| ord_nil : ordered received [] 0
| ord_snoc log i j p ok :
    ordered received log i -> (i <= j)%nat -> received !! j = Some p ->
    is_Some (decode_wire_packet p) -> ordered received (log ++ [(j, p, ok)]) j.

Definition good (p : WirePacket) : Prop := header_is kWireMagic p = true.

Record inv (s : State) : Prop := {
  inv_good : Forall good (s_received s);
  inv_last : s_received s <> [] -> s_received s !! last_index (s_received s) = Some (s_packet s);
  inv_have : s_have s = true -> s_received s <> [];
  inv_recv : match s_recv s with
             | StorePacket p => good p
             | StoreSequence p => s_packet s = p /\ s_received s <> []
             | StoreHave => s_received s <> [] /\ s_sequence s = w_sequence (s_packet s)
             | _ => s_received s <> [] -> s_sequence s = w_sequence (s_packet s)
             end;
  inv_pass : match s_pass s with
             | Outside => True
             | LoadSequence | CopyPacket _ => s_received s <> []
             | Apply _ i p => s_received s !! i = Some p
             end;
  inv_mode : if s_background s then s_pass s <> Outside -> s_recv s = BackgroundRender
             else s_recv s <> BackgroundRender;
  inv_log : exists i, ordered (s_received s) (s_log s) i /\ (i <= last_index (s_received s))%nat /\
            match s_pass s with Apply _ j _ => (i <= j)%nat | _ => True end
}.

Lemma ordered_app received p log i : ordered received log i -> ordered (received ++ [p]) log i.
Proof.
  induction 1; [constructor|]. econstructor; try done. by rewrite lookup_app_l by (by eapply lookup_lt_Some).
Qed.

Lemma last_snoc (l : list WirePacket) p : (l ++ [p]) !! last_index (l ++ [p]) = Some p.
Proof.
  unfold last_index. rewrite length_app. cbn. rewrite lookup_app_r by lia.
  by replace (length l + 1 - 1 - length l)%nat with 0%nat by lia.
Qed.

Lemma accepted_good d p : accepted d = Some p -> good p.
Proof. destruct d; try done. cbn. repeat case_match; congruence. Qed.

Ltac s_fields :=
  cbn [recv_at pass_at set_have set_sequence set_packet set_rendered leave s_ready s_have s_sequence
       s_applied s_packet s_background s_globals s_recv s_pass s_received s_log] in *.

Lemma inv_recv_step s s' : inv s -> recv_step s s' -> inv s'.
Proof.
  intros [Hg Hl Hh Hr Hp Hm Ho] Hs. destruct Hs as [s E|s d E _ _|s d p E Ha|s p E|s p E|s E];
    rewrite E in Hr; rewrite E in Hm; s_fields.
  - split; s_fields; try done. by rewrite E. by rewrite E.
  - split; s_fields; try done. by rewrite E. by rewrite E.
  - split; s_fields; try done; [by eapply accepted_good|]. destruct (s_background s); [|done].
    intros Hn. by specialize (Hm Hn).
  - split; s_fields.
    + apply Forall_app. by split; [|constructor].
    + intros _. apply last_snoc.
    + intros _. by destruct (s_received s).
    + split; [done|]. by destruct (s_received s).
    + destruct (s_pass s); try done; try (by destruct (s_received s)).
      by rewrite lookup_app_l by (by eapply lookup_lt_Some).
    + destruct (s_background s); [|done]. intros Hn. by specialize (Hm Hn).
    + destruct Ho as (i & H1 & H2 & H3). exists i. split; [by apply ordered_app|].
      split; [|done]. unfold last_index in *. rewrite length_app. cbn. lia.
  - destruct Hr as [<- Hn]. split; s_fields; try done. destruct (s_background s); [|done].
    intros Hn'. by specialize (Hm Hn').
  - destruct Hr as [Hn Hq]. split; s_fields; try done; by destruct (s_background s).
Qed.

Lemma inv_leave s : inv s -> (s_background s = true -> s_recv s = BackgroundRender) -> inv (leave s).
Proof.
  intros [Hg Hl Hh Hr Hp Hm Ho] Hb. unfold leave. destruct Ho as (i & H1 & H2 & _). s_fields.
  destruct (s_background s) eqn:E; split; s_fields; rewrite ?E in *; try done; try (by exists i).
  by rewrite (Hb eq_refl) in Hr.
Qed.

Lemma inv_mode_pass s : inv s -> s_pass s <> Outside -> s_background s = true -> s_recv s = BackgroundRender.
Proof. intros Hi Hp Hb. pose proof (inv_mode s Hi) as Hm. rewrite Hb in Hm. auto. Qed.

Lemma inv_begin s : may_begin s -> s_background s = true -> s_recv s = BackgroundRender.
Proof. intros [_ [H|H]]; congruence. Qed.

Lemma inv_pass_step s s' : inv s -> pass_step s s' -> inv s'.
Proof.
  intros Hi Hs. destruct Hs as [s Hb _|s Hb Hr|s E _|s E _|s n E|s n i p E _|s n i p t ok g E Hd He].
  - apply inv_leave; [done|by apply inv_begin].
  - pose proof (inv_begin s Hb) as Hb'. destruct Hi as [Hg Hl Hh Hrv Hp Hm (i & H1 & H2 & _)].
    apply andb_true_iff in Hr as [_ Hr]. split; s_fields; try done; [by apply Hh| |by exists i].
    destruct (s_background s); auto.
  - apply inv_leave; [done|]. apply inv_mode_pass; [done|by rewrite E].
  - pose proof (inv_mode_pass s Hi ltac:(by rewrite E)) as Hm'.
    destruct Hi as [Hg Hl Hh Hrv Hp Hm (i & H1 & H2 & _)]. rewrite E in Hp.
    split; s_fields; try done; [|by exists i]. destruct (s_background s); auto.
  - pose proof (inv_mode_pass s Hi ltac:(by rewrite E)) as Hm'.
    destruct Hi as [Hg Hl Hh Hrv Hp Hm (i & H1 & H2 & _)]. rewrite E in Hp.
    split; s_fields; try done; [by apply Hl| |by exists i]. destruct (s_background s); auto.
  - apply inv_leave; [done|]. apply inv_mode_pass; [done|by rewrite E].
  - pose proof (inv_mode_pass s Hi ltac:(by rewrite E)) as Hm'.
    destruct Hi as [Hg Hl Hh Hrv Hp Hm (j & H1 & H2 & H3)]. rewrite E in Hp, H3. s_fields.
    rewrite orb_false_iff, !negb_false_iff, bool_decide_eq_true in Hd. destruct Hd as [_ Hd].
    apply inv_leave; [|done]. split; s_fields; rewrite ?E; try done.
    { destruct (s_background s); auto. }
    exists i. split; [by eapply ord_snoc|]. split; [|done].
    apply lookup_lt_Some in Hp. unfold last_index. lia.
Qed.

Lemma reachable_inv ready background g s : reachable ready background g s -> inv s.
Proof.
  induction 1 as [|s s' _ IH [Hs|Hs]].
  - split; cbn; try done; [by destruct background|]. exists 0%nat. split; [constructor|]. by split.
  - by eapply inv_recv_step.
  - by eapply inv_pass_step.
Qed.

(** Under every interleaving of the receiver and the render pass, in both modes: what
    is rendered is a packet that was received whole with the current header, in the order
    of reception; the shared packet is always the last one received; and outside the
    receiver's update the published sequence is that packet's. *)
Theorem render_order ready background g s :
  reachable ready background g s ->
  (exists i, ordered (s_received s) (s_log s) i) /\ Forall good (s_received s) /\
  (s_have s = true -> s_received s !! last_index (s_received s) = Some (s_packet s)) /\
  (s_recv s = Receiving -> s_have s = true -> s_sequence s = w_sequence (s_packet s)).
Proof.
  intros H. apply reachable_inv in H as [Hg Hl Hh Hr _ _ (i & H1 & _)].
  split; [by exists i|]. split; [done|]. split; [by auto|]. intros E. rewrite E in Hr. auto.
Qed.

(** ** Staleness and progress *)

Inductive steps : State -> State -> Prop :=
| steps_refl s : steps s s
| steps_cons s s' s'' : step s s' -> steps s' s'' -> steps s s''.

(** Nothing is being rendered, and no packet is on its way past the copy. *)
Definition quiescent (s : State) : Prop :=
  s_have s = false /\ s_pass s = Outside /\ s_recv s = Receiving.

(** Once the controller has gone silent (a receive error, with no pass in progress)
    nothing is rendered until a new packet has been accepted. *)
Theorem stale_is_not_rendered s s' :
  quiescent s -> steps s s' -> s_received s' = s_received s -> s_log s' = s_log s.
Proof.
  intros Hq Hs.
  assert (forall s s', steps s s' ->
    (length (s_received s) <= length (s_received s'))%nat) as Hmono.
  { clear. induction 1 as [|s s' s'' [Hs|Hs] _ IH]; [done| |].
    - destruct Hs; s_fields; rewrite ?length_app in IH; lia.
    - destruct Hs; unfold leave in IH; s_fields; repeat case_match; s_fields; lia. }
  assert (forall s, (s_have s = false /\ s_pass s = Outside /\
             (s_recv s = Receiving \/ exists p, s_recv s = StorePacket p)) ->
          steps s s' -> length (s_received s') = length (s_received s) -> s_log s' = s_log s) as Hgen.
  2: { intros Hr. apply Hgen; [|done|by rewrite Hr]. destruct Hq as (H1 & H2 & H3). auto. }
  clear s Hq Hs. intros s Hq Hs. induction Hs as [|s s1 s' Hst Hs IH]; [done|].
  destruct Hq as (H1 & H2 & H3). intros Hl. pose proof (Hmono _ _ Hs) as Hm.
  destruct Hst as [Hst|Hst].
  - destruct Hst as [s E|s d E _ _|s d p E Ha|s p E|s p E|s E]; s_fields;
      try (destruct H3 as [H3|[? H3]]; congruence).
    + apply IH; [by auto|done].
    + by apply IH.
    + apply IH; [by eauto|done].
    + rewrite length_app in Hm. cbn in Hm. lia.
  - destruct Hst as [s Hb Hr|s Hb Hr|s E ?|s E ?|s n E|s n i p E ?|s n i p t ok g E ? ?]; try congruence.
    + unfold leave in *. s_fields. destruct (s_background s) eqn:Eb; s_fields.
      * apply IH; [|done]. destruct Hb as [_ [Hb|Hb]]; [congruence|]. auto.
      * by apply IH.
    + rewrite H1, andb_false_r in Hr. done.
Qed.

(** The pass, alone. *)
Definition pass_outcome (s : State) (p : WirePacket) (ok : bool) (g : Globals) : State :=
  leave (set_rendered (pass_at s (Apply (w_sequence p) (last_index (s_received s)) p)) g
           (last_index (s_received s)) p ok).

(** When the renderer is ready and a new packet is there, one undisturbed pass renders
    exactly that packet, and when the rendering succeeds the next passes do nothing until
    another sequence arrives; a failed rendering is tried again. *)
Theorem render_progress ready background g0 s t ok g :
  reachable ready background g0 s -> may_begin s ->
  s_ready s = true -> s_have s = true ->
  (s_recv s = Receiving \/ s_recv s = BackgroundRender) ->
  s_sequence s <> s_applied s ->
  exec (apply_packet_on_render (s_globals s) (s_packet s)) t (ok, g) ->
  let s' := pass_outcome s (s_packet s) ok g in
  steps s s' /\ s_log s' = s_log s ++ [(last_index (s_received s), s_packet s, ok)] /\
  s_globals s' = g /\
  (s_applied s' = s_sequence s' <-> ok = true).
Proof.
  intros Hr Hb Hready Hhave Hrecv Hne He s'. pose proof (reachable_inv _ _ _ _ Hr) as Hi.
  assert (s_received s <> []) as Hn by (by apply Hi).
  assert (s_sequence s = w_sequence (s_packet s)) as Hs.
  { pose proof (inv_recv s Hi) as H. destruct Hrecv as [E|E]; rewrite E in H; auto. }
  assert (is_Some (decode_wire_packet (s_packet s))) as Hd.
  { apply (decode_header_some (s_packet s)). pose proof (inv_good s Hi) as Hg.
    eapply Forall_lookup_1 in Hg; [exact Hg|by apply Hi]. }
  split; [|split; [|split]].
  - eapply steps_cons; [apply step_pass, pass_begin; [done|by rewrite Hready, Hhave]|].
    eapply steps_cons; [apply step_pass, pass_sequence; done|].
    eapply steps_cons; [by apply step_pass, (pass_copy _ (s_sequence s))|].
    eapply steps_cons; [|apply steps_refl].
    unfold s', pass_outcome. rewrite <- Hs. apply step_pass.
    apply (pass_apply _ (s_sequence s) (last_index (s_received s)) (s_packet s) t); [done| |done].
    rewrite Hs, Z.eqb_refl. by rewrite bool_decide_eq_true_2.
  - unfold s', pass_outcome, leave. s_fields. by destruct (s_background s).
  - unfold s', pass_outcome, leave. s_fields. by destruct (s_background s).
  - unfold s', pass_outcome, leave. s_fields. destruct (s_background s); s_fields; rewrite <- Hs; by destruct ok.
Qed.

(** ** One packet on the console of [PuiSafety] *)

Definition sample_packet : WirePacket := make_wire_packet sample_frame 7.
Definition loop_start : State := State_init true false console_globals.
Definition loop_received : State :=
  recv_at (set_have (recv_at (set_sequence (recv_at (set_packet
    (recv_at loop_start (StorePacket sample_packet)) sample_packet)
    (StoreSequence sample_packet)) 7) StoreHave) true) Receiving.

Lemma loop_received_reachable : reachable true false console_globals loop_received.
Proof.
  eapply reach_step; [eapply reach_step; [eapply reach_step; [eapply reach_step; [apply reach_init|]|]|]|];
    apply step_recv.
  - by apply (recv_accepted _ (Packet sample_packet)).
  - by apply (recv_store_packet _ sample_packet).
  - by apply (recv_store_sequence _ sample_packet).
  - by apply recv_store_have.
Qed.

Lemma render_order_witness :
  s_received loop_received !! 0%nat = Some sample_packet /\ s_sequence loop_received = 7.
Proof.
  destruct (render_order true false console_globals loop_received loop_received_reachable)
    as (_ & _ & H1 & H2).
  split; [exact (H1 eq_refl)|exact (H2 eq_refl eq_refl)].
Defined.

Lemma stale_is_not_rendered_witness :
  s_log (recv_at (set_have loop_start false) Receiving) = s_log loop_start.
Proof.
  apply (stale_is_not_rendered loop_start).
  - by split.
  - eapply steps_cons; [by apply step_recv, recv_error|apply steps_refl].
  - reflexivity.
Defined.

Lemma render_progress_witness :
  s_log (pass_outcome loop_received sample_packet first_frame.1.1.1 first_frame.1.1.2) =
    [(0%nat, sample_packet, first_frame.1.1.1)] /\ first_frame.1.1.1 = true.
Proof.
  split; [|vm_compute; reflexivity].
  eapply (render_progress true false console_globals loop_received first_frame.2
    first_frame.1.1.1 first_frame.1.1.2).
  - apply loop_received_reachable.
  - split; [done|by left].
  - reflexivity.
  - reflexivity.
  - by left.
  - discriminate.
  - rewrite <- surjective_pairing. apply run_exec.
Defined.
