(* ===== verification/Worker.v ===== *)
(** The controller's main loop: [run_tracked_worker] of
    [src/ps5/commonfps_ps5_main.cpp] with [src/ps5/state_sender.cpp].  One round observes
    ShellUI and the game, samples both sources, starts the renderer behind its gates,
    filters the rate and sends one datagram.  The lines it appends to the log are values
    ([SamplerRecord]); the start in front of the loop is [ControllerStart]. *)
From S2P Require Import Prelude Effects Float Types Config Layout Wire Platform FpsSampler.
From S2P Require Import DceCounter DceAdapter DisplayFilter.

(** ** state_sender.cpp *)

Inductive net_call :=
| NSocket                                  (** a UDP socket or a negative value *)
| NSendto (fd : Z) (bytes : list Z).       (** to the loopback port: bytes sent *)
Definition net_ret (c : net_call) : Type := Z.
Abbreviation nprog := (prog net_ret).

Section Sender.
Local Open Scope prog_scope.
Definition netc (c : net_call) : nprog Z := call (R := net_ret) c.

(** [StateSender::open]: the descriptor that is kept. *)
Definition sender_open (socket_ : Z) : nprog (bool * Z) :=
  if 0 <=? socket_ then Ret (true, socket_)
  else let* s := netc NSocket in Ret (0 <=? s, s).

Definition sender_send (socket_ : Z) (packet : WirePacket) : nprog (bool * Z) :=
  let* (ok, s) := sender_open socket_ in
  if negb ok then Ret (false, s)
  else let* sent := netc (NSendto s (packet_bytes packet)) in Ret (sent =? sizeof_WirePacket, s).
End Sender.

(** ** The environment of the loop

    Beyond the platform: the ShellUI observation, programs over the system calls of the
    DCE adapter and the sender, the injector and the settings store. *)
Class Controller (W : Type) `{Platform W} := {
  observe_shellui : W -> Z * W;
  run_dce : forall {A}, dprog A -> W -> A * W;
  run_net : forall {A}, nprog A -> W -> A * W;
  ensure_shellui_renderer : W -> bool * W;
  stored_config : W -> OverlayConfig * W
}.

(** The margins are floats: binary32 values. *)
Definition float_margins (cfg : OverlayConfig) : Prop :=
  f32_valid (margin_x cfg) = true /\ f32_valid (margin_y cfg) = true.

(** Programs are executed, whatever the system answers; the store holds usable
    configurations ([Config.parse_config_text], [SettingsForm.form_usable]). *)
Class ControllerLaws (W : Type) `{Controller W} := {
  run_dce_exec {A} (p : dprog A) w : exists t, exec p t (run_dce p w).1;
  run_net_exec {A} (p : nprog A) w : exists t, exec p t (run_net p w).1;
  stored_config_wf w : wf_config (stored_config w).1;
  stored_config_float w : float_margins (stored_config w).1
}.

(** ** State *)

Definition kDceVideoOutStandbyUs : Z := 60000000.
Definition kDceMissesBeforeVideoOutWake : Z := 3.
Definition kShellUiGate : Z := 10.
Definition kGameGate : Z := 3.

(** A process and how many rounds in a row it was observed. *)
Record Gate := { g_pid : Z; g_seen : Z }.
Definition Gate_init : Gate := {| g_pid := -1; g_seen := 0 |}.

Definition gate_step (limit : Z) (g : Gate) (seen : option Z) : Gate :=
  match seen with
  | Some p => if p =? g_pid g
              then {| g_pid := g_pid g; g_seen := if g_seen g <? limit then g_seen g + 1 else g_seen g |}
              else {| g_pid := p; g_seen := 1 |}
  | None => Gate_init
  end.

(** When VideoOut discovery is suppressed in favour of the DCE counter. *)
Record Policy := {
  dce_standby_active : bool; dce_standby_pid : Z; dce_miss_streak : Z;
  next_videoout_probe_us : Z
}.
Definition Policy_init : Policy :=
  {| dce_standby_active := false; dce_standby_pid := -1; dce_miss_streak := 0;
     next_videoout_probe_us := 0 |}.
Definition with_probe (t : Z) (p : Policy) : Policy :=
  {| dce_standby_active := dce_standby_active p; dce_standby_pid := dce_standby_pid p;
     dce_miss_streak := dce_miss_streak p; next_videoout_probe_us := t |}.

Record Worker := {
  w_sampler : FpsSampler; w_dce : DceFpsSampler; w_socket : Z; w_filter : FpsDisplayFilter;
  reported_pid : Z; dce_reported_pid : Z;
  w_shellui : Gate; w_game : Gate; w_policy : Policy;
  renderer_online : bool; have_fps : bool; latest_fps : Z; sequence : Z
}.
Definition Worker_init : Worker := {|
  w_sampler := FpsSampler_init; w_dce := DceFpsSampler_init; w_socket := -1;
  w_filter := FpsDisplayFilter_init; reported_pid := -1; dce_reported_pid := -1;
  w_shellui := Gate_init; w_game := Gate_init; w_policy := Policy_init;
  renderer_online := false; have_fps := false; latest_fps := 0; sequence := 1 |}.

(** The lines the loop appends to the controller's log, before they are formatted
    ([ControllerStart.record_text]): a change of the policy, and the first rate of a
    source. *)
Inductive PolicyEvent := VideoOutResumed | DceStandby | DceMissWake.
Inductive RecordBackend := VideoOutProcess | DceBackend (b : Backend).
Inductive SamplerRecord :=
| PolicyRecord (game_pid : Z) (state : PolicyEvent) (backend : RecordBackend) (retry_after_us : Z)
| FirstFpsRecord (game_pid counter_address fps : Z) (backend : RecordBackend).

(** The observable part of one round. *)
Record Round := {
  r_shellui : option Z;              (** ShellUI as observed, when it runs *)
  r_game : option Z;
  r_now : Z;                         (** the clock at its beginning *)
  r_probe : option bool;             (** VideoOut discovery was tried, its result *)
  r_records : list SamplerRecord;    (** appended to the log *)
  r_ensure : option bool;            (** [ensure_shellui_renderer] was called, its result *)
  r_input : input;                   (** what the display filter was given *)
  r_shown : option Z;                (** what it answered *)
  r_sent : option WirePacket
}.

(** ** One round, part by part *)

(** ShellUI: a changed process restarts the gate, the renderer and the filter. *)
Definition note_shellui (pid : Z) (w : Worker) : Gate * bool * FpsDisplayFilter :=
  let seen := if 0 <? pid then Some pid else None in
  let g := gate_step kShellUiGate (w_shellui w) seen in
  if 0 <? pid then
    if pid =? g_pid (w_shellui w) then (g, renderer_online w, w_filter w)
    else (g, false, FpsDisplayFilter_init)
  else (g, false, w_filter w).

(** The game: a changed or missing process resets both samplers and the policy. *)
Record Sampling := {
  s_sampler : FpsSampler; s_dce : DceFpsSampler; s_reported : Z; s_dce_reported : Z;
  s_policy : Policy
}.
Definition note_game (game : option Z) (w : Worker) : Gate * Sampling :=
  let g := gate_step kGameGate (w_game w) game in
  let same := match game with Some p => p =? g_pid (w_game w) | None => false end in
  (g, if same then {| s_sampler := w_sampler w; s_dce := w_dce w; s_reported := reported_pid w;
                      s_dce_reported := dce_reported_pid w; s_policy := w_policy w |}
      else {| s_sampler := FpsSampler.reset (w_sampler w); s_dce := reset_adapter (w_dce w);
              s_reported := -1; s_dce_reported := -1; s_policy := Policy_init |}).

Definition source_of (b : Backend) : FpsDisplaySource :=
  match b with
  | BHenShared => SharedHen
  | BDceFixed => DceFixed
  | _ => DceAdaptive
  end.

(** The choice between the two sources and what it does to the policy: source, rate
    ([have_fps]), policy, the two reported processes. *)
Definition choose_source (now : Z) (game process_fps dce_fps : option Z) (s : Sampling)
    : FpsDisplaySource * option Z * Policy * Z * Z :=
  let p := s_policy s in
  match process_fps, dce_fps, game with
  | Some v, _, _ => (VideoOut, Some v, Policy_init, pid_ (s_sampler s), s_dce_reported s)
  | None, Some v, Some g =>
      let p1 := if negb (attached (s_sampler s)) then
                  {| dce_standby_active := true; dce_standby_pid := g; dce_miss_streak := 0;
                     next_videoout_probe_us :=
                       if negb (dce_standby_active p) || negb (dce_standby_pid p =? g)
                       then u64 (now + kDceVideoOutStandbyUs) else next_videoout_probe_us p |}
                else {| dce_standby_active := dce_standby_active p;
                        dce_standby_pid := dce_standby_pid p; dce_miss_streak := 0;
                        next_videoout_probe_us := next_videoout_probe_us p |} in
      (source_of (backend_name_ (s_dce s)), Some v, p1, s_reported s, g)
  | _, _, _ =>
      let p1 := match game with
                | Some _ =>
                    if dce_standby_active p then
                      if kDceMissesBeforeVideoOutWake <=? u32 (dce_miss_streak p + 1) then Policy_init
                      else {| dce_standby_active := true; dce_standby_pid := dce_standby_pid p;
                              dce_miss_streak := u32 (dce_miss_streak p + 1);
                              next_videoout_probe_us := next_videoout_probe_us p |}
                    else p
                | None => p
                end in
      (SrcNone, None, p1, s_reported s, s_dce_reported s)
  end.

(** The lines [choose_source] appends on its way. *)
Definition source_records (game process_fps dce_fps : option Z) (s : Sampling) : list SamplerRecord :=
  let p := s_policy s in
  let backend := DceBackend (backend_name_ (s_dce s)) in
  match process_fps, dce_fps, game with
  | Some v, _, _ =>
      let pid := pid_ (s_sampler s) in
      (if dce_standby_active p then [PolicyRecord pid VideoOutResumed VideoOutProcess 0] else []) ++
      (if pid =? s_reported s then []
       else [FirstFpsRecord pid (counter_address_ (s_sampler s)) v VideoOutProcess])
  | None, Some v, Some g =>
      (if negb (attached (s_sampler s)) && (negb (dce_standby_active p) || negb (dce_standby_pid p =? g))
       then [PolicyRecord g DceStandby backend kDceVideoOutStandbyUs] else []) ++
      (if g =? s_dce_reported s then [] else [FirstFpsRecord g 0 v backend])
  | _, _, Some g =>
      if dce_standby_active p && (kDceMissesBeforeVideoOutWake <=? u32 (dce_miss_streak p + 1))
      then [PolicyRecord g DceMissWake backend 0] else []
  | _, _, None => []
  end.

Definition overlay_frame (display_fps : option Z) (cfg : OverlayConfig) : OverlayFrame :=
  {| visible := true; loading := match display_fps with Some _ => false | None => true end;
     fps := default 0 display_fps; config := cfg; anchor := compute_anchor cfg |}.

Section Loop.
Context {W : Type} `{Controller W}.

(** VideoOut: sample when attached, otherwise attach when a probe is due; the result of
    the attempt, if there was one. *)
Definition sample_videoout (now : Z) (game : option Z) (s : Sampling) (w : W)
    : option Z * option bool * Sampling * W :=
  let with_sampler x p := {| s_sampler := x; s_dce := s_dce s; s_reported := s_reported s;
                             s_dce_reported := s_dce_reported s; s_policy := p |} in
  let due := negb (dce_standby_active (s_policy s)) || (next_videoout_probe_us (s_policy s) <=? now) in
  if attached (s_sampler s) then
    let '(v, x, w1) := FpsSampler.sample (s_sampler s) w in (v, None, with_sampler x (s_policy s), w1)
  else
    match game with
    | Some pid =>
        if due then
          let '(ok, x, w1) := attach true pid (s_sampler s) w in
          (None, Some ok,
           with_sampler x
                   (if negb ok && dce_standby_active (s_policy s)
                    then with_probe (u64 (now + kDceVideoOutStandbyUs)) (s_policy s)
                    else s_policy s), w1)
        else (None, None, s, w)
    | None => (None, None, s, w)
    end.

Definition sample_dce (ready : bool) (s : Sampling) (w : W) : option Z * Sampling * W :=
  if ready then
    let '((v, d), w1) := run_dce (sample_adapter (s_dce s)) w in
    (v, {| s_sampler := s_sampler s; s_dce := d; s_reported := s_reported s;
           s_dce_reported := s_dce_reported s; s_policy := s_policy s |}, w1)
  else (None, s, w).

(** [sequence++] takes place only when a frame is sent. *)
Definition send_frame (online : bool) (display_fps : option Z) (socket_ sequence_ : Z) (w : W)
    : option WirePacket * Z * Z * W :=
  if online then
    let '(cfg, w1) := stored_config w in
    let packet := make_wire_packet (overlay_frame display_fps cfg) sequence_ in
    let '((_, s), w2) := run_net (sender_send socket_ packet) w1 in
    (Some packet, s, u64 (sequence_ + 1), w2)
  else (None, socket_, sequence_, w).

Definition round (wk : Worker) (w : W) : Round * Worker * W :=
  let '(shellui_pid, w) := observe_shellui w in
  let '(shellui, online, filter) := note_shellui shellui_pid wk in
  let '(game, w) := find_game_process w in
  let '(gate, s) := note_game game wk in
  let game_process_ready := (0 <? g_pid gate) && (kGameGate <=? g_seen gate) in
  let '(now, w) := monotonic_us w in
  let '(process_fps, probe, s, w) := sample_videoout now game s w in
  let '(dce_fps, s, w) := sample_dce game_process_ready s w in
  let '(source, rate, policy, reported, dce_reported) :=
    choose_source now game process_fps dce_fps s in
  let records := source_records game process_fps dce_fps s in
  let '(ensured, online, w) :=
    (if negb online && game_process_ready && (kShellUiGate <=? g_seen shellui)
     then let '(ok, w) := ensure_shellui_renderer w in (Some ok, ok, w)
     else (None, online, w)) in
  let '(filter_now, w) := monotonic_us w in
  let '(shown, filter) := DisplayFilter.sample filter rate filter_now (g_pid gate) source in
  let '(sent, sock, seq, w) := send_frame online shown (w_socket wk) (sequence wk) w in
  ({| r_shellui := if 0 <? shellui_pid then Some shellui_pid else None; r_game := game;
      r_now := now; r_probe := probe; r_records := records; r_ensure := ensured;
      r_input := {| i_measured := rate; i_now := filter_now; i_pid := g_pid gate; i_source := source |};
      r_shown := shown; r_sent := sent |},
   {| w_sampler := s_sampler s; w_dce := s_dce s; w_socket := sock; w_filter := filter;
      reported_pid := reported; dce_reported_pid := dce_reported;
      w_shellui := shellui; w_game := gate; w_policy := policy; renderer_online := online;
      have_fps := match rate with Some _ => true | None => false end;
      latest_fps := default (latest_fps wk) rate; sequence := seq |},
   sleep_ms 1000 w).

(** The endless loop, observed for [n] rounds. *)
Fixpoint rounds (n : nat) (wk : Worker) (w : W) : list Round * Worker * W :=
  match n with
  | O => ([], wk, w)
  | S n' =>
      let '(r, wk1, w1) := round wk w in
      let '(rs, wk2, w2) := rounds n' wk1 w1 in (r :: rs, wk2, w2)
  end.
End Loop.

(** ** One round, as its successors see it *)

Record RoundSpec (wk : Worker) (r : Round) (wk' : Worker) : Prop := {
  rs_shellui : w_shellui wk' = gate_step kShellUiGate (w_shellui wk) (r_shellui r);
  rs_shellui_pos : forall p, r_shellui r = Some p -> 0 < p;
  rs_game : w_game wk' = gate_step kGameGate (w_game wk) (r_game r);
  rs_ensure : forall b, r_ensure r = Some b ->
    kShellUiGate <= g_seen (w_shellui wk') /\ kGameGate <= g_seen (w_game wk') /\
    0 < g_pid (w_game wk') /\ renderer_online wk' = b;
  rs_online : r_ensure r = None -> renderer_online wk' = true ->
    renderer_online wk = true /\ r_shellui r = Some (g_pid (w_shellui wk));
  rs_filter : exists f, (f = w_filter wk \/ f = FpsDisplayFilter_init) /\
    (r_shown r, w_filter wk') = DisplayFilter.step f (r_input r);
  rs_pid : i_pid (r_input r) = g_pid (w_game wk');
  rs_clock : in_u 64 (i_now (r_input r));
  rs_sent : if renderer_online wk' then
              exists cfg, wf_config cfg /\ float_margins cfg /\
                r_sent r = Some (make_wire_packet (overlay_frame (r_shown r) cfg) (sequence wk)) /\
                sequence wk' = u64 (sequence wk + 1)
            else r_sent r = None /\ sequence wk' = sequence wk
}.

Lemma round_spec {W} `{ControllerLaws W, !PlatformLaws W} wk (w : W) :
  let '(r, wk', _) := round wk w in RoundSpec wk r wk'.
Proof.
  unfold round.
  destruct (observe_shellui w) as [sp w1].
  destruct (note_shellui sp wk) as [[shellui online] filter] eqn:Eshell.
  destruct (find_game_process w1) as [game w2].
  destruct (note_game game wk) as [gate s] eqn:Egame.
  destruct (monotonic_us w2) as [now w3].
  destruct (sample_videoout now game s w3) as [[[pfps probe] s1] w4].
  destruct (sample_dce _ s1 w4) as [[dfps s2] w5].
  destruct (choose_source now game pfps dfps s2) as [[[[source rate] policy] reported] dce_rep].
  destruct (if negb online && _ && _ then _ else _) as [[ensured online'] w6] eqn:Eens.
  destruct (monotonic_us w6) as [fnow w7] eqn:Eclock.
  destruct (DisplayFilter.sample filter rate fnow (g_pid gate) source) as [shown filter'] eqn:Efilter.
  destruct (send_frame online' shown (w_socket wk) (sequence wk) w7) as [[[sent sock] seq] w8] eqn:Esend.
  assert (Hclock : in_u 64 fnow).
  { pose proof (monotonic_u64 w6) as Hm. by rewrite Eclock in Hm. }
  assert (Hg : gate = gate_step kGameGate (w_game wk) game) by (unfold note_game in Egame; congruence).
  assert (Hs : shellui = gate_step kShellUiGate (w_shellui wk) (if 0 <? sp then Some sp else None) /\
    (filter = w_filter wk \/ filter = FpsDisplayFilter_init) /\
    (online = true -> renderer_online wk = true /\
       (if 0 <? sp then Some sp else None) = Some (g_pid (w_shellui wk)))).
  { unfold note_shellui in Eshell. destruct (0 <? sp).
    - destruct (sp =? g_pid (w_shellui wk)) eqn:E; injection Eshell as <- <- <-.
      + apply Z.eqb_eq in E. split_and!; [done|by left|]. intros ->. by rewrite E.
      + split_and!; [done|by right|done].
    - injection Eshell as <- <- <-. split_and!; [done|by left|done]. }
  destruct Hs as (Hs & Hf & Hon).
  constructor; cbn [w_shellui w_game w_filter sequence renderer_online r_shellui r_game r_ensure
    r_input r_shown r_sent i_pid i_now]; try done.
  - intros p Hp. destruct (0 <? sp) eqn:E; [|done]. apply Z.ltb_lt in E. congruence.
  - intros b Hb. destruct (negb online && _ && _) eqn:E.
    + destruct (ensure_shellui_renderer w5) as [ok w']. injection Eens as <- <- _.
      breflect. destruct E as [[_ [E1 E2]] E3]. injection Hb as <-. done.
    + injection Eens as <- <- _. done.
  - intros Hn Ho. destruct (negb online && _ && _) eqn:E.
    + destruct (ensure_shellui_renderer w5) as [ok w']. injection Eens as <- _ _. done.
    + injection Eens as _ <- _. by apply Hon.
  - exists filter. split; [done|]. unfold DisplayFilter.step. simpl. by rewrite Efilter.
  - unfold send_frame in Esend. destruct online'.
    + pose proof (stored_config_wf w7) as Hc. pose proof (stored_config_float w7) as Hfl. destruct (stored_config w7) as [cfg w9].
      destruct (run_net _ w9) as [[ok s'] w10]. injection Esend as <- _ <- _.
      exists cfg. split_and!; done.
    + injection Esend as <- _ <- _. done.
Qed.

(** The rounds so far and the state they lead to. *)
Inductive history : list Round -> Worker -> Prop :=
| hist_init : history [] Worker_init
| hist_round rs wk r wk' : history rs wk -> RoundSpec wk r wk' -> history (rs ++ [r]) wk'.

Lemma rounds_history {W} `{ControllerLaws W, !PlatformLaws W} n rs0 wk (w : W) :
  history rs0 wk ->
  let '(rs, wk', _) := rounds n wk w in
  history (rs0 ++ rs) wk' /\
  forall k r, rs !! k = Some r -> exists wk1 wk2, history (rs0 ++ take k rs) wk1 /\ RoundSpec wk1 r wk2.
Proof.
  revert rs0 wk w. induction n as [|n IH]; intros rs0 wk w Hh; cbn [rounds].
  { rewrite app_nil_r. split; [done|]. intros k r. by rewrite lookup_nil. }
  pose proof (round_spec wk w) as Hr. destruct (round wk w) as [[r wk1] w1].
  specialize (IH (rs0 ++ [r]) wk1 w1 (hist_round _ _ _ _ Hh Hr)).
  destruct (rounds n wk1 w1) as [[rs wk2] w2]. destruct IH as [IH1 IH2].
  rewrite <- app_assoc in IH1. split; [done|]. intros [|k] r' Hk.
  - injection Hk as <-. exists wk, wk1. rewrite take_0, app_nil_r. done.
  - apply IH2 in Hk as (wk3 & wk4 & Hh3 & Hs). exists wk3, wk4. rewrite <- app_assoc in Hh3. done.
Qed.

(** *** The gates *)

(** The last [n] observations all are [p]. *)
Definition last_all (obs : list (option Z)) (n : Z) (p : Z) : Prop :=
  n <= Z.of_nat (length obs) /\
  forall i, Z.of_nat (length obs) - n <= Z.of_nat i < Z.of_nat (length obs) -> obs !! i = Some (Some p).

Lemma last_all_snoc obs n p : 0 <= n -> last_all obs n p -> last_all (obs ++ [Some p]) (n + 1) p.
Proof.
  intros Hn [Hl H]. split; rewrite length_app; simpl; [lia|]. intros i Hi.
  destruct (decide (i = length obs)) as [->|].
  - rewrite lookup_app_r, Nat.sub_diag by lia. done.
  - rewrite lookup_app_l by lia. apply H. lia.
Qed.

Lemma last_all_weaken obs n m p : m <= n -> last_all obs n p -> last_all obs m p.
Proof. intros Hm [Hl H]. split; [lia|]. intros i Hi. apply H. lia. Qed.

Definition gate_inv (limit : Z) (obs : list (option Z)) (g : Gate) : Prop :=
  0 <= g_seen g <= limit /\ last_all obs (g_seen g) (g_pid g).

Lemma gate_inv_step limit obs g o :
  1 <= limit -> gate_inv limit obs g -> gate_inv limit (obs ++ [o]) (gate_step limit g o).
Proof.
  intros Hlim [Hs Hl]. unfold gate_inv, gate_step. destruct o as [p|]; simpl.
  - destruct (p =? g_pid g) eqn:E; simpl.
    + apply Z.eqb_eq in E as ->. pose proof (last_all_snoc _ _ _ (proj1 Hs) Hl) as H1.
      destruct (g_seen g <? limit) eqn:El; breflect; [split; [lia|done]|].
      split; [lia|]. by apply (last_all_weaken _ (g_seen g + 1)); [lia|].
    + split; [lia|]. apply (last_all_snoc obs 0 p); [lia|]. split; [lia|]. intros i Hi. lia.
  - split; [lia|]. split; [rewrite length_app; simpl; lia|]. intros i Hi. lia.
Qed.

Lemma history_gates rs wk :
  history rs wk ->
  gate_inv kShellUiGate (map r_shellui rs) (w_shellui wk) /\
  gate_inv kGameGate (map r_game rs) (w_game wk).
Proof.
  induction 1 as [|rs wk r wk' _ [IH1 IH2] Hr].
  - split; (split; [unfold kShellUiGate, kGameGate; simpl; lia|]); (split; [simpl; lia|]); intros i Hi; simpl in *; lia.
  - rewrite !map_app, (rs_shellui _ _ _ Hr), (rs_game _ _ _ Hr).
    split; by apply gate_inv_step.
Qed.

(** *** The renderer, the sequence and the filter *)

Definition sent_count (rs : list Round) : Z :=
  Z.of_nat (length (List.filter (fun r => match r_sent r with Some _ => true | None => false end) rs)).

Lemma sent_count_snoc rs r :
  sent_count (rs ++ [r]) = sent_count rs + (match r_sent r with Some _ => 1 | None => 0 end).
Proof.
  unfold sent_count. rewrite List.filter_app, length_app. simpl.
  destruct (r_sent r); simpl; lia.
Qed.

(** The renderer was started successfully in some round, and since then the same ShellUI
    has been observed. *)
Definition started (rs : list Round) (p : Z) : Prop :=
  exists j, (exists r, rs !! j = Some r /\ r_ensure r = Some true) /\
    forall i r, (j <= i)%nat -> rs !! i = Some r -> r_shellui r = Some p.

Record WorkerInv (rs : list Round) (wk : Worker) : Prop := {
  wi_online : renderer_online wk = true -> started rs (g_pid (w_shellui wk));
  wi_sequence : sequence wk = u64 (1 + sent_count rs);
  wi_filter : exists pre ins, map r_input rs = pre ++ ins /\ w_filter wk = final ins
}.

Lemma full_gate limit g o : 2 <= limit -> limit <= g_seen (gate_step limit g o) ->
  o = Some (g_pid (gate_step limit g o)).
Proof.
  intros H2 H. unfold gate_step in *. destruct o as [p|]; simpl in *; [|lia].
  destruct (p =? g_pid g) eqn:E; [apply Z.eqb_eq in E as ->; done|simpl in H; lia].
Qed.

Lemma gate_same limit g p : p = g_pid g -> g_pid (gate_step limit g (Some p)) = p.
Proof. intros ->. simpl. by rewrite Z.eqb_refl. Qed.

Lemma worker_inv_step rs wk r wk' : WorkerInv rs wk -> RoundSpec wk r wk' -> WorkerInv (rs ++ [r]) wk'.
Proof.
  intros HI HR. constructor.
  - intros Hon. destruct (r_ensure r) as [b|] eqn:Ee.
    + destruct (rs_ensure _ _ _ HR b Ee) as (Hfull & _ & _ & Hb). rewrite Hb in Hon. subst b.
      assert (Hsh : r_shellui r = Some (g_pid (w_shellui wk'))).
      { rewrite (rs_shellui _ _ _ HR) in Hfull |- *. by apply full_gate. }
      exists (length rs). split.
      * exists r. by rewrite lookup_app_r, Nat.sub_diag by lia.
      * intros i r' Hi Hr'. rewrite lookup_app_r in Hr' by done.
        apply lookup_lt_Some in Hr' as Hlt. simpl in Hlt.
        replace (i - length rs)%nat with 0%nat in Hr' by lia. by injection Hr' as <-.
    + destruct (rs_online _ _ _ HR Ee Hon) as [Hon0 Hsh].
      destruct (wi_online _ _ HI Hon0) as (j & (r0 & Hj & He) & Hall).
      assert (Hp : g_pid (w_shellui wk') = g_pid (w_shellui wk)).
      { rewrite (rs_shellui _ _ _ HR), Hsh. by apply gate_same. }
      exists j. split; [exists r0; split; [by apply lookup_app_l_Some|done]|].
      intros i r' Hi Hr'. rewrite Hp. apply lookup_app_Some in Hr' as [Hr'|[Hi' Hr']]; [by apply (Hall i)|].
      apply lookup_lt_Some in Hr' as Hlt. simpl in Hlt.
      replace (i - length rs)%nat with 0%nat in Hr' by lia. by injection Hr' as <-.
  - rewrite sent_count_snoc. pose proof (rs_sent _ _ _ HR) as Hs. pose proof (wi_sequence _ _ HI) as Hq.
    destruct (renderer_online wk').
    + destruct Hs as (cfg & _ & _ & -> & ->). rewrite Hq. unfold wrap. rewrite Zplus_mod_idemp_l.
      f_equal. lia.
    + destruct Hs as [-> ->]. rewrite Hq. f_equal. lia.
  - destruct (rs_filter _ _ _ HR) as (f & Hf & Hstep).
    assert (w_filter wk' = (DisplayFilter.step f (r_input r)).2) as Hw by (by rewrite <- Hstep).
    destruct (wi_filter _ _ HI) as (pre & ins & Hins & Hfin). rewrite map_app. simpl.
    destruct Hf as [->| ->].
    + exists pre, (ins ++ [r_input r]). rewrite Hins, app_assoc, final_snoc, <- Hfin. done.
    + exists (map r_input rs), [r_input r]. split; [done|]. exact Hw.
Qed.

Lemma history_inv rs wk : history rs wk -> WorkerInv rs wk.
Proof.
  induction 1 as [|rs wk r wk' _ IH Hr]; [|by eapply worker_inv_step].
  constructor; [done|reflexivity|by exists [], []].
Qed.

Lemma history_clocks rs wk : history rs wk -> Forall (fun r => in_u 64 (i_now (r_input r))) rs.
Proof.
  induction 1 as [|rs wk r wk' _ IH Hr]; [constructor|].
  apply Forall_app. split; [done|]. constructor; [|constructor]. by apply rs_clock in Hr.
Qed.

Lemma history_pids rs wk :
  history rs wk -> Forall (fun r => 0 < i_pid (r_input r) -> r_game r = Some (i_pid (r_input r))) rs.
Proof.
  induction 1 as [|rs wk r wk' Hh IH Hr]; [constructor|].
  apply Forall_app. split; [done|]. constructor; [|constructor].
  rewrite (rs_pid _ _ _ Hr), (rs_game _ _ _ Hr). unfold gate_step.
  destruct (r_game r) as [p|]; simpl; [|lia]. destruct (p =? g_pid (w_game wk)) eqn:E; simpl; [|done].
  apply Z.eqb_eq in E. by rewrite E.
Qed.

(** What was shown in the last of the rounds. *)
Lemma history_shown rs wk r wk' v :
  history rs wk -> RoundSpec wk r wk' -> r_shown r = Some v ->
  0 <= v <= kMaxDisplayFps /\
  exists g, r_game r = Some g /\
    (exists r', r' ∈ rs ++ [r] /\ r_game r' = Some g /\ i_source (r_input r') = i_source (r_input r) /\
       i_measured (r_input r') = Some v) /\
    (exists r', r' ∈ rs ++ [r] /\ r_game r' = Some g /\
       i_now (r_input r') + kStartupUs <= i_now (r_input r)).
Proof.
  intros Hh HR Hv. pose proof (hist_round _ _ _ _ Hh HR) as Hh'.
  pose proof (history_clocks _ _ Hh') as Hc. pose proof (history_pids _ _ Hh') as Hp.
  destruct (wi_filter _ _ (history_inv _ _ Hh)) as (pre & ins & Hins & Hfin).
  destruct (rs_filter _ _ _ HR) as (f & Hf & Hstep).
  assert (exists ins', (forall i, i ∈ ins' -> exists r', r' ∈ rs /\ r_input r' = i) /\
    last_output ins' (r_input r) = Some v) as (ins' & Hfrom & Hout).
  { assert (Ho : (DisplayFilter.step f (r_input r)).1 = Some v) by (by rewrite <- Hstep).
    destruct Hf as [->| ->].
    - exists ins. split; [|unfold last_output; by rewrite <- Hfin].
      intros i Hi. assert (i ∈ map r_input rs) as Hi' by (rewrite Hins; apply elem_of_app; by right).
      apply list_elem_of_In, in_map_iff in Hi' as (r' & <- & Hr'). exists r'. split; [by apply list_elem_of_In|done].
    - exists []. split; [by intros i Hi; apply not_elem_of_nil in Hi|done]. }
  assert (Hu : Forall (fun j => in_u 64 (i_now j)) (ins' ++ [r_input r])).
  { apply Forall_app. split.
    - apply Forall_forall. intros i Hi. apply Hfrom in Hi as (r' & Hr' & <-).
      rewrite Forall_app, !Forall_forall in Hc. by apply (proj1 Hc).
    - constructor; [|constructor]. by apply rs_clock in HR. }
  destruct (output_sound ins' (r_input r) Hu) as [Hsound Hnone].
  destruct (Hsound v Hout) as (Hr & (j & Hj & [Hj1 Hj2] & Hj3) & (j' & Hj' & [Hj1' Hj2'] & Hj3')).
  split; [done|].
  assert (Hpos : 0 < i_pid (r_input r)).
  { destruct (decide (0 < i_pid (r_input r))) as [|Hn]; [done|]. rewrite Hnone in Hout; [done|left; lia]. }
  rewrite Forall_forall in Hp.
  assert (Hround : forall i, i ∈ ins' ++ [r_input r] -> exists r', r' ∈ rs ++ [r] /\ r_input r' = i).
  { intros i Hi. apply elem_of_app in Hi as [Hi|Hi].
    - apply Hfrom in Hi as (r' & Hr' & <-). exists r'. split; [apply elem_of_app; by left|done].
    - apply list_elem_of_singleton in Hi as ->. exists r. split; [apply elem_of_app; right; by apply list_elem_of_singleton|done]. }
  exists (i_pid (r_input r)). split; [apply Hp; [apply elem_of_app; right; by apply list_elem_of_singleton|done]|].
  apply Hround in Hj as (q & Hq & <-). apply Hround in Hj' as (q' & Hq' & <-). split.
  - exists q. split; [done|]. split; [|done]. rewrite <- Hj1. apply Hp; [done|lia].
  - exists q'. split; [done|]. split; [|done]. rewrite <- Hj1'. apply Hp; [done|lia].
Qed.

(** ** Theorems *)

Section Theorems.
Context {W : Type} `{ControllerLaws W, !PlatformLaws W}.

Lemma round_history n (w : W) rs wk w' k r :
  rounds n Worker_init w = (rs, wk, w') -> rs !! k = Some r ->
  exists wk1 wk2, history (take k rs) wk1 /\ RoundSpec wk1 r wk2 /\ history (take k rs ++ [r]) wk2 /\
    take k rs ++ [r] = take (S k) rs.
Proof.
  intros Hr Hk. pose proof (rounds_history n [] Worker_init w hist_init) as Hh.
  rewrite Hr in Hh. destruct Hh as [_ Hh]. destruct (Hh k r Hk) as (wk1 & wk2 & Hh1 & Hs).
  exists wk1, wk2. split_and!; [done|done|by eapply hist_round|]. by rewrite (take_S_r _ _ _ Hk).
Qed.

(** C14: the renderer is never injected before its gates are open: in every round that
    calls the injector, the same ShellUI has been observed in this and the nine rounds
    before it, and the same game in this and the two rounds before it. *)
Theorem injection_gate n (w : W) rs wk w' k r b :
  rounds n Worker_init w = (rs, wk, w') -> rs !! k = Some r -> r_ensure r = Some b ->
  (9 <= k)%nat /\
  exists shellui game, 0 < shellui /\ 0 < game /\
    (forall i, (k - 9 <= i <= k)%nat -> r_shellui <$> (rs !! i) = Some (Some shellui)) /\
    (forall i, (k - 2 <= i <= k)%nat -> r_game <$> (rs !! i) = Some (Some game)).
Proof.
  intros Hr Hk He. destruct (round_history _ _ _ _ _ _ _ Hr Hk) as (wk1 & wk2 & _ & HR & Hh & Htake).
  destruct (rs_ensure _ _ _ HR b He) as (Hs & Hg & Hpos & _).
  destruct (history_gates _ _ Hh) as [[Hs1 Hs2] [Hg1 Hg2]]. rewrite Htake in Hs2, Hg2.
  assert (Hlen : length (take (S k) rs) = S k).
  { apply length_take_le. apply lookup_lt_Some in Hk. lia. }
  assert (Hat : forall A (f : Round -> A) i, (i <= k)%nat -> map f (take (S k) rs) !! i = f <$> (rs !! i)).
  { intros A f i Hi. change (map f ?l) with (f <$> l). rewrite list_lookup_fmap, lookup_take_lt by lia. done. }
  apply (last_all_weaken _ _ _ _ Hs) in Hs2. apply (last_all_weaken _ _ _ _ Hg) in Hg2.
  destruct Hs2 as [Hsl Hs2]. destruct Hg2 as [Hgl Hg2]. rewrite length_map, Hlen in *.
  unfold kShellUiGate, kGameGate in *. split; [lia|].
  exists (g_pid (w_shellui wk2)), (g_pid (w_game wk2)). split_and!.
  - apply (rs_shellui_pos _ _ _ HR). specialize (Hs2 k ltac:(lia)). rewrite Hat, Hk in Hs2 by lia.
    by injection Hs2.
  - done.
  - intros i Hi. rewrite <- Hat by lia. apply Hs2. lia.
  - intros i Hi. rewrite <- Hat by lia. apply Hg2. lia.
Qed.

(** C31: a datagram is sent only to a renderer that was started successfully and only while
    the ShellUI it runs in is still observed; the datagrams are numbered 1, 2, 3, ...
    without gaps, and each carries a usable stored configuration. *)
Theorem frames_follow_renderer n (w : W) rs wk w' k r packet :
  rounds n Worker_init w = (rs, wk, w') -> rs !! k = Some r -> r_sent r = Some packet ->
  (exists shellui, started (take (S k) rs) shellui) /\
  exists cfg, wf_config cfg /\
    packet = make_wire_packet (overlay_frame (r_shown r) cfg) (u64 (1 + sent_count (take k rs))).
Proof.
  intros Hr Hk Hs. destruct (round_history _ _ _ _ _ _ _ Hr Hk) as (wk1 & wk2 & Hh1 & HR & Hh & Htake).
  pose proof (rs_sent _ _ _ HR) as Hsent. destruct (renderer_online wk2) eqn:Eon.
  - destruct Hsent as (cfg & Hcfg & _ & Hp & _). split.
    + exists (g_pid (w_shellui wk2)). rewrite <- Htake. by apply (wi_online _ _ (history_inv _ _ Hh)).
    + exists cfg. split; [done|]. rewrite <- (wi_sequence _ _ (history_inv _ _ Hh1)). congruence.
  - destruct Hsent as [Hn _]. congruence.
Qed.

(** A number on the screen is never made up and never of another game: what a round
    shows lies in 0..120, was measured - by the same kind of source - in some round so far
    while the game that is observed now was observed, and that game has been on for at
    least five seconds. *)
Theorem shown_rate_measured n (w : W) rs wk w' k r v :
  rounds n Worker_init w = (rs, wk, w') -> rs !! k = Some r -> r_shown r = Some v ->
  0 <= v <= kMaxDisplayFps /\
  exists g, r_game r = Some g /\
    (exists r', r' ∈ take (S k) rs /\ r_game r' = Some g /\
       i_source (r_input r') = i_source (r_input r) /\ i_measured (r_input r') = Some v) /\
    (exists r', r' ∈ take (S k) rs /\ r_game r' = Some g /\
       i_now (r_input r') + kStartupUs <= i_now (r_input r)).
Proof.
  intros Hr Hk Hv. destruct (round_history _ _ _ _ _ _ _ Hr Hk) as (wk1 & wk2 & Hh1 & HR & _ & <-).
  by eapply history_shown.
Qed.
End Theorems.

(** ** A concrete controller *)

Definition sim_net (s : unit) (c : net_call) : net_ret c * unit :=
  (match c with NSocket => 3 | NSendto _ bytes => Z.of_nat (length bytes) end, s).

(** ShellUI is process 55, the injector succeeds. *)
#[export] Instance SimController : Controller SimWorld := {|
  observe_shellui w := (55, w);
  run_dce A p w := ((run sim_dce p 42).1.1, w);
  run_net A p w := ((run sim_net p tt).1.1, w);
  ensure_shellui_renderer w := (true, w);
  stored_config w := (default_config, w)
|}.

Lemma default_config_wf : wf_config default_config.
Proof.
  destruct default_margins_ok. constructor; try done.
  all: unfold in_u, kMinFontSize, kMaxFontSize; simpl; lia.
Qed.

#[export] Instance SimControllerLaws : ControllerLaws SimWorld.
Proof.
  split; intros; simpl; [eexists; apply run_exec..|apply default_config_wf|by split].
Qed.

Definition sim_rounds := rounds 12 Worker_init sim960.

Definition no_round : Round := {|
  r_shellui := None; r_game := None; r_now := 0; r_probe := None; r_records := []; r_ensure := None;
  r_input := {| i_measured := None; i_now := 0; i_pid := -1; i_source := SrcNone |};
  r_shown := None; r_sent := None |}.
Definition sim_round9 : Round := nth 9 sim_rounds.1.1 no_round.

Lemma sim_rounds_parts : rounds 12 Worker_init sim960 = (sim_rounds.1.1, sim_rounds.1.2, sim_rounds.2).
Proof. unfold sim_rounds. by destruct (rounds 12 Worker_init sim960) as [[rs wk] w]. Qed.

Lemma sim_round9_at : sim_rounds.1.1 !! 9%nat = Some sim_round9.
Proof. vm_compute. reflexivity. Qed.

Lemma injection_gate_witness :
  (9 <= 9)%nat /\
  exists shellui game, 0 < shellui /\ 0 < game /\
    (forall i, (9 - 9 <= i <= 9)%nat -> r_shellui <$> (sim_rounds.1.1 !! i) = Some (Some shellui)) /\
    (forall i, (9 - 2 <= i <= 9)%nat -> r_game <$> (sim_rounds.1.1 !! i) = Some (Some game)).
Proof.
  exact (injection_gate 12 sim960 _ _ _ 9 sim_round9 true sim_rounds_parts sim_round9_at
    ltac:(vm_compute; reflexivity)).
Defined.

Lemma frames_follow_renderer_witness :
  exists packet, r_sent sim_round9 = Some packet /\
  (exists shellui, started (take 10 sim_rounds.1.1) shellui) /\
  exists cfg, wf_config cfg /\
    packet = make_wire_packet (overlay_frame (r_shown sim_round9) cfg)
               (u64 (1 + sent_count (take 9 sim_rounds.1.1))).
Proof.
  destruct (r_sent sim_round9) as [packet|] eqn:E.
  - exists packet. split; [reflexivity|].
    exact (frames_follow_renderer 12 sim960 _ _ _ 9 sim_round9 packet sim_rounds_parts sim_round9_at E).
  - exfalso. revert E. vm_compute. discriminate.
Defined.

Lemma shown_rate_measured_witness :
  r_shown sim_round9 = Some 63 /\
  0 <= 63 <= kMaxDisplayFps /\
  exists g, r_game sim_round9 = Some g /\
    (exists r', r' ∈ take 10 sim_rounds.1.1 /\ r_game r' = Some g /\
       i_source (r_input r') = i_source (r_input sim_round9) /\ i_measured (r_input r') = Some 63) /\
    (exists r', r' ∈ take 10 sim_rounds.1.1 /\ r_game r' = Some g /\
       i_now (r_input r') + kStartupUs <= i_now (r_input sim_round9)).
Proof.
  assert (E : r_shown sim_round9 = Some 63) by (vm_compute; reflexivity).
  split; [exact E|].
  exact (shown_rate_measured 12 sim960 _ _ _ 9 sim_round9 63 sim_rounds_parts sim_round9_at E).
Defined.
