(* ===== verification/OverlaySystem.v ===== *)
(** The running overlay: the controller's loop of [Worker], the loopback socket, the
    renderer's two threads of [RenderLoop] and what its widgets show ([PuiDisplay]), composed
    as one transition system.

    Rounds, receiver steps and render passes interleave in every way.  The receiver's
    socket buffer is first in, first out, and may lose a datagram when it is sent; nobody
    else sends datagrams with the packet's header to the port. *)
From S2P Require Import Prelude Effects Float Types Text Config Layout Wire Platform FpsSampler DisplayFilter Worker.
From S2P Require Import Mono PuiSafety PuiLooks PuiDisplay RenderLoop.
From Stdlib Require Import Sorting.Sorted.

(** ** The datagram on its way *)

(** [recv] into a packet: shorter datagrams have another size, longer ones are cut. *)
Definition received (bytes : list Z) : Datagram :=
  if sizeof_WirePacket <=? Z.of_nat (length bytes) then Packet (packet_of_bytes bytes) else WrongSize.

Lemma make_packet_wf frame seq :
  wf_config (config frame) -> float_margins (config frame) -> in_u 64 seq ->
  wf_packet (make_wire_packet frame seq).
Proof.
  intros Hc [Hx Hy] Hs. constructor; cbn [make_wire_packet w_magic w_version w_size w_sequence w_fps
    w_loading w_corner w_font_size w_margin_x w_margin_y w_show_label w_reserved w_label_color w_value_color];
    try done.
  - destruct (valid_rate (fps frame)) eqn:E; [|done]. unfold valid_rate in E. breflect.
    unfold in_i, kMaxDisplayFps in *. lia.
  - by destruct (_ || _).
  - by destruct (corner (config frame)).
  - apply wrap_range. lia.
  - by destruct (show_label _).
  - split; [done|]. repeat (constructor; [done|]). constructor.
  - unfold in_u. rewrite land24_small by apply Hc. destruct Hc. unfold in_u in *. lia.
  - unfold in_u. rewrite land24_small by apply Hc. destruct Hc. unfold in_u in *. lia.
Qed.

Lemma received_make frame seq :
  wf_config (config frame) -> float_margins (config frame) -> in_u 64 seq ->
  let p := make_wire_packet frame seq in accepted (received (packet_bytes p)) = Some p.
Proof.
  intros Hc Hm Hs p. destruct (packet_bytes_roundtrip p (make_packet_wf frame seq Hc Hm Hs)) as [Hl Hp].
  unfold received. rewrite Hl. cbn [Z.of_nat sizeof_WirePacket]. rewrite Hp. done.
Qed.

(** What the renderer prints of a frame of the controller. *)
Lemma decode_text shown cfg seq frame :
  (forall v, shown = Some v -> 0 <= v <= kMaxDisplayFps) ->
  decode_wire_packet (make_wire_packet (overlay_frame shown cfg) seq) = Some frame ->
  value_text frame = match shown with Some v => dec v | None => str "Loading" end.
Proof.
  intros Hv. unfold decode_wire_packet. rewrite header_make. cbn [negb]. intros [= <-].
  destruct shown as [v|]; [|done]. specialize (Hv v eq_refl).
  assert (valid_rate v = true) as E by (unfold valid_rate; breflect; lia).
  cbn -[valid_rate dec]. rewrite E. cbn -[valid_rate dec]. by rewrite E.
Qed.

(** ** Selections in order *)

(** Positions of a sublist. *)
Lemma sublist_positions {A B} (f : A -> option B) (rs : list A) (l : list B) :
  l `sublist_of` omap f rs ->
  exists ks, StronglySorted lt ks /\ Forall2 (fun k p => exists r, rs !! k = Some r /\ f r = Some p) ks l.
Proof.
  assert (forall rs r (ks : list nat) l,
    Forall2 (fun k p => exists r, rs !! k = Some r /\ f r = Some p) ks l ->
    Forall2 (fun k p => exists r', (r :: rs) !! k = Some r' /\ f r' = Some p) (map S ks) l) as Hshift.
  { intros rs0 r ks l0 HF. induction HF; cbn; constructor; done. }
  assert (forall ks, StronglySorted lt ks -> StronglySorted lt (map S ks)) as Hs.
  { intros ks. induction 1 as [|k ks _ IH Hall]; cbn; constructor; [done|].
    apply Forall_map. eapply Forall_impl; [exact Hall|]. intros. lia. }
  revert l. induction rs as [|r rs IH]; intros l Hl.
  { apply sublist_nil_r in Hl as ->. exists []. split; constructor. }
  cbn in Hl. destruct (f r) as [q|] eqn:Eq.
  - apply sublist_cons_r in Hl as [Hl|(l' & -> & Hl)].
    + destruct (IH l Hl) as (ks & H1 & H2). exists (map S ks). auto.
    + destruct (IH l' Hl) as (ks & H1 & H2). exists (0%nat :: map S ks). split.
      * constructor; [by apply Hs|]. apply Forall_map, Forall_true. intros. lia.
      * constructor; [by exists r|]. by apply Hshift.
  - destruct (IH l Hl) as (ks & H1 & H2). exists (map S ks). auto.
Qed.

Lemma sorted_le ks i j k k' :
  StronglySorted lt ks -> (i <= j)%nat -> ks !! i = Some k -> ks !! j = Some k' -> (k <= k')%nat.
Proof.
  intros Hs. revert i j. induction Hs as [|x ks _ IH Hall]; intros i j Hij Hi Hj; [done|].
  destruct i as [|i], j as [|j]; cbn in Hi, Hj; try lia.
  - assert (k = k') as -> by congruence. done.
  - injection Hi as <-. apply Nat.lt_le_incl. by eapply (Forall_lookup_1 _ _ _ _ Hall).
  - by apply (IH i j); [lia|..].
Qed.

Lemma ordered_entry received log i a j p ok :
  ordered received log i -> log !! a = Some (j, p, ok) -> received !! j = Some p /\ (j <= i)%nat.
Proof.
  intros Ho. revert a. induction Ho as [|log i j' p' ok' Ho IH Hle Hr _]; intros a Ha; [done|].
  apply lookup_app_Some in Ha as [Ha|[_ Ha]].
  - destruct (IH a Ha) as [? ?]. split; [done|lia].
  - apply list_lookup_singleton_Some in Ha as [_ [= -> -> ->]]. by split; [|lia].
Qed.

Lemma ordered_monotone received log i a b j p ok j' p' ok' :
  ordered received log i -> (a < b)%nat -> log !! a = Some (j, p, ok) -> log !! b = Some (j', p', ok') ->
  (j <= j')%nat.
Proof.
  intros Ho Hab Ha Hb. revert a b Hab Ha Hb. induction Ho as [|log i j0 p0 ok0 Ho IH Hle Hr _]; intros a b Hab Ha Hb; [done|].
  apply lookup_app_Some in Hb as [Hb|[Hl Hb]].
  - apply lookup_lt_Some in Hb as Hlt. rewrite lookup_app_l in Ha by lia. exact (IH a b Hab Ha Hb).
  - apply list_lookup_singleton_Some in Hb as [Hb [= -> -> ->]].
    rewrite lookup_app_l in Ha by lia. destruct (ordered_entry _ _ _ _ _ _ _ Ho Ha). lia.
Qed.

Lemma last_entry {A} (l : list A) x : last l = Some x -> exists a, l !! a = Some x.
Proof. rewrite last_lookup. by eexists. Qed.

(** ** The system *)

Section System.
Context {W : Type} `{ControllerLaws W, !PlatformLaws W}.

Record System := {
  y_world : W; y_worker : Worker; y_rounds : list Round;  (** the rounds so far *)
  y_buffer : list (list Z);                               (** the receiver's socket *)
  y_renderer : State; y_display : Display
}.

Definition after_round (y : System) (r : Round) (wk : Worker) (w : W) (buffer : list (list Z)) : System :=
  {| y_world := w; y_worker := wk; y_rounds := y_rounds y ++ [r]; y_buffer := buffer;
     y_renderer := y_renderer y; y_display := y_display y |}.
Definition with_renderer (y : System) (buffer : list (list Z)) (s : State) (m : Display) : System :=
  {| y_world := y_world y; y_worker := y_worker y; y_rounds := y_rounds y; y_buffer := buffer;
     y_renderer := s; y_display := m |}.

(** The datagrams of a round. *)
Definition datagrams (r : Round) : list (list Z) :=
  match r_sent r with Some p => [packet_bytes p] | None => [] end.

(** The datagram at the head of the buffer is taken only by [sys_receive]. *)
Definition accepting (s : State) : Prop := exists p, s_recv s = StorePacket p.

Inductive sys_step (y : System) : System -> Prop :=
| sys_round r wk w :
    round (y_worker y) (y_world y) = (r, wk, w) ->
    sys_step y (after_round y r wk w (y_buffer y ++ datagrams r))
| sys_lost r wk w :
    round (y_worker y) (y_world y) = (r, wk, w) -> sys_step y (after_round y r wk w (y_buffer y))
| sys_receive bytes rest p :
    y_buffer y = bytes :: rest -> s_recv (y_renderer y) = Receiving ->
    accepted (received bytes) = Some p ->
    sys_step y (with_renderer y rest (recv_at (y_renderer y) (StorePacket p)) (y_display y))
| sys_receiver s :
    recv_step (y_renderer y) s -> ~ accepting s ->
    sys_step y (with_renderer y (y_buffer y) s (y_display y))
| sys_pass s :
    pass_step (y_renderer y) s -> s_log s = s_log (y_renderer y) ->
    sys_step y (with_renderer y (y_buffer y) s (y_display y))
| sys_render n i p t ok g m :
    let s := y_renderer y in
    s_pass s = Apply n i p ->
    negb (w_sequence p =? n) || negb (bool_decide (is_Some (decode_wire_packet p))) = false ->
    exec (apply_packet_on_render (s_globals s) p) t (ok, g) ->
    monitor display_step (y_display y) t = Some m ->
    sys_step y (with_renderer y (y_buffer y) (leave (set_rendered s g i p ok)) m).

(** Both processes just started: no widgets, nothing sent. *)
Definition sys_start (w : W) (ready background : bool) (g : Globals) (d : Disp) : System :=
  {| y_world := w; y_worker := Worker_init; y_rounds := []; y_buffer := [];
     y_renderer := State_init ready background g; y_display := Lit d |}.

Inductive sys_reachable : System -> Prop :=
| sys_init w ready background g d : bare g -> sys_reachable (sys_start w ready background g d)
| sys_next y y' : sys_reachable y -> sys_step y y' -> sys_reachable y'.

(** *** The parts of a reachable state *)

Lemma sys_history y : sys_reachable y -> history (y_rounds y) (y_worker y).
Proof.
  induction 1 as [w rd bg g d _|y y' _ IH Hs]; [constructor|].
  destruct Hs as [r wk w E|r wk w E|bytes rest p E E' E''|s E E'|s E E'|n i p t ok g m s E E' E'' E3];
    try exact IH; cbn [after_round y_rounds y_worker].
  - pose proof (round_spec (y_worker y) (y_world y)) as Hr. rewrite E in Hr. by eapply hist_round.
  - pose proof (round_spec (y_worker y) (y_world y)) as Hr. rewrite E in Hr. by eapply hist_round.
Qed.

Lemma sys_renderer y : sys_reachable y ->
  exists ready background g, reachable ready background g (y_renderer y).
Proof.
  induction 1 as [w rd bg g d _|y y' _ (rd & bg & g0 & IH) Hs]; [do 3 eexists; constructor|].
  exists rd, bg, g0.
  destruct Hs as [r wk w E|r wk w E|bytes rest p E E' E''|s E E'|s E E'|n i p t ok g m s E E' E'' E3];
    try exact IH; (eapply reach_step; [exact IH|]); cbn [with_renderer y_renderer].
  - apply step_recv. by eapply recv_accepted.
  - by apply step_recv.
  - by apply step_pass.
  - apply step_pass. by eapply pass_apply.
Qed.

(** A packet between the socket and the lock. *)
Definition pending (s : State) : list WirePacket :=
  match s_recv s with StorePacket p => [p] | _ => [] end.

Lemma sublist_snoc {A} (l k : list A) x : l `sublist_of` k -> l ++ [x] `sublist_of` k ++ [x].
Proof. intros Hl. by apply sublist_app. Qed.

(** What the controller sent, in order. *)
Definition sent (rs : list Round) : list WirePacket := omap r_sent rs.

Lemma rounds_sent_app rs rs' : sent (rs ++ rs') = sent rs ++ sent rs'.
Proof. apply omap_app. Qed.

Lemma sent_one r : sent [r] = match r_sent r with Some p => [p] | None => [] end.
Proof. unfold sent. cbn. by destruct (r_sent r). Qed.

Lemma round_datagram wk r wk' p :
  RoundSpec wk r wk' -> in_u 64 (sequence wk) -> r_sent r = Some p ->
  accepted (received (packet_bytes p)) = Some p.
Proof.
  intros HR Hq Hp. pose proof (rs_sent _ _ _ HR) as Hs. destruct (renderer_online wk').
  - destruct Hs as (cfg & Hc & Hm & Hsent & _). rewrite Hsent in Hp. injection Hp as <-. by apply received_make.
  - destruct Hs as [Hs _]. congruence.
Qed.

Lemma history_sequence rs wk : history rs wk -> in_u 64 (sequence wk).
Proof. intros Hh. rewrite (wi_sequence _ _ (history_inv _ _ Hh)). apply wrap_range. lia. Qed.

(** *** Flow: what was received is an in-order selection of what was sent *)

Definition flow (y : System) : Prop := exists ps,
  y_buffer y = map packet_bytes ps /\
  Forall (fun p => accepted (received (packet_bytes p)) = Some p) ps /\
  s_received (y_renderer y) ++ pending (y_renderer y) ++ ps `sublist_of` sent (y_rounds y).

Lemma pass_flow s s' :
  pass_step s s' -> s_received s' = s_received s /\ pending s' `sublist_of` pending s.
Proof.
  intros Hs. destruct Hs; unfold leave, pending; s_fields; try (destruct (s_background s); s_fields);
    (split; [done|]); try done; apply sublist_nil_l.
Qed.

Lemma recv_flow s s' ps :
  recv_step s s' -> ~ accepting s' ->
  s_received s' ++ pending s' ++ ps = s_received s ++ pending s ++ ps.
Proof.
  intros Hs Hn. destruct Hs as [s E|s d E _ _|s d p E Ha|s p E|s p E|s E]; unfold pending; s_fields;
    rewrite ?E; try done.
  - exfalso. apply Hn. by exists p.
  - by rewrite <- app_assoc.
  - by destruct (s_background s).
Qed.

Lemma sys_flow y : sys_reachable y -> flow y.
Proof.
  induction 1 as [w rd bg g d _|y y' Hr (ps & Hb & Hok & Hsub) Hs].
  { exists []. split; [done|]. split; [constructor|]. apply sublist_nil_l. }
  destruct Hs as [r wk w E|r wk w E|bytes rest p E E' E''|s E E'|s E E'|n i p t ok g m s E E' E'' E3];
    unfold flow; cbn [after_round with_renderer y_buffer y_renderer y_rounds].
  - pose proof (round_spec (y_worker y) (y_world y)) as HR. rewrite E in HR.
    pose proof (history_sequence _ _ (sys_history y Hr)) as Hq.
    exists (ps ++ sent [r]). rewrite Hb, map_app, rounds_sent_app.
    split; [|split].
    + f_equal. rewrite sent_one. unfold datagrams. by destruct (r_sent r).
    + apply Forall_app. split; [done|]. rewrite sent_one. destruct (r_sent r) as [p|] eqn:Ep; [|constructor].
      constructor; [by eapply round_datagram|constructor].
    + rewrite !app_assoc. apply sublist_app; [by rewrite <- app_assoc|done].
  - exists ps. split; [done|]. split; [done|]. rewrite rounds_sent_app. by apply sublist_inserts_r.
  - rewrite Hb in E. destruct ps as [|q ps]; [done|]. injection E as <- <-.
    inversion Hok as [|? ? Hq Hps]; subst. rewrite Hq in E''. injection E'' as <-.
    exists ps. split; [done|]. split; [done|]. unfold pending in *. s_fields. by rewrite E' in Hsub.
  - exists ps. split; [done|]. split; [done|]. by rewrite (recv_flow _ _ _ E E').
  - exists ps. split; [done|]. split; [done|]. apply pass_flow in E as [-> Hp].
    etrans; [|exact Hsub]. by apply sublist_app, sublist_app.
  - exists ps. split; [done|]. split; [done|].
    destruct (pass_flow s (leave (set_rendered s g i p ok))) as [-> Hp]; [by eapply pass_apply|].
    etrans; [|exact Hsub]. by apply sublist_app, sublist_app.
Qed.

(** *** What the widgets show *)

Definition layout_of (frame : OverlayFrame) : OverlayLayout :=
  compute_layout (config frame) kLogicalWidth kLogicalHeight (loading frame).

Definition screen (s : State) (d : Disp) : Prop :=
  faithful (s_globals s) d /\
  (forall i p, last (s_log s) = Some (i, p, true) ->
     exists frame, decode_wire_packet p = Some frame /\ displayed d (s_globals s) frame (layout_of frame)).

Lemma recv_step_screen s s' d : recv_step s s' -> screen s d -> screen s' d.
Proof. by intros []. Qed.

Lemma leave_screen s d : screen s d -> screen (leave s) d.
Proof. unfold leave, screen. s_fields. by destruct (s_background s). Qed.

Lemma pass_step_screen s s' d :
  pass_step s s' -> s_log s' = s_log s -> screen s d -> screen s' d.
Proof.
  intros Hs Hl. destruct Hs; try (intros H'; apply leave_screen; exact H'); try done.
  exfalso. unfold leave in Hl. s_fields. destruct (s_background s); s_fields;
    apply (f_equal length) in Hl; rewrite length_app in Hl; cbn in Hl; lia.
Qed.

Lemma render_screen s i p t ok g d m :
  screen s d -> exec (apply_packet_on_render (s_globals s) p) t (ok, g) ->
  monitor display_step (Lit d) t = Some m ->
  match m with Dark => True | Lit d' => screen (leave (set_rendered s g i p ok)) d' end.
Proof.
  intros [Hf _] He Hm. pose proof (apply_packet_dspec (s_globals s) p d Hf) as Hw.
  destruct (wp_sound _ _ _ _ Hw t (ok, g) He) as (m' & Hm' & Hd).
  rewrite Hm in Hm'. injection Hm' as <-. destruct m as [|d']; [done|]. destruct Hd as [Hf' Hd].
  apply leave_screen. split; [exact Hf'|]. s_fields. intros j q. rewrite list.last_snoc. intros [= -> -> ->]. by apply Hd.
Qed.

Lemma dark_stays t m : monitor display_step Dark t = Some m -> m = Dark.
Proof. induction t as [|e t IH]; cbn; [by intros [= <-]|exact IH]. Qed.

Lemma sys_screen y :
  sys_reachable y -> match y_display y with Dark => True | Lit d => screen (y_renderer y) d end.
Proof.
  induction 1 as [w rd bg g d (Hl & Hv & Hst)|y y' _ IH Hs].
  { split; [by apply faithful_none|done]. }
  destruct Hs as [r wk w E|r wk w E|bytes rest p E E' E''|s E E'|s E E'|n i p t ok g m s E E' E'' E3];
    cbn [after_round with_renderer y_display y_renderer]; try exact IH.
  - destruct (y_display y); [done|]. by eapply recv_step_screen.
  - destruct (y_display y); [done|]. by eapply pass_step_screen.
  - destruct (y_display y) as [|d]; [by apply dark_stays in E3 as ->|]. by eapply render_screen.
Qed.

(** *** Rounds and packets *)

Lemma history_at rs wk k r :
  history rs wk -> rs !! k = Some r ->
  exists wk1 wk2, history (take k rs) wk1 /\ RoundSpec wk1 r wk2 /\ take k rs ++ [r] = take (S k) rs.
Proof.
  intros Hh Hk. rewrite (take_S_r _ _ _ Hk). revert k r Hk.
  induction Hh as [|rs wk r0 wk' Hh IH HR]; intros k r Hk; [by rewrite lookup_nil in Hk|].
  apply lookup_app_Some in Hk as [Hk|[Hle Hk]].
  - pose proof (lookup_lt_Some _ _ _ Hk). rewrite take_app_le by lia. by apply IH.
  - apply list_lookup_singleton_Some in Hk as [Hk <-].
    assert (k = length rs) as -> by lia. rewrite take_app_length. by exists wk, wk'.
Qed.

Lemma sent_count_length rs : sent_count rs = Z.of_nat (length (sent rs)).
Proof.
  unfold sent_count, sent. f_equal. induction rs as [|r rs IH]; [done|].
  cbn. destruct (r_sent r); cbn; by rewrite IH.
Qed.

(** The packets are numbered from 1. *)
Lemma sent_sequence rs wk i p :
  history rs wk -> sent rs !! i = Some p -> w_sequence p = u64 (1 + Z.of_nat i).
Proof.
  intros Hh. revert i p. induction Hh as [|rs wk r wk' Hh IH HR]; intros i p Hi; [done|].
  rewrite rounds_sent_app in Hi. apply lookup_app_Some in Hi as [Hi|[Hle Hi]]; [by apply IH|].
  rewrite sent_one in Hi. destruct (r_sent r) as [q|] eqn:Eq; [|done].
  apply list_lookup_singleton_Some in Hi as [Hi <-].
  pose proof (rs_sent _ _ _ HR) as Hs. destruct (renderer_online wk'); [|destruct Hs; congruence].
  destruct Hs as (cfg & _ & _ & Hs & _). rewrite Eq in Hs. injection Hs as ->. cbn [make_wire_packet w_sequence].
  rewrite (wi_sequence _ _ (history_inv _ _ Hh)), sent_count_length. do 3 f_equal. lia.
Qed.

Lemma sent_round rs p : p ∈ sent rs -> exists k r, rs !! k = Some r /\ r_sent r = Some p.
Proof.
  unfold sent. intros Hin. apply list_elem_of_omap in Hin as (r & Hr & Hp).
  apply list_elem_of_lookup in Hr as [k Hk]. by exists k, r.
Qed.

(** *** The log *)

Lemma sys_log y : sys_reachable y ->
  exists i, ordered (s_received (y_renderer y)) (s_log (y_renderer y)) i.
Proof.
  intros Hr. destruct (sys_renderer y Hr) as (rd & bg & g & H').
  destruct (inv_log _ (reachable_inv _ _ _ _ H')) as (i & Ho & _). by exists i.
Qed.

Lemma sys_received y : sys_reachable y -> s_received (y_renderer y) `sublist_of` sent (y_rounds y).
Proof.
  intros Hr. destruct (sys_flow y Hr) as (ps & _ & _ & Hs). etrans; [|exact Hs]. by apply sublist_inserts_r.
Qed.

(** C15: the number on the screen was measured.  In every state the overlay can reach - any
    interleaving of rounds, datagrams, losses, receiver steps and render passes, on every
    environment of the controller and every answer of Mono - after a successful pass the
    two widgets show the packet of some round of the controller; the value reads
    "Loading" or a number that lies in 0..120 and was measured in this or an earlier round
    while the game that this round observed was running. *)
Theorem screen_shows_measured y d i p :
  sys_reachable y -> y_display y = Lit d -> last (s_log (y_renderer y)) = Some (i, p, true) ->
  exists k r frame, y_rounds y !! k = Some r /\ r_sent r = Some p /\
    decode_wire_packet p = Some frame /\
    displayed d (s_globals (y_renderer y)) frame (layout_of frame) /\
    value_text frame = match r_shown r with Some v => dec v | None => str "Loading" end /\
    forall v, r_shown r = Some v -> 0 <= v <= kMaxDisplayFps /\
      exists g r', r_game r = Some g /\ r' ∈ take (S k) (y_rounds y) /\ r_game r' = Some g /\
        i_measured (r_input r') = Some v.
Proof.
  intros Hr Hd Hl. pose proof (sys_screen y Hr) as Hs. rewrite Hd in Hs. destruct Hs as [_ Hs].
  destruct (Hs i p Hl) as (frame & Hdec & Hdisp). destruct (sys_log y Hr) as (i' & Ho).
  destruct (last_entry _ _ Hl) as (a & Ha). destruct (ordered_entry _ _ _ _ _ _ _ Ho Ha) as [Hp _].
  assert (p ∈ sent (y_rounds y)) as Hin.
  { eapply elem_of_sublist; [|apply sys_received, Hr]. by eapply list_elem_of_lookup_2. }
  destruct (sent_round _ _ Hin) as (k & r & Hk & Hrs).
  destruct (history_at _ _ _ _ (sys_history y Hr) Hk) as (wk1 & wk2 & Hh & HR & Htake).
  assert (forall v, r_shown r = Some v -> 0 <= v <= kMaxDisplayFps /\
      exists g r', r_game r = Some g /\ r' ∈ take (S k) (y_rounds y) /\ r_game r' = Some g /\
        i_measured (r_input r') = Some v) as Hv.
  { intros v Ev. destruct (history_shown _ _ _ _ _ Hh HR Ev) as (Hrange & g & Hg & (r' & Hin' & Hg' & _ & Hm) & _).
    rewrite Htake in Hin'. split; [done|]. by exists g, r'. }
  exists k, r, frame. split_and!; try done.
  pose proof (rs_sent _ _ _ HR) as Hsent. destruct (renderer_online wk2); [|destruct Hsent; congruence].
  destruct Hsent as (cfg & _ & _ & Hsent & _). rewrite Hrs in Hsent. injection Hsent as ->.
  eapply decode_text; [|exact Hdec]. intros v Ev. by apply Hv.
Qed.

(** C17: the screen never goes back in time: what is rendered first was sent in the same or
    an earlier round than what is rendered later, and what the renderer accepts is a
    selection, in order and without repetition, of what the controller sent. *)
Theorem rendered_in_order y a b i p ok j q ok' :
  sys_reachable y -> (a < b)%nat ->
  s_log (y_renderer y) !! a = Some (i, p, ok) -> s_log (y_renderer y) !! b = Some (j, q, ok') ->
  s_received (y_renderer y) `sublist_of` sent (y_rounds y) /\
  exists k k' r r', (k <= k')%nat /\
    y_rounds y !! k = Some r /\ r_sent r = Some p /\ y_rounds y !! k' = Some r' /\ r_sent r' = Some q.
Proof.
  intros Hr Hab Ha Hb. pose proof (sys_received y Hr) as Hsub. split; [done|].
  destruct (sys_log y Hr) as (i' & Ho). pose proof (ordered_monotone _ _ _ _ _ _ _ _ _ _ _ Ho Hab Ha Hb) as Hij.
  apply (ordered_entry _ _ _ _ _ _ _ Ho) in Ha as [Hp _].
  apply (ordered_entry _ _ _ _ _ _ _ Ho) in Hb as [Hq _].
  destruct (sublist_positions r_sent _ _ Hsub) as (ks & Hks & HF).
  destruct (Forall2_lookup_r _ _ _ _ _ HF Hp) as (k & Hk & r & Hkr & Hrp).
  destruct (Forall2_lookup_r _ _ _ _ _ HF Hq) as (k' & Hk' & r' & Hkr' & Hrq).
  exists k, k', r, r'. split_and!; try done. by eapply sorted_le.
Qed.

(** *** A frame reaches the screen *)

Inductive sys_steps : System -> System -> Prop :=
| sys_here y : sys_steps y y
| sys_more y y' y'' : sys_step y y' -> sys_steps y' y'' -> sys_steps y y''.

Lemma steps_reachable y y' : sys_reachable y -> sys_steps y y' -> sys_reachable y'.
Proof. intros Hr Hs. induction Hs as [|y y1 y2 Hst _ IH]; [done|]. by apply IH, sys_next with y. Qed.

(** The sequence that was applied last is 0 or that of a received packet. *)
Lemma applied_received ready background g s :
  reachable ready background g s ->
  s_applied s = 0 \/ exists p, p ∈ s_received s /\ s_applied s = w_sequence p.
Proof.
  induction 1 as [|s s' Hr IH [Hst|Hst]]; [by left| |].
  - destruct Hst; s_fields; try exact IH. destruct IH as [IH|(q & Hq & IH)]; [by left|right].
    exists q. split; [|done]. apply elem_of_app. by left.
  - pose proof (inv_pass s (reachable_inv _ _ _ _ Hr)) as Hp.
    destruct Hst as [s| s| s| s| s| s|s n i p t ok g' E]; unfold leave; s_fields;
      try (destruct (s_background s); exact IH); try exact IH.
    rewrite E in Hp. destruct ok; [|by destruct (s_background s)]. right. exists p.
    by destruct (s_background s); (split; [eapply list_elem_of_lookup_2|]).
Qed.

(** A new packet is not mistaken for the last one until the numbers wrap around. *)
Lemma new_sequence y wk' r p :
  sys_reachable y -> RoundSpec (y_worker y) r wk' -> r_sent r = Some p ->
  sent_count (y_rounds y) < 2 ^ 64 - 1 -> w_sequence p <> s_applied (y_renderer y).
Proof.
  intros Hr HR Hp Hn. pose proof (sys_history y Hr) as Hh.
  assert (w_sequence p = 1 + sent_count (y_rounds y)) as ->.
  { erewrite (sent_sequence (y_rounds y ++ [r]) wk' (length (sent (y_rounds y))) p).
    - rewrite <- sent_count_length. rewrite sent_count_length in *. apply wrap_small. unfold in_u. lia.
    - by eapply hist_round.
    - rewrite rounds_sent_app, sent_one, Hp, lookup_app_r, Nat.sub_diag by done. done. }
  destruct (sys_renderer y Hr) as (rd & bg & g & Hs). rewrite sent_count_length in *.
  destruct (applied_received _ _ _ _ Hs) as [->|(q & Hq & ->)]; [lia|].
  pose proof (elem_of_sublist _ _ _ Hq (sys_received y Hr)) as Hin.
  apply list_elem_of_lookup in Hin as [i Hi]. rewrite (sent_sequence _ _ _ _ Hh Hi).
  apply lookup_lt_Some in Hi. rewrite wrap_small by (unfold in_u; lia). lia.
Qed.

Lemma monitor_total m t : exists m', monitor display_step m t = Some m'.
Proof.
  revert m. induction t as [|e t IH]; intros m; [by exists m|]. cbn. destruct m; apply IH.
Qed.

(** The renderer waits, and nothing is in front of the next datagram. *)
Definition idle (y : System) : Prop :=
  y_buffer y = [] /\ s_recv (y_renderer y) = Receiving /\ s_pass (y_renderer y) = Outside.

(** The state after the receiver and one render pass took the packet at the front of the
    buffer. *)
Definition taken (s : State) (p : WirePacket) : State := {|
  s_ready := s_ready s; s_have := true; s_sequence := w_sequence p; s_applied := s_applied s;
  s_packet := p; s_background := s_background s; s_globals := s_globals s;
  s_recv := if s_background s then BackgroundRender else Receiving; s_pass := s_pass s;
  s_received := s_received s ++ [p]; s_log := s_log s |}.
Definition rendering (s : State) (p : WirePacket) (i : nat) : State :=
  pass_at (taken s p) (Apply (w_sequence p) i p).
Definition delivered (y : System) (p : WirePacket) (g : Globals) (m : Display) : System :=
  let i := length (s_received (y_renderer y)) in
  with_renderer y [] (leave (set_rendered (rendering (y_renderer y) p i) g i p true)) m.

Lemma taken_steps y p :
  y_buffer y = [packet_bytes p] -> s_recv (y_renderer y) = Receiving ->
  accepted (received (packet_bytes p)) = Some p ->
  sys_steps y (with_renderer y [] (taken (y_renderer y) p) (y_display y)).
Proof.
  intros Hb Hrecv Hacc.
  assert (forall s, (forall q, s_recv s <> StorePacket q) -> ~ accepting s) as Hna.
  { intros s Hs (q & Hq). by apply (Hs q). }
  set (s1 := recv_at (y_renderer y) (StorePacket p)).
  set (s2 := recv_at (set_packet s1 p) (StoreSequence p)).
  set (s3 := recv_at (set_sequence s2 (w_sequence p)) StoreHave).
  pose (at_ := fun s => with_renderer y [] s (y_display y)).
  apply sys_more with (at_ s1); [by apply sys_receive with (packet_bytes p)|].
  apply sys_more with (at_ s2); [apply (sys_receiver (at_ s1)); [by apply recv_store_packet|by apply Hna]|].
  apply sys_more with (at_ s3); [apply (sys_receiver (at_ s2)); [by apply recv_store_sequence|by apply Hna]|].
  eapply sys_more; [|apply sys_here]. apply (sys_receiver (at_ s3)); [by apply recv_store_have|].
  apply Hna. intros q. cbn [with_renderer y_renderer taken s_recv]. by destruct (s_background _).
Qed.

Lemma sys_steps_app y y' y'' : sys_steps y y' -> sys_steps y' y'' -> sys_steps y y''.
Proof. induction 1; [done|]. intros Hs. eapply sys_more; eauto. Qed.

Lemma packet_delivered y p t g m :
  y_buffer y = [packet_bytes p] -> s_recv (y_renderer y) = Receiving -> s_pass (y_renderer y) = Outside ->
  s_ready (y_renderer y) = true -> accepted (received (packet_bytes p)) = Some p ->
  is_Some (decode_wire_packet p) -> w_sequence p <> s_applied (y_renderer y) ->
  exec (apply_packet_on_render (s_globals (y_renderer y)) p) t (true, g) ->
  monitor display_step (y_display y) t = Some m ->
  sys_steps y (delivered y p g m).
Proof.
  intros Hb Hrecv Hpass Hready Hacc Hdec Hne He Hm.
  eapply sys_steps_app; [by apply taken_steps|]. unfold delivered. set (i := length _).
  set (s4 := taken (y_renderer y) p). set (s5 := pass_at s4 LoadSequence).
  set (s6 := pass_at s5 (CopyPacket (w_sequence p))).
  pose (at_ := fun s => with_renderer y [] s (y_display y)).
  apply sys_more with (at_ s5).
  { apply (sys_pass (at_ s4)); [|done]. apply pass_begin; [|by apply andb_true_iff].
    change (may_begin s4). split; [done|]. unfold s4, taken. s_fields. destruct (s_background _); auto. }
  apply sys_more with (at_ s6); [apply (sys_pass (at_ s5)); [by apply pass_sequence|done]|].
  apply sys_more with (at_ (rendering (y_renderer y) p i)).
  { apply (sys_pass (at_ s6)); [|done].
    replace i with (length (s_received s6) - 1)%nat; [by apply (pass_copy s6 (w_sequence p))|].
    unfold s6, s5, s4, taken. s_fields. rewrite length_app. cbn. lia. }
  eapply sys_more; [|apply sys_here].
  apply (sys_render (at_ (rendering (y_renderer y) p i)) (w_sequence p) i p t true g m); [done| |exact He|exact Hm].
  rewrite Z.eqb_refl. by rewrite bool_decide_eq_true_2.
Qed.

Lemma leave_rendered s g i p ok :
  s_globals (leave (set_rendered s g i p ok)) = g /\
  last (s_log (leave (set_rendered s g i p ok))) = Some (i, p, ok).
Proof. unfold leave. s_fields. destruct (s_background s); s_fields; by rewrite list.last_snoc. Qed.

Lemma delivered_renderer y p g m :
  let s := y_renderer (delivered y p g m) in
  s_globals s = g /\ last (s_log s) = Some (length (s_received (y_renderer y)), p, true).
Proof. apply leave_rendered. Qed.

(** C16: a frame reaches the screen.  Whenever the renderer is ready and waits, the packet of
    the next round is received and rendered if the datagram arrives and the render pass
    runs, before 2^64 frames were sent and if Mono completes the update: the system can go
    on to a state in which this packet is the last one rendered, successfully, and in which
    the widgets show it - the rate the round shows, in the stored configuration. *)
Theorem frame_reaches_screen y r wk w p t g :
  sys_reachable y -> idle y -> s_ready (y_renderer y) = true ->
  round (y_worker y) (y_world y) = (r, wk, w) -> r_sent r = Some p ->
  sent_count (y_rounds y) < 2 ^ 64 - 1 ->
  exec (apply_packet_on_render (s_globals (y_renderer y)) p) t (true, g) ->
  exists y' i cfg frame, sys_steps y y' /\ y_rounds y' = y_rounds y ++ [r] /\
    last (s_log (y_renderer y')) = Some (i, p, true) /\
    wf_config cfg /\ p = make_wire_packet (overlay_frame (r_shown r) cfg) (sequence (y_worker y)) /\
    decode_wire_packet p = Some frame /\
    match y_display y' with Dark => True | Lit d => displayed d g frame (layout_of frame) end.
Proof.
  intros Hr (Hb & Hrecv & Hpass) Hready E Hp Hn He.
  pose proof (round_spec (y_worker y) (y_world y)) as HR. rewrite E in HR.
  pose proof (rs_sent _ _ _ HR) as Hsent. destruct (renderer_online wk); [|destruct Hsent; congruence].
  destruct Hsent as (cfg & Hc & _ & Hsent & _). rewrite Hp in Hsent. injection Hsent as Hmake.
  set (y1 := after_round y r wk w (y_buffer y ++ datagrams r)).
  assert (sys_step y y1) as H01 by (by apply sys_round).
  destruct (monitor_total (y_display y1) t) as (m & Hm).
  pose proof (delivered_renderer y1 p g m) as [Hg Hlast].
  assert (sys_steps y1 (delivered y1 p g m)) as Hs.
  { apply packet_delivered with t; try done.
    - unfold y1. cbn. rewrite Hb. unfold datagrams. by rewrite Hp.
    - eapply round_datagram; [exact HR|by eapply history_sequence, sys_history|done].
    - rewrite Hmake. by eapply decode_header_some.
    - exact (new_sequence y wk r p Hr HR Hp Hn). }
  set (y' := delivered y1 p g m) in *. set (i := length _) in Hlast.
  assert (sys_reachable y') as Hr' by (eapply steps_reachable; [|exact Hs]; by eapply sys_next).
  assert (is_Some (decode_wire_packet p)) as [frame Hdec] by (rewrite Hmake; by eapply decode_header_some).
  exists y', i, cfg, frame. split; [by eapply sys_more|]. split_and!; try done.
  pose proof (sys_screen y' Hr') as Hsc. destruct (y_display y') as [|d]; [done|].
  destruct Hsc as [_ Hsc]. destruct (Hsc i p Hlast) as (frame' & Hdec' & Hd).
  rewrite Hdec in Hdec'. injection Hdec' as <-. by rewrite Hg in Hd.
Qed.
End System.

(** ** A concrete run

    Nine rounds of the console of [Worker] before the renderer is started; the tenth starts
    it and sends the first frame, the eleventh the second. *)

Section Run.
Context {W : Type} `{ControllerLaws W, !PlatformLaws W}.

Lemma sys_rounds n y rs wk w :
  sys_reachable y -> rounds n (y_worker y) (y_world y) = (rs, wk, w) ->
  sys_reachable {| y_world := w; y_worker := wk; y_rounds := y_rounds y ++ rs;
                   y_buffer := y_buffer y ++ flat_map datagrams rs;
                   y_renderer := y_renderer y; y_display := y_display y |}.
Proof.
  revert y rs. induction n as [|n IH]; intros y rs Hr E; cbn [rounds] in E.
  - injection E as <- <- <-. cbn. rewrite !app_nil_r. by destruct y.
  - destruct (round (y_worker y) (y_world y)) as [[r wk1] w1] eqn:E1.
    destruct (rounds n wk1 w1) as [[rs' wk2] w2] eqn:E2. injection E as <- <- <-.
    eapply sys_next in Hr; [|by eapply sys_round]. apply (IH _ rs') in Hr; [|exact E2].
    cbn [after_round y_rounds y_buffer y_renderer y_display] in Hr. by rewrite <- !app_assoc in Hr.
Qed.
End Run.

Abbreviation SimSystem := (System (W := SimWorld)).

Definition after_rounds (y : SimSystem) (o : list Round * Worker * SimWorld) : SimSystem :=
  {| y_world := o.2; y_worker := o.1.2; y_rounds := y_rounds y ++ o.1.1;
     y_buffer := y_buffer y ++ flat_map datagrams o.1.1;
     y_renderer := y_renderer y; y_display := y_display y |}.

Definition run_waiting : SimSystem :=
  after_rounds (sys_start sim960 true false console_globals blank) (rounds 9 Worker_init sim960).

(** One round, its packet and the render pass. *)
Definition run_sent (y : SimSystem) : SimSystem := after_rounds y (rounds 1 (y_worker y) (y_world y)).
Definition run_packet (y : SimSystem) : WirePacket :=
  default WirePacket_init (r_sent (round (y_worker y) (y_world y)).1.1).
Definition run_render (y : SimSystem) := 
  run console_answer (apply_packet_on_render (s_globals (y_renderer y)) (run_packet y))
    {| k_next := 100 + Z.of_nat (length (s_log (y_renderer y))) * 1000;
       k_handles := match y_display y with Lit d => d_live d | Dark => ∅ end |}.
Definition run_delivered (y : SimSystem) : SimSystem :=
  delivered (run_sent y) (run_packet y) (run_render y).1.1.2
    (default Dark (monitor display_step (y_display y) (run_render y).2)).

Lemma after_rounds_reachable n (y : SimSystem) :
  sys_reachable y -> sys_reachable (after_rounds y (rounds n (y_worker y) (y_world y))).
Proof.
  intros Hr. unfold after_rounds.
  destruct (rounds n (y_worker y) (y_world y)) as [[rs wk] w] eqn:E. by eapply sys_rounds.
Qed.

Lemma run_delivered_reachable (y : SimSystem) :
  sys_reachable y ->
  y_buffer (run_sent y) = [packet_bytes (run_packet y)] ->
  s_recv (y_renderer y) = Receiving -> s_pass (y_renderer y) = Outside ->
  s_ready (y_renderer y) = true -> accepted (received (packet_bytes (run_packet y))) = Some (run_packet y) ->
  w_sequence (run_packet y) <> s_applied (y_renderer y) -> (run_render y).1.1.1 = true ->
  sys_reachable (run_delivered y).
Proof.
  intros Hr Hb Hrecv Hpass Hready Hacc Hne Hok.
  eapply steps_reachable; [by apply (after_rounds_reachable 1 y)|].
  destruct (monitor_total (y_display y) (run_render y).2) as (m & Hm). unfold run_delivered.
  apply packet_delivered with (run_render y).2; try done.
  - apply decode_header_some. by eapply accepted_good.
  - rewrite <- Hok, <- surjective_pairing. apply run_exec.
  - rewrite Hm. exact Hm.
Qed.

Definition run_first : SimSystem := run_delivered run_waiting.
Definition run_second : SimSystem := run_delivered run_first.

Lemma run_waiting_reachable : sys_reachable run_waiting.
Proof.
  apply (after_rounds_reachable 9 (sys_start sim960 true false console_globals blank)). by apply sys_init.
Qed.

Lemma run_first_reachable : sys_reachable run_first.
Proof. apply run_delivered_reachable; [exact run_waiting_reachable|vm_compute; done..]. Qed.
Lemma run_second_reachable : sys_reachable run_second.
Proof. apply run_delivered_reachable; [exact run_first_reachable|vm_compute; done..]. Qed.

Lemma run_first_lit : y_display run_first = Lit (seen (Some (y_display run_first))).
Proof. vm_compute. reflexivity. Qed.

Lemma screen_shows_measured_witness :
  last (s_log (y_renderer run_first)) = Some (0%nat, run_packet run_waiting, true) /\
  exists k r frame, y_rounds run_first !! k = Some r /\ r_sent r = Some (run_packet run_waiting) /\
    decode_wire_packet (run_packet run_waiting) = Some frame /\
    displayed (seen (Some (y_display run_first))) (s_globals (y_renderer run_first)) frame (layout_of frame) /\
    value_text frame = match r_shown r with Some v => dec v | None => str "Loading" end /\
    forall v, r_shown r = Some v -> 0 <= v <= kMaxDisplayFps /\
      exists g r', r_game r = Some g /\ r' ∈ take (S k) (y_rounds run_first) /\ r_game r' = Some g /\
        i_measured (r_input r') = Some v.
Proof.
  assert (last (s_log (y_renderer run_first)) = Some (0%nat, run_packet run_waiting, true)) as E
    by (vm_compute; reflexivity).
  split; [exact E|]. exact (screen_shows_measured run_first _ 0 _ run_first_reachable run_first_lit E).
Defined.

Lemma rendered_in_order_witness :
  length (s_log (y_renderer run_second)) = 2%nat /\
  exists k k' r r', (k <= k')%nat /\
    y_rounds run_second !! k = Some r /\ r_sent r = Some (run_packet run_waiting) /\
    y_rounds run_second !! k' = Some r' /\ r_sent r' = Some (run_packet run_first).
Proof.
  split; [vm_compute; reflexivity|].
  destruct (rendered_in_order run_second 0 1 0 (run_packet run_waiting) true 1 (run_packet run_first) true)
    as [_ Hk].
  - exact run_second_reachable.
  - lia.
  - vm_compute. reflexivity.
  - vm_compute. reflexivity.
  - exact Hk.
Defined.

Lemma frame_reaches_screen_witness :
  r_shown (round (y_worker run_waiting) (y_world run_waiting)).1.1 = Some 63 /\
  exists y' i cfg frame, sys_steps run_waiting y' /\
    last (s_log (y_renderer y')) = Some (i, run_packet run_waiting, true) /\ wf_config cfg /\
    decode_wire_packet (run_packet run_waiting) = Some frame /\
    match y_display y' with
    | Dark => True
    | Lit d => displayed d (run_render run_waiting).1.1.2 frame (layout_of frame)
    end.
Proof.
  split; [vm_compute; reflexivity|].
  destruct (frame_reaches_screen run_waiting
    (round (y_worker run_waiting) (y_world run_waiting)).1.1
    (round (y_worker run_waiting) (y_world run_waiting)).1.2
    (round (y_worker run_waiting) (y_world run_waiting)).2
    (run_packet run_waiting) (run_render run_waiting).2 (run_render run_waiting).1.1.2)
    as (y' & i & cfg & frame & Hs & _ & Hl & Hc & _ & Hd & Hshow).
  - exact run_waiting_reachable.
  - repeat split; vm_compute; reflexivity.
  - vm_compute. reflexivity.
  - by rewrite <- !surjective_pairing.
  - vm_compute. reflexivity.
  - vm_compute. reflexivity.
  - replace true with (run_render run_waiting).1.1.1 by (vm_compute; reflexivity).
    rewrite <- surjective_pairing. apply run_exec.
  - exists y', i, cfg, frame. split; [exact Hs|]. split; [exact Hl|]. split; [exact Hc|]. split; [exact Hd|exact Hshow].
Defined.
