(* ===== verification/SamplerLog.v ===== *)
(** What the controller's loop appends to its log, and when it tries VideoOut discovery
    ([run_tracked_worker] of [src/ps5/commonfps_ps5_main.cpp]): the first rate of a source
    is logged once per game, and while the DCE counter stands in, discovery is tried at
    most once a minute. *)
From S2P Require Import Prelude Effects Types Platform FpsSampler DceCounter DceAdapter.
From S2P Require Import Config DisplayFilter Worker.

(** ** The VideoOut sampler belongs to the game *)

Definition sampler_of_game (wk : Worker) : Prop :=
  attached (w_sampler wk) = true -> pid_ (w_sampler wk) = g_pid (w_game wk).

Section Sampler.
Context {W : Type} `{Platform W}.

Lemma sample_pid s (w w1 : W) v s1 :
  FpsSampler.sample s w = (v, s1, w1) ->
  (attached s1 = true \/ is_Some v -> attached s = true /\ pid_ s1 = pid_ s).
Proof.
  assert (attached (FpsSampler.reset s) = true \/ is_Some (None : option Z) ->
    attached s = true /\ pid_ (FpsSampler.reset s) = pid_ s) as Hreset by (intros [?|[? ?]]; done).
  unfold FpsSampler.sample. destruct (attached s) eqn:Ea; cbn [negb].
  2:{ clear Hreset. intros [= <- <- <-] [?|[? ?]]; congruence. }
  destruct (process_alive (pid_ s) w) as [[|] wa]; cbn [negb]; [|intros [= <- <- <-] Hx; by apply Hreset].
  destruct (read_uint _ _ _ _) as [[c|] wb]; [|intros [= <- <- <-] Hx; by apply Hreset].
  destruct (monotonic_us wb) as [now wc]. destruct (measure s c now) as [out s'] eqn:Em.
  intros [= <- <- <-] _. split; [done|]. unfold measure in Em.
  repeat match type of Em with context [if ?b then _ else _] => destruct b end;
    by injection Em as <- <-.
Qed.

Lemma attach_pid pid s (w w1 : W) ok s1 :
  attached s = false -> attach true pid s w = (ok, s1, w1) -> attached s1 = true -> pid_ s1 = pid.
Proof.
  intros Ha. unfold attach. destruct (monotonic_us w) as [now wa].
  destruct (_ && _ && _); [intros [= <- <- <-]; congruence|].
  destruct (find_module _ _ _) as [[info|] wb]; [|by intros [= <- <- <-]].
  destruct (mod_base info =? 0); [by intros [= <- <- <-]|].
  destruct (resolve_counter_address _ _ _) as [[c|] wc]; [by intros [= <- <- <-]|].
  destruct (monotonic_us wc) as [later wd]. by intros [= <- <- <-].
Qed.
End Sampler.

(** ** One round *)

Definition from_videoout (b : RecordBackend) : bool :=
  match b with VideoOutProcess => true | DceBackend _ => false end.
Definition reported (video : bool) (wk : Worker) : Z :=
  if video then reported_pid wk else dce_reported_pid wk.

(** The game is the game of the round before. *)
Definition same_game (wk : Worker) (game : option Z) : bool :=
  match game with Some p => p =? g_pid (w_game wk) | None => false end.
(** What [note_game] leaves. *)
Definition kept (video : bool) (wk : Worker) (game : option Z) : Z :=
  if same_game wk game then reported video wk else -1.
Definition kept_policy (wk : Worker) (game : option Z) : Policy :=
  if same_game wk game then w_policy wk else Policy_init.

(** The standby for a game begins or ends. *)
Definition enters (e : SamplerRecord) : bool :=
  match e with PolicyRecord _ DceStandby _ _ => true | _ => false end.
Definition leaves (e : SamplerRecord) : bool :=
  match e with PolicyRecord _ (VideoOutResumed | DceMissWake) _ _ => true | _ => false end.

Record LogSpec (wk : Worker) (r : Round) (wk' : Worker) : Prop := {
  ls_game : w_game wk' = gate_step kGameGate (w_game wk) (r_game r);
  ls_sampler : sampler_of_game wk -> sampler_of_game wk';
  ls_first g c v b : sampler_of_game wk -> FirstFpsRecord g c v b ∈ r_records r ->
    r_game r = Some g /\ i_measured (r_input r) = Some v /\
    (from_videoout b = true <-> i_source (r_input r) = VideoOut) /\
    kept (from_videoout b) wk (r_game r) <> g /\ reported (from_videoout b) wk' = g;
  ls_kept (video : bool) g : sampler_of_game wk -> r_game r = Some g -> kept video wk (r_game r) = g ->
    reported video wk' = g;
  ls_reported (video : bool) g : sampler_of_game wk -> 0 <= g -> r_game r = Some g ->
    reported video wk' = g ->
    kept video wk (r_game r) = g \/
    exists c v b, FirstFpsRecord g c v b ∈ r_records r /\ from_videoout b = video;
  ls_measured v : i_measured (r_input r) = Some v -> sampler_of_game wk -> exists g, r_game r = Some g /\
    reported (match i_source (r_input r) with VideoOut => true | _ => false end) wk' = g;
  ls_enter : Exists (fun e => enters e = true) (r_records r) -> exists g,
    r_game r = Some g /\ dce_standby_active (w_policy wk') = true /\
    dce_standby_pid (w_policy wk') = g /\
    next_videoout_probe_us (w_policy wk') = u64 (r_now r + kDceVideoOutStandbyUs);
  ls_stay g : r_game r = Some g -> dce_standby_active (kept_policy wk (r_game r)) = true ->
    dce_standby_pid (kept_policy wk (r_game r)) = g -> Forall (fun e => leaves e = false) (r_records r) ->
    dce_standby_active (w_policy wk') = true /\ dce_standby_pid (w_policy wk') = g /\
    next_videoout_probe_us (w_policy wk') =
      (if decide (r_probe r = Some false) then u64 (r_now r + kDceVideoOutStandbyUs)
       else next_videoout_probe_us (kept_policy wk (r_game r)));
  ls_probe : dce_standby_active (kept_policy wk (r_game r)) = true -> is_Some (r_probe r) ->
    next_videoout_probe_us (kept_policy wk (r_game r)) <= r_now r
}.

(** The two samplers, from the state [note_game] leaves to the choice of the source. *)
Record Sampled (wk : Worker) (game : option Z) (now : Z) (process_fps : option Z)
    (probe : option bool) (s : Sampling) : Prop := {
  sd_pid : sampler_of_game wk -> attached (s_sampler s) = true \/ is_Some process_fps ->
    game = Some (pid_ (s_sampler s));
  sd_reported (video : bool) : (if video then s_reported s else s_dce_reported s) = kept video wk game;
  sd_active : dce_standby_active (s_policy s) = dce_standby_active (kept_policy wk game);
  sd_standby : dce_standby_pid (s_policy s) = dce_standby_pid (kept_policy wk game);
  sd_next : dce_standby_active (s_policy s) = true ->
    next_videoout_probe_us (s_policy s) =
      if decide (probe = Some false) then u64 (now + kDceVideoOutStandbyUs)
      else next_videoout_probe_us (kept_policy wk game);
  sd_probe : dce_standby_active (s_policy s) = true -> is_Some probe ->
    next_videoout_probe_us (kept_policy wk game) <= now
}.

Lemma note_game_sampled wk game gate s now :
  note_game game wk = (gate, s) -> Sampled wk game now None None s.
Proof.
  unfold note_game. intros [= <- <-]. fold (same_game wk game).
  destruct (same_game wk game) eqn:E; constructor; unfold kept, kept_policy; rewrite ?E; cbn; try done; try (by intros [|]);
    try (by intros _ [? ?]); try (by intros _; case_decide); [|by intros _ [Ha|[? ?]]].
  intros Hs [Ha|[? ?]]; [|done]. rewrite (Hs Ha). unfold same_game in E.
  destruct game as [p|]; [|done]. apply Z.eqb_eq in E. by rewrite E.
Qed.

Lemma sample_videoout_sampled {W} `{Controller W} wk game now s (w w1 : W) v probe s1 :
  Sampled wk game now None None s -> sample_videoout now game s w = (v, probe, s1, w1) ->
  Sampled wk game now v probe s1.
Proof.
  intros [Hp Hr Ha Hs Hn Hb]. unfold sample_videoout. destruct (attached (s_sampler s)) eqn:Ea.
  - destruct (FpsSampler.sample (s_sampler s) w) as [[v' x] w'] eqn:E. intros [= <- <- <- <-].
    constructor; cbn; try done. intros Hg Hx. destruct (sample_pid _ _ _ _ _ E Hx) as [_ ->]. apply Hp; auto.
  - assert (Sampled wk game now None None s) as Hs0 by (constructor; try done; by rewrite Ea).
    destruct game as [pid|]; [|by intros [= <- <- <- <-]].
    destruct (_ || _) eqn:Edue; [|by intros [= <- <- <- <-]].
    destruct (attach true pid (s_sampler s) w) as [[ok x] w'] eqn:E. intros [= <- <- <- <-].
    constructor; cbn; try done.
    + intros _ [Hx|[? ?]]; [|done]. by rewrite (attach_pid _ _ _ _ _ _ Ea E Hx).
    + by destruct (negb ok && _).
    + by destruct (negb ok && _).
    + intros Hact. assert (dce_standby_active (s_policy s) = true) as Hact' by (by destruct (negb ok && _)).
      rewrite Hact'. destruct ok; cbn; by rewrite ?Hn.
    + intros Hact _. assert (dce_standby_active (s_policy s) = true) as Hact' by (by destruct (negb ok && _)).
      rewrite Hact' in Edue. cbn in Edue. apply Z.leb_le in Edue. by rewrite Hn in Edue.
Qed.

Lemma sample_dce_sampled {W} `{Controller W} wk game now ready s (w w1 : W) pv probe v s1 :
  Sampled wk game now pv probe s -> sample_dce ready s w = (v, s1, w1) -> Sampled wk game now pv probe s1.
Proof.
  intros [] . unfold sample_dce. destruct ready.
  - destruct (run_dce _ w) as [[v' d] w']. intros [= <- <- <-]. by constructor.
  - intros [= <- <- <-]. by constructor.
Qed.

(** The records and the choice. *)
Section Choice.
Context (wk : Worker) (game : option Z) (now : Z) (process_fps : option Z) (probe : option bool).
Context (dce_fps : option Z) (s : Sampling) (source : FpsDisplaySource) (rate : option Z).
Context (policy : Policy) (rep dce_rep : Z).
Hypothesis Hs : Sampled wk game now process_fps probe s.
Hypothesis Hc : choose_source now game process_fps dce_fps s = (source, rate, policy, rep, dce_rep).

Lemma choice_first g c v b :
  sampler_of_game wk -> FirstFpsRecord g c v b ∈ source_records game process_fps dce_fps s ->
  game = Some g /\ rate = Some v /\ (from_videoout b = true <-> source = VideoOut) /\
  kept (from_videoout b) wk game <> g /\ (if from_videoout b then rep else dce_rep) = g.
Proof.
  intros Hg. destruct Hs as [Hp Hr _ _ _ _]. revert Hc. unfold choose_source, source_records.
  pose proof (Hr true) as Hr1. pose proof (Hr false) as Hr2. cbn in Hr1, Hr2.
  destruct process_fps as [pv|].
  - intros [= <- <- <- <- <-] [Hi|Hi]%elem_of_app.
    + destruct (dce_standby_active _); [|by apply elem_of_nil in Hi]. by apply list_elem_of_singleton in Hi.
    + destruct (_ =? _) eqn:E; [by apply elem_of_nil in Hi|]. apply list_elem_of_singleton in Hi as [= -> -> -> ->].
      apply Z.eqb_neq in E. cbn. rewrite <- Hr1. rewrite Hp by eauto. repeat split; congruence.
  - destruct dce_fps as [dv|], game as [p|].
    + intros [= <- <- <- <- <-] [Hi|Hi]%elem_of_app.
      * destruct (_ && _); [|by apply elem_of_nil in Hi]. by apply list_elem_of_singleton in Hi.
      * destruct (_ =? _) eqn:E; [by apply elem_of_nil in Hi|]. apply list_elem_of_singleton in Hi as [= -> -> -> ->].
        apply Z.eqb_neq in E. cbn. rewrite <- Hr2. repeat split; try congruence.
        by destruct (backend_name_ (s_dce s)).
    + intros _ Hi. by apply elem_of_nil in Hi.
    + intros _ Hi. destruct (_ && _); [|by apply elem_of_nil in Hi]. by apply list_elem_of_singleton in Hi.
    + intros _ Hi. by apply elem_of_nil in Hi.
Qed.

Lemma choice_kept (video : bool) g :
  sampler_of_game wk -> game = Some g -> kept video wk game = g -> (if video then rep else dce_rep) = g.
Proof.
  intros Hg Hgame Hk. destruct Hs as [Hp Hr _ _ _ _]. rewrite <- (Hr video) in Hk. revert Hc. unfold choose_source.
  destruct process_fps as [pv|].
  - intros [= <- <- <- <- <-]. rewrite Hp in Hgame by eauto. injection Hgame as Hgame. by destruct video.
  - destruct dce_fps as [dv|]; rewrite Hgame; intros [= <- <- <- <- <-]; by destruct video.
Qed.

Lemma choice_reported (video : bool) g :
  sampler_of_game wk -> 0 <= g -> game = Some g -> (if video then rep else dce_rep) = g ->
  kept video wk game = g \/
  exists c v b, FirstFpsRecord g c v b ∈ source_records game process_fps dce_fps s /\ from_videoout b = video.
Proof.
  intros Hg Hpos Hgame Hr'. destruct Hs as [Hp Hr _ _ _ _]. rewrite <- (Hr video). revert Hc.
  unfold choose_source, source_records. rewrite Hgame in *. destruct process_fps as [pv|].
  - intros [= <- <- <- <- <-]. destruct video; [|by left]. rewrite Hr'.
    destruct (g =? s_reported s) eqn:E; [left; by apply Z.eqb_eq in E|]. right.
    eexists _, _, VideoOutProcess. split; [|done]. apply elem_of_app. right. by apply list_elem_of_singleton.
  - destruct dce_fps as [dv|]; intros [= <- <- <- <- <-]; [|by left; destruct video].
    destruct video; [by left|]. destruct (g =? s_dce_reported s) eqn:E; [left; by apply Z.eqb_eq in E|]. right.
    eexists _, _, (DceBackend _). split; [|done]. apply elem_of_app. right. by apply list_elem_of_singleton.
Qed.

Lemma choice_measured v :
  rate = Some v -> sampler_of_game wk -> exists g, game = Some g /\
    (if match source with VideoOut => true | _ => false end then rep else dce_rep) = g.
Proof.
  intros Hv Hg. destruct Hs as [Hp _ _ _ _ _]. revert Hc. unfold choose_source. destruct process_fps as [pv|].
  - intros [= <- <- <- <- <-]. exists (pid_ (s_sampler s)). split; [apply Hp; eauto|done].
  - destruct dce_fps as [dv|], game as [p|]; intros [= <- <- <- <- <-]; try done.
    exists p. split; [done|]. by destruct (backend_name_ (s_dce s)).
Qed.

Lemma choice_enter :
  Exists (fun e => enters e = true) (source_records game process_fps dce_fps s) ->
  exists g, game = Some g /\ dce_standby_active policy = true /\ dce_standby_pid policy = g /\
    next_videoout_probe_us policy = u64 (now + kDceVideoOutStandbyUs).
Proof.
  revert Hc. unfold choose_source, source_records. destruct process_fps as [pv|].
  - intros _ [He|He]%Exists_app.
    + destruct (dce_standby_active _); [|by apply Exists_nil in He].
      by apply Exists_cons in He as [?|?%Exists_nil].
    + destruct (_ =? _); [by apply Exists_nil in He|]. by apply Exists_cons in He as [?|?%Exists_nil].
  - destruct dce_fps as [dv|], game as [p|].
    + intros [= <- <- <- <- <-] [He|He]%Exists_app.
      * exists p. destruct (attached _); cbn [negb andb] in He |- *; [by apply Exists_nil in He|].
        destruct (_ || _); [done|by apply Exists_nil in He].
      * destruct (_ =? _); [by apply Exists_nil in He|]. by apply Exists_cons in He as [?|?%Exists_nil].
    + intros _ He. by apply Exists_nil in He.
    + intros _ He. destruct (_ && _); [|by apply Exists_nil in He]. by apply Exists_cons in He as [?|?%Exists_nil].
    + intros _ He. by apply Exists_nil in He.
Qed.

Lemma choice_stay g :
  game = Some g -> dce_standby_active (kept_policy wk game) = true ->
  dce_standby_pid (kept_policy wk game) = g ->
  Forall (fun e => leaves e = false) (source_records game process_fps dce_fps s) ->
  dce_standby_active policy = true /\ dce_standby_pid policy = g /\
  next_videoout_probe_us policy =
    (if decide (probe = Some false) then u64 (now + kDceVideoOutStandbyUs)
     else next_videoout_probe_us (kept_policy wk game)).
Proof.
  intros Hgame Ha Hq. destruct Hs as [_ _ Hact Hpid Hn _]. rewrite Ha in Hact. specialize (Hn Hact).
  rewrite Hq in Hpid. revert Hc. unfold choose_source, source_records. rewrite Hgame in *. rewrite Hact.
  destruct process_fps as [pv|].
  - intros _ Hl. by apply Forall_app in Hl as [Hl%Forall_inv _].
  - destruct dce_fps as [dv|].
    + intros [= <- <- <- <- <-] _. rewrite Hpid, Z.eqb_refl. cbn [negb orb].
      destruct (negb (attached _)); cbn; rewrite ?Hn; done.
    + cbn [andb]. intros [= <- <- <- <- <-].
      destruct (_ <=? _); [intros Hl%Forall_inv; done|]. cbn. by rewrite Hpid, Hn.
Qed.
End Choice.

Lemma log_spec {W} `{Controller W} wk (w : W) :
  let '(r, wk', _) := round wk w in LogSpec wk r wk'.
Proof.
  unfold round.
  destruct (observe_shellui w) as [sp w1].
  destruct (note_shellui sp wk) as [[shellui online] filter].
  destruct (find_game_process w1) as [game w2].
  destruct (note_game game wk) as [gate s] eqn:Egame.
  destruct (monotonic_us w2) as [now w3].
  destruct (sample_videoout now game s w3) as [[[pfps probe] s1] w4] eqn:Evideo.
  destruct (sample_dce _ s1 w4) as [[dfps s2] w5] eqn:Edce.
  destruct (choose_source now game pfps dfps s2) as [[[[source rate] policy] rep] dce_rep] eqn:Echoose.
  destruct (if negb online && _ && _ then _ else _) as [[ensured online'] w6].
  destruct (monotonic_us w6) as [fnow w7].
  destruct (DisplayFilter.sample filter rate fnow (g_pid gate) source) as [shown filter'].
  destruct (send_frame online' shown (w_socket wk) (sequence wk) w7) as [[[sent sock] seq] w8].
  assert (Sampled wk game now pfps probe s2) as Hs.
  { eapply sample_dce_sampled; [|exact Edce]. eapply sample_videoout_sampled; [|exact Evideo].
    by eapply note_game_sampled. }
  assert (gate = gate_step kGameGate (w_game wk) game) as Hgate by (unfold note_game in Egame; congruence).
  constructor; cbn [w_game w_policy r_game r_now r_probe r_records r_input i_measured i_source reported
    reported_pid dce_reported_pid].
  - exact Hgate.
  - intros Hg Ha. cbn in *. pose proof (sd_pid _ _ _ _ _ _ Hs Hg (or_introl Ha)) as Hp.
    rewrite Hgate, Hp. cbn. destruct (_ =? _) eqn:E; [|done]. by apply Z.eqb_eq in E.
  - intros g c v b ? ?. by eapply choice_first.
  - intros video g ? ? ?. by eapply choice_kept.
  - intros video g ? ? ? ?. by eapply choice_reported.
  - intros v ? ?. by eapply choice_measured.
  - intros ?. by eapply choice_enter.
  - intros g ? ? ? ?. by eapply choice_stay.
  - intros Ha. apply (sd_probe _ _ _ _ _ _ Hs). by rewrite (sd_active _ _ _ _ _ _ Hs).
Qed.

(** ** All rounds *)

Inductive logged : list Round -> Worker -> Prop :=
| logged_init : logged [] Worker_init
| logged_round rs wk r wk' : logged rs wk -> LogSpec wk r wk' -> logged (rs ++ [r]) wk'.

Lemma rounds_logged {W} `{Controller W} n rs0 wk (w : W) :
  logged rs0 wk -> let '(rs, wk', _) := rounds n wk w in logged (rs0 ++ rs) wk'.
Proof.
  revert rs0 wk w. induction n as [|n IH]; intros rs0 wk w Hl; cbn [rounds].
  { by rewrite app_nil_r. }
  pose proof (log_spec wk w) as Hr. destruct (round wk w) as [[r wk1] w1].
  specialize (IH (rs0 ++ [r]) wk1 w1 (logged_round _ _ _ _ Hl Hr)).
  destruct (rounds n wk1 w1) as [[rs wk2] w2]. by rewrite <- app_assoc in IH.
Qed.

Lemma logged_at rs wk k r :
  logged rs wk -> rs !! k = Some r ->
  exists wk1 wk2, logged (take k rs) wk1 /\ LogSpec wk1 r wk2 /\ logged (take (S k) rs) wk2.
Proof.
  induction 1 as [|rs wk r0 wk' Hl IH Hr]; [by rewrite lookup_nil|].
  intros [Hk|[Hlen Hk]]%lookup_app_Some.
  - apply lookup_lt_Some in Hk as Hlt. rewrite !take_app_le by lia. by apply IH.
  - apply lookup_lt_Some in Hk as Hlt. cbn in Hlt. replace k with (length rs) in * by lia.
    rewrite Nat.sub_diag in Hk. injection Hk as <-. exists wk, wk'.
    rewrite take_app_length. replace (S (length rs)) with (length (rs ++ [r0])) by (rewrite length_app; cbn; lia).
    rewrite firstn_all. split_and!; [done|done|by econstructor].
Qed.

Lemma logged_sampler rs wk : logged rs wk -> sampler_of_game wk.
Proof. induction 1 as [|rs wk r wk' _ IH Hr]; [done|by apply (ls_sampler _ _ _ Hr)]. Qed.

Lemma logged_last (rs : list Round) r wk' : logged (rs ++ [r]) wk' -> exists wk, logged rs wk /\ LogSpec wk r wk'.
Proof.
  intros Hl. destruct (logged_at _ _ (length rs) r Hl) as (wk1 & wk2 & H1 & H2 & H3).
  { by rewrite lookup_app_r, Nat.sub_diag by lia. }
  inversion Hl as [Hn|rs0 wk r0 ? Hl0 Hr Heq]; [by destruct rs|].
  apply app_inj_tail in Heq as [-> ->]. by exists wk.
Qed.

Definition game_at (rs : list Round) (g : Z) (k : nat) : Prop := r_game <$> rs !! k = Some (Some g).

(** A stretch of rounds with the same game. *)
Definition stretch (rs : list Round) (g : Z) (i j : nat) : Prop :=
  forall k, (i <= k < j)%nat -> game_at rs g k.

(** The line on the first rate of a kind of source for the game, in round [i]. *)
Definition first_logged (rs : list Round) (video : bool) (g : Z) (i : nat) : Prop :=
  exists r c v b, rs !! i = Some r /\ FirstFpsRecord g c v b ∈ r_records r /\ from_videoout b = video.

Lemma game_pid wk r wk' g : LogSpec wk r wk' -> r_game r = Some g -> g_pid (w_game wk') = g.
Proof.
  intros Hs Hg. rewrite (ls_game _ _ _ Hs), Hg. cbn. destruct (_ =? _) eqn:E; [|done]. by apply Z.eqb_eq in E.
Qed.

Lemma kept_same video wk g : g_pid (w_game wk) = g -> kept video wk (Some g) = reported video wk.
Proof. intros Hg. unfold kept, same_game. by rewrite Hg, Z.eqb_refl. Qed.

Lemma game_at_last rs r g : game_at (rs ++ [r]) g (length rs) -> r_game r = Some g.
Proof. unfold game_at. rewrite lookup_app_r, Nat.sub_diag by lia. cbn. congruence. Qed.

Lemma game_at_app rs r g k : (k < length rs)%nat -> game_at (rs ++ [r]) g k <-> game_at rs g k.
Proof. intros Hk. unfold game_at. by rewrite lookup_app_l. Qed.

Lemma stretch_front rs r g i j : (j <= length rs)%nat -> stretch (rs ++ [r]) g i j -> stretch rs g i j.
Proof. intros Hj Hs k Hk. apply (game_at_app _ r); [lia|]. by apply Hs. Qed.

Lemma first_logged_app rs r video g i :
  first_logged (rs ++ [r]) video g i ->
  (i < length rs)%nat /\ first_logged rs video g i \/
  i = length rs /\ exists c v b, FirstFpsRecord g c v b ∈ r_records r /\ from_videoout b = video.
Proof.
  intros (q & c & v & b & [Hq|[Hlen Hq]]%lookup_app_Some & H).
  - left. split; [by eapply lookup_lt_Some|]. by exists q, c, v, b.
  - right. apply lookup_lt_Some in Hq as Hlt. cbn in Hlt. replace i with (length rs) in * by lia.
    rewrite Nat.sub_diag in Hq. injection Hq as <-. split; [done|]. by exists c, v, b.
Qed.

Lemma reported_since rs wk video g i :
  logged rs wk -> first_logged rs video g i -> stretch rs g (S i) (length rs) ->
  reported video wk = g /\ g_pid (w_game wk) = g.
Proof.
  intros Hl. revert i. induction Hl as [|rs wk r wk' Hl IH Hr]; intros i.
  { intros (q & ? & ? & ? & Hq & _). by rewrite lookup_nil in Hq. }
  pose proof (logged_sampler _ _ Hl) as Hsamp.
  intros [[Hi Hf]|[-> (c & v & b & Hin & <-)]]%first_logged_app Hst.
  - rewrite length_app in Hst. cbn in Hst.
    assert (r_game r = Some g) as Hg by (apply (game_at_last rs), Hst; lia).
    destruct (IH i Hf) as [H1 H2].
    { apply (stretch_front _ r); [done|]. intros k Hk. apply Hst. lia. }
    split; [|by eapply game_pid]. apply (ls_kept _ _ _ Hr); [done|done|]. rewrite Hg. by rewrite kept_same.
  - destruct (ls_first _ _ _ Hr _ _ _ _ Hsamp Hin) as (Hg & _ & _ & _ & H). split; [done|by eapply game_pid].
Qed.

Lemma reported_logged rs wk video g :
  logged rs wk -> 0 <= g -> reported video wk = g -> g_pid (w_game wk) = g ->
  exists i, first_logged rs video g i /\ stretch rs g i (length rs).
Proof.
  intros Hl Hpos. induction Hl as [|rs wk r wk' Hl IH Hr]; intros Hrep Hpid.
  { destruct video; cbn in Hrep; lia. }
  pose proof (logged_sampler _ _ Hl) as Hsamp.
  assert (r_game r = Some g) as Hg.
  { rewrite (ls_game _ _ _ Hr) in Hpid. destruct (r_game r) as [p|]; cbn in Hpid; [|lia].
    destruct (p =? _) eqn:E; cbn in Hpid; [apply Z.eqb_eq in E|]; congruence. }
  rewrite length_app. cbn [length]. assert (game_at (rs ++ [r]) g (length rs)) as Hlast.
  { unfold game_at. rewrite lookup_app_r, Nat.sub_diag by lia. cbn. by rewrite Hg. }
  destruct (ls_reported _ _ _ Hr video g Hsamp Hpos Hg Hrep) as [Hk|(c & v & b & Hin & Hb)].
  - rewrite Hg in Hk. unfold kept, same_game in Hk. destruct (g =? g_pid (w_game wk)) eqn:E; [|lia].
    apply Z.eqb_eq in E. destruct (IH Hk (eq_sym E)) as (i & (q & c & v & b & Hq & H) & Hst).
    exists i. split; [exists q, c, v, b; split; [by apply lookup_app_l_Some|done]|].
    intros k Hkk. destruct (decide (k = length rs)) as [->|]; [done|].
    apply game_at_app; [lia|]. apply Hst. lia.
  - exists (length rs). split.
    + exists r, c, v, b. split; [|done]. by rewrite lookup_app_r, Nat.sub_diag by lia.
    + intros k Hk. by replace k with (length rs) by lia.
Qed.

(** ** The standby *)

(** In round [i] the DCE counter takes over for game [g]. *)
Definition entered (rs : list Round) (g : Z) (i : nat) : Prop :=
  exists r, rs !! i = Some r /\ r_game r = Some g /\ Exists (fun e => enters e = true) (r_records r).
(** It has not given back before round [j]. *)
Definition held_until (rs : list Round) (i j : nat) : Prop :=
  forall k r, (i < k < j)%nat -> rs !! k = Some r -> Forall (fun e => leaves e = false) (r_records r).
(** VideoOut was given up in this round of the standby that began in round [i]. *)
Definition given_up (rs : list Round) (i m : nat) (now : Z) : Prop :=
  exists r, rs !! m = Some r /\ r_now r = now /\ (m = i \/ r_probe r = Some false).

Definition clock_ok (r : Round) : Prop := 0 <= r_now r < 2 ^ 64 - kDceVideoOutStandbyUs.

Lemma entered_app rs r g i :
  entered (rs ++ [r]) g i ->
  (i < length rs)%nat /\ entered rs g i \/
  i = length rs /\ r_game r = Some g /\ Exists (fun e => enters e = true) (r_records r).
Proof.
  intros (q & [Hq|[Hlen Hq]]%lookup_app_Some & H).
  - left. split; [by eapply lookup_lt_Some|]. by exists q.
  - right. apply lookup_lt_Some in Hq as Hlt. cbn in Hlt. replace i with (length rs) in * by lia.
    rewrite Nat.sub_diag in Hq. by injection Hq as <-.
Qed.

Lemma given_up_app rs r i m now :
  given_up (rs ++ [r]) i m now ->
  given_up rs i m now \/ m = length rs /\ r_now r = now /\ (m = i \/ r_probe r = Some false).
Proof.
  intros (q & [Hq|[Hlen Hq]]%lookup_app_Some & H); [left; by exists q|right].
  apply lookup_lt_Some in Hq as Hlt. cbn in Hlt. replace m with (length rs) in * by lia.
  rewrite Nat.sub_diag in Hq. by injection Hq as <-.
Qed.

Lemma later_u64 r : clock_ok r -> u64 (r_now r + kDceVideoOutStandbyUs) = r_now r + kDceVideoOutStandbyUs.
Proof. intros [H1 H2]. apply Z.mod_small. unfold kDceVideoOutStandbyUs in *. lia. Qed.

Lemma standby_since rs wk g i :
  logged rs wk -> Forall clock_ok rs -> entered rs g i -> stretch rs g i (length rs) ->
  held_until rs i (length rs) ->
  dce_standby_active (w_policy wk) = true /\ dce_standby_pid (w_policy wk) = g /\ g_pid (w_game wk) = g /\
  forall m now, (i <= m)%nat -> given_up rs i m now ->
    now + kDceVideoOutStandbyUs <= next_videoout_probe_us (w_policy wk).
Proof.
  intros Hl. revert i. induction Hl as [|rs wk r wk' Hl IH Hr]; intros i.
  { intros _ (q & Hq & _). by rewrite lookup_nil in Hq. }
  rewrite length_app. cbn [length]. intros [Hc Hcr%Forall_inv]%Forall_app He Hst Hh.
  apply entered_app in He as [[Hi He]|(-> & Hg & Hent)].
  - destruct (IH i Hc He) as (Ha & Hp & Hpid & Hn).
    { apply (stretch_front _ r); [done|]. intros k Hk. apply Hst. lia. }
    { intros k q Hk Hq. apply (Hh k); [lia|]. by apply lookup_app_l_Some. }
    assert (r_game r = Some g) as Hg by (apply (game_at_last rs), Hst; lia).
    assert (kept_policy wk (r_game r) = w_policy wk) as Hkept.
    { unfold kept_policy, same_game. by rewrite Hg, Hpid, Z.eqb_refl. }
    destruct (ls_stay _ _ _ Hr g Hg) as (Ha' & Hp' & Hn'); rewrite ?Hkept; [done..| |].
    { apply (Hh (length rs)); [lia|]. by rewrite lookup_app_r, Nat.sub_diag by lia. }
    pose proof (ls_probe _ _ _ Hr) as Hprobe. rewrite Hkept in Hn', Hprobe. specialize (Hprobe Ha).
    split_and!; [done|done|by eapply game_pid|]. rewrite Hn'. intros m now Hm Hgu.
    apply given_up_app in Hgu as [Hgu|(Hlast & <- & [Hf|Hf])].
    + specialize (Hn m now Hm Hgu). case_decide as Hd; [|done]. rewrite later_u64 by done.
      assert (is_Some (r_probe r)) as Hs by (by rewrite Hd). apply Hprobe in Hs. unfold kDceVideoOutStandbyUs in *. lia.
    + lia.
    + rewrite decide_True, later_u64 by done. done.
  - destruct (ls_enter _ _ _ Hr Hent) as (g' & Hg' & Ha & Hp & Hn).
    split_and!; [done|congruence|by eapply game_pid|]. rewrite Hn, later_u64 by done. intros m now Hm Hgu.
    apply given_up_app in Hgu as [(q & Hq & _)|(-> & <- & _)]; [|done].
    apply lookup_lt_Some in Hq. lia.
Qed.

(** C32: while the DCE counter stands in for a game, the expensive VideoOut discovery is
    tried at most once a minute.  From the round whose log line announces the standby, as
    long as the game stays and no line ends the standby, every attempt comes at least 60
    seconds after the announcement and after each failed attempt before it. *)
Theorem standby_probes_spaced {W} `{Controller W} n (w : W) rs wk w' g i j r m now :
  rounds n Worker_init w = (rs, wk, w') -> Forall clock_ok rs ->
  entered rs g i -> stretch rs g i (S j) -> held_until rs i j ->
  rs !! j = Some r -> is_Some (r_probe r) -> (i <= m < j)%nat -> given_up rs i m now ->
  now + 60000000 <= r_now r.
Proof.
  intros E Hc He Hst Hh Hr Hprobe Hm Hgu.
  pose proof (rounds_logged n [] Worker_init w logged_init) as Hl. rewrite E in Hl. cbn in Hl. clear E.
  destruct (logged_at _ _ _ _ Hl Hr) as (wk1 & wk2 & H1 & H2 & _).
  apply lookup_lt_Some in Hr as Hlt. assert (length (take j rs) = j) as Hlen by (rewrite length_take; lia).
  destruct (standby_since _ _ g i H1) as (Ha & Hp & Hpid & Hn); rewrite ?Hlen.
  - by apply Forall_take.
  - destruct He as (q & Hq & Hrest). exists q. split; [by rewrite lookup_take_lt by lia|done].
  - intros k Hk. unfold game_at. rewrite lookup_take_lt by lia. apply Hst. lia.
  - intros k q Hk Hq. rewrite lookup_take_lt in Hq by lia. by apply (Hh k).
  - assert (r_game r = Some g) as Hg.
    { assert (game_at rs g j) as Hg by (apply Hst; lia). unfold game_at in Hg. rewrite Hr in Hg. cbn in Hg. congruence. }
    pose proof (ls_probe _ _ _ H2) as Hb. unfold kept_policy, same_game in Hb.
    rewrite Hg, Hpid, Z.eqb_refl in Hb. specialize (Hb Ha Hprobe).
    assert (given_up (take j rs) i m now) as Hgu'.
    { destruct Hgu as (q & Hq & Hrest). exists q. split; [by rewrite lookup_take_lt by lia|done]. }
    specialize (Hn m now ltac:(lia) Hgu'). unfold kDceVideoOutStandbyUs in Hn. lia.
Qed.

(** The log says exactly once per game where its rates come from.  In every run, on
    every environment: a "Sampler online" line names the observed game, the rate measured
    in that round and the kind of source it came from; the same kind of source is not
    logged again while the game stays; and whenever a rate was measured there is such a
    line in this or an earlier round of the same stay of the game. *)
Theorem first_rates_logged_once {W} `{Controller W} n (w : W) rs wk w' :
  rounds n Worker_init w = (rs, wk, w') ->
  (forall i r g c v b, rs !! i = Some r -> FirstFpsRecord g c v b ∈ r_records r ->
    r_game r = Some g /\ i_measured (r_input r) = Some v /\
    (from_videoout b = true <-> i_source (r_input r) = VideoOut)) /\
  (forall video g i j, (i < j)%nat -> first_logged rs video g i -> first_logged rs video g j ->
    ~ stretch rs g i j) /\
  (forall j r v, rs !! j = Some r -> i_measured (r_input r) = Some v -> exists g, r_game r = Some g /\
    (0 <= g -> exists i, (i <= j)%nat /\ stretch rs g i (S j) /\
      first_logged rs (match i_source (r_input r) with VideoOut => true | _ => false end) g i)).
Proof.
  intros E. pose proof (rounds_logged n [] Worker_init w logged_init) as Hl. rewrite E in Hl. cbn in Hl. clear E.
  split_and!.
  - intros i r g c v b Hr Hin. destruct (logged_at _ _ _ _ Hl Hr) as (wk1 & wk2 & H1 & H2 & _).
    pose proof (ls_first _ _ _ H2 g c v b (logged_sampler _ _ H1) Hin). tauto.
  - intros video g i j Hij Hi (r & c & v & b & Hr & Hin & Hb) Hst.
    destruct (logged_at _ _ _ _ Hl Hr) as (wk1 & wk2 & H1 & H2 & _).
    destruct (ls_first _ _ _ H2 g c v b (logged_sampler _ _ H1) Hin) as (Hg & _ & _ & Hk & _).
    apply lookup_lt_Some in Hr as Hlt. assert (length (take j rs) = j) as Hlen by (rewrite length_take; lia).
    destruct (reported_since _ _ video g i H1) as [Hrep Hpid].
    + destruct Hi as (q & ? & ? & ? & Hq & Hrest). exists q. do 3 eexists. split; [by rewrite lookup_take_lt|exact Hrest].
    + rewrite Hlen. intros k Hkk. unfold game_at. rewrite lookup_take_lt by lia. apply Hst. lia.
    + apply Hk. rewrite Hg, Hb, kept_same by done. exact Hrep.
  - intros j r v Hr Hv. destruct (logged_at _ _ _ _ Hl Hr) as (wk1 & wk2 & H1 & H2 & H3).
    destruct (ls_measured _ _ _ H2 v Hv (logged_sampler _ _ H1)) as (g & Hg & Hrep).
    exists g. split; [done|]. intros Hpos.
    destruct (reported_logged _ _ _ g H3 Hpos Hrep (game_pid _ _ _ _ H2 Hg)) as (i & (q & c & v' & b & Hq & Hrest) & Hst).
    apply lookup_lt_Some in Hr as Hlt. assert (length (take (S j) rs) = S j) as Hlen by (rewrite length_take; lia).
    apply lookup_lt_Some in Hq as Hlt'. rewrite Hlen in Hlt', Hst. exists i. split_and!; [lia| |].
    + intros k Hk. specialize (Hst k Hk). unfold game_at in *. by rewrite lookup_take_lt in Hst by lia.
    + exists q, c, v', b. split; [|done]. by rewrite lookup_take_lt in Hq by lia.
Qed.

(** ** A console without VideoOut

    The scan finds no counter and the shared sample gives 59.6 frames per second. *)
Definition hen_sample : list Z :=
  le_encode 4 kSharedFpsMagic ++ repeat 0 8 ++ [1; 0; 0; 0] ++ le_encode 4 0x426e6666.
Definition hen_device (u : unit) (c : dce_call) : dce_ret c * unit :=
  match c as c return dce_ret c * unit with
  | DOpen SharedFpsSample => (7, u)
  | DOpen _ => (-1, u)
  | DRead _ => (Some hen_sample, u)
  | DClose _ => (tt, u)
  | DIoctl _ _ _ _ => ((-1, []), u)
  | DGetAuth => (0, u)
  | DSetAuth _ => (-1, u)
  | DMonotonic => (0, u)
  end.
Definition HenController : Controller SimWorld := {|
  observe_shellui w := (55, w);
  run_dce A p w := ((run hen_device p tt).1.1, w);
  run_net A p w := ((run sim_net p tt).1.1, w);
  ensure_shellui_renderer w := (true, w);
  stored_config w := (default_config, w)
|}.
Definition hen_rounds := @rounds SimWorld SimPlatform HenController 66 Worker_init sim_other.
Lemma hen_parts : @rounds SimWorld SimPlatform HenController 66 Worker_init sim_other =
  (hen_rounds.1.1, hen_rounds.1.2, hen_rounds.2).
Proof. unfold hen_rounds. by destruct (@rounds _ _ _ _ _ _) as [[rs wk] w]. Qed.

(** A quiet minute: game 7 in every round, one round a second, the standby never ends. *)
Definition calm (rs : list Round) (k : nat) : bool :=
  match rs !! k with
  | Some r => bool_decide (r_game r = Some 7) && (r_now r =? 5000000 + Z.of_nat k * 1000000) &&
              forallb (fun e => negb (leaves e)) (r_records r)
  | None => false
  end.

Lemma calm_at rs k r : calm rs k = true -> rs !! k = Some r ->
  game_at rs 7 k /\ r_now r = 5000000 + Z.of_nat k * 1000000 /\ Forall (fun e => leaves e = false) (r_records r).
Proof.
  intros Hc Hr. unfold calm, game_at in *. rewrite Hr in *.
  rewrite !andb_true_iff, bool_decide_eq_true, Z.eqb_eq in Hc. destruct Hc as [[Hg Hn] Hf].
  split_and!; [cbn; by rewrite Hg|done|]. rewrite forallb_forall in Hf.
  apply Forall_forall. intros e He%list_elem_of_In. apply Hf in He. by destruct (leaves e).
Qed.

Lemma calm_clock rs : (length rs <= 100)%nat -> forallb (calm rs) (seq 0 (length rs)) = true -> Forall clock_ok rs.
Proof.
  intros Hl Hc. apply Forall_lookup. intros k r Hr. apply lookup_lt_Some in Hr as Hlt.
  rewrite forallb_forall in Hc. assert (calm rs k = true) as Hk by (apply Hc, in_seq; lia).
  destruct (calm_at _ _ _ Hk Hr) as (_ & Hn & _).
  unfold clock_ok, kDceVideoOutStandbyUs. rewrite Hn. lia.
Qed.

Lemma calm_stretch rs i j :
  (j <= length rs)%nat -> forallb (calm rs) (seq 0 (length rs)) = true ->
  stretch rs 7 i j /\ held_until rs i j.
Proof.
  intros Hj Hc. rewrite forallb_forall in Hc. split.
  - intros k Hk. destruct (lookup_lt_is_Some_2 rs k) as [r Hr]; [lia|].
    eapply calm_at; [|exact Hr]. apply Hc, in_seq. lia.
  - intros k r Hk Hr. eapply calm_at; [|exact Hr]. apply Hc, in_seq. lia.
Qed.

Definition hen_round (k : nat) : Round := nth k hen_rounds.1.1 no_round.

Lemma hen_calm : forallb (calm hen_rounds.1.1) (seq 0 (length hen_rounds.1.1)) = true.
Proof. vm_compute. reflexivity. Qed.
Lemma hen_length : length hen_rounds.1.1 = 66%nat.
Proof. vm_compute. reflexivity. Qed.
Lemma hen_round2 : hen_rounds.1.1 !! 2%nat = Some (hen_round 2).
Proof. vm_compute. reflexivity. Qed.
Lemma hen_round62 : hen_rounds.1.1 !! 62%nat = Some (hen_round 62).
Proof. vm_compute. reflexivity. Qed.

Lemma standby_probes_spaced_witness :
  r_probe (hen_round 62) = Some false /\ r_now (hen_round 62) = 67000000 /\
  7000000 + 60000000 <= r_now (hen_round 62).
Proof.
  assert (r_probe (hen_round 62) = Some false) as Hp by (vm_compute; reflexivity).
  split; [exact Hp|]. split; [vm_compute; reflexivity|].
  apply (@standby_probes_spaced SimWorld SimPlatform HenController 66 sim_other _ _ _ 7 2 62 (hen_round 62) 2
    7000000 hen_parts).
  - apply calm_clock; [rewrite hen_length; lia|exact hen_calm].
  - exists (hen_round 2). split; [exact hen_round2|]. split; [vm_compute; reflexivity|].
    vm_compute. constructor. reflexivity.
  - refine (proj1 (calm_stretch _ _ _ _ hen_calm)). rewrite hen_length. lia.
  - refine (proj2 (calm_stretch _ _ _ _ hen_calm)). rewrite hen_length. lia.
  - exact hen_round62.
  - rewrite Hp. by eexists.
  - lia.
  - exists (hen_round 2). split; [exact hen_round2|]. split; [vm_compute; reflexivity|by left].
Defined.

Lemma first_rates_logged_once_witness :
  first_logged hen_rounds.1.1 false 7 2 /\
  forall j, (2 < j)%nat -> first_logged hen_rounds.1.1 false 7 j -> ~ stretch hen_rounds.1.1 7 2 j.
Proof.
  assert (first_logged hen_rounds.1.1 false 7 2) as Hf.
  { exists (hen_round 2), 0, 60, (DceBackend BHenShared). split; [exact hen_round2|]. split; [|reflexivity].
    vm_compute. right. left. }
  split; [exact Hf|]. intros j Hj Hl.
  destruct (@first_rates_logged_once SimWorld SimPlatform HenController 66 sim_other _ _ _ hen_parts)
    as (_ & H & _).
  exact (H false 7 2%nat j Hj Hf Hl).
Defined.
