(* ===== verification/ControllerStart.v ===== *)
(** The start of the controller, [run_tracked_worker] of [src/ps5/commonfps_ps5_main.cpp]
    up to its loop, as a program over the calls of the parts it uses, and the lines it and
    the loop append to the controller's log. *)
From S2P Require Import Prelude Effects Text Config FileIo Settings KernelCalls Debugger.
From S2P Require Import HookProtocol ProcRw ProcRecords ConsolePlatform MediaLauncher SettingsService.
From S2P Require Import DceAdapter Worker.

(** ** Log lines *)

Definition kControllerLogPath : text := str "/data/CommonFPS.log".
Definition kRendererLogPath : text := str "/data/CommonFPS_shellui.log".
Definition kPayloadProcessName : text := str "CommonFPS.elf".

(** [%x] and [%08x] *)
Definition lower_hex_char (d : Z) : ascii := if d <? 10 then chr (48 + d) else chr (87 + d).
Fixpoint hex_digits (n : nat) (z : Z) : text :=
  match n with O => [] | S n' => hex_digits n' (z / 16) ++ [lower_hex_char (z mod 16)] end.
Definition hex (z : Z) : text := hex_digits (ndigits 15 16 z) z.
Definition hex8 (z : Z) : text := hex_digits 8 z.

Definition state_text (e : PolicyEvent) : text :=
  match e with
  | VideoOutResumed => str "videoout-resumed"
  | DceStandby => str "dce-standby"
  | DceMissWake => str "dce-miss-wake"
  end.
Definition backend_text (b : RecordBackend) : text :=
  match b with
  | VideoOutProcess => str "videoout-process"
  | DceBackend BNone => str "none"
  | DceBackend BHenShared => str "hen-shared"
  | DceBackend BDceFixed => str "dce-fixed"
  | DceBackend BDceAdaptive => str "dce-adaptive"
  end.

(** [append_sampler_policy_record] and [append_first_fps_record]: what [snprintf] formats,
    and the size of its buffer. *)
Definition record_text (e : SamplerRecord) : text :=
  match e with
  | PolicyRecord pid state backend retry_after_us =>
      str "Sampler policy pid=" ++ dec pid ++ str " state=" ++ state_text state ++
      str " backend=" ++ backend_text backend ++
      str " videoout_retry_after_ms=" ++ dec (retry_after_us / 1000) ++ [nl]
  | FirstFpsRecord pid counter fps backend =>
      str "Sampler online pid=" ++ dec pid ++ str " backend=" ++ backend_text backend ++
      str " counter=0x" ++ hex counter ++ str " first_fps=" ++ dec fps ++
      str " event_log=once_per_backend_per_game_pid log_fd=closing" ++ [nl]
  end.
Definition record_buffer (e : SamplerRecord) : nat :=
  match e with PolicyRecord _ _ _ _ => 320 | FirstFpsRecord _ _ _ _ => 256 end.

(** [set_payload_identity]: codes and [errno] of the two calls. *)
Record PayloadIdentityResult := {
  process_name_rc : Z; process_name_errno : Z; thread_name_rc : Z; thread_name_errno : Z
}.

Definition ready_text (sdk pid ppid errno : Z) (first : Lookup) (identity : PayloadIdentityResult) : text :=
  str "Common FPS for PS5 v1.2.3" ++ [nl] ++
  str "sdk=0x" ++ hex8 sdk ++
  str " fps_limit=120 log_limit=65536 log_reset=activation fw1160_guard=ptrace_vm_protection_1byte" ++ [nl] ++
  str "ui_font=22 ui_bottom_margin=4 fps_display_filter=startup5s_median3_up3" ++ [nl] ++
  str "Mode=loader-tracked internal_fork=absent spawned_pid=resident shellui_observation=sysctl_tdname_1s stability_gate=10 game_gate=process_present_stable_3s renderer_injection=deferred_until_game renderer=shared_elf_stopped_chain_hook method_writes=controller_only injection=target_stack_pthread ipc=udp_loopback_1s mono_gc=pinned sampler=videoout_preferred+dce_auth_adaptive standby=60s_reprobe read=mdbg+dce_ioctl highfw_guard=firmware_routed_1byte shutdown_trace=disabled shutdown_writes=disabled signal_handlers=default stop_path=disabled" ++ [nl] ++
  str "Worker ready pid=" ++ dec pid ++ str " ppid=" ++ dec ppid ++
  str " first_shellui_pid=" ++ dec (lk_pid first) ++
  str " size_rc=" ++ dec (lk_size_query_rc first) ++ str " data_rc=" ++ dec (lk_data_query_rc first) ++
  str " errno=" ++ dec errno ++ str " bytes=" ++ dec (lk_bytes first) ++
  str " records=" ++ dec (lk_records first) ++ str " malformed=" ++ dec (lk_malformed first) ++
  str " process_name=" ++ kPayloadProcessName ++
  str " process_name_rc=" ++ dec (process_name_rc identity) ++
  str " process_name_errno=" ++ dec (process_name_errno identity) ++
  str " thread_name_rc=" ++ dec (thread_name_rc identity) ++
  str " thread_name_errno=" ++ dec (thread_name_errno identity) ++
  str " log_fd=closing periodic_log=disabled platform_log=enabled" ++ [nl].

(** What a record function appends: the output of [snprintf] into [size] bytes. *)
Definition append_record (fuel size : nat) (formatted : text) : fprog (option unit) :=
  if (0 <? length formatted)%nat
  then write_session_log fuel kControllerLogPath (take (size - 1) formatted) false false
  else Ret (Some tt).
Definition append_sampler_record (fuel : nat) (e : SamplerRecord) : fprog (option unit) :=
  append_record fuel (record_buffer e) (record_text e).
Definition write_worker_ready_record (fuel : nat) (sdk pid ppid errno : Z) (first : Lookup)
    (identity : PayloadIdentityResult) : fprog (option unit) :=
  append_record fuel 2048 (ready_text sdk pid ppid errno first identity).

Lemma ndigits_bound fuel base z : (1 <= ndigits fuel base z <= S fuel)%nat.
Proof.
  revert z. induction fuel as [|fuel IH]; intros z; cbn; [lia|]. destruct (z <? base); [lia|].
  specialize (IH (z / base)). lia.
Qed.

Lemma length_dec z : (length (dec z) <= 22)%nat.
Proof.
  unfold dec. pose proof (ndigits_bound 20 10 z). pose proof (ndigits_bound 20 10 (- z)).
  destruct (z <? 0); rewrite ?length_app, !length_digits_of; change (length (str "-")) with 1%nat; lia.
Qed.

Lemma length_hex_digits n z : length (hex_digits n z) = n.
Proof. revert z. induction n as [|n IH]; intros z; cbn; [done|]. rewrite length_app, IH. cbn. lia. Qed.
Lemma length_hex z : (length (hex z) <= 16)%nat.
Proof. unfold hex. rewrite length_hex_digits. pose proof (ndigits_bound 15 16 z). lia. Qed.

(** A formatted line: everything up to its end is printable. *)
Definition no_newline (s : text) : Prop := Forall (fun c => c <> nl) s.

Lemma no_newline_app s t : no_newline (s ++ t) <-> no_newline s /\ no_newline t.
Proof. apply Forall_app. Qed.
Lemma no_newline_str s : forallb (fun c => negb (bool_decide (c = nl))) (str s) = true -> no_newline (str s).
Proof.
  intros H. apply Forall_forall. intros c Hc%list_elem_of_In. rewrite forallb_forall in H. apply H in Hc.
  apply negb_true_iff, bool_decide_eq_false in Hc. done.
Qed.
Lemma no_newline_digits base n z : 1 < base <= 16 -> no_newline (digits_of base n z).
Proof.
  intros Hb. eapply Forall_impl; [by apply digits_of_Forall|]. intros c Hc ->. by vm_compute in Hc.
Qed.
Lemma no_newline_dec z : no_newline (dec z).
Proof.
  unfold dec. destruct (z <? 0); [apply no_newline_app; split|]; try (by apply no_newline_digits).
  by apply no_newline_str.
Qed.
Lemma no_newline_hex_digits n z : no_newline (hex_digits n z).
Proof.
  revert z. induction n as [|n IH]; intros z; cbn; [constructor|]. apply no_newline_app. split; [apply IH|].
  constructor; [|constructor]. pose proof (Z.mod_pos_bound z 16 ltac:(lia)) as Hm. unfold lower_hex_char.
  destruct (z mod 16 <? 10) eqn:E; breflect; intros Hc; apply (f_equal code) in Hc;
    rewrite code_chr in Hc by lia; change (code nl) with 10 in Hc; lia.
Qed.

Create HintDb newline.
#[local] Hint Resolve no_newline_dec no_newline_hex_digits : newline.

Ltac line :=
  unfold hex, hex8; repeat (apply no_newline_app; split); auto with newline; by apply no_newline_str.

(** No line of the controller's log is ever cut.  Whatever the numbers are, the
    formatted sampler records fit their buffers of 320 and 256 bytes and the ready record
    fits its 2048, so that exactly the formatted text is appended; and a sampler record is
    one line: it ends with its only newline. *)
Theorem records_whole fuel :
  (forall e, (exists line, record_text e = line ++ [nl] /\ no_newline line) /\
    append_sampler_record fuel e = write_session_log fuel kControllerLogPath (record_text e) false false) /\
  forall sdk pid ppid errno first identity,
    write_worker_ready_record fuel sdk pid ppid errno first identity =
    write_session_log fuel kControllerLogPath (ready_text sdk pid ppid errno first identity) false false.
Proof.
  assert (forall size s, (0 < length s < size)%nat ->
    append_record fuel size s = write_session_log fuel kControllerLogPath s false false) as Happ.
  { intros size s Hs. unfold append_record. rewrite (proj2 (Nat.ltb_lt _ _)) by lia. by rewrite take_ge by lia. }
  split.
  - intros e. split.
    + destruct e as [pid state backend retry|pid counter fps backend]; cbn [record_text].
      * eexists. rewrite !app_assoc. split; [reflexivity|]. repeat rewrite <- app_assoc.
        destruct state, backend as [|[]]; cbn [state_text backend_text]; line.
      * eexists. rewrite !app_assoc. split; [reflexivity|]. repeat rewrite <- app_assoc.
        destruct backend as [|[]]; cbn [backend_text]; line.
    + apply Happ. destruct e as [pid state backend retry|pid counter fps backend]; cbn [record_text record_buffer];
        rewrite !length_app.
      * pose proof (length_dec pid). pose proof (length_dec (retry / 1000)).
        assert (length (state_text state) <= 20)%nat by (destruct state; cbn; lia).
        assert (length (backend_text backend) <= 20)%nat by (destruct backend as [|[]]; cbn; lia).
        cbn [length str String.list_ascii_of_string]. lia.
      * pose proof (length_dec pid). pose proof (length_dec fps). pose proof (length_hex counter).
        assert (length (backend_text backend) <= 20)%nat by (destruct backend as [|[]]; cbn; lia).
        cbn [length str String.list_ascii_of_string]. lia.
  - intros. apply Happ. unfold ready_text, hex8. rewrite !length_app, length_hex_digits.
    repeat match goal with |- context [length (dec ?z)] =>
      let n := fresh "n" in pose proof (length_dec z); set (n := length (dec z)) in *; clearbody n end.
    cbn [length str String.list_ascii_of_string kPayloadProcessName]. lia.
Qed.

Example record_sample :
  record_text (FirstFpsRecord 71 0x9000abc8 60 VideoOutProcess) =
  str "Sampler online pid=71 backend=videoout-process counter=0x9000abc8 first_fps=60 event_log=once_per_backend_per_game_pid log_fd=closing" ++ [nl].
Proof. reflexivity. Qed.

(** ** The start *)

Inductive scall :=
| SSetName (name : text) | SThreadName (name : text)   (** code and [errno] *)
| SGetppid | SErrno                                    (** [errno] as the last call left it *)
| SMkdir
| SFile (c : fio) | SKernel (c : kcall) | SLauncher (c : lcall) | SService (c : vcall).

Definition sret (c : scall) : Type :=
  match c with
  | SSetName _ | SThreadName _ => Z * Z
  | SFile c => fio_ret c
  | SKernel c => kret c
  | SLauncher c => lret c
  | SService c => vret c
  | _ => Z
  end.
Abbreviation sprog := (prog sret).
Definition sc (c : scall) : sprog (sret c) := call c.

(** A program over the calls of one part. *)
Section Embed.
Context {E : Type} {R : E -> Type} (inj : E -> scall) (answer : forall c, sret (inj c) -> R c).
Fixpoint embed {A} (p : prog (E := E) R A) : sprog A :=
  match p with
  | Ret a => Ret a
  | Call c k => Call (inj c) (fun r => embed (k (answer c r)))
  end.
End Embed.
Definition files {A} (p : fprog A) : sprog A := embed (R := fio_ret) SFile (fun _ r => r) p.
Definition kernel {A} (p : kprog A) : sprog A := embed (R := kret) SKernel (fun _ r => r) p.
Definition launcher {A} (p : lprog A) : sprog A := embed (R := lret) SLauncher (fun _ r => r) p.
Definition service {A} (p : vprog A) : sprog A := embed (R := vret) SService (fun _ r => r) p.

Definition kSettingsPath : text := str "/data/CommonFPS/config.ini".
Definition fw1160_line : text :=
  str "fw1160_runtime=experimental_full_counter sampler=enabled renderer=deferred_until_stable_game hardware_validation=rc9_user_confirmed fw1160_code_read=ptrace_then_checked_mdbg_on_efault".
Definition quarantine_line : text :=
  str "Media launcher credential restoration failed; sampler quarantined".
Definition no_listener_line : text :=
  str "Settings listener unavailable; saved overlay settings remain active".

(** How the start ends: in the endless sleep, or in front of the loop with the store. *)
Inductive Started := Quarantined | Running (settings : SettingsStore).

Section Programs.
Local Open Scope prog_scope.
Context (settings_param settings_icon : text) (fuel : nat).

Definition if_some {A B} (p : sprog (option A)) (f : A -> sprog (option B)) : sprog (option B) :=
  let* r := p in match r with Some a => f a | None => Ret None end.

Definition error_left (rc errno : Z) : Z := if rc =? 0 then 0 else errno.
Definition set_payload_identity : sprog PayloadIdentityResult :=
  let* (rc1, errno1) := sc (SSetName kPayloadProcessName) in
  let* (rc2, errno2) := sc (SThreadName kPayloadProcessName) in
  Ret {| process_name_rc := rc1; process_name_errno := error_left rc1 errno1;
         thread_name_rc := rc2; thread_name_errno := error_left rc2 errno2 |}.

Definition log_durable (line : text) : sprog (option unit) :=
  files (log_message_v fuel kControllerLogPath (Some line) true).

(** [for (;;) platform.sleep_ms(1000)], for [n] rounds. *)
Fixpoint quarantine (n : nat) : sprog unit :=
  match n with O => Ret tt | S n' => kernel (ps5_sleep_ms 1000) ;;; quarantine n' end.

(** From the identity to the line on the firmware. *)
Definition announce : sprog (option unit) :=
  let* identity := set_payload_identity in
  if_some (kernel observe_shellui_once) (fun first =>
    let* errno := (match lk_errno first with Some e => Ret e | None => sc SErrno end) in
    let* sdk := kernel firmware_sdk_version in
    let* pid := kernel (kc Getpid) in
    let* ppid := sc SGetppid in
    if_some (files (write_worker_ready_record fuel sdk pid ppid errno first identity)) (fun _ =>
      let* sdk := kernel firmware_sdk_version in
      if firmware_is_fw1160 sdk then log_durable fw1160_line else Ret (Some tt))).

(** From the settings to the loop. *)
Definition start_parts (rounds : nat) : sprog (option Started) :=
  sc SMkdir ;;;
  let* settings := files (open_store kSettingsPath) in
  let* sdk := kernel firmware_sdk_version in
  if_some (launcher (ensure_media_launcher settings_param settings_icon fuel sdk)) (fun ok =>
    if ok : bool then
      let* listening := service start_settings_service in
      if listening : bool then Ret (Some (Running settings))
      else if_some (log_durable no_listener_line) (fun _ => Ret (Some (Running settings)))
    else if_some (log_durable quarantine_line) (fun _ => quarantine rounds ;;; Ret (Some Quarantined))).

Definition run_tracked_worker (rounds : nat) : sprog (option Started) :=
  if_some (files (reset_session_log fuel kControllerLogPath)) (fun _ =>
    if_some (files (reset_session_log fuel kRendererLogPath)) (fun _ =>
      if_some announce (fun _ => start_parts rounds))).
End Programs.

(** ** Traces of the start *)

(** The launcher's and the settings service's part of a trace. *)
Definition launched (t : list (event sret)) : list (event lret) :=
  omap (fun '(Ev c r) => match c as c return sret c -> option (event lret) with
                         | SLauncher c' => fun r => Some (Ev c' r)
                         | _ => fun _ => None
                         end r) t.
Definition served (t : list (event sret)) : list (event vret) :=
  omap (fun '(Ev c r) => match c as c return sret c -> option (event vret) with
                         | SService c' => fun r => Some (Ev c' r)
                         | _ => fun _ => None
                         end r) t.

Definition on_files (c : scall) : Prop := match c with SFile _ => True | _ => False end.
(** Neither the launcher nor the service. *)
Definition plain_call (c : scall) : Prop := match c with SLauncher _ | SService _ => False | _ => True end.
(** What a quarantined controller still does. *)
Definition waiting (c : scall) : Prop :=
  match c with SFile _ => True | SKernel (Usleep us) => us = 1000000 | _ => False end.
Definition all_calls (P : scall -> Prop) (t : list (event sret)) : Prop := Forall (fun '(Ev c _) => P c) t.

Lemma launched_app t1 t2 : launched (t1 ++ t2) = launched t1 ++ launched t2.
Proof. apply omap_app. Qed.
Lemma served_app t1 t2 : served (t1 ++ t2) = served t1 ++ served t2.
Proof. apply omap_app. Qed.

Lemma all_calls_app P t1 t2 : all_calls P (t1 ++ t2) <-> all_calls P t1 /\ all_calls P t2.
Proof. apply Forall_app. Qed.
Lemma all_calls_weaken (P Q : scall -> Prop) t : (forall c, P c -> Q c) -> all_calls P t -> all_calls Q t.
Proof. intros HPQ Ht. eapply Forall_impl; [exact Ht|]. intros [c r]. apply HPQ. Qed.

Lemma plain_parts t : all_calls plain_call t -> launched t = [] /\ served t = [].
Proof.
  induction 1 as [|[c r] t Hc _ [IH1 IH2]]; [done|]. destruct c; try done; cbn; by rewrite IH1, IH2.
Qed.

Lemma exec_calls P {A} (p : sprog A) t a : calls P p -> exec p t a -> all_calls P t.
Proof.
  revert t. induction p as [x|c k IH]; intros t Hc; cbn.
  - intros [-> _]. constructor.
  - destruct Hc as [Hc Hk]. intros (r & t' & -> & He). constructor; [exact Hc|]. by apply (IH r).
Qed.

Lemma calls_files P {A} (p : fprog A) : (forall c, P (SFile c)) -> calls P (files p).
Proof. intros HP. induction p as [x|c k IH]; [exact I|]. split; [apply HP|]. exact IH. Qed.
Lemma calls_kernel P {A} (p : kprog A) : (forall c, P (SKernel c)) -> calls P (kernel p).
Proof. intros HP. induction p as [x|c k IH]; [exact I|]. split; [apply HP|]. exact IH. Qed.

Lemma exec_launcher {A} (p : lprog A) t a :
  exec (launcher p) t a -> exec p (launched t) a /\ served t = [].
Proof.
  revert t. induction p as [x|c k IH]; intros t; cbn.
  - intros [-> ->]. done.
  - intros (r & t' & -> & He). apply IH in He as [He Hs]. split; [|exact Hs]. by exists r, (launched t').
Qed.
Lemma exec_service {A} (p : vprog A) t a :
  exec (service p) t a -> exec p (served t) a /\ launched t = [].
Proof.
  revert t. induction p as [x|c k IH]; intros t; cbn.
  - intros [-> ->]. done.
  - intros (r & t' & -> & He). apply IH in He as [He Hs]. split; [|exact Hs]. by exists r, (served t').
Qed.

Lemma exec_if_some {A B} (p : sprog (option A)) (f : A -> sprog (option B)) t b :
  exec (if_some p f) t (Some b) -> exists t1 t2 a, t = t1 ++ t2 /\ exec p t1 (Some a) /\ exec (f a) t2 (Some b).
Proof.
  intros (t1 & t2 & [a|] & -> & H1 & H2)%exec_bind; [by exists t1, t2, a|]. by destruct H2.
Qed.

Lemma calls_if_some P {A B} (p : sprog (option A)) (f : A -> sprog (option B)) :
  calls P p -> (forall a, calls P (f a)) -> calls P (if_some p f).
Proof. intros Hp Hf. apply calls_bind; [exact Hp|]. intros [a|]; [apply Hf|exact I]. Qed.

Lemma quarantine_waits n : calls waiting (quarantine n).
Proof. induction n as [|n IH]; [exact I|]. split; [reflexivity|]. intros r. exact IH. Qed.

(** The announcement starts with the two names and touches neither launcher nor service. *)
Lemma announce_trace fuel t r :
  exec (announce fuel) t r ->
  exists r1 r2 t', t = Ev (SSetName kPayloadProcessName) r1 :: Ev (SThreadName kPayloadProcessName) r2 :: t' /\
    all_calls plain_call t'.
Proof.
  intros He. destruct He as ([rc1 e1] & t0 & -> & [rc2 e2] & t' & -> & He).
  exists (rc1, e1), (rc2, e2), t'. split; [done|]. eapply exec_calls; [|exact He].
  cbn [bindp]. apply calls_if_some; [by apply calls_kernel|]. intros first.
  apply calls_bind; [by destruct (lk_errno first)|]. intros errno.
  apply calls_bind; [by apply calls_kernel|]. intros sdk. apply calls_bind; [by apply calls_kernel|]. intros pid.
  split; [exact I|]. intros ppid. apply calls_if_some; [by apply calls_files|]. intros _.
  apply calls_bind; [by apply calls_kernel|]. intros sdk'. destruct (firmware_is_fw1160 sdk'); [|exact I].
  by apply calls_files.
Qed.

Lemma on_files_plain c : on_files c -> plain_call c.
Proof. by destruct c. Qed.
Lemma on_files_waiting c : on_files c -> waiting c.
Proof. by destruct c. Qed.
Lemma waiting_plain c : waiting c -> plain_call c.
Proof. by destruct c. Qed.

Lemma files_trace {A} (p : fprog A) t r : exec (files p) t r -> all_calls on_files t.
Proof. apply exec_calls. by apply calls_files. Qed.
Lemma kernel_trace {A} (p : kprog A) t r : exec (kernel p) t r -> all_calls plain_call t.
Proof. apply exec_calls. by apply calls_kernel. Qed.
Lemma files_plain {A} (p : fprog A) t r : exec (files p) t r -> all_calls plain_call t.
Proof. intros He%files_trace. exact (all_calls_weaken _ _ _ on_files_plain He). Qed.

(** What happens in front of the launcher, the launcher, and what follows. *)
Section Parts.
Context (settings_param settings_icon : text) (fuel rounds : nat).

Definition after_launcher (store : SettingsStore) (ok : bool) : sprog (option Started) :=
  if ok then
    (let* listening := service start_settings_service in
     if listening : bool then Ret (Some (Running store))
     else if_some (log_durable fuel no_listener_line) (fun _ => Ret (Some (Running store))))%prog
  else if_some (log_durable fuel quarantine_line)
         (fun _ => (quarantine rounds ;;; Ret (Some Quarantined))%prog).

Lemma after_launcher_trace store ok t out :
  exec (after_launcher store ok) t (Some out) ->
  launched t = [] /\
  match out with
  | Running _ => ok = true /\ exists listening, exec start_settings_service (served t) listening
  | Quarantined => ok = false /\ served t = [] /\ all_calls waiting t
  end.
Proof.
  unfold after_launcher. destruct ok; intros He.
  - apply exec_bind in He as (t8 & t9 & listening & -> & [H8 Hl8]%exec_service & H9).
    assert (all_calls plain_call t9 /\ out = Running store) as [Hp9 ->].
    { destruct listening; [destruct H9 as [-> [= ->]]; split; [constructor|reflexivity]|].
      apply exec_if_some in H9 as (ta & tb & ? & -> & Ha%files_plain & [-> [= ->]]).
      rewrite app_nil_r. split; [exact Ha|reflexivity]. }
    apply plain_parts in Hp9 as [Hl9 Hs9]. rewrite launched_app, served_app, Hl8, Hl9, Hs9, (app_nil_r (served t8)).
    split; [reflexivity|]. split; [reflexivity|]. exists listening. exact H8.
  - apply exec_if_some in He as (t8 & t9 & ? & -> & H8%files_trace & H9).
    apply exec_bind in H9 as (ta & tb & ? & -> & Ha & [-> [= ->]]). rewrite app_nil_r.
    assert (all_calls waiting (t8 ++ ta)) as Hw.
    { apply all_calls_app. split; [exact (all_calls_weaken _ _ _ on_files_waiting H8)|].
      exact (exec_calls _ _ _ _ (quarantine_waits rounds) Ha). }
    destruct (plain_parts _ (all_calls_weaken _ _ _ waiting_plain Hw)) as [Hl Hs].
    split; [exact Hl|]. split; [reflexivity|]. split; [exact Hs|exact Hw].
Qed.

Lemma start_parts_trace t out :
  exec (start_parts settings_param settings_icon fuel rounds) t (Some out) ->
  exists sdk ok store a b c, t = a ++ b ++ c /\ all_calls plain_call a /\ served b = [] /\
    exec (ensure_media_launcher settings_param settings_icon fuel sdk) (launched b) (Some ok) /\
    exec (after_launcher store ok) c (Some out).
Proof.
  intros (rm & ? & -> & He). cbn [bindp] in He.
  apply exec_bind in He as (t5 & ? & store & -> & H5%files_plain & He).
  apply exec_bind in He as (t6 & ? & sdk & -> & H6%kernel_trace & He).
  apply exec_if_some in He as (t7 & b & ok & -> & [H7 Hs7]%exec_launcher & He).
  exists sdk, ok, store, (Ev SMkdir rm :: t5 ++ t6), t7, b. split; [cbn; by rewrite <- app_assoc|].
  split; [|split; [exact Hs7|split; [exact H7|exact He]]].
  constructor; [exact I|]. apply all_calls_app. split; [exact H5|exact H6].
Qed.
End Parts.

(** C24: nothing of the controller runs with the installer's authority, and nothing runs
    after it could not be given back.  On every execution of the start, the process and its
    thread are named before anything but the log files is touched; then the media launcher
    runs, as its own program, before any call of the settings service.  The controller goes
    on to the service - whose start is its own program - and to its loop exactly when the
    launcher ended with its authority untouched or read back as it was; otherwise it makes
    no call of the service and from then on only writes its log and sleeps. *)
Theorem controller_start settings_param settings_icon fuel rounds t out :
  exec (run_tracked_worker settings_param settings_icon fuel rounds) t (Some out) ->
  (exists t0 r1 r2 t', all_calls on_files t0 /\
    t = t0 ++ Ev (SSetName kPayloadProcessName) r1 :: Ev (SThreadName kPayloadProcessName) r2 :: t') /\
  exists sdk ok m a b, t = a ++ b /\ served a = [] /\ launched b = [] /\
    exec (ensure_media_launcher settings_param settings_icon fuel sdk) (launched t) (Some ok) /\
    monitor (launch_step settings_param) Launch_init (launched t) = Some m /\
    (match lm_phase m with LStart | LKnown _ => ok = true | LBack restored => ok = restored | _ => False end) /\
    match out with
    | Running _ => ok = true /\ exists listening, exec start_settings_service (served t) listening
    | Quarantined => ok = false /\ served t = [] /\ all_calls waiting b
    end.
Proof.
  intros (t1 & s1 & ? & Ht & H1 & (t2 & s2 & ? & -> & H2 & (t3 & s3 & ? & -> & H3 & H4)%exec_if_some)%exec_if_some)%exec_if_some.
  apply files_trace in H1, H2. apply announce_trace in H3 as (r1 & r2 & t' & -> & H3).
  apply start_parts_trace in H4 as (sdk & ok & store & a & b & c & -> & Ha & Hb & Hl & Hc).
  apply after_launcher_trace in Hc as [Hlc Hout]. split.
  { exists (t1 ++ t2), r1, r2, (t' ++ a ++ b ++ c). split; [apply all_calls_app; split; [exact H1|exact H2]|].
    rewrite Ht, <- app_assoc. reflexivity. }
  set (front := t1 ++ t2 ++ (Ev (SSetName kPayloadProcessName) r1 ::
    Ev (SThreadName kPayloadProcessName) r2 :: t') ++ a).
  assert (t = (front ++ b) ++ c) as Hsplit by (rewrite Ht; unfold front; rewrite <- !app_assoc; reflexivity).
  assert (all_calls plain_call front) as Hfront.
  { unfold front. rewrite !all_calls_app.
    split; [exact (all_calls_weaken _ _ _ on_files_plain H1)|].
    split; [exact (all_calls_weaken _ _ _ on_files_plain H2)|]. split; [|exact Ha].
    constructor; [exact I|]. constructor; [exact I|exact H3]. }
  apply plain_parts in Hfront as [Hlf Hsf].
  assert (launched t = launched b /\ served t = served c) as [Hlt Hst].
  { rewrite Hsplit, !launched_app, !served_app, Hlf, Hsf, Hb, Hlc, app_nil_r. split; reflexivity. }
  destruct (wp_sound _ _ _ _ (wp_launcher settings_param settings_icon fuel sdk) _ _ Hl) as (m & Hm & Hend).
  exists sdk, ok, m, (front ++ b), c. rewrite Hlt, Hst, served_app, Hsf, Hb.
  split_and!; [exact Hsplit|reflexivity|exact Hlc|exact Hl|exact Hm|exact Hend|exact Hout].
Qed.

(** ** Runs *)

(** A console on 9.60 whose state is the authority; [restores]: the kernel takes the old
    authority back. *)
Definition sample_console (restores : bool) (u : Z) (c : scall) : sret c * Z :=
  match c as c return sret c * Z with
  | SSetName _ | SThreadName _ => ((0, 0), u)
  | SGetppid => (1, u) | SErrno => (22, u) | SMkdir => (-1, u)
  | SFile c =>
      (match c as c return fio_ret c with
       | Open _ _ => 3 | Write _ data => (Z.of_nat (length data), 0) | Flock _ _ | Fstat _ => (0, 0)
       | ReadFile _ _ => None | _ => 0
       end, u)
  | SKernel c =>
      (match c as c return kret c with
       | KCopyout _ _ | MdbgCopy _ _ _ => (-1, []) | SysctlSdk | ClockGettime => (0, 4, 0)
       | DlCount _ | SysctlProcSize => (-1, 0) | DlList _ _ | SysctlProc _ => (-1, 0, [])
       | DlInfo _ _ => {| di_rc := -1; di_bytes := [] |}
       | Calloc _ => false | FwVersion => 0x09600000 | _ => 0
       end, u)
  | SLauncher c =>
      match c as c return lret c * Z with
      | LGetAuth => (u, u)
      | LSetAuth v => if restores || (v =? kAppInstallerAuth) then (0, v) else (-1, u)
      | c => ((sample_installer tt c).1, u)
      end
  | SService c =>
      (match c as c return vret c with
       | VAccept | VSend _ _ => (-1, 0) | VRecv _ _ => (-1, 0, []) | VFile c =>
           match c as c return fio_ret c with
           | Write _ _ | Flock _ _ | Fstat _ => (0, 0) | ReadFile _ _ => None | _ => 0 end
       | _ => 0
       end, u)
  end.
Definition sample_start (restores : bool) : option Started * Z * list (event sret) :=
  run (sample_console restores) (run_tracked_worker (str "{}") (str "png") 30 3) 42.

Definition quarantined (o : option Started) : bool :=
  match o with Some Quarantined => true | _ => false end.

Lemma controller_start_witness :
  quarantined (sample_start true).1.1 = false /\ quarantined (sample_start false).1.1 = true /\
  (exists listening, exec start_settings_service (served (sample_start true).2) listening) /\
  served (sample_start false).2 = [] /\
  exists m, monitor (launch_step (str "{}")) Launch_init (launched (sample_start false).2) = Some m /\
    lm_phase m = LBack false.
Proof.
  split; [vm_compute; reflexivity|]. split; [vm_compute; reflexivity|].
  pose proof (run_exec (sample_console true) (run_tracked_worker (str "{}") (str "png") 30 3) 42) as H1.
  pose proof (run_exec (sample_console false) (run_tracked_worker (str "{}") (str "png") 30 3) 42) as H2.
  change (run (sample_console true) _ _) with (sample_start true) in H1.
  change (run (sample_console false) _ _) with (sample_start false) in H2.
  assert (exists store, (sample_start true).1.1 = Some (Running store)) as [store E1]
    by (eexists; vm_compute; reflexivity).
  assert ((sample_start false).1.1 = Some Quarantined) as E2 by (vm_compute; reflexivity).
  rewrite E1 in H1. rewrite E2 in H2.
  destruct (controller_start _ _ _ _ _ _ H1) as (_ & sdk & ok & m & a & b & _ & _ & _ & _ & _ & _ & _ & Hs).
  destruct (controller_start _ _ _ _ _ _ H2) as (_ & sdk2 & ok2 & m2 & a2 & b2 & _ & _ & _ & _ & Hm & Hp & Ho & Hq & _).
  split; [exact Hs|]. split; [exact Hq|]. exists m2. split; [exact Hm|]. rewrite Ho in Hp.
  destruct (lm_phase m2); try discriminate Hp; [| |destruct Hp..|by rewrite Hp]; try contradiction.
Defined.
